(* ===== verification/_CoqProject ===== *)
-Q . S2P
Prelude.v
Packet.v
Connect.v
Publish.v
Subscribe.v
RtxMem.v
RtxList.v
RtxTask.v
RtxCheck.v
RtxSem.v
RtxMutex.v
RtxEvent.v
RtxBox.v
RtxMbx.v
RtxTimer.v
RtxSystem.v
RtxPop.v
RtxRun.v
RtxCmsis.v
RtxThread.v
LwipBase.v
LwipChksum.v
LwipMem.v
LwipAddr.v
LwipTimers.v
PppFrame.v
PppLine.v
PppFsm.v
PppRun.v
PppLcp.v
PppNego.v
