(* ===== verification/Prelude.v ===== *)
(** * Remotus-Hardware: a verification of its kernel, its packets and parts of its network stack

    The repository is the firmware of a weather station on an LPC1768
    (Cortex-M3).  [main.cpp] reads sensors and publishes them with MQTT; below
    it are the MQTT packet library ([src/MQTT/MQTTPacket]), the lwIP network
    stack ([src/EthernetInterface/lwip]) and the RTX real-time kernel with its
    CMSIS-RTOS interface ([src/mbed-rtos/rtx/TARGET_CORTEX_M]).  This library
    models the C code of these three layers that has a contract of its own.

    ** The files

    - [Prelude]: machine integers, bytes in memory, arrays, tactics and hints.
    - [Packet], [Connect], [Publish], [Subscribe]: the functions of the files of
      [MQTTPacket] of the same names.  A serializer takes its block of memory
      and returns the code and the block; a write outside the block is [None].
    - [RtxMem]: the memory of the kernel, from addresses and fields to values,
      and computations on it that return, get [Stuck] or [Halt] in [os_error].
    - [RtxList] ([rt_List.c]), [RtxTask] ([rt_Task.c], [HAL_CM.c], the switch in
      [HAL_CM3.s]), [RtxCheck] (deciding the invariants of a concrete memory,
      and the system the examples start from), [RtxSem] ([rt_Semaphore.c]),
      [RtxMutex] ([rt_Mutex.c]), [RtxEvent] ([rt_Event.c]), [RtxBox]
      ([rt_MemBox.c]), [RtxMbx] ([rt_Mailbox.c]), [RtxTimer] (the timers of
      [rt_CMSIS.c]), [RtxSystem] ([rt_System.c], [rt_Robin.c], [rt_Time.c],
      start-up), [RtxPop] (the service of interrupt requests), [RtxRun] (runs of
      the whole kernel), [RtxCmsis] (the other services of [rt_CMSIS.c]),
      [RtxThread] (start-up and the creation of threads).
    - [LwipBase] ([def.c] and arithmetic modulo 65535), [LwipChksum]
      ([inet_chksum.c]), [LwipMem] ([mem.c]), [LwipAddr] ([ip_addr.c]),
      [LwipTimers] ([timers.c]).
    - [PppFrame] (octets, checksums and the sender of [ppp.c], its receiver, and
      the functions of [pbuf.c] that it calls), [PppLine] (the theorems on both
      ends of a line), [PppFsm] ([fsm.c] and its invariant), [PppRun] (runs of
      the automaton), [PppLcp] (the options of [lcp.c]), [PppNego] (their
      negotiation).

    Definitions have the names of the C functions they translate; a loop or a
    branch that is proved on its own is a definition with a name after its
    function.

    ** How the parts fit together

    A service of the kernel runs in an exception: [RtxCmsis] checks the
    arguments and calls the functions of [RtxSem] to [RtxMbx], which move tasks
    between the lists of [RtxList] and select the next task with
    [RtxTask.rt_dispatch]; the tail of the exception is
    [RtxTask.switch_context].  Interrupt handlers call the [isr_] functions,
    which only queue a request; [RtxSystem.rt_pop_req] serves the queue in
    PendSV, and [RtxSystem.rt_systick] is the tick.  [RtxTask.kernel] is the
    state between services, [RtxTask.sched] the one before the switch;
    [RtxRun.well_formed] adds the objects, and [RtxRun] composes the proved
    contracts of the operations into runs.

    In lwIP, the heap of [LwipMem] holds packets, whose checksums over a chain of
    buffers are proved in [LwipChksum] against the interface [Chksum] that each
    of the three implementations meets; [LwipTimers] is what drives the timers
    of the protocols, with the handlers of other code behind the interface
    [Handlers].

    PPP is the transport that [lwipopts.h] chooses with [LWIP_TRANSPORT_PPP];
    the configuration of this board chooses Ethernet.  [PppFrame.pppWrite] puts
    a packet on the serial line and [PppFrame.pppInProc] takes it off at the
    other end.  The automaton of [PppFsm] starts its timer in the list of
    [LwipTimers], gives its packets to [pppWrite], and calls the protocol it
    serves through a record of callbacks, of which the class [CallbackLaws] says
    what the automaton relies on; [PppLcp.lcp_callbacks] is the record of LCP.

    ** What the theorems show

    - MQTT: what one side serializes the other side reads back
      ([connect_roundtrip], [publish_roundtrip], [subscribe_roundtrip] and the
      theorems on acknowledgements, UNSUBSCRIBE and the remaining length);
      sizes are exact but for four values ([MQTTPacket_len_exact]); and where
      the code fails: protocol 3.1 is always rejected ([connect_v3_rejected]),
      acknowledgements lose their id ([puback_loses_id]), and two arrays are
      overrun ([suback_overflow], [connack_overrun]).
    - Kernel: each service does to the abstract queues, the delay list and the
      selected task what its contract says, on every path (the [_correct]
      theorems of [RtxSem] to [RtxMbx], [RtxTimer], [RtxThread]); time-outs are
      exact ([timeout_exact]), sleeping is as good as ticking
      ([resume_as_ticks]), locking loses no request ([lock_unlock]), a pool is a
      stack of blocks ([pool_refinement]), the queue of requests is emptied
      ([rt_pop_req_correct]), start-up establishes the invariant
      ([svcKernelInitialize_correct]) and every run keeps it
      ([runs_stay_well_formed]).  The faults found are stated as theorems too
      ([mut_wait_lowers_inherited], [isr_receive_phantom],
      [svcThreadCreate_full], [svcTimerStart_correct]).
    - lwIP: the heap hands out blocks that are apart and comes back whole
      ([heap_runs]) by first fit ([mem_malloc_correct], [mem_free_correct]), but
      for sizes that wrap ([sizes_wrap]); all implementations of the checksum
      agree ([chksum_versions_agree]), chains are as good as blocks
      ([chain_checksums]) and the receiver's test is sound
      ([inet_chksum_protects]); addresses survive printing ([addr_roundtrip])
      while bad ones are accepted ([leading_part_wraps]); the difference list of
      timeouts implements absolute times ([timers_refine]) and the timers of the
      stack never stop ([heartbeat]).
    - PPP: the receiver hands over just the packets that are in the octets
      ([receiver_refines]), so what is sent arrives ([ppp_roundtrip]), and it
      keeps its buffers whatever it reads ([receiver_safe]); the checksum is the
      CRC of the standard ([fcs_is_crc]) and catches every altered octet
      ([altered_frame_dropped]).  The automaton keeps its invariant in every run
      ([automaton_invariant]), gives up on a silent peer ([silent_peer]) and
      opens with a willing one ([peers_agree]).  An Ack is the request and
      nothing else ([ack_is_request]), a request that is allowed is understood
      ([request_understood]), one that is not is refused until it is, at most
      three times ([negotiation_ends]), and the answer stays in its buffers
      ([reqci_bounded]).  What goes wrong: a frame without content
      ([empty_frame_crashes]), a Terminate-Ack when open ([termack_stays_open]),
      long requests ([reqci_overruns]) and large MRUs ([large_mru_overruns]).

    ** Choices

    Integers are [Z] with the conversions of C written out ([u8], [u16], [u32]).
    A loop that is not structural has fuel: [RtxMem.mem_fuel] is more than the
    number of cells, so more than the nodes of any list in memory; [pop_loop]
    has the 256 of the largest queue index, the loops of the tick and of
    [rt_resume] the count they run to, [LwipMem.heap_fuel] more turns than 1600
    bytes have blocks, a remaining length five turns for its four bytes.
    The loops over the options of a packet have one turn more than the packet
    has octets, and an option takes at least two.
    Running out is [Stuck] or [None], and the theorems prove a result, so the
    fuel is enough wherever they apply.  The contents of hardware registers the
    code does not determine are parameters ([ICSR]), as are the addresses and
    sizes the linker chooses ([Config], [Code]).

    ** Not modelled

    - The rest of lwIP: IP, TCP, UDP, ICMP, IGMP, ARP, DHCP, DNS, SNMP, sockets,
      the pools, the functions of [pbuf.c] that PPP does not call, and the layer
      that maps its threads and mailboxes to CMSIS.
    - The rest of PPP: the echo timer and the entry points of LCP, IPCP,
      authentication, header compression, opening and closing of a line.
    - Assembly that has no counterpart in C (the checksum and copy routines for
      Thumb-2, the entry and exit of exceptions but for the switch), the linker's
      tables, hardware drivers.
    - C++: the MQTT client template, the RTOS and socket classes, the sensors,
      [main.cpp]; they call the modelled code and have state of their own.
    - [MQTTPacket_toString], which formats packets for a log. *)

From stdpp Require Export base list numbers option.
From Stdlib Require Export ZArith Lia.

#[export] Set Default Goal Selector "!".
#[global] Open Scope Z_scope.

(** ** Machine integers

    A [w]-bit unsigned C integer is a [Z] in [0, 2^w); [u8], [u16] and [u32]
    are the conversions C performs on assignment. *)

Definition u8 (z : Z) : Z := z mod 2 ^ 8.
Definition u16 (z : Z) : Z := z mod 2 ^ 16.
Definition u32 (z : Z) : Z := z mod 2 ^ 32.

(** A cell of memory holds a byte. *)
Definition is_byte (z : Z) : Prop := 0 <= z < 256.

(** Bit-fields of a one-byte C union, least significant field first (the
    layout the ARM compilers use): [get_bits lo w b] reads the [w]-bit field
    that starts at bit [lo], [set_bits lo w v b] assigns it. *)
Definition get_bits (lo w b : Z) : Z := Z.land (Z.shiftr b lo) (Z.ones w).
Definition set_bits (lo w v b : Z) : Z :=
  Z.lor (Z.ldiff b (Z.shiftl (Z.ones w) lo))
        (Z.shiftl (Z.land v (Z.ones w)) lo).

(** ** Memory blocks

    A C array of [unsigned char] is the list of its bytes; a pointer into it is
    its offset.  Reads and writes outside the block have no defined result:
    they are [None]. *)

Definition mem_get (m : list Z) (p : Z) : option Z :=
  if 0 <=? p then m !! Z.to_nat p else None.

Definition mem_set (m : list Z) (p v : Z) : option (list Z) :=
  if (0 <=? p) && (p <? Z.of_nat (length m)) then
    Some (<[Z.to_nat p := v]> m)
  else None.

(** [memcpy (m + p) bs |bs|] *)
Definition mem_put (m : list Z) (p : Z) (bs : list Z) : option (list Z) :=
  if (0 <=? p) && (p + Z.of_nat (length bs) <=? Z.of_nat (length m)) then
    Some (take (Z.to_nat p) m ++ bs ++ drop (Z.to_nat p + length bs) m)
  else None.

(** Arrays of other element types. *)
Definition arr_get {A} (l : list A) (i : Z) : option A :=
  if 0 <=? i then l !! Z.to_nat i else None.

Definition arr_set {A} (l : list A) (i : Z) (v : A) : option (list A) :=
  if (0 <=? i) && (i <? Z.of_nat (length l)) then Some (<[Z.to_nat i := v]> l) else None.

(** [n] bytes of [m] from offset [p] *)
Definition mem_slice (m : list Z) (p n : Z) : list Z :=
  take (Z.to_nat n) (drop (Z.to_nat p) m).

(** The bytes [bs] are stored in [m] at offset [p]. *)
Definition stored (m : list Z) (p : Z) (bs : list Z) : Prop :=
  0 <= p /\ exists pre post, m = pre ++ bs ++ post /\ Z.of_nat (length pre) = p.

#[global] Arguments mem_get : simpl never.
#[global] Arguments mem_set : simpl never.
#[global] Arguments mem_put : simpl never.
#[global] Arguments arr_get : simpl never.
#[global] Arguments arr_set : simpl never.
#[global] Arguments get_bits : simpl never.
#[global] Arguments set_bits : simpl never.

(** Length of a list as a C [int]. *)
Abbreviation zlen l := (Z.of_nat (length l)).

(** ** Tactics *)

(** Split the option binds and tests of a hypothesis or of the goal. *)
Ltac split_bind :=
  repeat match goal with
  | H : Some _ = Some _ |- _ => injection H; clear H; intros; subst
  | H : None = Some _ |- _ => discriminate H
  | H : Some _ = None |- _ => discriminate H
  | H : mbind _ ?e = Some _ |- _ => destruct e eqn:?; cbn in H
  | H : (let '(_, _) := ?e in _) = Some _ |- _ => destruct e; cbn in H
  end.

Ltac split_if :=
  match goal with
  | |- context [if ?b then _ else _] => destruct b eqn:?
  end.

(** Boolean tests to propositions, then [lia]. *)
Ltac blia := rewrite ?andb_true_iff, ?andb_false_iff, ?orb_true_iff, ?orb_false_iff,
  ?negb_true_iff, ?negb_false_iff, ?Z.leb_le, ?Z.ltb_lt, ?Z.eqb_eq,
  ?Z.leb_gt, ?Z.ltb_ge, ?Z.eqb_neq in *; lia.

Create HintDb cint.
Create Rewrite HintDb cint.
Create HintDb cmem.

(** ** Lemmas on machine integers *)

Lemma u8_range z : 0 <= u8 z < 256.
Proof. apply Z.mod_pos_bound. lia. Qed.

Lemma u16_range z : 0 <= u16 z < 65536.
Proof. apply Z.mod_pos_bound. lia. Qed.

Lemma u32_range z : 0 <= u32 z < 4294967296.
Proof. apply Z.mod_pos_bound. lia. Qed.

Lemma u8_id z : 0 <= z < 256 -> u8 z = z.
Proof. apply Z.mod_small. Qed.

Lemma u16_id z : 0 <= z < 65536 -> u16 z = z.
Proof. apply Z.mod_small. Qed.

Lemma u32_id z : 0 <= z < 4294967296 -> u32 z = z.
Proof. apply Z.mod_small. Qed.

Lemma u8_idem z : u8 (u8 z) = u8 z.
Proof. apply u8_id, u8_range. Qed.

#[export] Hint Resolve u8_range u16_range u32_range : cint.
#[export] Hint Rewrite u8_id u16_id u32_id using lia : cint.
#[export] Hint Rewrite u8_idem : cint.

Lemma testbit_high d n i : 0 <= d < 2 ^ n -> n <= i -> Z.testbit d i = false.
Proof.
  intros. assert (0 <= n) by (destruct (Z.lt_ge_cases n 0); [rewrite Z.pow_neg_r in *|]; lia).
  rewrite <- (Z.mod_small d (2 ^ n)) by lia. apply Z.mod_pow2_bits_high. lia.
Qed.

(** Masking with a single bit tests it. *)
Lemma land_pow2 c n : 0 <= n -> Z.land c (2 ^ n) = if Z.testbit c n then 2 ^ n else 0.
Proof.
  intros. apply Z.bits_inj'. intros i Hi. rewrite Z.land_spec, Z.pow2_bits_eqb by lia.
  destruct (Z.eqb_spec n i) as [<-|].
  - rewrite andb_true_r. destruct (Z.testbit c n) eqn:E.
    + by rewrite Z.pow2_bits_true.
    + by rewrite Z.bits_0.
  - rewrite andb_false_r. destruct (Z.testbit c n).
    + by rewrite Z.pow2_bits_false.
    + by rewrite Z.bits_0.
Qed.

(** Setting a bit above all the others adds it. *)
Lemma lor_pow2 d n : 0 <= n -> 0 <= d < 2 ^ n -> Z.lor d (2 ^ n) = d + 2 ^ n.
Proof.
  intros. symmetry. apply Z.add_nocarry_lor. rewrite land_pow2 by lia.
  by rewrite (testbit_high d n) by lia.
Qed.

Lemma get_bits_spec lo w b i :
  0 <= lo -> 0 <= w -> 0 <= i ->
  Z.testbit (get_bits lo w b) i = (i <? w) && Z.testbit b (i + lo).
Proof.
  intros. unfold get_bits.
  rewrite Z.land_spec, Z.shiftr_spec by lia.
  destruct (Z.ltb_spec i w).
  - rewrite Z.ones_spec_low by lia. by rewrite andb_true_r.
  - rewrite Z.ones_spec_high by lia. by rewrite andb_false_r.
Qed.

Lemma get_bits_mod lo w b : 0 <= lo -> 0 <= w -> get_bits lo w b = (b / 2 ^ lo) mod 2 ^ w.
Proof.
  intros. unfold get_bits. by rewrite Z.land_ones, Z.shiftr_div_pow2 by lia.
Qed.

Lemma get_bits_range lo w b : 0 <= lo -> 0 <= w -> 0 <= get_bits lo w b < 2 ^ w.
Proof. intros. rewrite get_bits_mod by lia. apply Z.mod_pos_bound. lia. Qed.

Lemma set_bits_spec lo w v b i :
  0 <= lo -> 0 <= w -> 0 <= i ->
  Z.testbit (set_bits lo w v b) i =
    if (lo <=? i) && (i <? lo + w) then Z.testbit v (i - lo) else Z.testbit b i.
Proof.
  intros. unfold set_bits.
  rewrite Z.lor_spec, Z.ldiff_spec, !Z.shiftl_spec by lia.
  rewrite Z.land_spec.
  destruct (Z.leb_spec lo i); [destruct (Z.ltb_spec i (lo + w))|]; cbn [andb].
  - rewrite Z.ones_spec_low by lia. cbn. by rewrite andb_false_r, andb_true_r.
  - rewrite Z.ones_spec_high by lia. cbn. by rewrite andb_true_r, andb_false_r, orb_false_r.
  - rewrite !(Z.testbit_neg_r _ (i - lo)) by lia. cbn. by rewrite andb_true_r, orb_false_r.
Qed.

Lemma get_set_same lo w v b :
  0 <= lo -> 0 <= w -> get_bits lo w (set_bits lo w v b) = v mod 2 ^ w.
Proof.
  intros. apply Z.bits_inj'. intros i Hi.
  rewrite get_bits_spec by lia.
  destruct (Z.ltb_spec i w); cbn [andb].
  - rewrite Z.mod_pow2_bits_low, set_bits_spec by lia.
    replace (_ && _) with true by (symmetry; blia). f_equal. lia.
  - by rewrite Z.mod_pow2_bits_high by lia.
Qed.

Lemma get_set_other lo w lo' w' v b :
  0 <= lo -> 0 <= w -> 0 <= lo' -> 0 <= w' -> (lo + w <= lo' \/ lo' + w' <= lo) ->
  get_bits lo w (set_bits lo' w' v b) = get_bits lo w b.
Proof.
  intros. apply Z.bits_inj'. intros i Hi.
  rewrite !get_bits_spec by lia.
  destruct (Z.ltb_spec i w); cbn [andb]; [|done].
  rewrite set_bits_spec by lia.
  by replace (_ && _) with false by (symmetry; blia).
Qed.

Lemma set_bits_range lo w v b n :
  0 <= lo -> 0 <= w -> lo + w <= n -> 0 <= b < 2 ^ n -> 0 <= set_bits lo w v b < 2 ^ n.
Proof.
  intros. assert (0 <= set_bits lo w v b).
  { unfold set_bits. apply Z.lor_nonneg. split.
    - apply Z.ldiff_nonneg. lia.
    - apply Z.shiftl_nonneg, Z.land_nonneg. right. rewrite Z.ones_equiv.
      pose proof (Z.pow_pos_nonneg 2 w). lia. }
  enough (set_bits lo w v b = set_bits lo w v b mod 2 ^ n) as ->.
  { apply Z.mod_pos_bound. lia. }
  apply Z.bits_inj'. intros i ?.
  destruct (Z.lt_ge_cases i n).
  - by rewrite Z.mod_pow2_bits_low by lia.
  - rewrite Z.mod_pow2_bits_high by lia. rewrite set_bits_spec by lia.
    replace (_ && _) with false by (symmetry; blia).
    rewrite <- (Z.mod_small b (2 ^ n)) by lia. by apply Z.mod_pow2_bits_high; lia.
Qed.

#[export] Hint Rewrite get_set_same using lia : cint.
#[export] Hint Rewrite get_set_other using lia : cint.

(** ** Lemmas on memory blocks *)

Implicit Types m bs pre mid post : list Z.

Lemma mem_get_split pre b post :
  mem_get (pre ++ b :: post) (zlen pre) = Some b.
Proof.
  unfold mem_get. rewrite (proj2 (Z.leb_le _ _)) by lia.
  rewrite Nat2Z.id. by apply list_lookup_middle.
Qed.

Lemma mem_put_split pre mid post bs :
  length mid = length bs ->
  mem_put (pre ++ mid ++ post) (zlen pre) bs = Some (pre ++ bs ++ post).
Proof.
  intros Hl. unfold mem_put.
  rewrite !length_app, Hl.
  replace (_ && _) with true by (symmetry; blia).
  rewrite Nat2Z.id, take_app_length.
  by rewrite (app_assoc pre mid post), drop_app_length' by (rewrite length_app; lia).
Qed.

Lemma mem_split m p n :
  0 <= p -> 0 <= n -> p + n <= zlen m ->
  exists pre mid post, m = pre ++ mid ++ post /\ zlen pre = p /\ zlen mid = n.
Proof.
  intros. exists (take (Z.to_nat p) m), (take (Z.to_nat n) (drop (Z.to_nat p) m)),
    (drop (Z.to_nat n) (drop (Z.to_nat p) m)).
  rewrite take_drop, take_drop, !length_take, length_drop. repeat split; lia.
Qed.

Lemma mem_put_None m p bs :
  p < 0 \/ zlen m < p + zlen bs -> mem_put m p bs = None.
Proof.
  intros. unfold mem_put. by replace (_ && _) with false by (symmetry; blia).
Qed.

(** The one case analysis on [mem_put]: the write is out of range, or the
    block splits around the bytes it overwrites. *)
Lemma mem_put_cases m p bs :
  (mem_put m p bs = None /\ (p < 0 \/ zlen m < p + zlen bs)) \/
  exists pre mid post, m = pre ++ mid ++ post /\ zlen pre = p /\
    length mid = length bs /\ mem_put m p bs = Some (pre ++ bs ++ post).
Proof.
  destruct (decide (0 <= p /\ p + zlen bs <= zlen m)) as [[H1 H2]|H].
  - right. destruct (mem_split m p (zlen bs)) as (pre & mid & post & -> & <- & ?); [lia..|].
    exists pre, mid, post. repeat split; [lia|]. apply mem_put_split. lia.
  - left. rewrite mem_put_None by lia. split; [done|lia].
Qed.

Lemma mem_put_inv m p bs m' :
  mem_put m p bs = Some m' ->
  exists pre mid post, m = pre ++ mid ++ post /\ zlen pre = p /\
    length mid = length bs /\ m' = pre ++ bs ++ post.
Proof.
  intros H. destruct (mem_put_cases m p bs) as [[? _]|(pre & mid & post & ? & ? & ? & E)].
  - congruence.
  - exists pre, mid, post. repeat split; congruence.
Qed.

Lemma mem_put_length m p bs m' : mem_put m p bs = Some m' -> length m' = length m.
Proof.
  intros (pre & mid & post & -> & _ & Hl & ->)%mem_put_inv. rewrite !length_app. lia.
Qed.

Lemma mem_put_ok m p bs :
  0 <= p -> p + zlen bs <= zlen m -> exists m', mem_put m p bs = Some m'.
Proof.
  intros. destruct (mem_put_cases m p bs) as [[_ ?]|(pre & mid & post & ? & ? & ? & E)]; [lia|].
  by rewrite E; eexists.
Qed.

Lemma mem_put_stored m p bs m' : mem_put m p bs = Some m' -> stored m' p bs.
Proof.
  intros (pre & mid & post & -> & <- & Hl & ->)%mem_put_inv.
  split; [lia|]. by exists pre, post.
Qed.

Lemma mem_put_app m p (a b : list Z) :
  mem_put m p (a ++ b) = (m' ← mem_put m p a; mem_put m' (p + zlen a) b).
Proof.
  destruct (mem_put_cases m p (a ++ b)) as [[-> Hr]|(pre & mid & post & -> & <- & Hl & ->)].
  - destruct (mem_put m p a) as [m'|] eqn:E; [|done]. cbn.
    pose proof (mem_put_length _ _ _ _ E). symmetry. apply mem_put_None.
    rewrite length_app in Hr. destruct Hr; [|lia].
    unfold mem_put in E. destruct (_ && _) eqn:C in E; [blia|done].
  - rewrite length_app in Hl.
    destruct (mem_split mid 0 (zlen a)) as (pre' & ma & mb & -> & ? & ?); [lia..|].
    rewrite !length_app in Hl. destruct pre'; [|cbn in *; lia]. cbn [app].
    rewrite <- (app_assoc ma mb post), (mem_put_split pre ma) by lia. cbn [mbind option_bind].
    replace (zlen pre + zlen a) with (zlen (pre ++ a)) by (rewrite length_app; lia).
    rewrite (app_assoc pre a), mem_put_split by (cbn in *; lia).
    by rewrite <- !app_assoc.
Qed.

Lemma mem_set_put m p v : mem_set m p v = mem_put m p [v].
Proof.
  unfold mem_set, mem_put. cbn [length].
  destruct (0 <=? p) eqn:?; cbn [andb]; [|done].
  destruct (p <? zlen m) eqn:?.
  - rewrite (proj2 (Z.leb_le _ _)) by blia.
    rewrite insert_take_drop by blia.
    by replace (Z.to_nat p + 1)%nat with (S (Z.to_nat p)) by lia.
  - by rewrite (proj2 (Z.leb_gt _ _)) by blia.
Qed.

Lemma stored_app m p (a b : list Z) :
  stored m p (a ++ b) <-> stored m p a /\ stored m (p + zlen a) b.
Proof.
  split.
  - intros (? & pre & post & -> & <-). split.
    + split; [lia|]. exists pre, (b ++ post). by rewrite <- app_assoc.
    + split; [lia|]. exists (pre ++ a), post. rewrite <- !app_assoc, length_app. split; [done|lia].
  - intros [(? & pre & post & -> & <-) (? & pre' & post' & E & Hl)].
    split; [lia|].
    assert (pre' = pre ++ a /\ post = b ++ post') as [-> ->].
    { rewrite app_assoc in E. apply app_inj_1 in E as [<- <-]; [done|].
      rewrite length_app. lia. }
    exists pre, post'. by rewrite <- app_assoc.
Qed.

Lemma stored_cons m p b bs :
  stored m p (b :: bs) <-> mem_get m p = Some b /\ stored m (p + 1) bs.
Proof.
  change (b :: bs) with ([b] ++ bs). rewrite stored_app. cbn [length].
  split; intros [H ?]; (split; [|done]).
  - destruct H as (? & pre & post & -> & <-). apply mem_get_split.
  - unfold mem_get in H. destruct (Z.leb_spec 0 p); [|done].
    split; [done|]. apply list_elem_of_split_length in H as (pre & post & -> & Hl).
    exists pre, post. split; [done|lia].
Qed.

(** Splitting off a prefix, keeping track of where the stored bytes end. *)
Lemma stored_peel m p e (a b : list Z) :
  stored m p (a ++ b) -> p + zlen (a ++ b) = e ->
  stored m p a /\ p + zlen a <= e /\ stored m (p + zlen a) b /\ p + zlen a + zlen b = e.
Proof.
  rewrite stored_app, length_app. intros [? ?] <-. split_and!; (done || lia).
Qed.

Lemma stored_nil m p : stored m p [] <-> 0 <= p <= zlen m.
Proof.
  split.
  - intros (? & pre & post & -> & <-). rewrite !length_app. lia.
  - intros. split; [lia|]. exists (take (Z.to_nat p) m), (drop (Z.to_nat p) m).
    cbn [app]. rewrite take_drop, length_take. split; [done|lia].
Qed.

Lemma stored_bound m p bs : stored m p bs -> 0 <= p /\ p + zlen bs <= zlen m.
Proof. intros (? & pre & post & -> & <-). rewrite !length_app. lia. Qed.

Lemma stored_slice m p bs : stored m p bs -> mem_slice m p (zlen bs) = bs.
Proof.
  intros (? & pre & post & -> & <-). unfold mem_slice.
  by rewrite !Nat2Z.id, drop_app_length, take_app_length.
Qed.

Lemma stored_get m p b bs : stored m p (b :: bs) -> mem_get m p = Some b.
Proof. intros H. by apply stored_cons in H as [? _]. Qed.

(** ** Lemmas on arrays *)

Lemma arr_get_middle {A} (l k : list A) x : arr_get (l ++ x :: k) (zlen l) = Some x.
Proof.
  unfold arr_get. rewrite (proj2 (Z.leb_le _ _)) by lia.
  rewrite Nat2Z.id. by apply list_lookup_middle.
Qed.

Lemma arr_set_middle {A} (l k : list A) x y :
  arr_set (l ++ x :: k) (zlen l) y = Some (l ++ y :: k).
Proof.
  unfold arr_set. rewrite length_app. cbn [length].
  replace (_ && _) with true by (symmetry; blia).
  by rewrite Nat2Z.id, insert_app_r_alt, Nat.sub_diag by lia.
Qed.

Lemma arr_set_None {A} (l : list A) i y : zlen l <= i -> arr_set l i y = None.
Proof. intros. unfold arr_set. by replace (_ && _) with false by (symmetry; blia). Qed.

Lemma arr_set_length {A} (l l' : list A) i y : arr_set l i y = Some l' -> length l' = length l.
Proof. unfold arr_set. case_match; [|done]. intros [= <-]. apply length_insert. Qed.

#[export] Hint Resolve mem_put_stored stored_get : cmem.
