(* ===== verification/Packet.v ===== *)
(** * MQTT packet primitives (src/MQTT/MQTTPacket/MQTTPacket.c and .h)

    The remaining-length encoding, the integer, character and string readers
    and writers every packet is built from, and [MQTTPacket_read].

    A writer takes the output block and the offset [*pptr] and returns the
    block and the advanced offset; a reader takes the input block and an offset.
    Plain [char] is unsigned (the ARM EABI), so a [char] is a byte. *)

From S2P Require Import Prelude.

(** ** Constants and data (MQTTPacket.h) *)

Definition MQTTPACKET_BUFFER_TOO_SHORT : Z := -2.
Definition MQTTPACKET_READ_ERROR : Z := -1.
Definition MAX_NO_OF_REMAINING_LENGTH_BYTES : Z := 4.

Definition CONNECT : Z := 1.
Definition CONNACK : Z := 2.
Definition PUBLISH : Z := 3.
Definition PUBACK : Z := 4.
Definition PUBREC : Z := 5.
Definition PUBREL : Z := 6.
Definition PUBCOMP : Z := 7.
Definition SUBSCRIBE : Z := 8.
Definition SUBACK : Z := 9.
Definition UNSUBSCRIBE : Z := 10.
Definition UNSUBACK : Z := 11.
Definition PINGREQ : Z := 12.
Definition PINGRESP : Z := 13.
Definition DISCONNECT : Z := 14.

(** The bit-fields of the union [MQTTHeader] (not REVERSED). *)
Definition hdr_retain (byte : Z) : Z := get_bits 0 1 byte.
Definition hdr_qos (byte : Z) : Z := get_bits 1 2 byte.
Definition hdr_dup (byte : Z) : Z := get_bits 3 1 byte.
Definition hdr_type (byte : Z) : Z := get_bits 4 4 byte.
Definition set_hdr_retain (v byte : Z) : Z := set_bits 0 1 v byte.
Definition set_hdr_qos (v byte : Z) : Z := set_bits 1 2 v byte.
Definition set_hdr_dup (v byte : Z) : Z := set_bits 3 1 v byte.
Definition set_hdr_type (v byte : Z) : Z := set_bits 4 4 v byte.

(** A [char*] is [None] when NULL; otherwise a C string is its bytes before
    the terminator and a data pointer is the bytes it points to. *)
Record MQTTLenString := { len : Z; data : option (list Z) }.
Record MQTTString := { cstring : option (list Z); lenstring : MQTTLenString }.

Definition MQTTString_initializer : MQTTString :=
  {| cstring := None; lenstring := {| len := 0; data := None |} |}.

(** ** Remaining length *)

Fixpoint MQTTPacket_encode_loop (fuel : nat) (buf : list Z) (p length rc : Z)
    : option (list Z * Z) :=
  match fuel with
  | O => None
  | S fuel =>
    let d := u8 (Z.rem length 128) in
    let length := Z.quot length 128 in
    let d := if 0 <? length then Z.lor d 128 else d in
    buf ← mem_set buf (p + rc) d;
    let rc := rc + 1 in
    if 0 <? length then MQTTPacket_encode_loop fuel buf p length rc
    else Some (buf, rc)
  end.

(** Encodes [length] at offset [p]; five digits hold any 32-bit [int]. *)
Definition MQTTPacket_encode (buf : list Z) (p length : Z) : option (list Z * Z) :=
  MQTTPacket_encode_loop 5 buf p length 0.

(** A source of bytes, the callback [getfn] or [getcharfn]: from a state and
    the number of bytes asked for, the returned count, the bytes stored at the
    destination and the next state. *)
Definition getfn_t (St : Type) : Type := St -> Z -> option (Z * list Z * St).

Section Decode.
  Context {St : Type} (getcharfn : getfn_t St).

Fixpoint MQTTPacket_decode_loop (fuel : nat) (s : St) (c : option Z)
      (multiplier len value : Z) : option (Z * Z * St) :=
    match fuel with
    | O => None
    | S fuel =>
      let len := len + 1 in
      if MAX_NO_OF_REMAINING_LENGTH_BYTES <? len then Some (len, value, s)
      else
        '(rc, bs, s) ← getcharfn s 1;
        let c := match bs with b :: _ => Some b | [] => c end in
        if negb (rc =? 1) then Some (len, value, s)
        else
          c ← c;
          let value := value + Z.land c 127 * multiplier in
          let multiplier := multiplier * 128 in
          if negb (Z.land c 128 =? 0) then
            MQTTPacket_decode_loop fuel s (Some c) multiplier len value
          else Some (len, value, s)
    end.

  (** The returned length, the decoded [*value] and the source afterwards. *)
Definition MQTTPacket_decode (s : St) : option (Z * Z * St) :=
    MQTTPacket_decode_loop 5 s None 1 0 0.
End Decode.

Definition MQTTPacket_len (rem_len : Z) : Z :=
  let rem_len := rem_len + 1 in
  if rem_len <? 128 then rem_len + 1
  else if rem_len <? 16384 then rem_len + 2
  else if rem_len <? 2097151 then rem_len + 3
  else rem_len + 4.

Fixpoint bufchar_loop (mem : list Z) (n : nat) (c : list Z) (bufptr : Z)
    : option (list Z * Z) :=
  match n with
  | O => Some (c, bufptr)
  | S n => b ← mem_get mem bufptr; bufchar_loop mem n [b] (bufptr + 1)
  end.

(** [bufchar] with the static [bufptr] as the state of the source. *)
Definition bufchar (mem : list Z) : getfn_t Z := fun bufptr count =>
  '(c, bufptr) ← bufchar_loop mem (Z.to_nat count) [] bufptr;
  Some (count, c, bufptr).

(** The number of bytes read and the value. *)
Definition MQTTPacket_decodeBuf (mem : list Z) (buf : Z) : option (Z * Z) :=
  '(len, value, _) ← MQTTPacket_decode (bufchar mem) buf; Some (len, value).

(** ** Readers and writers *)

Definition readInt (mem : list Z) (ptr : Z) : option (Z * Z) :=
  hi ← mem_get mem ptr;
  lo ← mem_get mem (ptr + 1);
  Some (256 * hi + lo, ptr + 2).

Definition readChar (mem : list Z) (ptr : Z) : option (Z * Z) :=
  c ← mem_get mem ptr; Some (c, ptr + 1).

(** A writer over (block, offset). *)
Definition writer : Type := list Z * Z -> option (list Z * Z).

Definition wseq (w1 w2 : writer) : writer := fun st => st ← w1 st; w2 st.
Definition wskip : writer := fun st => Some st.
Definition wwhen (b : bool) (w : writer) : writer := if b then w else wskip.

Declare Scope writer_scope.
Delimit Scope writer_scope with writer.
Infix ">=>" := wseq (at level 60, right associativity) : writer_scope.
#[global] Open Scope writer_scope.

Definition writeChar (c : Z) : writer := fun '(mem, ptr) =>
  mem ← mem_set mem ptr (u8 c); Some (mem, ptr + 1).

Definition writeInt (anInt : Z) : writer := fun '(mem, ptr) =>
  mem ← mem_set mem ptr (u8 (Z.quot anInt 256));
  let ptr := ptr + 1 in
  mem ← mem_set mem ptr (u8 (Z.rem anInt 256));
  Some (mem, ptr + 1).

(** [memcpy] of [bs] to the pointer, which then moves past them. *)
Definition writeBytes (bs : list Z) : writer := fun '(mem, ptr) =>
  mem ← mem_put mem ptr bs; Some (mem, ptr + zlen bs).

Definition writeCString (string : list Z) : writer :=
  writeInt (zlen string) >=> writeBytes string.

(** [ptr += MQTTPacket_encode(ptr, length)] *)
Definition writeLength (length : Z) : writer := fun '(mem, ptr) =>
  '(mem, rc) ← MQTTPacket_encode mem ptr length; Some (mem, ptr + rc).

(** The first [n] bytes a [char*] points to; [None] if it has fewer. *)
Definition bytes_at (d : option (list Z)) (n : Z) : option (list Z) :=
  if n =? 0 then Some []
  else d ← d; if n <=? zlen d then Some (take (Z.to_nat n) d) else None.

Definition getLenStringLen (mem : list Z) (ptr : Z) : option Z :=
  hi ← mem_get mem ptr;
  lo ← mem_get mem (ptr + 1);
  Some (256 * hi + lo).

Definition writeMQTTString (s : MQTTString) : writer := fun st =>
  if 0 <? len (lenstring s) then
    d ← bytes_at (data (lenstring s)) (len (lenstring s));
    (writeInt (len (lenstring s)) >=> writeBytes d) st
  else match cstring s with
  | Some c => writeCString c st
  | None => writeInt 0 st
  end.

(** The return code, the string and the new offset.  [s] is the target before
    the call: a failing read leaves parts of it.  The data pointer is a slice
    of the buffer, shorter than [len] when the buffer ends before. *)
Definition readMQTTLenString (s : MQTTString) (mem : list Z) (ptr enddata : Z)
    : option (Z * MQTTString * Z) :=
  if 1 <? enddata - ptr then
    '(l, ptr) ← readInt mem ptr;
    if ptr + l <=? enddata then
      Some (1, {| cstring := None;
                  lenstring := {| len := l; data := Some (mem_slice mem ptr l) |} |}, ptr + l)
    else
      Some (0, {| cstring := None; lenstring := {| len := l; data := data (lenstring s) |} |}, ptr)
  else Some (0, {| cstring := None; lenstring := lenstring s |}, ptr).

Definition MQTTstrlen (s : MQTTString) : Z :=
  match cstring s with
  | Some c => zlen c
  | None => len (lenstring s)
  end.

(** [strncmp(a, b, n) == 0] for a [b] with at least [n] bytes. *)
Fixpoint strncmp_eq (n : nat) (a b : list Z) : bool :=
  match n, a, b with
  | O, _, _ => true
  | S n, x :: a, y :: b => (x =? y) && (if x =? 0 then true else strncmp_eq n a b)
  | S _, [], [] => true
  | S _, [], y :: _ => y =? 0
  | S _, x :: _, [] => x =? 0
  end.

Definition MQTTPacket_equals (a : MQTTString) (bptr : list Z) : option bool :=
  let alen := MQTTstrlen a in
  let blen := zlen bptr in
  if alen =? blen then
    aptr ← (match cstring a with Some c => Some c | None => bytes_at (data (lenstring a)) alen end);
    Some (strncmp_eq (Z.to_nat alen) aptr bptr)
  else Some false.

(** The packet type or -1, the buffer and the source. *)
Definition MQTTPacket_read {St : Type} (buf : list Z) (buflen : Z) (getfn : getfn_t St) (s : St)
    : option (Z * list Z * St) :=
  '(rc, bs, s) ← getfn s 1;
  buf ← mem_put buf 0 bs;
  if negb (rc =? 1) then Some (-1, buf, s)
  else
    let len := 1 in
    '(_, rem_len, s) ← MQTTPacket_decode getfn s;
    '(buf, rc) ← MQTTPacket_encode buf 1 rem_len;
    let len := len + rc in
    '(rc, bs, s) ← getfn s rem_len;
    buf ← mem_put buf len bs;
    if negb (rc =? rem_len) then Some (-1, buf, s)
    else
      byte ← mem_get buf 0;
      Some (hdr_type byte, buf, s).

(** ** The wire format *)

(** Base-128 digits of [n], least significant first, all but the last marked. *)
Fixpoint varint (digits : nat) (n : Z) : list Z :=
  match digits with
  | O => []
  | S digits => if n <? 128 then [n] else (n mod 128 + 128) :: varint digits (n / 128)
  end.

Definition remaining_length (n : Z) : list Z := varint 5 n.
Definition int16 (n : Z) : list Z := [n / 256; n mod 256].
Definition utf (bs : list Z) : list Z := int16 (zlen bs) ++ bs.

(** What an [MQTTString] denotes: [writeMQTTString] prefers the length-delimited
    form, [MQTTstrlen] the C string. *)
Definition string_bytes (s : MQTTString) : option (list Z) :=
  if 0 <? len (lenstring s) then bytes_at (data (lenstring s)) (len (lenstring s))
  else Some (default [] (cstring s)).

(** Only one of the two forms is in use, and it is a string of bytes that a
    16-bit length can describe. *)
Definition string_ok (s : MQTTString) (bs : list Z) : Prop :=
  string_bytes s = Some bs /\ 0 <= len (lenstring s) /\
  (0 < len (lenstring s) -> cstring s = None) /\
  zlen bs < 65536 /\ Forall is_byte bs.

(** A string as [readMQTTLenString] builds it. *)
Definition lenstring_of (bs : list Z) : MQTTString :=
  {| cstring := None; lenstring := {| len := zlen bs; data := Some bs |} |}.

(** A writer emits [bs] when it is a [memcpy] of [bs] at the offset, with the
    offset moved past it, and fails exactly when that [memcpy] would. *)
Class Emits (w : writer) (bs : list Z) : Prop :=
  emits : forall mem ptr, 0 <= ptr <= zlen mem ->
    w (mem, ptr) = (m ← mem_put mem ptr bs; Some (m, ptr + zlen bs)).

(** What a serializer that succeeds does: it returns the number of bytes and
    its block holds them from the start, the rest being unchanged. *)
Definition serialized (r : option (Z * list Z)) (buf bytes : list Z) : Prop :=
  exists buf', r = Some (zlen bytes, buf') /\ mem_put buf 0 bytes = Some buf'.

Create HintDb wire.

(** ** Lemmas: writers *)

#[export] Instance emits_seq w1 w2 b1 b2 :
  Emits w1 b1 -> Emits w2 b2 -> Emits (w1 >=> w2) (b1 ++ b2).
Proof.
  intros H1 H2 mem ptr Hp. unfold wseq. rewrite H1, mem_put_app by done.
  destruct (mem_put mem ptr b1) as [m|] eqn:E; cbn; [|done].
  pose proof (mem_put_length _ _ _ _ E).
  apply mem_put_stored, stored_bound in E.
  rewrite H2, length_app by lia. destruct (mem_put m _ b2); cbn; [|done].
  do 2 f_equal. lia.
Qed.

#[export] Instance emits_skip : Emits wskip [].
Proof.
  intros mem ptr Hp. unfold wskip.
  destruct (mem_put_cases mem ptr []) as [[_ ?]|(pre & mid & post & -> & ? & ? & ->)]; cbn in *; [lia|].
  destruct mid; [|done]. cbn. do 2 f_equal. lia.
Qed.

#[export] Instance emits_when b w bs : Emits w bs -> Emits (wwhen b w) (if b then bs else []).
Proof. destruct b; [done|]. intros _. apply emits_skip. Qed.

#[export] Instance emits_bytes bs : Emits (writeBytes bs) bs.
Proof. by intros mem ptr Hp. Qed.

#[export] Instance emits_char c : Emits (writeChar c) [u8 c].
Proof. intros mem ptr Hp. unfold writeChar. by rewrite mem_set_put. Qed.

Lemma writeInt_chars n :
  forall st, writeInt n st = (writeChar (Z.quot n 256) >=> writeChar (Z.rem n 256)) st.
Proof.
  intros [mem ptr]. unfold writeInt, wseq, writeChar.
  destruct (mem_set mem ptr _); cbn; [|done].
  by destruct (mem_set _ (ptr + 1) _); cbn.
Qed.

Lemma emits_int n : 0 <= n < 65536 -> Emits (writeInt n) (int16 n).
Proof.
  intros Hn mem ptr Hp. rewrite writeInt_chars, emits by done. cbn [app].
  rewrite Z.quot_div_nonneg, Z.rem_mod_nonneg by lia.
  rewrite !u8_id; [done| |]; [apply Z.mod_pos_bound; lia|].
  split; [apply Z.div_pos; lia|apply Z.div_lt_upper_bound; lia].
Qed.

Lemma emits_cstring c : zlen c < 65536 -> Emits (writeCString c) (utf c).
Proof. intros. apply emits_seq; [apply emits_int; lia|apply _]. Qed.

Lemma emits_string s bs : string_ok s bs -> Emits (writeMQTTString s) (utf bs).
Proof.
  unfold string_ok, string_bytes. intros (Hs & Hl & _ & Hz & _) mem ptr Hp.
  unfold writeMQTTString. destruct (Z.ltb_spec 0 (len (lenstring s))).
  - rewrite Hs. cbn [mbind option_bind].
    assert (zlen bs = len (lenstring s)) as <-.
    { unfold bytes_at in Hs. rewrite (proj2 (Z.eqb_neq _ _)) in Hs by lia.
      destruct (data (lenstring s)); cbn in Hs; [|done].
      destruct (Z.leb_spec (len (lenstring s)) (zlen l)); [|done].
      injection Hs as <-. rewrite length_take. lia. }
    exact (emits_cstring bs Hz mem ptr Hp).
  - injection Hs as <-. destruct (cstring s) as [c|]; cbn [default] in *.
    + exact (emits_cstring c Hz mem ptr Hp).
    + by rewrite (emits_int 0).
Qed.

Lemma emits_eq w b b' : Emits w b -> b = b' -> Emits w b'.
Proof. by intros ? <-. Qed.

(** ** Lemmas: the remaining length *)

Lemma varint_bytes k n : 0 <= n -> n < 128 ^ Z.of_nat k -> Forall is_byte (varint k n).
Proof.
  revert n. induction k as [|k IH]; intros n H0 Hn; cbn [varint]; [constructor|].
  destruct (Z.ltb_spec n 128); constructor.
  - split; lia.
  - constructor.
  - pose proof (Z.mod_pos_bound n 128). split; lia.
  - apply IH; [apply Z.div_pos; lia|]. apply Z.div_lt_upper_bound; [lia|].
    replace (Z.of_nat (S k)) with (1 + Z.of_nat k) in Hn by lia.
    rewrite Z.pow_add_r in Hn; lia.
Qed.

Lemma varint_length k n :
  0 <= n -> n < 128 ^ Z.of_nat k -> (0 < k)%nat -> (0 < length (varint k n) <= k)%nat.
Proof.
  revert n. induction k as [|k IH]; intros n H0 Hn Hk; [lia|]. cbn [varint].
  destruct (Z.ltb_spec n 128); cbn [length]; [lia|].
  replace (Z.of_nat (S k)) with (1 + Z.of_nat k) in Hn by lia.
  rewrite Z.pow_add_r in Hn by lia.
  assert (n / 128 < 128 ^ Z.of_nat k) by (apply Z.div_lt_upper_bound; lia).
  assert (0 <= n / 128) by (apply Z.div_pos; lia).
  destruct k as [|k]; [cbn in *; lia|].
  specialize (IH (n / 128)). lia.
Qed.

Lemma lor_128 d : 0 <= d < 128 -> Z.lor d 128 = d + 128.
Proof. apply (lor_pow2 d 7). lia. Qed.

Lemma land_127 c : Z.land c 127 = c mod 128.
Proof. apply (Z.land_ones c 7). lia. Qed.

Lemma land_128 c : Z.land c 128 = if Z.testbit c 7 then 128 else 0.
Proof. apply (land_pow2 c 7). lia. Qed.

Lemma land_128_low c : 0 <= c < 128 -> Z.land c 128 = 0.
Proof. intros. rewrite land_128. by rewrite (testbit_high c 7). Qed.

Lemma land_128_high c : 0 <= c < 128 -> Z.land (c + 128) 128 = 128.
Proof.
  intros. rewrite <- lor_128, Z.land_lor_distr_l, land_128_low by lia. done.
Qed.

Lemma MQTTPacket_encode_loop_spec k buf p n rc :
  0 <= n < 128 ^ Z.of_nat k -> (0 < k)%nat -> 0 <= p + rc <= zlen buf ->
  MQTTPacket_encode_loop k buf p n rc =
    (m ← mem_put buf (p + rc) (varint k n); Some (m, rc + zlen (varint k n))).
Proof.
  revert buf n rc. induction k as [|k IH]; intros buf n rc Hn Hk Hp; [lia|].
  cbn [MQTTPacket_encode_loop varint].
  rewrite Z.quot_div_nonneg, Z.rem_mod_nonneg, mem_set_put by lia.
  pose proof (Z.mod_pos_bound n 128). rewrite u8_id by lia.
  destruct (Z.ltb_spec n 128) as [Hs|Hs].
  - rewrite Z.div_small, Z.mod_small by lia. done.
  - assert (1 <= n / 128) by (apply Z.div_le_lower_bound; lia).
    rewrite (proj2 (Z.ltb_lt _ _)), lor_128 by lia.
    replace (Z.of_nat (S k)) with (1 + Z.of_nat k) in Hn by lia.
    rewrite Z.pow_add_r in Hn by lia.
    assert (n / 128 < 128 ^ Z.of_nat k) by (apply Z.div_lt_upper_bound; lia).
    change (?x :: varint k ?y) with ([x] ++ varint k y). rewrite mem_put_app.
    destruct (mem_put buf (p + rc) _) as [m|] eqn:E; cbn [mbind option_bind]; [|done].
    pose proof (mem_put_length _ _ _ _ E). apply mem_put_stored, stored_bound in E. cbn in E.
    destruct k as [|k]; [cbn in *; lia|].
    rewrite IH by lia. rewrite !Z.add_assoc.
    rewrite length_app. cbn [length]. destruct (mem_put m _ _); cbn; [|done].
    do 2 f_equal. lia.
Qed.

Lemma MQTTPacket_encode_spec buf p n :
  0 <= n < 2 ^ 31 -> 0 <= p <= zlen buf ->
  MQTTPacket_encode buf p n =
    (m ← mem_put buf p (remaining_length n); Some (m, zlen (remaining_length n))).
Proof.
  intros. unfold MQTTPacket_encode. rewrite MQTTPacket_encode_loop_spec by lia.
  by rewrite Z.add_0_r.
Qed.

Lemma emits_length n : 0 <= n < 2 ^ 31 -> Emits (writeLength n) (remaining_length n).
Proof.
  intros Hn mem ptr Hp. unfold writeLength. rewrite MQTTPacket_encode_spec by done.
  by destruct (mem_put _ _ _).
Qed.

(** Finds what a writer emits, following its structure; side conditions are
    arithmetic or [string_ok] hypotheses. *)
Ltac emit :=
  repeat first
    [ apply emits_cstring; solve [assumption | reflexivity]
    | apply emits_seq | apply emits_char | apply emits_bytes | apply emits_skip
    | apply emits_when
    | apply emits_length; solve [lia | assumption] | apply emits_int; solve [lia | assumption]
    | eapply emits_string; eassumption ].

(** Decoding through any source that delivers the digits one at a time. *)
Lemma MQTTPacket_decode_loop_spec {St} (get : getfn_t St) (after : nat -> St) k n :
  0 <= n < 128 ^ Z.of_nat k -> (0 < k)%nat ->
  forall i c mult l value fuel,
  (forall j b, varint k n !! j = Some b -> get (after (i + j)%nat) 1 = Some (1, [b], after (S (i + j)))) ->
  l + Z.of_nat k <= 4 -> (k <= fuel)%nat ->
  MQTTPacket_decode_loop get fuel (after i) c mult l value =
    Some (l + zlen (varint k n), value + n * mult, after (i + length (varint k n))%nat).
Proof.
  intros Hn Hk. revert n Hn. induction k as [|k IH]; [lia|].
  intros n Hn i c mult l value fuel Hget Hl Hf. destruct fuel as [|fuel]; [lia|].
  cbn [MQTTPacket_decode_loop varint].
  unfold MAX_NO_OF_REMAINING_LENGTH_BYTES. rewrite (proj2 (Z.ltb_ge _ _)) by lia.
  pose proof (Hget 0%nat) as H0. rewrite !Nat.add_0_r in H0. cbn [varint] in H0, Hget.
  destruct (Z.ltb_spec n 128) as [Hs|Hs].
  - rewrite (H0 n) by done. cbn.
    rewrite land_127, land_128_low, Z.mod_small by lia. cbn.
    rewrite Nat.add_1_r. done.
  - rewrite (H0 (n mod 128 + 128)) by done. cbn [mbind option_bind negb Z.eqb Pos.eqb].
    pose proof (Z.mod_pos_bound n 128).
    rewrite land_127, land_128_high by lia. cbn [negb Z.eqb].
    rewrite Zplus_mod, Z.mod_same, Z.add_0_r, !Zmod_mod by lia.
    replace (Z.of_nat (S k)) with (1 + Z.of_nat k) in Hn by lia.
    rewrite Z.pow_add_r in Hn by lia.
    assert (0 <= n / 128 < 128 ^ Z.of_nat k)
      by (split; [apply Z.div_pos; lia|apply Z.div_lt_upper_bound; lia]).
    destruct k as [|k]; [cbn in *; lia|].
    rewrite (IH ltac:(lia) (n / 128)); [|done| |lia|lia].
    + cbn [length]. pose proof (Z.div_mod n 128 ltac:(lia)).
      replace (n * mult) with ((n mod 128 + 128 * (n / 128)) * mult) by (f_equal; lia).
      do 2 f_equal; [f_equal; lia|f_equal; lia].
    + intros j b Hj. replace (S i + j)%nat with (i + S j)%nat by lia. by apply Hget.
Qed.

Lemma varint_mono k n : 0 <= n < 128 ^ Z.of_nat k -> (0 < k)%nat -> varint (S k) n = varint k n.
Proof.
  revert n. induction k as [|k IH]; intros n Hn Hk; [lia|].
  change (varint (S (S k)) n) with (if n <? 128 then [n] else (n mod 128 + 128) :: varint (S k) (n / 128)).
  cbn [varint]. destruct (Z.ltb_spec n 128); [done|].
  replace (Z.of_nat (S k)) with (1 + Z.of_nat k) in Hn by lia.
  rewrite Z.pow_add_r in Hn by lia.
  assert (0 <= n / 128 < 128 ^ Z.of_nat k)
    by (split; [apply Z.div_pos; lia|apply Z.div_lt_upper_bound; lia]).
  destruct k as [|k]; [cbn in *; lia|]. f_equal. exact (IH (n / 128) ltac:(done) ltac:(lia)).
Qed.

Lemma stored_lookup m p bs j b :
  stored m p bs -> bs !! j = Some b -> mem_get m (p + Z.of_nat j) = Some b.
Proof.
  intros Hs Hj. rewrite <- (take_drop_middle bs j b Hj) in Hs.
  apply stored_app in Hs as [_ Hs]. apply stored_get in Hs.
  rewrite length_take in Hs. apply lookup_lt_Some in Hj.
  by rewrite Nat.min_l in Hs by lia.
Qed.

Lemma MQTTPacket_decodeBuf_stored m p n :
  0 <= n < 2 ^ 28 -> stored m p (remaining_length n) ->
  MQTTPacket_decodeBuf m p = Some (zlen (remaining_length n), n).
Proof.
  intros Hn Hs. unfold MQTTPacket_decodeBuf, MQTTPacket_decode, remaining_length in *.
  rewrite (varint_mono 4) in * by (cbn; lia).
  pose proof (MQTTPacket_decode_loop_spec (bufchar m) (fun i => p + Z.of_nat i) 4 n
    ltac:(cbn; lia) ltac:(lia) 0%nat None 1 0 0 5) as D.
  cbn [Z.of_nat] in D. rewrite Z.add_0_r in D. rewrite D; [|clear D|lia|lia].
  - cbn. do 2 f_equal; lia.
  - intros j b Hj. unfold bufchar. change (Z.to_nat 1) with 1%nat. cbn [bufchar_loop].
    cbn beta. rewrite (stored_lookup _ _ _ _ _ Hs Hj : mem_get m (p + Z.of_nat (0 + j)) = _).
    cbn. do 2 f_equal. lia.
Qed.

Lemma readChar_stored m p b bs : stored m p (b :: bs) -> readChar m p = Some (b, p + 1).
Proof. intros H. unfold readChar. by rewrite (stored_get _ _ _ _ H). Qed.

Lemma readInt_stored m p n : 0 <= n -> stored m p (int16 n) -> readInt m p = Some (n, p + 2).
Proof.
  intros ? H. unfold readInt, int16 in *.
  apply stored_cons in H as [-> H]. apply stored_get in H as ->. cbn.
  rewrite <- Z.div_mod by lia. done.
Qed.

Lemma readMQTTLenString_stored s m p bs enddata :
  stored m p (utf bs) -> p + zlen (utf bs) <= enddata ->
  readMQTTLenString s m p enddata = Some (1, lenstring_of bs, p + zlen (utf bs)).
Proof.
  unfold utf. rewrite length_app, stored_app. cbn [length int16].
  intros [Hi Hb] He. unfold readMQTTLenString.
  rewrite (proj2 (Z.ltb_lt _ _)) by lia.
  rewrite (readInt_stored _ _ (zlen bs)) by (done || lia). cbn [mbind option_bind].
  rewrite (proj2 (Z.leb_le _ _)) by lia.
  change (Z.of_nat 2) with 2 in Hb. rewrite (stored_slice _ _ _ Hb).
  unfold lenstring_of. do 2 f_equal. lia.
Qed.

#[export] Hint Resolve readChar_stored readInt_stored readMQTTLenString_stored : wire.

Lemma zlen_varint_ge k n : 0 <= n < 128 ^ Z.of_nat k -> (0 < k)%nat -> 1 <= zlen (varint k n) <= Z.of_nat k.
Proof. intros. pose proof (varint_length k n). lia. Qed.

Lemma remaining_length_length n :
  0 <= n < 2 ^ 28 ->
  zlen (remaining_length n) =
    if n <? 128 then 1 else if n <? 16384 then 2 else if n <? 2097152 then 3 else 4.
Proof.
  intros Hn. unfold remaining_length. cbn [varint].
  rewrite !Z.div_div by lia. change (128 * 128) with 16384. change (16384 * 128) with 2097152.
  destruct (Z.ltb_spec n 128); [done|].
  destruct (Z.ltb_spec (n / 128) 128), (Z.ltb_spec n 16384); [done|..|].
  - exfalso. assert (128 <= n / 128) by (apply Z.div_le_lower_bound; lia). lia.
  - exfalso. assert (n / 128 < 128) by (apply Z.div_lt_upper_bound; lia). lia.
  - destruct (Z.ltb_spec (n / 16384) 128), (Z.ltb_spec n 2097152); [done|..|].
    + exfalso. assert (128 <= n / 16384) by (apply Z.div_le_lower_bound; lia). lia.
    + exfalso. assert (n / 16384 < 128) by (apply Z.div_lt_upper_bound; lia). lia.
    + assert (n / 2097152 < 128) by (apply Z.div_lt_upper_bound; lia).
      by rewrite (proj2 (Z.ltb_lt _ _)).
Qed.

Lemma MQTTPacket_len_enough n :
  0 <= n < 2 ^ 28 -> 1 + zlen (remaining_length n) + n <= MQTTPacket_len n.
Proof.
  intros Hn. rewrite remaining_length_length by done. unfold MQTTPacket_len.
  destruct (Z.ltb_spec n 128), (Z.ltb_spec n 16384), (Z.ltb_spec n 2097152); try lia.
  all: destruct (Z.ltb_spec (n + 1) 128), (Z.ltb_spec (n + 1) 16384), (Z.ltb_spec (n + 1) 2097151); lia.
Qed.

Lemma MQTTstrlen_ok s bs : string_ok s bs -> MQTTstrlen s = zlen bs.
Proof.
  unfold string_ok, string_bytes, MQTTstrlen. intros (Hs & Hl & Hn & _).
  destruct (Z.ltb_spec 0 (len (lenstring s))).
  - rewrite Hn by done. unfold bytes_at in Hs. rewrite (proj2 (Z.eqb_neq _ _)) in Hs by lia.
    destruct (data (lenstring s)) as [d|]; cbn in Hs; [|done].
    destruct (Z.leb_spec (len (lenstring s)) (zlen d)); [|done].
    injection Hs as <-. rewrite length_take. lia.
  - injection Hs as <-. destruct (cstring s); cbn; lia.
Qed.

(** A serializer runs one writer from the start of the block. *)
Lemma run_writer w buf bytes :
  Emits w bytes -> zlen bytes <= zlen buf ->
  serialized ('(m, p) ← w (buf, 0); Some (p, m)) buf bytes.
Proof.
  intros Hw Hl. destruct (mem_put_ok buf 0 bytes) as [m Hm]; [lia..|].
  exists m. split; [|done]. rewrite Hw, Hm by lia. done.
Qed.

Lemma serialized_stored r buf bytes :
  serialized r buf bytes ->
  exists buf', r = Some (zlen bytes, buf') /\ stored buf' 0 bytes /\
    length buf' = length buf /\ drop (length bytes) buf' = drop (length bytes) buf.
Proof.
  intros (buf' & -> & Hm). exists buf'. split; [done|].
  split; [by eapply mem_put_stored|]. split; [by eapply mem_put_length|].
  apply mem_put_inv in Hm as (pre & mid & post & -> & Hp & Hl & ->).
  destruct pre; [|cbn in Hp; lia]. cbn [app].
  by rewrite drop_app_length, drop_app_length' by lia.
Qed.

(** Peels the next item off [H : stored m p (item ++ rest)], given where the
    stored bytes end, and names what is left. *)
Ltac peel H He item :=
  let H' := fresh "H" in let He' := fresh "He" in let L := fresh "L" in
  destruct (stored_peel _ _ _ _ _ H He) as (item & L & H' & He'); clear H He;
  rename H' into H; rename He' into He;
  change (Z.of_nat (length [?x])) with 1 in *;
  change (Z.of_nat (length (int16 ?x))) with 2 in *.

(** ** Properties *)

(** any remaining length the protocol allows (0 to 268435455) survives
    [MQTTPacket_encode] followed by [MQTTPacket_decodeBuf]: both count the same
    one to four bytes, and no byte outside them is touched. *)
Theorem remaining_length_roundtrip buf p n :
  0 <= n < 2 ^ 28 -> 0 <= p -> p + 4 <= zlen buf ->
  exists buf' k, MQTTPacket_encode buf p n = Some (buf', k) /\ 1 <= k <= 4 /\
    MQTTPacket_decodeBuf buf' p = Some (k, n) /\
    take (Z.to_nat p) buf' = take (Z.to_nat p) buf /\
    drop (Z.to_nat (p + k)) buf' = drop (Z.to_nat (p + k)) buf.
Proof.
  intros Hn Hp Hb. pose proof (zlen_varint_ge 5 n) as Hk.
  pose proof (remaining_length_length n Hn) as Hr.
  assert (zlen (remaining_length n) <= 4) by (rewrite Hr; repeat case_match; lia).
  destruct (mem_put_ok buf p (remaining_length n)) as [m Hm]; [lia..|].
  exists m, (zlen (remaining_length n)). rewrite MQTTPacket_encode_spec, Hm by lia.
  split; [done|]. split; [unfold remaining_length in *; lia|].
  split; [by apply MQTTPacket_decodeBuf_stored, mem_put_stored with buf|].
  apply mem_put_inv in Hm as (pre & mid & post & -> & <- & Hl & ->).
  rewrite !Nat2Z.id, !take_app_length. split; [done|].
  rewrite !(app_assoc pre), !drop_app_length' by (rewrite length_app; lia). done.
Qed.

Lemma remaining_length_roundtrip_witness :
  MQTTPacket_encode [0; 0; 0; 0; 0; 0] 1 321 = Some ([0; 193; 2; 0; 0; 0], 2) /\
  exists buf' k, MQTTPacket_encode [0; 0; 0; 0; 0; 0] 1 321 = Some (buf', k) /\ 1 <= k <= 4 /\
    MQTTPacket_decodeBuf buf' 1 = Some (k, 321) /\
    take (Z.to_nat 1) buf' = take (Z.to_nat 1) [0; 0; 0; 0; 0; 0] /\
    drop (Z.to_nat (1 + k)) buf' = drop (Z.to_nat (1 + k)) [0; 0; 0; 0; 0; 0].
Proof.
  split; [reflexivity|]. apply (remaining_length_roundtrip [0; 0; 0; 0; 0; 0] 1 321); cbn; lia.
Defined.

(** [MQTTPacket_len] is the size of the packet (header byte, remaining
    length, content) for every legal remaining length except 127, 16383,
    2097150 and 2097151, where it is one byte too many. *)
Theorem MQTTPacket_len_exact n :
  0 <= n < 2 ^ 28 ->
  MQTTPacket_len n = 1 + zlen (remaining_length n) + n +
    (if bool_decide (n ∈ [127; 16383; 2097150; 2097151]) then 1 else 0).
Proof.
  intros Hn. rewrite remaining_length_length by done. unfold MQTTPacket_len.
  destruct (bool_decide_reflect (n ∈ [127; 16383; 2097150; 2097151])) as [H|H].
  - repeat (apply elem_of_cons in H as [->|H]; [reflexivity|]). by apply not_elem_of_nil in H.
  - rewrite !not_elem_of_cons in H. destruct H as (? & ? & ? & ? & _).
    destruct (Z.ltb_spec n 128), (Z.ltb_spec n 16384), (Z.ltb_spec n 2097152); try lia.
    all: destruct (Z.ltb_spec (n + 1) 128), (Z.ltb_spec (n + 1) 16384), (Z.ltb_spec (n + 1) 2097151); lia.
Qed.

Lemma MQTTPacket_len_exact_witness :
  MQTTPacket_len 127 = 130 /\
  MQTTPacket_len 127 = 1 + zlen (remaining_length 127) + 127 +
    (if bool_decide (127 ∈ [127; 16383; 2097150; 2097151]) then 1 else 0).
Proof. split; [reflexivity|]. apply MQTTPacket_len_exact. lia. Defined.
