(* ===== verification/Connect.v ===== *)
(** * CONNECT, CONNACK and the empty packets
    (src/MQTT/MQTTPacket/MQTTConnect.h, MQTTConnectClient.c, MQTTConnectServer.c)

    The serializers take the output block and [buflen] and return the return
    code with the block afterwards; the deserializers take the input block. *)

From S2P Require Import Prelude Packet.

(** ** Data (MQTTConnect.h) *)

(** The bit-fields of the union [MQTTConnectFlags]. *)
Definition flag_cleansession (all : Z) : Z := get_bits 1 1 all.
Definition flag_will (all : Z) : Z := get_bits 2 1 all.
Definition flag_willQoS (all : Z) : Z := get_bits 3 2 all.
Definition flag_willRetain (all : Z) : Z := get_bits 5 1 all.
Definition flag_password (all : Z) : Z := get_bits 6 1 all.
Definition flag_username (all : Z) : Z := get_bits 7 1 all.
Definition set_flag_cleansession (v all : Z) : Z := set_bits 1 1 v all.
Definition set_flag_will (v all : Z) : Z := set_bits 2 1 v all.
Definition set_flag_willQoS (v all : Z) : Z := set_bits 3 2 v all.
Definition set_flag_willRetain (v all : Z) : Z := set_bits 5 1 v all.
Definition set_flag_password (v all : Z) : Z := set_bits 6 1 v all.
Definition set_flag_username (v all : Z) : Z := set_bits 7 1 v all.

(** The one field of [MQTTConnackFlags], above seven unused bits. *)
Definition flag_sessionpresent (all : Z) : Z := get_bits 7 1 all.
Definition set_flag_sessionpresent (v all : Z) : Z := set_bits 7 1 v all.

Record MQTTPacket_willOptions := {
  will_topicName : MQTTString;
  will_message : MQTTString;
  will_retained : Z;
  will_qos : Z
}.

Definition MQTTPacket_willOptions_initializer : MQTTPacket_willOptions :=
  {| will_topicName := MQTTString_initializer; will_message := MQTTString_initializer;
     will_retained := 0; will_qos := 0 |}.

(** The eyecatcher and version members are not read by any operation. *)
Record MQTTPacket_connectData := {
  MQTTVersion : Z;
  clientID : MQTTString;
  keepAliveInterval : Z;
  cleansession : Z;
  willFlag : Z;
  will : MQTTPacket_willOptions;
  username : MQTTString;
  password : MQTTString
}.

Definition MQTTPacket_connectData_initializer : MQTTPacket_connectData :=
  {| MQTTVersion := 4; clientID := MQTTString_initializer; keepAliveInterval := 60;
     cleansession := 1; willFlag := 0; will := MQTTPacket_willOptions_initializer;
     username := MQTTString_initializer; password := MQTTString_initializer |}.

(** [s.cstring || s.lenstring.data] *)
Definition has_string (s : MQTTString) : bool :=
  match cstring s, data (lenstring s) with None, None => false | _, _ => true end.

(** C truth of an integer. *)
Definition truth (z : Z) : bool := negb (z =? 0).

(** ** Serializing (MQTTConnectClient.c) *)

Definition MQTTSerialize_connectLength (options : MQTTPacket_connectData) : Z :=
  let len := if MQTTVersion options =? 3 then 12
             else if MQTTVersion options =? 4 then 10 else 0 in
  let len := len + (MQTTstrlen (clientID options) + 2) in
  let len := if truth (willFlag options) then
      len + (MQTTstrlen (will_topicName (will options)) + 2 +
             MQTTstrlen (will_message (will options)) + 2)
    else len in
  let len := if has_string (username options)
    then len + (MQTTstrlen (username options) + 2) else len in
  if has_string (password options) then len + (MQTTstrlen (password options) + 2) else len.

(** "MQTT" and "MQIsdp" *)
Definition str_MQTT : list Z := [77; 81; 84; 84].
Definition str_MQIsdp : list Z := [77; 81; 73; 115; 100; 112].

Definition connect_flags (options : MQTTPacket_connectData) : Z :=
  let all := 0 in
  let all := set_flag_cleansession (cleansession options) all in
  let all := set_flag_will (if truth (willFlag options) then 1 else 0) all in
  let all := if truth (flag_will all) then
      let all := set_flag_willQoS (will_qos (will options)) all in
      set_flag_willRetain (will_retained (will options)) all
    else all in
  let all := if has_string (username options) then set_flag_username 1 all else all in
  if has_string (password options) then set_flag_password 1 all else all.

Definition MQTTSerialize_connect (buf : list Z) (buflen : Z)
    (options : MQTTPacket_connectData) : option (Z * list Z) :=
  let len := MQTTSerialize_connectLength options in
  if buflen <? MQTTPacket_len len then Some (MQTTPACKET_BUFFER_TOO_SHORT, buf)
  else
    let header := set_hdr_type CONNECT 0 in
    let flags := connect_flags options in
    '(buf, ptr) ←
      (writeChar header >=>
       writeLength len >=>
       (if MQTTVersion options =? 4
        then writeCString str_MQTT >=> writeChar 4
        else writeCString str_MQIsdp >=> writeChar 3) >=>
       writeChar flags >=>
       writeInt (keepAliveInterval options) >=>
       writeMQTTString (clientID options) >=>
       wwhen (truth (willFlag options))
         (writeMQTTString (will_topicName (will options)) >=>
          writeMQTTString (will_message (will options))) >=>
       wwhen (truth (flag_username flags)) (writeMQTTString (username options)) >=>
       wwhen (truth (flag_password flags)) (writeMQTTString (password options))) (buf, 0);
    Some (ptr, buf).

Record connack_out := { sessionPresent : Z; connack_rc : Z }.

(** The return code and the output parameters, which start from [o]. *)
Definition MQTTDeserialize_connack (o : connack_out) (buf : list Z) (buflen : Z)
    : option (Z * connack_out) :=
  '(header, curdata) ← readChar buf 0;
  if negb (hdr_type header =? CONNACK) then Some (0, o)
  else
    '(rc, mylen) ← MQTTPacket_decodeBuf buf curdata;
    let curdata := curdata + rc in
    let enddata := curdata + mylen in
    if enddata - curdata <? 2 then Some (rc, o)
    else
      '(flags, curdata) ← readChar buf curdata;
      '(c, curdata) ← readChar buf curdata;
      Some (1, {| sessionPresent := flag_sessionpresent flags; connack_rc := c |}).

Definition MQTTSerialize_zero (buf : list Z) (buflen packettype : Z) : option (Z * list Z) :=
  if buflen <? 2 then Some (MQTTPACKET_BUFFER_TOO_SHORT, buf)
  else
    let header := set_hdr_type packettype 0 in
    '(buf, ptr) ← (writeChar header >=> writeLength 0) (buf, 0);
    Some (ptr, buf).

Definition MQTTSerialize_disconnect (buf : list Z) (buflen : Z) : option (Z * list Z) :=
  MQTTSerialize_zero buf buflen DISCONNECT.

Definition MQTTSerialize_pingreq (buf : list Z) (buflen : Z) : option (Z * list Z) :=
  MQTTSerialize_zero buf buflen PINGREQ.

(** ** Deserializing (MQTTConnectServer.c) *)

(** "MQIdsp", as the source spells it *)
Definition str_MQIdsp : list Z := [77; 81; 73; 100; 115; 112].

(** [memcmp(d, s, n) == 0]; [None] when [d] has fewer than [n] bytes. *)
Definition memcmp_eq (d : option (list Z)) (s : list Z) (n : Z) : option bool :=
  d ← bytes_at d n; Some (bool_decide (d = take (Z.to_nat n) s)).

Definition MQTTPacket_checkVersion (protocol : MQTTString) (version : Z) : option Z :=
  let l := lenstring protocol in
  let min a b := if a <? b then a else b in
  if version =? 3 then
    eq ← memcmp_eq (data l) str_MQIdsp (min 6 (len l)); Some (if eq : bool then 1 else 0)
  else if version =? 4 then
    eq ← memcmp_eq (data l) str_MQTT (min 4 (len l)); Some (if eq : bool then 1 else 0)
  else Some 0.

Definition with_clientID (d : MQTTPacket_connectData) (s : MQTTString) :=
  {| MQTTVersion := MQTTVersion d; clientID := s; keepAliveInterval := keepAliveInterval d;
     cleansession := cleansession d; willFlag := willFlag d; will := will d;
     username := username d; password := password d |}.
Definition with_session (d : MQTTPacket_connectData) (clean keepalive : Z) :=
  {| MQTTVersion := MQTTVersion d; clientID := clientID d; keepAliveInterval := keepalive;
     cleansession := clean; willFlag := willFlag d; will := will d;
     username := username d; password := password d |}.
Definition with_will (d : MQTTPacket_connectData) (flag : Z) (w : MQTTPacket_willOptions) :=
  {| MQTTVersion := MQTTVersion d; clientID := clientID d; keepAliveInterval := keepAliveInterval d;
     cleansession := cleansession d; willFlag := flag; will := w;
     username := username d; password := password d |}.
Definition with_username (d : MQTTPacket_connectData) (s : MQTTString) :=
  {| MQTTVersion := MQTTVersion d; clientID := clientID d; keepAliveInterval := keepAliveInterval d;
     cleansession := cleansession d; willFlag := willFlag d; will := will d;
     username := s; password := password d |}.
Definition with_password (d : MQTTPacket_connectData) (s : MQTTString) :=
  {| MQTTVersion := MQTTVersion d; clientID := clientID d; keepAliveInterval := keepAliveInterval d;
     cleansession := cleansession d; willFlag := willFlag d; will := will d;
     username := username d; password := s |}.

(** The will part of the packet: [None] is a fault, [Some (false, ...)] the
    early exit. *)
Definition read_will (d : MQTTPacket_connectData) (buf : list Z) (flags curdata enddata : Z)
    : option (bool * MQTTPacket_connectData * Z) :=
  if truth (flag_will flags) then
    let w := {| will_topicName := will_topicName (will d); will_message := will_message (will d);
                will_retained := flag_willRetain flags; will_qos := flag_willQoS flags |} in
    '(rc, s, curdata) ← readMQTTLenString (will_topicName w) buf curdata enddata;
    let w := {| will_topicName := s; will_message := will_message w;
                will_retained := will_retained w; will_qos := will_qos w |} in
    if negb (truth rc) then Some (false, with_will d 1 w, curdata)
    else
      '(rc, s, curdata) ← readMQTTLenString (will_message w) buf curdata enddata;
      let w := {| will_topicName := will_topicName w; will_message := s;
                  will_retained := will_retained w; will_qos := will_qos w |} in
      Some (truth rc, with_will d 1 w, curdata)
  else Some (true, d, curdata).

(** The credentials. *)
Definition read_credentials (d : MQTTPacket_connectData) (buf : list Z) (flags curdata enddata : Z)
    : option (bool * MQTTPacket_connectData) :=
  if truth (flag_username flags) then
    if enddata - curdata <? 3 then Some (false, d)
    else
      '(rc, s, curdata) ← readMQTTLenString (username d) buf curdata enddata;
      let d := with_username d s in
      if negb (truth rc) then Some (false, d)
      else if truth (flag_password flags) then
        if enddata - curdata <? 3 then Some (false, d)
        else
          '(rc, s, curdata) ← readMQTTLenString (password d) buf curdata enddata;
          Some (truth rc, with_password d s)
      else Some (true, d)
  else if truth (flag_password flags) then Some (false, d)
  else Some (true, d).

Definition MQTTDeserialize_connect (d : MQTTPacket_connectData) (buf : list Z) (len : Z)
    : option (Z * MQTTPacket_connectData) :=
  let enddata := len in
  '(header, curdata) ← readChar buf 0;
  if negb (hdr_type header =? CONNECT) then Some (0, d)
  else
    '(k, mylen) ← MQTTPacket_decodeBuf buf curdata;
    let curdata := curdata + k in
    '(rc, Protocol, curdata) ← readMQTTLenString MQTTString_initializer buf curdata enddata;
    if negb (truth rc) || (enddata - curdata <? 0) then Some (0, d)
    else
      '(version, curdata) ← readChar buf curdata;
      ok ← MQTTPacket_checkVersion Protocol version;
      if truth ok then
        '(flags, curdata) ← readChar buf curdata;
        '(ka, curdata) ← readInt buf curdata;
        let d := with_session d (flag_cleansession flags) (u16 ka) in
        '(rc, s, curdata) ← readMQTTLenString (clientID d) buf curdata enddata;
        let d := with_clientID d s in
        if negb (truth rc) then Some (0, d)
        else
          '(go, d, curdata) ← read_will d buf flags curdata enddata;
          if negb go then Some (0, d)
          else
            '(go, d) ← read_credentials d buf flags curdata enddata;
            Some (if go : bool then 1 else 0, d)
      else Some (0, d).

Definition MQTTSerialize_connack (buf : list Z) (buflen connack_rc sessionPresent : Z)
    : option (Z * list Z) :=
  if buflen <? 2 then Some (MQTTPACKET_BUFFER_TOO_SHORT, buf)
  else
    let header := set_hdr_type CONNACK 0 in
    let flags := set_flag_sessionpresent sessionPresent 0 in
    '(buf, ptr) ←
      (writeChar header >=> writeLength 2 >=> writeChar flags >=> writeChar connack_rc) (buf, 0);
    Some (ptr, buf).

(** ** The wire format *)

Record will_packet := { wp_topic : list Z; wp_message : list Z; wp_retain : bool; wp_qos : Z }.

(** What a CONNECT packet says, independently of how its strings are held. *)
Record connect_packet := {
  cp_clean : bool;
  cp_keepalive : Z;
  cp_client : list Z;
  cp_will : option will_packet;
  cp_username : option (list Z);
  cp_password : option (list Z)
}.

Definition cp_flags (cp : connect_packet) : Z :=
  let all := set_flag_cleansession (Z.b2z (cp_clean cp)) 0 in
  let all := match cp_will cp with
    | Some w => set_flag_willRetain (Z.b2z (wp_retain w))
                  (set_flag_willQoS (wp_qos w) (set_flag_will 1 all))
    | None => set_flag_will 0 all
    end in
  let all := match cp_username cp with Some _ => set_flag_username 1 all | None => all end in
  match cp_password cp with Some _ => set_flag_password 1 all | None => all end.

Definition utf_opt (o : option (list Z)) : list Z := from_option utf [] o.

(** Variable header and payload, after the remaining length. *)
Definition connect_body (version : Z) (cp : connect_packet) : list Z :=
  utf (if version =? 4 then str_MQTT else str_MQIsdp) ++ [if version =? 4 then 4 else 3] ++
  [cp_flags cp] ++ int16 (cp_keepalive cp) ++ utf (cp_client cp) ++
  from_option (fun w => utf (wp_topic w) ++ utf (wp_message w)) [] (cp_will cp) ++
  utf_opt (cp_username cp) ++ utf_opt (cp_password cp).

Definition connect_bytes (version : Z) (cp : connect_packet) : list Z :=
  16 :: remaining_length (zlen (connect_body version cp)) ++ connect_body version cp.

Definition opt_string_ok (s : MQTTString) (o : option (list Z)) : Prop :=
  match o with
  | Some bs => has_string s = true /\ string_ok s bs
  | None => has_string s = false
  end.

(** The options denote the packet. *)
Definition connect_denotes (options : MQTTPacket_connectData) (cp : connect_packet) : Prop :=
  cleansession options = Z.b2z (cp_clean cp) /\
  keepAliveInterval options = cp_keepalive cp /\ 0 <= cp_keepalive cp < 65536 /\
  string_ok (clientID options) (cp_client cp) /\
  match cp_will cp with
  | Some w =>
    willFlag options <> 0 /\ string_ok (will_topicName (will options)) (wp_topic w) /\
    string_ok (will_message (will options)) (wp_message w) /\
    will_retained (will options) = Z.b2z (wp_retain w) /\
    will_qos (will options) = wp_qos w /\ 0 <= wp_qos w < 4
  | None => willFlag options = 0
  end /\
  opt_string_ok (username options) (cp_username cp) /\
  opt_string_ok (password options) (cp_password cp).

(** What the server's structure holds after reading the packet. *)
Definition connect_result (d : MQTTPacket_connectData) (cp : connect_packet) : MQTTPacket_connectData :=
  let d := with_session d (Z.b2z (cp_clean cp)) (cp_keepalive cp) in
  let d := with_clientID d (lenstring_of (cp_client cp)) in
  let d := match cp_will cp with
    | Some w => with_will d 1
        {| will_topicName := lenstring_of (wp_topic w); will_message := lenstring_of (wp_message w);
           will_retained := Z.b2z (wp_retain w); will_qos := wp_qos w |}
    | None => d
    end in
  let d := match cp_username cp with Some u => with_username d (lenstring_of u) | None => d end in
  match cp_password cp with Some p => with_password d (lenstring_of p) | None => d end.

(** ** Lemmas: flags *)

#[local] Ltac unfold_flags :=
  unfold flag_cleansession, flag_will, flag_willQoS, flag_willRetain, flag_password,
    flag_username, set_flag_cleansession, set_flag_will, set_flag_willQoS, set_flag_willRetain,
    set_flag_password, set_flag_username in *.

Lemma b2z_mod2 b : Z.b2z b mod 2 ^ 1 = Z.b2z b.
Proof. by destruct b. Qed.

Lemma truth_true z : z <> 0 -> truth z = true.
Proof. intros. unfold truth. by rewrite (proj2 (Z.eqb_neq _ _)). Qed.

Lemma truth_b2z b : truth (Z.b2z b) = b.
Proof. by destruct b. Qed.

Lemma cp_flags_get cp :
  (forall w, cp_will cp = Some w -> 0 <= wp_qos w < 4) ->
  flag_cleansession (cp_flags cp) = Z.b2z (cp_clean cp) /\
  flag_will (cp_flags cp) = Z.b2z (bool_decide (is_Some (cp_will cp))) /\
  (forall w, cp_will cp = Some w ->
    flag_willQoS (cp_flags cp) = wp_qos w /\ flag_willRetain (cp_flags cp) = Z.b2z (wp_retain w)) /\
  flag_username (cp_flags cp) = Z.b2z (bool_decide (is_Some (cp_username cp))) /\
  flag_password (cp_flags cp) = Z.b2z (bool_decide (is_Some (cp_password cp))).
Proof.
  intros Hq. unfold cp_flags. unfold_flags.
  destruct (cp_will cp) as [w|] eqn:Ew; [specialize (Hq w eq_refl)|];
    destruct (cp_username cp), (cp_password cp).
  all: repeat split; intros; simplify_eq; autorewrite with cint; try done.
  all: by first [apply b2z_mod2 | apply Z.mod_small; cbn; lia].
Qed.

Lemma cp_flags_byte cp : is_byte (cp_flags cp).
Proof.
  unfold cp_flags, is_byte. unfold_flags. change 256 with (2 ^ 8).
  destruct (cp_will cp), (cp_username cp), (cp_password cp).
  all: repeat apply set_bits_range; lia.
Qed.

Lemma opt_string_flag s o : opt_string_ok s o -> has_string s = bool_decide (is_Some o).
Proof. destruct o; cbn; [by intros [-> _]|by intros ->]. Qed.

Lemma connect_flags_denotes o cp : connect_denotes o cp -> connect_flags o = cp_flags cp.
Proof.
  intros (Hc & _ & _ & _ & Hw & Hu%opt_string_flag & Hp%opt_string_flag).
  unfold connect_flags, cp_flags. rewrite Hu, Hp, Hc.
  destruct (cp_will cp) as [w|].
  - destruct Hw as (Ht%truth_true & _ & _ & -> & -> & _). rewrite Ht.
    unfold_flags. autorewrite with cint.
    by destruct (cp_username cp), (cp_password cp).
  - rewrite Hw. change (truth 0) with false. unfold_flags. autorewrite with cint.
    by destruct (cp_username cp), (cp_password cp).
Qed.

Lemma utf_length bs : zlen (utf bs) = 2 + zlen bs.
Proof. unfold utf, int16. rewrite length_app. cbn. lia. Qed.

Lemma string_ok_small s bs : string_ok s bs -> zlen bs < 65536.
Proof. by intros (_ & _ & _ & ? & _). Qed.

Lemma connect_length o cp :
  MQTTVersion o = 3 \/ MQTTVersion o = 4 -> connect_denotes o cp ->
  MQTTSerialize_connectLength o = zlen (connect_body (MQTTVersion o) cp).
Proof.
  intros Hv (_ & _ & _ & Hcid & Hw & Hu & Hp).
  unfold MQTTSerialize_connectLength, connect_body, utf_opt.
  rewrite !length_app, !Nat2Z.inj_add, !utf_length.
  rewrite (MQTTstrlen_ok _ _ Hcid).
  rewrite (opt_string_flag _ _ Hu), (opt_string_flag _ _ Hp).
  assert (forall s (o' : option (list Z)), opt_string_ok s o' ->
    (if bool_decide (is_Some o') then MQTTstrlen s + 2 else 0) = zlen (from_option utf [] o')) as Hos.
  { intros s [bs|]; cbn [opt_string_ok from_option]; [|done]. intros [_ H].
    rewrite utf_length, (MQTTstrlen_ok _ _ H). cbn. lia. }
  pose proof (Hos _ _ Hu) as Eu. pose proof (Hos _ _ Hp) as Ep.
  assert ((if truth (willFlag o) then
      MQTTstrlen (will_topicName (will o)) + 2 + MQTTstrlen (will_message (will o)) + 2 else 0) =
      zlen (from_option (fun w => utf (wp_topic w) ++ utf (wp_message w)) [] (cp_will cp))) as Ew.
  { destruct (cp_will cp) as [w|]; cbn [from_option].
    - destruct Hw as (Ht%truth_true & H1 & H2 & _). rewrite Ht.
      rewrite length_app, Nat2Z.inj_add, !utf_length, (MQTTstrlen_ok _ _ H1), (MQTTstrlen_ok _ _ H2). lia.
    - by rewrite Hw. }
  rewrite <- Eu, <- Ep, <- Ew.
  destruct Hv as [-> | ->]; cbn [Z.eqb Pos.eqb str_MQTT str_MQIsdp length int16];
    destruct (truth _), (bool_decide (is_Some (cp_username cp))), (bool_decide (is_Some (cp_password cp))); lia.
Qed.

Lemma connect_body_length version cp s1 s2 s3 s4 s5 :
  string_ok s1 (cp_client cp) ->
  (forall w, cp_will cp = Some w -> string_ok s2 (wp_topic w) /\ string_ok s3 (wp_message w)) ->
  (forall u, cp_username cp = Some u -> string_ok s4 u) ->
  (forall p, cp_password cp = Some p -> string_ok s5 p) ->
  0 <= zlen (connect_body version cp) < 2 ^ 28.
Proof.
  intros H1%string_ok_small H2 H3 H4. unfold connect_body, utf_opt.
  rewrite !length_app, !Nat2Z.inj_add, !utf_length.
  assert (zlen (from_option (fun w => utf (wp_topic w) ++ utf (wp_message w)) [] (cp_will cp)) < 200000).
  { destruct (cp_will cp) as [w|]; cbn [from_option]; [|cbn; lia].
    destruct (H2 w eq_refl) as [?%string_ok_small ?%string_ok_small].
    rewrite length_app, Nat2Z.inj_add, !utf_length. lia. }
  assert (forall s (o : option (list Z)), (forall u, o = Some u -> string_ok s u) ->
    zlen (from_option utf [] o) < 100000) as Ho.
  { intros s [u|] Hu; cbn [from_option]; [|cbn; lia].
    pose proof (string_ok_small _ _ (Hu u eq_refl)). rewrite utf_length. lia. }
  pose proof (Ho _ _ H3). pose proof (Ho _ _ H4).
  destruct (version =? 4); cbn [str_MQTT str_MQIsdp length int16]; lia.
Qed.

(** ** Lemmas: serializing *)

Lemma opt_string_emits s o :
  opt_string_ok s o -> Emits (wwhen (bool_decide (is_Some o)) (writeMQTTString s)) (utf_opt o).
Proof.
  destruct o as [bs|]; cbn; [intros [_ H]; by apply emits_string|intros _; apply emits_skip].
Qed.

Lemma connect_writer o cp :
  connect_denotes o cp -> 0 <= zlen (connect_body (MQTTVersion o) cp) < 2 ^ 28 ->
  forall hdr flags, u8 hdr = 16 -> flags = cp_flags cp ->
  Emits
    (writeChar hdr >=>
     writeLength (zlen (connect_body (MQTTVersion o) cp)) >=>
     (if MQTTVersion o =? 4 then writeCString str_MQTT >=> writeChar 4
      else writeCString str_MQIsdp >=> writeChar 3) >=>
     writeChar flags >=>
     writeInt (keepAliveInterval o) >=>
     writeMQTTString (clientID o) >=>
     wwhen (truth (willFlag o))
       (writeMQTTString (will_topicName (will o)) >=> writeMQTTString (will_message (will o))) >=>
     wwhen (truth (flag_username flags)) (writeMQTTString (username o)) >=>
     wwhen (truth (flag_password flags)) (writeMQTTString (password o)))
    (connect_bytes (MQTTVersion o) cp).
Proof.
  intros (_ & Hk & Hr & Hcid & Hw & Hu & Hp) Hl hdr flags Hh ->.
  destruct (cp_flags_get cp) as (_ & _ & _ & -> & ->).
  { intros w E. rewrite E in Hw. tauto. }
  rewrite !truth_b2z. unfold connect_bytes.
  eapply emits_eq.
  { apply emits_seq; [apply emits_char|]. apply emits_seq; [apply emits_length; lia|].
    apply emits_seq; [|repeat apply emits_seq].
    - instantiate (1 := utf (if MQTTVersion o =? 4 then str_MQTT else str_MQIsdp) ++
                        [if MQTTVersion o =? 4 then 4 else 3]).
      destruct (MQTTVersion o =? 4); cbv iota; emit.
    - apply emits_char.
    - rewrite Hk. apply emits_int; lia.
    - by apply emits_string.
    - instantiate (1 := from_option (fun w => utf (wp_topic w) ++ utf (wp_message w)) [] (cp_will cp)).
      destruct (cp_will cp) as [w|]; cbn [from_option].
      + destruct Hw as (Ht%truth_true & H1 & H2 & _). rewrite Ht. cbn [wwhen]. emit.
      + rewrite Hw. apply emits_skip.
    - by apply opt_string_emits.
    - by apply opt_string_emits. }
  rewrite Hh, u8_id by apply cp_flags_byte. cbn [app]. unfold connect_body. by rewrite <- !app_assoc.
Qed.

Lemma connect_denotes_length o cp :
  connect_denotes o cp -> 0 <= zlen (connect_body (MQTTVersion o) cp) < 2 ^ 28.
Proof.
  intros (_ & _ & _ & Hcid & Hw & Hu & Hp).
  apply (connect_body_length _ _ (clientID o) (will_topicName (will o)) (will_message (will o))
    (username o) (password o)); [done| | |].
  - intros w E. rewrite E in Hw. tauto.
  - intros u E. rewrite E in Hu. apply Hu.
  - intros p E. rewrite E in Hp. apply Hp.
Qed.

Lemma connect_bytes_fit o cp :
  connect_denotes o cp ->
  zlen (connect_bytes (MQTTVersion o) cp) <= MQTTPacket_len (zlen (connect_body (MQTTVersion o) cp)).
Proof.
  intros Hd. pose proof (MQTTPacket_len_enough _ (connect_denotes_length o cp Hd)).
  unfold connect_bytes. cbn [length]. rewrite length_app. lia.
Qed.

Lemma MQTTSerialize_connect_spec buf buflen o cp :
  MQTTVersion o = 3 \/ MQTTVersion o = 4 -> connect_denotes o cp -> buflen <= zlen buf ->
  if buflen <? MQTTPacket_len (zlen (connect_body (MQTTVersion o) cp))
  then MQTTSerialize_connect buf buflen o = Some (MQTTPACKET_BUFFER_TOO_SHORT, buf)
  else serialized (MQTTSerialize_connect buf buflen o) buf (connect_bytes (MQTTVersion o) cp).
Proof.
  intros Hv Hd Hb. pose proof (connect_bytes_fit o cp Hd).
  unfold MQTTSerialize_connect. rewrite (connect_length o cp Hv Hd).
  destruct (Z.ltb_spec buflen (MQTTPacket_len (zlen (connect_body (MQTTVersion o) cp)))); [done|].
  apply run_writer; [|lia].
  apply connect_writer; [done|by apply connect_denotes_length|done|by apply connect_flags_denotes].
Qed.

(** ** Lemmas: deserializing *)

(** The credentials the server accepts: a password needs a user name, and a
    field needs at least one byte after its length field. *)
Definition credentials_ok (cp : connect_packet) : Prop :=
  match cp_username cp, cp_password cp with
  | None, None => True
  | None, Some _ => False
  | Some u, None => u <> []
  | Some _, Some p => p <> []
  end.

Lemma read_will_stored d cp buf p enddata flags rest :
  flag_will flags = Z.b2z (bool_decide (is_Some (cp_will cp))) ->
  (forall w, cp_will cp = Some w ->
    flag_willQoS flags = wp_qos w /\ flag_willRetain flags = Z.b2z (wp_retain w)) ->
  let bs := from_option (fun w => utf (wp_topic w) ++ utf (wp_message w)) [] (cp_will cp) in
  stored buf p (bs ++ rest) -> p + zlen (bs ++ rest) <= enddata ->
  read_will d buf flags p enddata =
    Some (true, match cp_will cp with
      | Some w => with_will d 1
          {| will_topicName := lenstring_of (wp_topic w); will_message := lenstring_of (wp_message w);
             will_retained := Z.b2z (wp_retain w); will_qos := wp_qos w |}
      | None => d end, p + zlen bs).
Proof.
  intros Hf Hw bs Hs He. unfold read_will. rewrite Hf, truth_b2z. subst bs.
  destruct (cp_will cp) as [w|]; cbn [from_option] in *.
  - rewrite bool_decide_true by eauto. destruct (Hw w eq_refl) as [-> ->].
    rewrite <- app_assoc in *. apply stored_app in Hs as [H1 Hs]. apply stored_app in Hs as [H2 _].
    rewrite !length_app in *.
    rewrite (readMQTTLenString_stored _ _ _ _ _ H1) by lia. cbn [mbind option_bind truth Z.eqb negb].
    rewrite (readMQTTLenString_stored _ _ _ _ _ H2) by lia. cbn. do 2 f_equal. lia.
  - rewrite bool_decide_false by (intros [? ?]; done). cbn. do 2 f_equal. lia.
Qed.

Lemma read_credentials_stored d cp buf p flags :
  flag_username flags = Z.b2z (bool_decide (is_Some (cp_username cp))) ->
  flag_password flags = Z.b2z (bool_decide (is_Some (cp_password cp))) ->
  credentials_ok cp ->
  let bs := utf_opt (cp_username cp) ++ utf_opt (cp_password cp) in
  stored buf p bs ->
  read_credentials d buf flags p (p + zlen bs) =
    Some (true,
      let d := match cp_username cp with Some u => with_username d (lenstring_of u) | None => d end in
      match cp_password cp with Some p => with_password d (lenstring_of p) | None => d end).
Proof.
  intros Hu Hp Hok bs Hs. unfold read_credentials, credentials_ok in *.
  rewrite Hu, Hp, !truth_b2z. subst bs.
  assert (forall l : list Z, l <> [] -> 0 < zlen l) as Hne by (intros [|? ?] ?; [done|cbn; lia]).
  destruct (cp_username cp) as [u|], (cp_password cp) as [pw|]; cbn [utf_opt from_option] in *.
  - rewrite !bool_decide_true by eauto. apply Hne in Hok.
    apply stored_app in Hs as [H1 H2]. rewrite length_app.
    pose proof (utf_length u). pose proof (utf_length pw).
    rewrite (proj2 (Z.ltb_ge _ _)) by lia.
    rewrite (readMQTTLenString_stored _ _ _ _ _ H1) by lia. cbn [mbind option_bind truth Z.eqb negb].
    rewrite (proj2 (Z.ltb_ge _ _)) by lia.
    by rewrite (readMQTTLenString_stored _ _ _ _ _ H2) by lia.
  - rewrite bool_decide_true, bool_decide_false by (eauto || by intros [? ?]). apply Hne in Hok.
    rewrite app_nil_r in *. pose proof (utf_length u).
    rewrite (proj2 (Z.ltb_ge _ _)) by lia.
    by rewrite (readMQTTLenString_stored _ _ _ _ _ Hs) by lia.
  - done.
  - by rewrite bool_decide_false by (by intros [? ?]).
Qed.

Lemma connect_header buf version cp :
  0 <= zlen (connect_body version cp) < 2 ^ 28 ->
  stored buf 0 (connect_bytes version cp) ->
  exists k, readChar buf 0 = Some (16, 1) /\
    MQTTPacket_decodeBuf buf 1 = Some (k, zlen (connect_body version cp)) /\
    stored buf (1 + k) (connect_body version cp) /\
    zlen (connect_bytes version cp) = 1 + k + zlen (connect_body version cp).
Proof.
  intros Hl Hs. exists (zlen (remaining_length (zlen (connect_body version cp)))).
  unfold connect_bytes in *. split; [by eapply readChar_stored|].
  apply stored_cons in Hs as [_ Hs]. cbn [Z.add] in Hs. apply stored_app in Hs as [H1 H2].
  split; [by apply MQTTPacket_decodeBuf_stored|]. split; [done|].
  cbn [length]. rewrite length_app. lia.
Qed.

Lemma MQTTDeserialize_connect_stored d buf cp :
  0 <= cp_keepalive cp < 65536 -> zlen (cp_client cp) < 65536 ->
  (forall w, cp_will cp = Some w -> 0 <= wp_qos w < 4) ->
  credentials_ok cp -> 0 <= zlen (connect_body 4 cp) < 2 ^ 28 ->
  stored buf 0 (connect_bytes 4 cp) ->
  MQTTDeserialize_connect d buf (zlen (connect_bytes 4 cp)) = Some (1, connect_result d cp).
Proof.
  intros Hk Hc Hq Hok Hl Hs.
  destruct (cp_flags_get cp Hq) as (F1 & F2 & F3 & F4 & F5).
  destruct (connect_header _ _ _ Hl Hs) as (k & R1 & R2 & H & ->).
  unfold MQTTDeserialize_connect. rewrite R1. cbn [mbind option_bind].
  change (hdr_type 16) with CONNECT. cbn [negb Z.eqb CONNECT Pos.eqb].
  rewrite R2. cbn [mbind option_bind]. clear R1 R2 Hs Hl.
  set (e := 1 + k + zlen (connect_body 4 cp)).
  set (p := 1 + k) in *. assert (He : p + zlen (connect_body 4 cp) = e) by done. clearbody p e. clear k.
  unfold connect_body in H, He. cbn [Z.eqb Pos.eqb] in H, He.
  peel H He H1.
  rewrite (readMQTTLenString_stored _ _ _ _ _ H1) by lia. clear H1. cbn [mbind option_bind truth Z.eqb negb orb].
  rewrite (proj2 (Z.ltb_ge _ _)) by lia.
  peel H He H1.
  rewrite (readChar_stored _ _ _ _ H1). cbn [mbind option_bind].
  change (MQTTPacket_checkVersion _ _) with (Some 1). cbn [mbind option_bind truth Z.eqb negb].
  peel H He H2.
  rewrite (readChar_stored _ _ _ _ H2). cbn [mbind option_bind].
  clear H1. peel H He H1.
  rewrite (readInt_stored _ _ (cp_keepalive cp)) by (lia || done). cbn [mbind option_bind].
  clear H2. peel H He H2.
  rewrite (readMQTTLenString_stored _ _ _ _ _ H2) by lia. clear H2. cbn [mbind option_bind truth Z.eqb negb].
  rewrite (read_will_stored _ cp _ _ _ _ _ F2 F3 H) by lia.
  cbn [mbind option_bind negb].
  peel H He H2. subst e.
  rewrite (read_credentials_stored _ cp _ _ _ F4 F5 Hok H).
  cbn [mbind option_bind]. rewrite F1, u16_id by lia. done.
Qed.

Lemma MQTTDeserialize_connect_v3 d buf cp :
  0 <= zlen (connect_body 3 cp) < 2 ^ 28 ->
  stored buf 0 (connect_bytes 3 cp) ->
  MQTTDeserialize_connect d buf (zlen (connect_bytes 3 cp)) = Some (0, d).
Proof.
  intros Hl Hs. destruct (connect_header _ _ _ Hl Hs) as (k & R1 & R2 & H & ->).
  unfold MQTTDeserialize_connect. rewrite R1. cbn [mbind option_bind].
  change (hdr_type 16) with CONNECT. cbn [negb Z.eqb CONNECT Pos.eqb].
  rewrite R2. cbn [mbind option_bind]. clear R1 R2 Hs Hl.
  set (e := 1 + k + zlen (connect_body 3 cp)).
  set (p := 1 + k) in *. assert (He : p + zlen (connect_body 3 cp) = e) by done. clearbody p e. clear k.
  unfold connect_body in H, He. cbn [Z.eqb Pos.eqb] in H, He.
  peel H He H1.
  rewrite (readMQTTLenString_stored _ _ _ _ _ H1) by lia. clear H1. cbn [mbind option_bind truth Z.eqb negb orb].
  rewrite (proj2 (Z.ltb_ge _ _)) by lia.
  peel H He H1.
  by rewrite (readChar_stored _ _ _ _ H1).
Qed.

(** ** Properties *)



(** C36: a CONNECT for protocol 3.1 - the version main.cpp asks for - is never
    accepted by this library's own server side, which compares the protocol
    name with a misspelt constant. *)
Theorem connect_v3_rejected buf buflen o cp d :
  MQTTVersion o = 3 -> connect_denotes o cp ->
  MQTTPacket_len (zlen (connect_body 3 cp)) <= buflen -> buflen <= zlen buf ->
  exists n buf', MQTTSerialize_connect buf buflen o = Some (n, buf') /\
    MQTTDeserialize_connect d buf' n = Some (0, d).
Proof.
  intros Hv Hd Hl Hb. pose proof (MQTTSerialize_connect_spec buf buflen o cp ltac:(lia) Hd Hb) as H.
  pose proof (connect_denotes_length o cp Hd).
  rewrite Hv in *. rewrite (proj2 (Z.ltb_ge _ _)) in H by lia.
  apply serialized_stored in H as (buf' & -> & Hs & _).
  exists (zlen (connect_bytes 3 cp)), buf'. split; [done|].
  by apply MQTTDeserialize_connect_v3.
Qed.

Lemma connect_v3_rejected_witness :
  let cs bs := {| cstring := Some bs; lenstring := {| len := 0; data := None |} |} in
  let o := {| MQTTVersion := 3; clientID := cs [109; 98]; keepAliveInterval := 60; cleansession := 1;
              willFlag := 0; will := MQTTPacket_willOptions_initializer;
              username := MQTTString_initializer; password := MQTTString_initializer |} in
  let d := MQTTPacket_connectData_initializer in
  exists n buf', MQTTSerialize_connect (replicate 40 0) 40 o = Some (n, buf') /\
    MQTTDeserialize_connect d buf' n = Some (0, d).
Proof.
  intros cs o d.
  apply (connect_v3_rejected (replicate 40 0) 40 o
    {| cp_clean := true; cp_keepalive := 60; cp_client := [109; 98]; cp_will := None;
       cp_username := None; cp_password := None |} d); try (vm_compute; congruence).
  unfold connect_denotes, opt_string_ok, string_ok. cbn.
  split_and!; try (reflexivity || lia); repeat constructor; cbn; lia.
Defined.

(** [MQTTSerialize_connack] guards with [buflen < 2] a packet of four
    bytes: in a block of two or three bytes it writes past the end, while in a
    block of at least four it round-trips the return code and session flag. *)
Theorem connack_overrun buf rc session o :
  0 <= rc < 256 -> 0 <= session < 2 -> 2 <= zlen buf ->
  (zlen buf < 4 -> MQTTSerialize_connack buf (zlen buf) rc session = None) /\
  (4 <= zlen buf -> exists buf', MQTTSerialize_connack buf (zlen buf) rc session = Some (4, buf') /\
    MQTTDeserialize_connack o buf' (zlen buf) =
      Some (1, {| sessionPresent := session; connack_rc := rc |})).
Proof.
  intros Hrc Hs Hb.
  assert (Emits (writeChar (set_hdr_type CONNACK 0) >=> writeLength 2 >=>
      writeChar (set_flag_sessionpresent session 0) >=> writeChar rc)
      [32; 2; set_flag_sessionpresent session 0; rc]) as HE.
  { eapply emits_eq; [emit|]. rewrite (u8_id rc), (u8_id (set_flag_sessionpresent _ _)) by
      (done || (change 256 with (2 ^ 8); apply set_bits_range; lia)). done. }
  unfold MQTTSerialize_connack. rewrite (proj2 (Z.ltb_ge _ _)) by lia. split; intros H4.
  - rewrite HE by lia. rewrite mem_put_None by (cbn; lia). done.
  - destruct (serialized_stored _ _ _ (run_writer _ buf _ HE ltac:(cbn; lia))) as (buf' & E & Hst & _).
    exists buf'. split; [exact E|]. unfold MQTTDeserialize_connack.
    rewrite (readChar_stored _ _ _ _ Hst). cbn [mbind option_bind].
    change (hdr_type 32 =? CONNACK) with true. cbn [negb].
    apply stored_cons in Hst as [_ Hst].
    apply (stored_app buf' (0 + 1) (remaining_length 2)) in Hst as [H1 H2].
    rewrite (MQTTPacket_decodeBuf_stored buf' (0 + 1) 2 ltac:(lia) H1). cbn [mbind option_bind].
    change (zlen (remaining_length 2)) with 1 in *.
    change (0 + 1 + 1 + 2 - (0 + 1 + 1) <? 2) with false. cbv iota.
    rewrite (readChar_stored _ _ _ _ H2). apply stored_cons in H2 as [_ H2]. cbn [mbind option_bind].
    rewrite (readChar_stored _ _ _ _ H2). cbn [mbind option_bind].
    unfold flag_sessionpresent, set_flag_sessionpresent. autorewrite with cint.
    by rewrite Z.mod_small by lia.
Qed.

Lemma connack_overrun_witness :
  let o := {| sessionPresent := 0; connack_rc := 255 |} in
  (zlen [0; 0; 0] < 4 -> MQTTSerialize_connack [0; 0; 0] (zlen [0; 0; 0]) 5 1 = None) /\
  (4 <= zlen [0; 0; 0] -> exists buf', MQTTSerialize_connack [0; 0; 0] (zlen [0; 0; 0]) 5 1 = Some (4, buf') /\
    MQTTDeserialize_connack o buf' (zlen [0; 0; 0]) =
      Some (1, {| sessionPresent := 1; connack_rc := 5 |})).
Proof. intros o. apply (connack_overrun [0; 0; 0] 5 1 o); cbn; lia. Defined.
