(* ===== verification/Publish.v ===== *)
(** * PUBLISH and the acknowledgements
    (src/MQTT/MQTTPacket/MQTTSerializePublish.c, MQTTDeserializePublish.c) *)

From S2P Require Import Prelude Packet.

(** ** Serializing *)

Definition MQTTSerialize_publishLength (qos : Z) (topicName : MQTTString) (payloadlen : Z) : Z :=
  let len := 0 in
  let len := len + (2 + MQTTstrlen topicName + payloadlen) in
  if 0 <? qos then len + 2 else len.

(** [payload] is what the pointer points to. *)
Definition MQTTSerialize_publish (buf : list Z) (buflen dup qos retained packetid : Z)
    (topicName : MQTTString) (payload : list Z) (payloadlen : Z) : option (Z * list Z) :=
  let rem_len := MQTTSerialize_publishLength qos topicName payloadlen in
  if buflen <? MQTTPacket_len rem_len then Some (MQTTPACKET_BUFFER_TOO_SHORT, buf)
  else
    let header := set_hdr_type PUBLISH 0 in
    let header := set_hdr_dup dup header in
    let header := set_hdr_qos qos header in
    let header := set_hdr_retain retained header in
    bs ← bytes_at (Some payload) payloadlen;
    '(buf, ptr) ←
      (writeChar header >=>
       writeLength rem_len >=>
       writeMQTTString topicName >=>
       wwhen (0 <? qos) (writeInt packetid) >=>
       writeBytes bs) (buf, 0);
    Some (ptr, buf).

Definition MQTTSerialize_ack (buf : list Z) (buflen packettype dup packetid : Z)
    : option (Z * list Z) :=
  if buflen <? 4 then Some (MQTTPACKET_BUFFER_TOO_SHORT, buf)
  else
    let header := set_hdr_type packettype 0 in
    let header := set_hdr_dup dup header in
    let header := set_hdr_qos 0 header in
    '(buf, ptr) ← (writeChar header >=> writeLength 2 >=> writeInt packetid) (buf, 0);
    Some (ptr, buf).

(** The three wrappers, with the arguments in the order the source passes them. *)
Definition MQTTSerialize_puback (buf : list Z) (buflen packetid : Z) : option (Z * list Z) :=
  MQTTSerialize_ack buf buflen PUBACK (u8 packetid) 0.

Definition MQTTSerialize_pubrel (buf : list Z) (buflen dup packetid : Z) : option (Z * list Z) :=
  MQTTSerialize_ack buf buflen PUBREL (u8 packetid) dup.

Definition MQTTSerialize_pubcomp (buf : list Z) (buflen packetid : Z) : option (Z * list Z) :=
  MQTTSerialize_ack buf buflen PUBCOMP (u8 packetid) 0.

(** ** Deserializing *)

(** The output parameters of [MQTTDeserialize_publish]. *)
Record publish_out := {
  pub_dup : Z;
  pub_qos : Z;
  pub_retained : Z;
  pub_packetid : Z;
  pub_topic : MQTTString;
  pub_payload : list Z;
  pub_payloadlen : Z
}.

(** The return code and the outputs, which start from [o].  The payload is the
    rest of the block, of which the first [pub_payloadlen] bytes are meant. *)
Definition MQTTDeserialize_publish (o : publish_out) (buf : list Z) (buflen : Z)
    : option (Z * publish_out) :=
  '(header, curdata) ← readChar buf 0;
  if negb (hdr_type header =? PUBLISH) then Some (0, o)
  else
    let dup := hdr_dup header in
    let qos := hdr_qos header in
    let retained := hdr_retain header in
    '(rc, mylen) ← MQTTPacket_decodeBuf buf curdata;
    let curdata := curdata + rc in
    let enddata := curdata + mylen in
    '(ok, topic, curdata) ← readMQTTLenString (pub_topic o) buf curdata enddata;
    if (ok =? 0) || (enddata - curdata <? 0) then
      Some (rc, {| pub_dup := dup; pub_qos := qos; pub_retained := retained;
                   pub_packetid := pub_packetid o; pub_topic := topic;
                   pub_payload := pub_payload o; pub_payloadlen := pub_payloadlen o |})
    else
      '(id, curdata) ←
        (if 0 <? qos then '(n, curdata) ← readInt buf curdata; Some (u16 n, curdata)
         else Some (pub_packetid o, curdata));
      Some (1, {| pub_dup := dup; pub_qos := qos; pub_retained := retained;
                  pub_packetid := id; pub_topic := topic;
                  pub_payload := drop (Z.to_nat curdata) buf;
                  pub_payloadlen := enddata - curdata |}).

Record ack_out := { ack_packettype : Z; ack_dup : Z; ack_packetid : Z }.

Definition MQTTDeserialize_ack (o : ack_out) (buf : list Z) (buflen : Z) : option (Z * ack_out) :=
  '(header, curdata) ← readChar buf 0;
  let dup := hdr_dup header in
  let packettype := hdr_type header in
  '(rc, mylen) ← MQTTPacket_decodeBuf buf curdata;
  let curdata := curdata + rc in
  let enddata := curdata + mylen in
  if enddata - curdata <? 2 then
    Some (rc, {| ack_packettype := packettype; ack_dup := dup; ack_packetid := ack_packetid o |})
  else
    '(n, curdata) ← readInt buf curdata;
    Some (1, {| ack_packettype := packettype; ack_dup := dup; ack_packetid := u16 n |}).

(** ** The wire format *)

Record publish_packet := {
  pp_dup : bool;
  pp_qos : Z;
  pp_retain : bool;
  pp_id : Z;
  pp_topic : list Z;
  pp_payload : list Z
}.

Definition publish_header (dup qos retain : Z) : Z :=
  set_hdr_retain retain (set_hdr_qos qos (set_hdr_dup dup (set_hdr_type PUBLISH 0))).

Definition publish_body (pp : publish_packet) : list Z :=
  utf (pp_topic pp) ++ (if 0 <? pp_qos pp then int16 (pp_id pp) else []) ++ pp_payload pp.

Definition publish_bytes (pp : publish_packet) : list Z :=
  publish_header (Z.b2z (pp_dup pp)) (pp_qos pp) (Z.b2z (pp_retain pp)) ::
  remaining_length (zlen (publish_body pp)) ++ publish_body pp.

Definition publish_packet_ok (pp : publish_packet) : Prop :=
  0 <= pp_qos pp < 4 /\ 0 <= pp_id pp < 65536 /\ zlen (pp_topic pp) < 65536 /\
  zlen (publish_body pp) < 2 ^ 28.

Definition publish_result (o : publish_out) (pp : publish_packet) (rest : list Z) : publish_out :=
  {| pub_dup := Z.b2z (pp_dup pp); pub_qos := pp_qos pp; pub_retained := Z.b2z (pp_retain pp);
     pub_packetid := if 0 <? pp_qos pp then pp_id pp else pub_packetid o;
     pub_topic := lenstring_of (pp_topic pp);
     pub_payload := pp_payload pp ++ rest; pub_payloadlen := zlen (pp_payload pp) |}.

Definition ack_header (packettype dup : Z) : Z :=
  set_hdr_qos 0 (set_hdr_dup dup (set_hdr_type packettype 0)).

Definition ack_bytes (packettype dup packetid : Z) : list Z :=
  ack_header packettype dup :: remaining_length 2 ++ int16 packetid.

(** ** Lemmas *)

#[local] Ltac unfold_hdr :=
  unfold publish_header, ack_header, hdr_type, hdr_dup, hdr_qos, hdr_retain,
    set_hdr_type, set_hdr_dup, set_hdr_qos, set_hdr_retain in *.

Lemma publish_header_get dup qos retain :
  hdr_type (publish_header dup qos retain) = PUBLISH /\
  hdr_dup (publish_header dup qos retain) = dup mod 2 /\
  hdr_qos (publish_header dup qos retain) = qos mod 4 /\
  hdr_retain (publish_header dup qos retain) = retain mod 2.
Proof. unfold_hdr. split_and!; autorewrite with cint; done. Qed.

Lemma publish_header_byte dup qos retain : 0 <= publish_header dup qos retain < 256.
Proof. unfold_hdr. change 256 with (2 ^ 8). repeat apply set_bits_range; lia. Qed.

Lemma ack_header_get packettype dup :
  hdr_type (ack_header packettype dup) = packettype mod 16 /\
  hdr_dup (ack_header packettype dup) = dup mod 2.
Proof. unfold_hdr. split_and!; autorewrite with cint; done. Qed.

Lemma ack_header_byte packettype dup : 0 <= ack_header packettype dup < 256.
Proof. unfold_hdr. change 256 with (2 ^ 8). repeat apply set_bits_range; lia. Qed.

Lemma b2z_mod_2 b : Z.b2z b mod 2 = Z.b2z b.
Proof. by destruct b. Qed.

Lemma utf_zlen bs : zlen (utf bs) = 2 + zlen bs.
Proof. unfold utf, int16. rewrite length_app. cbn. lia. Qed.

Lemma bytes_at_all bs : bytes_at (Some bs) (zlen bs) = Some bs.
Proof.
  unfold bytes_at. destruct (Z.eqb_spec (zlen bs) 0) as [E|E].
  - destruct bs; [done|cbn in E; lia].
  - cbn. rewrite Z.leb_refl, take_ge by lia. done.
Qed.

Lemma publish_length pp topic :
  string_ok topic (pp_topic pp) ->
  MQTTSerialize_publishLength (pp_qos pp) topic (zlen (pp_payload pp)) = zlen (publish_body pp).
Proof.
  intros Ht. unfold MQTTSerialize_publishLength, publish_body.
  rewrite (MQTTstrlen_ok _ _ Ht), !length_app, !Nat2Z.inj_add, utf_zlen.
  destruct (0 <? pp_qos pp); cbn [length int16]; lia.
Qed.

Lemma publish_bytes_fit pp :
  publish_packet_ok pp -> zlen (publish_bytes pp) <= MQTTPacket_len (zlen (publish_body pp)).
Proof.
  intros (_ & _ & _ & Hl). pose proof (MQTTPacket_len_enough (zlen (publish_body pp)) ltac:(lia)).
  unfold publish_bytes. cbn [length]. rewrite length_app. lia.
Qed.

Lemma MQTTSerialize_publish_spec buf buflen pp topic :
  publish_packet_ok pp -> string_ok topic (pp_topic pp) -> buflen <= zlen buf ->
  let r := MQTTSerialize_publish buf buflen (Z.b2z (pp_dup pp)) (pp_qos pp)
    (Z.b2z (pp_retain pp)) (pp_id pp) topic (pp_payload pp) (zlen (pp_payload pp)) in
  if buflen <? MQTTPacket_len (zlen (publish_body pp))
  then r = Some (MQTTPACKET_BUFFER_TOO_SHORT, buf)
  else serialized r buf (publish_bytes pp).
Proof.
  intros Hok Ht Hb r. pose proof (publish_bytes_fit pp Hok). destruct Hok as (Hq & Hi & _ & Hl).
  unfold r, MQTTSerialize_publish. rewrite (publish_length pp topic Ht).
  destruct (Z.ltb_spec buflen (MQTTPacket_len (zlen (publish_body pp)))); [done|].
  rewrite bytes_at_all. cbn [mbind option_bind].
  apply run_writer; [|lia].
  eapply emits_eq; [emit|].
  rewrite u8_id by apply publish_header_byte. done.
Qed.

Lemma MQTTDeserialize_publish_stored o buf buflen pp :
  publish_packet_ok pp -> stored buf 0 (publish_bytes pp) ->
  MQTTDeserialize_publish o buf buflen =
    Some (1, publish_result o pp (drop (length (publish_bytes pp)) buf)).
Proof.
  intros (Hq & Hi & Ht & Hl) Hs. unfold MQTTDeserialize_publish.
  assert (He : 0 + zlen (publish_bytes pp) = zlen (publish_bytes pp)) by done.
  unfold publish_bytes in Hs, He at 1.
  destruct (publish_header_get (Z.b2z (pp_dup pp)) (pp_qos pp) (Z.b2z (pp_retain pp)))
    as (G1 & G2 & G3 & G4).
  set (h := publish_header _ _ _) in *. clearbody h.
  set (E := zlen (publish_bytes pp)) in He. assert (HE : E = zlen (publish_bytes pp)) by done. clearbody E.
  change (h :: ?l) with ([h] ++ l) in Hs, He.
  peel Hs He H0. rewrite (readChar_stored _ _ _ _ H0). clear H0. cbn [mbind option_bind].
  rewrite G1. cbn [Z.eqb Pos.eqb PUBLISH negb].
  peel Hs He H1. rewrite (MQTTPacket_decodeBuf_stored _ _ (zlen (publish_body pp)) ltac:(lia) H1). cbn [mbind option_bind].
  rewrite He. clear H1. set (p := 0 + 1 + _) in *. clearbody p. unfold publish_body in Hs, He.
  peel Hs He H2. rewrite (readMQTTLenString_stored _ _ _ _ _ H2) by lia. cbn [mbind option_bind Z.eqb orb].
  rewrite (proj2 (Z.ltb_ge _ _)) by lia.
  rewrite G2, G3, G4, !b2z_mod_2, Z.mod_small by lia.
  assert (forall q, q + zlen (pp_payload pp) = E -> stored buf q (pp_payload pp) ->
    drop (Z.to_nat q) buf = pp_payload pp ++ drop (length (publish_bytes pp)) buf /\
    E - q = zlen (pp_payload pp)) as Hend.
  { intros q <- (Hp & pre & post & -> & <-). split; [|lia].
    rewrite Nat2Z.id, drop_app_length. f_equal.
    rewrite (app_assoc pre), drop_app_length'; [done|]. rewrite length_app. lia. }
  unfold publish_result. destruct (Z.ltb_spec 0 (pp_qos pp)).
  - peel Hs He H3. rewrite (readInt_stored _ _ (pp_id pp)) by (lia || done). cbn [mbind option_bind].
    destruct (Hend _ He Hs) as [-> ->]. by rewrite u16_id by lia.
  - cbn [app] in Hs, He. cbn [mbind option_bind]. by destruct (Hend _ He Hs) as [-> ->].
Qed.

Lemma MQTTSerialize_ack_spec buf buflen packettype dup packetid :
  4 <= buflen -> buflen <= zlen buf -> 0 <= packetid < 65536 ->
  serialized (MQTTSerialize_ack buf buflen packettype dup packetid) buf
    (ack_bytes packettype dup packetid).
Proof.
  intros. unfold MQTTSerialize_ack. rewrite (proj2 (Z.ltb_ge _ _)) by lia.
  apply run_writer; [|cbn; lia].
  eapply emits_eq; [emit|]. fold (ack_header packettype dup).
  by rewrite u8_id by apply ack_header_byte.
Qed.

Lemma MQTTDeserialize_ack_stored o buf buflen packettype dup packetid :
  0 <= packetid < 65536 -> stored buf 0 (ack_bytes packettype dup packetid) ->
  MQTTDeserialize_ack o buf buflen =
    Some (1, {| ack_packettype := packettype mod 16; ack_dup := dup mod 2; ack_packetid := packetid |}).
Proof.
  intros Hi Hs. unfold MQTTDeserialize_ack, ack_bytes in *.
  destruct (ack_header_get packettype dup) as [<- <-].
  apply stored_cons in Hs as [H0 Hs]. unfold readChar. rewrite H0. cbn [mbind option_bind Z.add] in *.
  apply stored_app in Hs as [H1 Hs].
  rewrite (MQTTPacket_decodeBuf_stored _ _ 2 ltac:(lia) H1). cbn [mbind option_bind] in *.
  rewrite (proj2 (Z.ltb_ge _ _)) by lia.
  rewrite (readInt_stored _ _ packetid) by (lia || done). cbn [mbind option_bind].
  by rewrite u16_id by lia.
Qed.

(** ** Properties *)

(** C13: a PUBLISH the client serializes is what the other side deserializes:
    for every legal packet and every block large enough, [MQTTSerialize_publish]
    succeeds within the block and [MQTTDeserialize_publish] returns success with
    the same flags, packet id (for QoS above 0), topic and payload. *)
Theorem publish_roundtrip buf buflen pp topic o len :
  publish_packet_ok pp -> string_ok topic (pp_topic pp) ->
  MQTTPacket_len (zlen (publish_body pp)) <= buflen -> buflen <= zlen buf ->
  exists buf',
    MQTTSerialize_publish buf buflen (Z.b2z (pp_dup pp)) (pp_qos pp) (Z.b2z (pp_retain pp))
      (pp_id pp) topic (pp_payload pp) (zlen (pp_payload pp)) = Some (zlen (publish_bytes pp), buf') /\
    length buf' = length buf /\
    MQTTDeserialize_publish o buf' len =
      Some (1, publish_result o pp (drop (length (publish_bytes pp)) buf)).
Proof.
  intros Hok Ht Hlen Hb. pose proof (MQTTSerialize_publish_spec buf buflen pp topic Hok Ht Hb) as H.
  cbv zeta in H. rewrite (proj2 (Z.ltb_ge _ _)) in H by lia.
  apply serialized_stored in H as (buf' & -> & Hs & Hl & Hd).
  exists buf'. split; [done|]. split; [done|].
  by rewrite (MQTTDeserialize_publish_stored o buf' len pp Hok Hs), Hd.
Qed.

Lemma publish_roundtrip_witness :
  let pp := {| pp_dup := false; pp_qos := 1; pp_retain := true; pp_id := 513;
               pp_topic := [97; 47; 98]; pp_payload := [50; 49] |} in
  let topic := {| cstring := Some [97; 47; 98]; lenstring := {| len := 0; data := None |} |} in
  let o := {| pub_dup := 0; pub_qos := 0; pub_retained := 0; pub_packetid := 0;
              pub_topic := MQTTString_initializer; pub_payload := []; pub_payloadlen := 0 |} in
  exists buf',
    MQTTSerialize_publish (replicate 20 0) 20 (Z.b2z (pp_dup pp)) (pp_qos pp) (Z.b2z (pp_retain pp))
      (pp_id pp) topic (pp_payload pp) (zlen (pp_payload pp)) = Some (zlen (publish_bytes pp), buf') /\
    length buf' = length (replicate 20 0) /\
    MQTTDeserialize_publish o buf' 20 =
      Some (1, publish_result o pp (drop (length (publish_bytes pp)) (replicate 20 0))).
Proof.
  intros pp topic o. apply (publish_roundtrip (replicate 20 0) 20 pp topic o 20).
  - unfold publish_packet_ok. cbn. lia.
  - unfold string_ok. split_and!; try (cbn; lia); [reflexivity|].
    repeat constructor; cbn; lia.
  - vm_compute. discriminate.
  - vm_compute. discriminate.
Defined.

(** an acknowledgement of any type, duplicate flag and packet id survives
    [MQTTSerialize_ack] followed by [MQTTDeserialize_ack]. *)
Theorem ack_roundtrip buf buflen len packettype dup packetid o :
  0 <= packettype < 16 -> 0 <= dup < 2 -> 0 <= packetid < 65536 -> 4 <= buflen -> buflen <= zlen buf ->
  exists buf', MQTTSerialize_ack buf buflen packettype dup packetid = Some (4, buf') /\
    MQTTDeserialize_ack o buf' len =
      Some (1, {| ack_packettype := packettype; ack_dup := dup; ack_packetid := packetid |}).
Proof.
  intros Ht Hd Hi Hl Hb.
  destruct (serialized_stored _ _ _ (MQTTSerialize_ack_spec buf buflen packettype dup packetid Hl Hb Hi))
    as (buf' & -> & Hs & _). exists buf'. split; [done|].
  rewrite (MQTTDeserialize_ack_stored o buf' len packettype dup packetid Hi Hs).
  by rewrite !Z.mod_small by lia.
Qed.

Lemma ack_roundtrip_witness :
  let o := {| ack_packettype := 0; ack_dup := 0; ack_packetid := 0 |} in
  exists buf', MQTTSerialize_ack [0; 0; 0; 0; 0] 5 PUBREC 1 258 = Some (4, buf') /\
    MQTTDeserialize_ack o buf' 5 =
      Some (1, {| ack_packettype := PUBREC; ack_dup := 1; ack_packetid := 258 |}).
Proof. apply ack_roundtrip; vm_compute; split || idtac; congruence. Defined.

(** the wrappers [MQTTSerialize_puback] and [MQTTSerialize_pubcomp] pass the
    packet id where [MQTTSerialize_ack] takes the duplicate flag: the packet
    they produce always carries packet id 0, and only the lowest bit of the id
    survives, as the DUP flag. *)
Theorem puback_loses_id buf buflen len packetid o :
  0 <= packetid < 65536 -> 4 <= buflen -> buflen <= zlen buf ->
  (exists buf', MQTTSerialize_puback buf buflen packetid = Some (4, buf') /\
    MQTTDeserialize_ack o buf' len =
      Some (1, {| ack_packettype := PUBACK; ack_dup := packetid mod 2; ack_packetid := 0 |})) /\
  (exists buf', MQTTSerialize_pubcomp buf buflen packetid = Some (4, buf') /\
    MQTTDeserialize_ack o buf' len =
      Some (1, {| ack_packettype := PUBCOMP; ack_dup := packetid mod 2; ack_packetid := 0 |})).
Proof.
  intros Hi Hl Hb.
  assert (H2 : u8 packetid mod 2 = packetid mod 2).
  { unfold u8. apply Z.mod_mod_divide. by exists 128. }
  split; unfold MQTTSerialize_puback, MQTTSerialize_pubcomp.
  all: match goal with |- context [MQTTSerialize_ack _ _ ?t _ _] =>
    destruct (serialized_stored _ _ _ (MQTTSerialize_ack_spec buf buflen t (u8 packetid) 0 Hl Hb ltac:(lia)))
      as (buf' & -> & Hs & _) end.
  all: exists buf'; split; [done|].
  all: rewrite (MQTTDeserialize_ack_stored o buf' len _ _ 0 ltac:(lia) Hs); by rewrite H2.
Qed.

Lemma puback_loses_id_witness :
  let o := {| ack_packettype := 0; ack_dup := 0; ack_packetid := 0 |} in
  (exists buf', MQTTSerialize_puback [0; 0; 0; 0] 4 77 = Some (4, buf') /\
    MQTTDeserialize_ack o buf' 4 =
      Some (1, {| ack_packettype := PUBACK; ack_dup := 77 mod 2; ack_packetid := 0 |})) /\
  (exists buf', MQTTSerialize_pubcomp [0; 0; 0; 0] 4 77 = Some (4, buf') /\
    MQTTDeserialize_ack o buf' 4 =
      Some (1, {| ack_packettype := PUBCOMP; ack_dup := 77 mod 2; ack_packetid := 0 |})).
Proof. apply puback_loses_id; vm_compute; split || idtac; congruence. Defined.

(** A PUBLISH too short to hold a topic (remaining length 0 or 1) is not
    refused: the return code is the number of length bytes, 1, which callers
    read as success, while packet id, payload and payload length keep whatever
    the caller's variables held. *)
Theorem publish_truncated_accepted o buf len header n :
  stored buf 0 [header; n] -> hdr_type header = PUBLISH -> 0 <= n < 2 ->
  MQTTDeserialize_publish o buf len =
    Some (1, {| pub_dup := hdr_dup header; pub_qos := hdr_qos header; pub_retained := hdr_retain header;
                pub_packetid := pub_packetid o;
                pub_topic := {| cstring := None; lenstring := lenstring (pub_topic o) |};
                pub_payload := pub_payload o; pub_payloadlen := pub_payloadlen o |}).
Proof.
  intros Hs Ht Hn. unfold MQTTDeserialize_publish.
  rewrite (readChar_stored _ _ _ _ Hs). cbn [mbind option_bind]. rewrite Ht, Z.eqb_refl. cbn [negb].
  apply stored_cons in Hs as [_ Hs]. cbn [Z.add] in *.
  rewrite (MQTTPacket_decodeBuf_stored _ _ n); [|lia|].
  - unfold remaining_length. cbn [varint]. rewrite (proj2 (Z.ltb_lt n 128)) by lia.
    cbn [mbind option_bind length Z.of_nat]. unfold readMQTTLenString.
    rewrite (proj2 (Z.ltb_ge 1 _)) by lia. done.
  - unfold remaining_length. cbn [varint]. by rewrite (proj2 (Z.ltb_lt n 128)) by lia.
Qed.

Lemma publish_truncated_accepted_witness :
  let o := {| pub_dup := 0; pub_qos := 0; pub_retained := 0; pub_packetid := 7;
              pub_topic := MQTTString_initializer; pub_payload := [1]; pub_payloadlen := 99 |} in
  MQTTDeserialize_publish o [48; 0] 2 =
    Some (1, {| pub_dup := hdr_dup 48; pub_qos := hdr_qos 48; pub_retained := hdr_retain 48;
                pub_packetid := pub_packetid o;
                pub_topic := {| cstring := None; lenstring := lenstring (pub_topic o) |};
                pub_payload := pub_payload o; pub_payloadlen := pub_payloadlen o |}).
Proof.
  intros o. apply (publish_truncated_accepted o [48; 0] 2 48 0); [|reflexivity|lia].
  split; [lia|]. by exists [], [].
Defined.
