(* ===== verification/Subscribe.v ===== *)
(** * SUBSCRIBE, SUBACK, UNSUBSCRIBE and UNSUBACK
    (src/MQTT/MQTTPacket/MQTTSubscribeClient.c, MQTTSubscribeServer.c,
    MQTTUnsubscribeClient.c, MQTTUnsubscribeServer.c)

    The arrays the operations read and fill are lists whose length is the
    space the caller reserved. *)

From S2P Require Import Prelude Packet Publish.

(** ** SUBSCRIBE, client (MQTTSubscribeClient.c) *)

(** [n] more iterations from index [i]. *)
Fixpoint subscribeLength_loop (n : nat) (i : Z) (topicFilters : list MQTTString) (len : Z) : option Z :=
  match n with
  | O => Some len
  | S n =>
    s ← arr_get topicFilters i;
    subscribeLength_loop n (i + 1) topicFilters (len + (2 + MQTTstrlen s + 1))
  end.

Definition MQTTSerialize_subscribeLength (count : Z) (topicFilters : list MQTTString) : option Z :=
  subscribeLength_loop (Z.to_nat count) 0 topicFilters 2.

Fixpoint write_subscriptions (n : nat) (i : Z) (topicFilters : list MQTTString)
    (requestedQoSs : list Z) : writer := fun st =>
  match n with
  | O => Some st
  | S n =>
    s ← arr_get topicFilters i;
    q ← arr_get requestedQoSs i;
    (writeMQTTString s >=> writeChar q >=>
     write_subscriptions n (i + 1) topicFilters requestedQoSs) st
  end.

Definition MQTTSerialize_subscribe (buf : list Z) (buflen dup packetid count : Z)
    (topicFilters : list MQTTString) (requestedQoSs : list Z) : option (Z * list Z) :=
  rem_len ← MQTTSerialize_subscribeLength count topicFilters;
  if buflen <? MQTTPacket_len rem_len then Some (MQTTPACKET_BUFFER_TOO_SHORT, buf)
  else
    let header := set_hdr_type SUBSCRIBE 0 in
    let header := set_hdr_dup dup header in
    let header := set_hdr_qos 1 header in
    '(buf, ptr) ←
      (writeChar header >=>
       writeLength rem_len >=>
       writeInt packetid >=>
       write_subscriptions (Z.to_nat count) 0 topicFilters requestedQoSs) (buf, 0);
    Some (ptr, buf).

Record suback_out := { sa_packetid : Z; sa_count : Z; sa_grantedQoSs : list Z }.

Fixpoint suback_loop (fuel : nat) (maxcount : Z) (buf : list Z) (curdata enddata : Z)
    (o : suback_out) : option (Z * suback_out) :=
  match fuel with
  | O => None
  | S fuel =>
    if curdata <? enddata then
      if maxcount <? sa_count o then Some (-1, o)
      else
        '(c, curdata) ← readChar buf curdata;
        qs ← arr_set (sa_grantedQoSs o) (sa_count o) c;
        suback_loop fuel maxcount buf curdata enddata
          {| sa_packetid := sa_packetid o; sa_count := sa_count o + 1; sa_grantedQoSs := qs |}
    else Some (1, o)
  end.

(** The loop reads a byte at a time, so it ends within [mylen] iterations. *)
Definition MQTTDeserialize_suback (o : suback_out) (maxcount : Z) (buf : list Z) (buflen : Z)
    : option (Z * suback_out) :=
  '(header, curdata) ← readChar buf 0;
  if negb (hdr_type header =? SUBACK) then Some (0, o)
  else
    '(rc, mylen) ← MQTTPacket_decodeBuf buf curdata;
    let curdata := curdata + rc in
    let enddata := curdata + mylen in
    if enddata - curdata <? 2 then Some (rc, o)
    else
      '(id, curdata) ← readInt buf curdata;
      suback_loop (S (Z.to_nat mylen)) maxcount buf curdata enddata
        {| sa_packetid := u16 id; sa_count := 0; sa_grantedQoSs := sa_grantedQoSs o |}.

(** ** SUBSCRIBE, server (MQTTSubscribeServer.c) *)

Record subscribe_out := {
  sub_dup : Z;
  sub_packetid : Z;
  sub_count : Z;
  sub_topicFilters : list MQTTString;
  sub_requestedQoSs : list Z
}.

Fixpoint subscribe_loop (fuel : nat) (rc : Z) (buf : list Z) (curdata enddata : Z)
    (o : subscribe_out) : option (Z * subscribe_out) :=
  match fuel with
  | O => None
  | S fuel =>
    if curdata <? enddata then
      s ← arr_get (sub_topicFilters o) (sub_count o);
      '(ok, s, curdata) ← readMQTTLenString s buf curdata enddata;
      tf ← arr_set (sub_topicFilters o) (sub_count o) s;
      let o := {| sub_dup := sub_dup o; sub_packetid := sub_packetid o; sub_count := sub_count o;
                  sub_topicFilters := tf; sub_requestedQoSs := sub_requestedQoSs o |} in
      if ok =? 0 then Some (rc, o)
      else if enddata <=? curdata then Some (rc, o)
      else
        '(c, curdata) ← readChar buf curdata;
        qs ← arr_set (sub_requestedQoSs o) (sub_count o) c;
        subscribe_loop fuel rc buf curdata enddata
          {| sub_dup := sub_dup o; sub_packetid := sub_packetid o; sub_count := sub_count o + 1;
             sub_topicFilters := sub_topicFilters o; sub_requestedQoSs := qs |}
    else Some (1, o)
  end.

(** [maxcount] is a parameter the source never reads. *)
Definition MQTTDeserialize_subscribe (o : subscribe_out) (maxcount : Z) (buf : list Z) (buflen : Z)
    : option (Z * subscribe_out) :=
  '(header, curdata) ← readChar buf 0;
  if negb (hdr_type header =? SUBSCRIBE) then Some (-1, o)
  else
    '(rc, mylen) ← MQTTPacket_decodeBuf buf curdata;
    let curdata := curdata + rc in
    let enddata := curdata + mylen in
    '(id, curdata) ← readInt buf curdata;
    subscribe_loop (S (Z.to_nat mylen)) rc buf curdata enddata
      {| sub_dup := hdr_dup header; sub_packetid := u16 id; sub_count := 0;
         sub_topicFilters := sub_topicFilters o; sub_requestedQoSs := sub_requestedQoSs o |}.

Fixpoint write_qos (n : nat) (i : Z) (grantedQoSs : list Z) : writer := fun st =>
  match n with
  | O => Some st
  | S n => q ← arr_get grantedQoSs i; (writeChar q >=> write_qos n (i + 1) grantedQoSs) st
  end.

Definition MQTTSerialize_suback (buf : list Z) (buflen packetid count : Z) (grantedQoSs : list Z)
    : option (Z * list Z) :=
  if buflen <? 2 + count then Some (MQTTPACKET_BUFFER_TOO_SHORT, buf)
  else
    let header := set_hdr_type SUBACK 0 in
    '(buf, ptr) ←
      (writeChar header >=>
       writeLength (2 + count) >=>
       writeInt packetid >=>
       write_qos (Z.to_nat count) 0 grantedQoSs) (buf, 0);
    Some (ptr, buf).

(** ** UNSUBSCRIBE, client (MQTTUnsubscribeClient.c) *)

Fixpoint unsubscribeLength_loop (n : nat) (i : Z) (topicFilters : list MQTTString) (len : Z) : option Z :=
  match n with
  | O => Some len
  | S n =>
    s ← arr_get topicFilters i;
    unsubscribeLength_loop n (i + 1) topicFilters (len + (2 + MQTTstrlen s))
  end.

Definition MQTTSerialize_unsubscribeLength (count : Z) (topicFilters : list MQTTString) : option Z :=
  unsubscribeLength_loop (Z.to_nat count) 0 topicFilters 2.

Fixpoint write_filters (n : nat) (i : Z) (topicFilters : list MQTTString) : writer := fun st =>
  match n with
  | O => Some st
  | S n =>
    s ← arr_get topicFilters i;
    (writeMQTTString s >=> write_filters n (i + 1) topicFilters) st
  end.

Definition MQTTSerialize_unsubscribe (buf : list Z) (buflen dup packetid count : Z)
    (topicFilters : list MQTTString) : option (Z * list Z) :=
  rem_len ← MQTTSerialize_unsubscribeLength count topicFilters;
  if buflen <? MQTTPacket_len rem_len then Some (MQTTPACKET_BUFFER_TOO_SHORT, buf)
  else
    let header := set_hdr_type UNSUBSCRIBE 0 in
    let header := set_hdr_dup dup header in
    let header := set_hdr_qos 1 header in
    '(buf, ptr) ←
      (writeChar header >=>
       writeLength rem_len >=>
       writeInt packetid >=>
       write_filters (Z.to_nat count) 0 topicFilters) (buf, 0);
    Some (ptr, buf).

(** The type read decides the result, whatever [MQTTDeserialize_ack] returned;
    [packetid] starts from the caller's value. *)
Definition MQTTDeserialize_unsuback (packetid : Z) (buf : list Z) (buflen : Z) : option (Z * Z) :=
  '(rc, o) ← MQTTDeserialize_ack {| ack_packettype := 0; ack_dup := 0; ack_packetid := packetid |}
               buf buflen;
  Some (if ack_packettype o =? UNSUBACK then 1 else rc, ack_packetid o).

(** ** UNSUBSCRIBE, server (MQTTUnsubscribeServer.c) *)

Record unsubscribe_out := {
  uns_dup : Z;
  uns_packetid : Z;
  uns_count : Z;
  uns_topicFilters : list MQTTString
}.

Fixpoint unsubscribe_loop (fuel : nat) (rc : Z) (buf : list Z) (curdata enddata : Z)
    (o : unsubscribe_out) : option (Z * unsubscribe_out) :=
  match fuel with
  | O => None
  | S fuel =>
    if curdata <? enddata then
      s ← arr_get (uns_topicFilters o) (uns_count o);
      '(ok, s, curdata) ← readMQTTLenString s buf curdata enddata;
      tf ← arr_set (uns_topicFilters o) (uns_count o) s;
      if ok =? 0 then
        Some (rc, {| uns_dup := uns_dup o; uns_packetid := uns_packetid o;
                     uns_count := uns_count o; uns_topicFilters := tf |})
      else
        unsubscribe_loop fuel rc buf curdata enddata
          {| uns_dup := uns_dup o; uns_packetid := uns_packetid o;
             uns_count := uns_count o + 1; uns_topicFilters := tf |}
    else Some (1, o)
  end.

Definition MQTTDeserialize_unsubscribe (o : unsubscribe_out) (maxcount : Z) (buf : list Z) (len : Z)
    : option (Z * unsubscribe_out) :=
  '(header, curdata) ← readChar buf 0;
  if negb (hdr_type header =? UNSUBSCRIBE) then Some (0, o)
  else
    '(rc, mylen) ← MQTTPacket_decodeBuf buf curdata;
    let curdata := curdata + rc in
    let enddata := curdata + mylen in
    '(id, curdata) ← readInt buf curdata;
    unsubscribe_loop (S (Z.to_nat mylen)) rc buf curdata enddata
      {| uns_dup := hdr_dup header; uns_packetid := u16 id; uns_count := 0;
         uns_topicFilters := uns_topicFilters o |}.

Definition MQTTSerialize_unsuback (buf : list Z) (buflen packetid : Z) : option (Z * list Z) :=
  if buflen <? 2 then Some (MQTTPACKET_BUFFER_TOO_SHORT, buf)
  else
    let header := set_hdr_type UNSUBACK 0 in
    '(buf, ptr) ← (writeChar header >=> writeLength 2 >=> writeInt packetid) (buf, 0);
    Some (ptr, buf).

(** ** The wire format *)

(** Topic filters with the requested QoS. *)
Definition subs_bytes (subs : list (list Z * Z)) : list Z :=
  concat (map (fun s => utf s.1 ++ [s.2]) subs).
Definition filters_bytes (topics : list (list Z)) : list Z := concat (map utf topics).

Definition sub_header (packettype dup : Z) : Z :=
  set_hdr_qos 1 (set_hdr_dup dup (set_hdr_type packettype 0)).

Definition subscribe_body (id : Z) (subs : list (list Z * Z)) : list Z := int16 id ++ subs_bytes subs.
Definition unsubscribe_body (id : Z) (topics : list (list Z)) : list Z := int16 id ++ filters_bytes topics.
Definition suback_body (id : Z) (qoss : list Z) : list Z := int16 id ++ qoss.

Definition framed (header : Z) (body : list Z) : list Z :=
  header :: remaining_length (zlen body) ++ body.

Definition subscribe_bytes (dup id : Z) (subs : list (list Z * Z)) : list Z :=
  framed (sub_header SUBSCRIBE dup) (subscribe_body id subs).
Definition unsubscribe_bytes (dup id : Z) (topics : list (list Z)) : list Z :=
  framed (sub_header UNSUBSCRIBE dup) (unsubscribe_body id topics).
Definition suback_bytes (id : Z) (qoss : list Z) : list Z :=
  framed (set_hdr_type SUBACK 0) (suback_body id qoss).

(** What the server's arrays hold after a SUBSCRIBE: the subscriptions, then
    whatever was in the rest of the arrays. *)
Definition subscribe_result (o : subscribe_out) (dup id : Z) (subs : list (list Z * Z)) : subscribe_out :=
  {| sub_dup := dup mod 2; sub_packetid := id; sub_count := zlen subs;
     sub_topicFilters := map (fun s => lenstring_of s.1) subs ++ drop (length subs) (sub_topicFilters o);
     sub_requestedQoSs := map snd subs ++ drop (length subs) (sub_requestedQoSs o) |}.

Definition unsubscribe_result (o : unsubscribe_out) (dup id : Z) (topics : list (list Z)) : unsubscribe_out :=
  {| uns_dup := dup mod 2; uns_packetid := id; uns_count := zlen topics;
     uns_topicFilters := map lenstring_of topics ++ drop (length topics) (uns_topicFilters o) |}.

(** ** Lemmas: serializing *)

#[local] Ltac unfold_hdr :=
  unfold sub_header, hdr_type, hdr_dup, hdr_qos, set_hdr_type, set_hdr_dup, set_hdr_qos in *.

Lemma sub_header_get packettype dup :
  hdr_type (sub_header packettype dup) = packettype mod 16 /\ hdr_dup (sub_header packettype dup) = dup mod 2.
Proof. unfold_hdr. split_and!; autorewrite with cint; done. Qed.

Lemma sub_header_byte packettype dup : 0 <= sub_header packettype dup < 256.
Proof. unfold_hdr. change 256 with (2 ^ 8). repeat apply set_bits_range; lia. Qed.

Lemma subs_bytes_cons t q subs : subs_bytes ((t, q) :: subs) = utf t ++ [q] ++ subs_bytes subs.
Proof. unfold subs_bytes. cbn. by rewrite <- app_assoc. Qed.

Lemma framed_fit h body :
  zlen body < 2 ^ 28 -> zlen (framed h body) <= MQTTPacket_len (zlen body).
Proof.
  intros. pose proof (MQTTPacket_len_enough (zlen body) ltac:(lia)).
  unfold framed. cbn [length]. rewrite length_app. lia.
Qed.

(** The header and the remaining length of a framed packet, read back. *)
Lemma framed_header h body buf :
  zlen body < 2 ^ 28 -> stored buf 0 (framed h body) ->
  exists k, readChar buf 0 = Some (h, 1) /\ MQTTPacket_decodeBuf buf 1 = Some (k, zlen body) /\
    stored buf (1 + k) body.
Proof.
  intros Hl Hs. exists (zlen (remaining_length (zlen body))). unfold framed in Hs.
  split; [by eapply readChar_stored|].
  apply stored_cons in Hs as [_ Hs]. cbn [Z.add] in Hs. apply stored_app in Hs as [H1 H2].
  split; [|done]. apply MQTTPacket_decodeBuf_stored; [lia|done].
Qed.

Lemma subscribeLength_spec pre tf (subs : list (list Z * Z)) acc :
  Forall2 (fun s t => string_ok s t.1) tf subs ->
  subscribeLength_loop (length tf) (zlen pre) (pre ++ tf) acc = Some (acc + zlen (subs_bytes subs)).
Proof.
  intros H. revert pre acc. induction H as [|s [t q] tf subs Hs _ IH]; intros pre acc.
  - cbn. f_equal. lia.
  - cbn [length subscribeLength_loop]. rewrite arr_get_middle. cbn [mbind option_bind].
    change (s :: tf) with ([s] ++ tf). rewrite app_assoc.
    replace (zlen pre + 1) with (zlen (pre ++ [s])) by (rewrite length_app; cbn; lia).
    rewrite IH, subs_bytes_cons, !length_app, (MQTTstrlen_ok _ _ Hs), !Nat2Z.inj_add, utf_zlen.
    cbn [length]. f_equal. cbn [fst]. lia.
Qed.

Lemma write_subscriptions_emits pre qpre tf (subs : list (list Z * Z)) :
  zlen pre = zlen qpre ->
  Forall2 (fun s t => string_ok s t.1) tf subs -> Forall (fun s => is_byte s.2) subs ->
  Emits (write_subscriptions (length tf) (zlen pre) (pre ++ tf) (qpre ++ map snd subs)) (subs_bytes subs).
Proof.
  intros Hp H. revert pre qpre Hp.
  induction H as [|s [t q] tf subs Hs _ IH]; intros pre qpre Hp Hb; [apply emits_skip|].
  apply Forall_cons_iff in Hb as [Hq Hb]. cbn [fst snd] in *.
  intros mem ptr Hr. cbn [length write_subscriptions map snd].
  rewrite arr_get_middle. cbn [mbind option_bind]. rewrite Hp, arr_get_middle, <- Hp. cbn [mbind option_bind].
  rewrite subs_bytes_cons.
  replace (pre ++ s :: tf) with ((pre ++ [s]) ++ tf) by by rewrite <- app_assoc.
  replace (qpre ++ q :: map snd subs) with ((qpre ++ [q]) ++ map snd subs) by by rewrite <- app_assoc.
  replace (zlen pre + 1) with (zlen (pre ++ [s])) by (rewrite length_app; cbn; lia).
  revert mem ptr Hr. change (Emits (writeMQTTString s >=> writeChar q >=>
    write_subscriptions (length tf) (zlen (pre ++ [s])) ((pre ++ [s]) ++ tf) ((qpre ++ [q]) ++ map snd subs))
    (utf t ++ [q] ++ subs_bytes subs)).
  apply emits_seq; [by apply emits_string|]. apply emits_seq.
  - eapply emits_eq; [apply emits_char|]. by rewrite u8_id.
  - apply IH; [|done]. rewrite !length_app. cbn. lia.
Qed.

Lemma write_qos_emits pre qoss :
  Forall is_byte qoss -> Emits (write_qos (length qoss) (zlen pre) (pre ++ qoss)) qoss.
Proof.
  intros H. revert pre. induction H as [|q qoss Hq _ IH]; intros pre; [apply emits_skip|].
  intros mem ptr Hr. cbn [length write_qos]. rewrite arr_get_middle. cbn [mbind option_bind].
  replace (pre ++ q :: qoss) with ((pre ++ [q]) ++ qoss) by by rewrite <- app_assoc.
  replace (zlen pre + 1) with (zlen (pre ++ [q])) by (rewrite length_app; cbn; lia).
  revert mem ptr Hr. change (Emits (writeChar q >=>
    write_qos (length qoss) (zlen (pre ++ [q])) ((pre ++ [q]) ++ qoss)) ([q] ++ qoss)).
  apply emits_seq; [|apply IH]. eapply emits_eq; [apply emits_char|]. by rewrite u8_id.
Qed.

Lemma unsubscribeLength_spec pre tf topics acc :
  Forall2 string_ok tf topics ->
  unsubscribeLength_loop (length tf) (zlen pre) (pre ++ tf) acc = Some (acc + zlen (filters_bytes topics)).
Proof.
  intros H. revert pre acc. induction H as [|s t tf topics Hs _ IH]; intros pre acc.
  - cbn. f_equal. lia.
  - cbn [length unsubscribeLength_loop]. rewrite arr_get_middle. cbn [mbind option_bind].
    change (s :: tf) with ([s] ++ tf). rewrite app_assoc.
    replace (zlen pre + 1) with (zlen (pre ++ [s])) by (rewrite length_app; cbn; lia).
    rewrite IH. unfold filters_bytes. cbn [map concat].
    rewrite length_app, (MQTTstrlen_ok _ _ Hs), Nat2Z.inj_add, utf_zlen. f_equal. lia.
Qed.

Lemma write_filters_emits pre tf topics :
  Forall2 string_ok tf topics ->
  Emits (write_filters (length tf) (zlen pre) (pre ++ tf)) (filters_bytes topics).
Proof.
  intros H. revert pre. induction H as [|s t tf topics Hs _ IH]; intros pre; [apply emits_skip|].
  intros mem ptr Hr. cbn [length write_filters]. rewrite arr_get_middle. cbn [mbind option_bind].
  replace (pre ++ s :: tf) with ((pre ++ [s]) ++ tf) by by rewrite <- app_assoc.
  replace (zlen pre + 1) with (zlen (pre ++ [s])) by (rewrite length_app; cbn; lia).
  revert mem ptr Hr. change (Emits (writeMQTTString s >=>
    write_filters (length tf) (zlen (pre ++ [s])) ((pre ++ [s]) ++ tf)) (utf t ++ filters_bytes topics)).
  apply emits_seq; [by apply emits_string|apply IH].
Qed.

Lemma MQTTSerialize_subscribe_spec buf buflen dup id tf subs :
  0 <= id < 65536 -> Forall2 (fun s t => string_ok s t.1) tf subs ->
  Forall (fun s => is_byte s.2) subs -> zlen (subscribe_body id subs) < 2 ^ 28 -> buflen <= zlen buf ->
  let r := MQTTSerialize_subscribe buf buflen dup id (zlen tf) tf (map snd subs) in
  if buflen <? MQTTPacket_len (zlen (subscribe_body id subs))
  then r = Some (MQTTPACKET_BUFFER_TOO_SHORT, buf)
  else serialized r buf (subscribe_bytes dup id subs).
Proof.
  intros Hi Ht Hq Hl Hb r. pose proof (framed_fit (sub_header SUBSCRIBE dup) _ Hl).
  unfold r, MQTTSerialize_subscribe, MQTTSerialize_subscribeLength.
  rewrite Nat2Z.id, (subscribeLength_spec [] tf subs 2 Ht : subscribeLength_loop _ 0 tf 2 = _). cbn [mbind option_bind].
  replace (2 + zlen (subs_bytes subs)) with (zlen (subscribe_body id subs))
    by (unfold subscribe_body; rewrite length_app; cbn [length int16]; lia).
  destruct (Z.ltb_spec buflen (MQTTPacket_len (zlen (subscribe_body id subs)))); [done|].
  apply run_writer; [|unfold subscribe_bytes; lia].
  eapply emits_eq.
  { apply emits_seq; [apply emits_char|]. apply emits_seq; [apply emits_length; lia|].
    apply emits_seq; [apply emits_int; lia|]. by apply (write_subscriptions_emits [] []). }
  fold (sub_header SUBSCRIBE dup). by rewrite u8_id by apply sub_header_byte.
Qed.

Lemma MQTTSerialize_unsubscribe_spec buf buflen dup id tf topics :
  0 <= id < 65536 -> Forall2 string_ok tf topics ->
  zlen (unsubscribe_body id topics) < 2 ^ 28 -> buflen <= zlen buf ->
  let r := MQTTSerialize_unsubscribe buf buflen dup id (zlen tf) tf in
  if buflen <? MQTTPacket_len (zlen (unsubscribe_body id topics))
  then r = Some (MQTTPACKET_BUFFER_TOO_SHORT, buf)
  else serialized r buf (unsubscribe_bytes dup id topics).
Proof.
  intros Hi Ht Hl Hb r. pose proof (framed_fit (sub_header UNSUBSCRIBE dup) _ Hl).
  unfold r, MQTTSerialize_unsubscribe, MQTTSerialize_unsubscribeLength.
  rewrite Nat2Z.id, (unsubscribeLength_spec [] tf topics 2 Ht : unsubscribeLength_loop _ 0 tf 2 = _). cbn [mbind option_bind].
  replace (2 + zlen (filters_bytes topics)) with (zlen (unsubscribe_body id topics))
    by (unfold unsubscribe_body; rewrite length_app; cbn [length int16]; lia).
  destruct (Z.ltb_spec buflen (MQTTPacket_len (zlen (unsubscribe_body id topics)))); [done|].
  apply run_writer; [|unfold unsubscribe_bytes; lia].
  eapply emits_eq.
  { apply emits_seq; [apply emits_char|]. apply emits_seq; [apply emits_length; lia|].
    apply emits_seq; [apply emits_int; lia|]. by apply (write_filters_emits []). }
  fold (sub_header UNSUBSCRIBE dup). by rewrite u8_id by apply sub_header_byte.
Qed.

(** ** Lemmas: deserializing *)

Lemma subscribe_loop_stored subs : forall fuel rc buf p e dup id tf tfs qs qss,
  stored buf p (subs_bytes subs) -> p + zlen (subs_bytes subs) = e ->
  zlen tf = zlen qs -> (length subs <= length tfs)%nat -> (length subs <= length qss)%nat ->
  (length subs < fuel)%nat ->
  subscribe_loop fuel rc buf p e
    {| sub_dup := dup; sub_packetid := id; sub_count := zlen tf;
       sub_topicFilters := tf ++ tfs; sub_requestedQoSs := qs ++ qss |} =
  Some (1, {| sub_dup := dup; sub_packetid := id; sub_count := zlen tf + zlen subs;
    sub_topicFilters := tf ++ map (fun s => lenstring_of s.1) subs ++ drop (length subs) tfs;
    sub_requestedQoSs := qs ++ map snd subs ++ drop (length subs) qss |}).
Proof.
  induction subs as [|[t q] subs IH]; intros fuel rc buf p e dup id tf tfs qs qss Hs He Hl H1 H2 Hf;
    (destruct fuel as [|fuel]; [cbn in Hf; lia|]); cbn [subscribe_loop].
  - cbn in He. rewrite (proj2 (Z.ltb_ge _ _)) by lia. cbn. by rewrite Z.add_0_r.
  - rewrite subs_bytes_cons in Hs, He. cbn [length] in *.
    destruct tfs as [|f tfs]; [cbn in H1; lia|]. destruct qss as [|q0 qss]; [cbn in H2; lia|].
    peel Hs He A1. pose proof (utf_zlen t). cbn [sub_topicFilters sub_count sub_requestedQoSs].
    rewrite (proj2 (Z.ltb_lt _ _)) by lia. rewrite arr_get_middle. cbn [mbind option_bind].
    rewrite (readMQTTLenString_stored _ _ _ _ _ A1) by lia. cbn [mbind option_bind].
    rewrite arr_set_middle. cbn [mbind option_bind Z.eqb].
    peel Hs He A2. rewrite (proj2 (Z.leb_gt _ _)) by lia.
    rewrite (readChar_stored _ _ _ _ A2). cbn [mbind option_bind].
    rewrite Hl, arr_set_middle, <- Hl. cbn [mbind option_bind sub_topicFilters sub_dup sub_packetid].
    replace (tf ++ lenstring_of t :: tfs) with ((tf ++ [lenstring_of t]) ++ tfs) by by rewrite <- app_assoc.
    replace (qs ++ q :: qss) with ((qs ++ [q]) ++ qss) by by rewrite <- app_assoc.
    replace (zlen tf + 1) with (zlen (tf ++ [lenstring_of t])) by (rewrite length_app; cbn; lia).
    rewrite (IH _ _ _ _ e); [|done|done| | | |lia].
    + cbn [map drop fst snd]. rewrite !length_app, <- !app_assoc. cbn [length].
      do 3 f_equal. lia.
    + rewrite !length_app. cbn. lia.
    + cbn in H1. lia.
    + cbn in H2. lia.
Qed.

Lemma MQTTDeserialize_subscribe_stored o maxcount buf buflen dup id subs :
  0 <= id < 65536 -> zlen (subscribe_body id subs) < 2 ^ 28 ->
  (length subs <= length (sub_topicFilters o))%nat -> (length subs <= length (sub_requestedQoSs o))%nat ->
  stored buf 0 (subscribe_bytes dup id subs) ->
  MQTTDeserialize_subscribe o maxcount buf buflen = Some (1, subscribe_result o dup id subs).
Proof.
  intros Hi Hl H1 H2 Hs. destruct (framed_header _ _ _ Hl Hs) as (k & R1 & R2 & H).
  destruct (sub_header_get SUBSCRIBE dup) as [G1 G2].
  unfold MQTTDeserialize_subscribe. rewrite R1. cbn [mbind option_bind].
  rewrite G1. change (SUBSCRIBE mod 16) with SUBSCRIBE. rewrite Z.eqb_refl. cbn [negb].
  rewrite R2. cbn [mbind option_bind].
  remember (1 + k + zlen (subscribe_body id subs)) as e eqn:He. symmetry in He.
  unfold subscribe_body in H, He at 1. peel H He H3.
  rewrite (readInt_stored _ _ id) by (lia || done). cbn [mbind option_bind].
  rewrite G2, u16_id by lia.
  assert (Hc : (length subs <= length (subs_bytes subs))%nat).
  { clear. induction subs as [|[t q] subs IH]; [cbn; lia|].
    rewrite subs_bytes_cons, !length_app. cbn [length]. lia. }
  apply (subscribe_loop_stored subs _ k buf (1 + k + 2) e (dup mod 2) id [] _ [] _); try done.
  unfold subscribe_body. rewrite length_app. cbn [length int16]. lia.
Qed.

Lemma unsubscribe_loop_stored topics : forall fuel rc buf p e dup id tf tfs,
  stored buf p (filters_bytes topics) -> p + zlen (filters_bytes topics) = e ->
  (length topics <= length tfs)%nat -> (length topics < fuel)%nat ->
  unsubscribe_loop fuel rc buf p e
    {| uns_dup := dup; uns_packetid := id; uns_count := zlen tf; uns_topicFilters := tf ++ tfs |} =
  Some (1, {| uns_dup := dup; uns_packetid := id; uns_count := zlen tf + zlen topics;
    uns_topicFilters := tf ++ map lenstring_of topics ++ drop (length topics) tfs |}).
Proof.
  induction topics as [|t topics IH]; intros fuel rc buf p e dup id tf tfs Hs He H1 Hf;
    (destruct fuel as [|fuel]; [cbn in Hf; lia|]); cbn [unsubscribe_loop].
  - cbn in He. rewrite (proj2 (Z.ltb_ge _ _)) by lia. cbn. by rewrite Z.add_0_r.
  - change (filters_bytes (t :: topics)) with (utf t ++ filters_bytes topics) in Hs, He.
    cbn [length] in *. destruct tfs as [|f tfs]; [cbn in H1; lia|].
    peel Hs He A1. pose proof (utf_zlen t). cbn [uns_topicFilters uns_count].
    rewrite (proj2 (Z.ltb_lt _ _)) by lia. rewrite arr_get_middle. cbn [mbind option_bind].
    rewrite (readMQTTLenString_stored _ _ _ _ _ A1) by lia. cbn [mbind option_bind].
    rewrite arr_set_middle. cbn [mbind option_bind Z.eqb uns_dup uns_packetid].
    replace (tf ++ lenstring_of t :: tfs) with ((tf ++ [lenstring_of t]) ++ tfs) by by rewrite <- app_assoc.
    replace (zlen tf + 1) with (zlen (tf ++ [lenstring_of t])) by (rewrite length_app; cbn; lia).
    rewrite (IH _ _ _ _ e); [|done|done| |lia].
    + cbn [map drop]. rewrite !length_app, <- !app_assoc. cbn [length]. do 3 f_equal. lia.
    + cbn in H1. lia.
Qed.

Lemma MQTTDeserialize_unsubscribe_stored o maxcount buf buflen dup id topics :
  0 <= id < 65536 -> zlen (unsubscribe_body id topics) < 2 ^ 28 ->
  (length topics <= length (uns_topicFilters o))%nat ->
  stored buf 0 (unsubscribe_bytes dup id topics) ->
  MQTTDeserialize_unsubscribe o maxcount buf buflen = Some (1, unsubscribe_result o dup id topics).
Proof.
  intros Hi Hl H1 Hs. destruct (framed_header _ _ _ Hl Hs) as (k & R1 & R2 & H).
  destruct (sub_header_get UNSUBSCRIBE dup) as [G1 G2].
  unfold MQTTDeserialize_unsubscribe. rewrite R1. cbn [mbind option_bind].
  rewrite G1. change (UNSUBSCRIBE mod 16) with UNSUBSCRIBE. rewrite Z.eqb_refl. cbn [negb].
  rewrite R2. cbn [mbind option_bind].
  remember (1 + k + zlen (unsubscribe_body id topics)) as e eqn:He. symmetry in He.
  unfold unsubscribe_body in H, He at 1. peel H He H3.
  rewrite (readInt_stored _ _ id) by (lia || done). cbn [mbind option_bind].
  rewrite G2, u16_id by lia.
  assert (Hc : (length topics <= length (filters_bytes topics))%nat).
  { clear. induction topics as [|t topics IH]; [cbn; lia|]. unfold filters_bytes in *.
    cbn [map concat length]. rewrite length_app. cbn. lia. }
  apply (unsubscribe_loop_stored topics _ k buf (1 + k + 2) e (dup mod 2) id [] _); try done.
  unfold unsubscribe_body. rewrite length_app. cbn [length int16]. lia.
Qed.

(** The grant loop, as long as neither the array nor [maxcount] is exceeded. *)
Lemma suback_loop_stored qoss : forall fuel maxcount buf p e id qs qss,
  stored buf p qoss -> p + zlen qoss = e -> (length qoss <= length qss)%nat ->
  zlen qs + zlen qoss <= maxcount + 1 -> (length qoss < fuel)%nat ->
  suback_loop fuel maxcount buf p e
    {| sa_packetid := id; sa_count := zlen qs; sa_grantedQoSs := qs ++ qss |} =
  Some (1, {| sa_packetid := id; sa_count := zlen qs + zlen qoss;
              sa_grantedQoSs := qs ++ qoss ++ drop (length qoss) qss |}).
Proof.
  induction qoss as [|q qoss IH]; intros fuel maxcount buf p e id qs qss Hs He Hq Hm Hf;
    (destruct fuel as [|fuel]; [cbn in Hf; lia|]); cbn [suback_loop].
  - cbn in He. rewrite (proj2 (Z.ltb_ge _ _)) by lia. cbn. by rewrite Z.add_0_r.
  - cbn [length] in *. destruct qss as [|q0 qss]; [cbn in Hq; lia|].
    change (q :: qoss) with ([q] ++ qoss) in Hs.
    apply stored_app in Hs as [H1 Hs]. cbn [sa_count sa_grantedQoSs sa_packetid].
    rewrite (proj2 (Z.ltb_lt _ _)), (proj2 (Z.ltb_ge _ _)) by lia.
    rewrite (readChar_stored _ _ _ _ H1). cbn [mbind option_bind].
    rewrite arr_set_middle. cbn [mbind option_bind].
    replace (qs ++ q :: qss) with ((qs ++ [q]) ++ qss) by by rewrite <- app_assoc.
    replace (zlen qs + 1) with (zlen (qs ++ [q])) by (rewrite length_app; cbn; lia).
    rewrite (IH _ _ _ _ e); [|done|lia| | |lia].
    + cbn [drop]. rewrite !length_app, <- !app_assoc. cbn [length]. do 3 f_equal. lia.
    + cbn in Hq. lia.
    + rewrite length_app. cbn. lia.
Qed.

Lemma suback_header_get : hdr_type (set_hdr_type SUBACK 0) = SUBACK.
Proof. done. Qed.

Lemma MQTTDeserialize_suback_prefix o maxcount buf buflen id qoss :
  0 <= id < 65536 -> zlen (suback_body id qoss) < 2 ^ 28 -> stored buf 0 (suback_bytes id qoss) ->
  exists p, stored buf p qoss /\
    MQTTDeserialize_suback o maxcount buf buflen =
      suback_loop (S (Z.to_nat (zlen (suback_body id qoss)))) maxcount buf p (p + zlen qoss)
        {| sa_packetid := id; sa_count := 0; sa_grantedQoSs := sa_grantedQoSs o |}.
Proof.
  intros Hi Hl Hs. destruct (framed_header _ _ _ Hl Hs) as (k & R1 & R2 & H).
  exists (1 + k + 2). unfold suback_body in H. apply stored_app in H as [H1 H].
  change (Z.of_nat (length (int16 id))) with 2 in H. split; [done|].
  unfold MQTTDeserialize_suback. rewrite R1. cbn [mbind option_bind].
  rewrite suback_header_get, Z.eqb_refl. cbn [negb]. rewrite R2. cbn [mbind option_bind].
  assert (E : zlen (suback_body id qoss) = 2 + zlen qoss)
    by (unfold suback_body; rewrite length_app; cbn [length int16]; lia).
  rewrite (proj2 (Z.ltb_ge _ _)) by lia.
  rewrite (readInt_stored _ _ id) by (lia || done). cbn [mbind option_bind].
  rewrite u16_id by lia. f_equal. lia.
Qed.

(** More fuel than remaining bytes never changes the result. *)
Lemma suback_loop_fuel f1 : forall f2 maxcount buf p e o,
  e - p < Z.of_nat f1 -> e - p < Z.of_nat f2 -> (0 < f1)%nat -> (0 < f2)%nat ->
  suback_loop f1 maxcount buf p e o = suback_loop f2 maxcount buf p e o.
Proof.
  induction f1 as [|f1 IH]; intros f2 maxcount buf p e o H1 H2 H3 H4; [lia|].
  destruct f2 as [|f2]; [lia|]. cbn [suback_loop].
  destruct (Z.ltb_spec p e); [|done]. destruct (maxcount <? sa_count o); [done|].
  unfold readChar. destruct (mem_get buf p); cbn; [|done].
  destruct (arr_set _ _ _); cbn; [|done]. apply IH; lia.
Qed.

(** ** Properties *)

(** C34: a SUBSCRIBE survives serializing and deserializing: for any list of
    topic filters with QoS bytes, the server's arrays receive them in order,
    with the packet id and count, when the arrays have room for them. *)
Theorem subscribe_roundtrip buf buflen dup id tf subs o maxcount len :
  0 <= id < 65536 -> Forall2 (fun s t => string_ok s t.1) tf subs ->
  Forall (fun s => is_byte s.2) subs -> zlen (subscribe_body id subs) < 2 ^ 28 ->
  MQTTPacket_len (zlen (subscribe_body id subs)) <= buflen -> buflen <= zlen buf ->
  (length subs <= length (sub_topicFilters o))%nat -> (length subs <= length (sub_requestedQoSs o))%nat ->
  exists n buf', MQTTSerialize_subscribe buf buflen dup id (zlen tf) tf (map snd subs) = Some (n, buf') /\
    n <= buflen /\
    MQTTDeserialize_subscribe o maxcount buf' len = Some (1, subscribe_result o dup id subs).
Proof.
  intros Hi Ht Hq Hl Hlen Hb H1 H2.
  pose proof (MQTTSerialize_subscribe_spec buf buflen dup id tf subs Hi Ht Hq Hl Hb) as H.
  pose proof (framed_fit (sub_header SUBSCRIBE dup) _ Hl).
  cbv zeta in H. rewrite (proj2 (Z.ltb_ge _ _)) in H by lia.
  apply serialized_stored in H as (buf' & -> & Hs & _).
  exists (zlen (subscribe_bytes dup id subs)), buf'. split; [done|].
  split; [unfold subscribe_bytes; lia|]. by apply MQTTDeserialize_subscribe_stored.
Qed.

Lemma subscribe_roundtrip_witness :
  let cs bs := {| cstring := Some bs; lenstring := {| len := 0; data := None |} |} in
  let subs := [([97], 1); ([98; 47; 35], 0)] in
  let o := {| sub_dup := 0; sub_packetid := 0; sub_count := 0;
              sub_topicFilters := replicate 3 MQTTString_initializer; sub_requestedQoSs := [9; 9; 9] |} in
  exists n buf', MQTTSerialize_subscribe (replicate 30 0) 30 0 12 2 [cs [97]; cs [98; 47; 35]] (map snd subs) =
      Some (n, buf') /\ n <= 30 /\
    MQTTDeserialize_subscribe o 3 buf' 30 = Some (1, subscribe_result o 0 12 subs).
Proof.
  intros cs subs o.
  apply (subscribe_roundtrip (replicate 30 0) 30 0 12 [cs [97]; cs [98; 47; 35]] subs o 3 30);
    try (vm_compute; congruence); try lia.
  - unfold string_ok. repeat constructor; cbn; try lia; congruence.
  - repeat constructor; cbn; lia.
  - cbn. lia.
  - cbn. lia.
Defined.

(** likewise an UNSUBSCRIBE: the topics arrive in order in the server's array. *)
Theorem unsubscribe_roundtrip buf buflen dup id tf topics o maxcount len :
  0 <= id < 65536 -> Forall2 string_ok tf topics -> zlen (unsubscribe_body id topics) < 2 ^ 28 ->
  MQTTPacket_len (zlen (unsubscribe_body id topics)) <= buflen -> buflen <= zlen buf ->
  (length topics <= length (uns_topicFilters o))%nat ->
  exists n buf', MQTTSerialize_unsubscribe buf buflen dup id (zlen tf) tf = Some (n, buf') /\
    n <= buflen /\
    MQTTDeserialize_unsubscribe o maxcount buf' len = Some (1, unsubscribe_result o dup id topics).
Proof.
  intros Hi Ht Hl Hlen Hb H1.
  pose proof (MQTTSerialize_unsubscribe_spec buf buflen dup id tf topics Hi Ht Hl Hb) as H.
  pose proof (framed_fit (sub_header UNSUBSCRIBE dup) _ Hl).
  cbv zeta in H. rewrite (proj2 (Z.ltb_ge _ _)) in H by lia.
  apply serialized_stored in H as (buf' & -> & Hs & _).
  exists (zlen (unsubscribe_bytes dup id topics)), buf'. split; [done|].
  split; [unfold unsubscribe_bytes; lia|]. by apply MQTTDeserialize_unsubscribe_stored.
Qed.

Lemma unsubscribe_roundtrip_witness :
  let cs bs := {| cstring := Some bs; lenstring := {| len := 0; data := None |} |} in
  let o := {| uns_dup := 0; uns_packetid := 0; uns_count := 0;
              uns_topicFilters := replicate 2 MQTTString_initializer |} in
  exists n buf', MQTTSerialize_unsubscribe (replicate 30 0) 30 1 12 1 [cs [97; 98]] = Some (n, buf') /\
    n <= 30 /\
    MQTTDeserialize_unsubscribe o 2 buf' 30 = Some (1, unsubscribe_result o 1 12 [[97; 98]]).
Proof.
  intros cs o.
  apply (unsubscribe_roundtrip (replicate 30 0) 30 1 12 [cs [97; 98]] [[97; 98]] o 2 30);
    try (vm_compute; congruence); try lia.
  - unfold string_ok. repeat constructor; cbn; try lia; congruence.
  - cbn. lia.
Defined.

(** With one grant more than free elements, the store runs off the array. *)
Lemma suback_loop_overflow qss : forall qoss fuel maxcount buf p e id qs,
  stored buf p qoss -> p + zlen qoss = e -> length qoss = S (length qss) ->
  zlen qs + zlen qss <= maxcount -> (length qoss < fuel)%nat ->
  suback_loop fuel maxcount buf p e
    {| sa_packetid := id; sa_count := zlen qs; sa_grantedQoSs := qs ++ qss |} = None.
Proof.
  induction qss as [|q0 qss IH]; intros qoss fuel maxcount buf p e id qs Hs He Hl Hm Hf;
    (destruct fuel as [|fuel]; [lia|]); (destruct qoss as [|q qoss]; [done|]);
    cbn [suback_loop length] in *; cbn [sa_count sa_grantedQoSs sa_packetid];
    rewrite (proj2 (Z.ltb_lt _ _)), (proj2 (Z.ltb_ge _ _)) by lia;
    rewrite (readChar_stored _ _ _ _ Hs); cbn [mbind option_bind].
  - rewrite app_nil_r, arr_set_None by lia. done.
  - rewrite arr_set_middle. cbn [mbind option_bind].
    replace (qs ++ q :: qss) with ((qs ++ [q]) ++ qss) by by rewrite <- app_assoc.
    replace (zlen qs + 1) with (zlen (qs ++ [q])) by (rewrite length_app; cbn; lia).
    apply stored_cons in Hs as [_ Hs].
    apply (IH qoss _ _ _ _ e); [done|lia|lia| |lia]. rewrite length_app. cbn. lia.
Qed.

(** a SUBACK with as many grants as the caller's array has elements is read
    in full; with one grant more, [MQTTDeserialize_suback] stores past the end
    of that array, because it compares [count > maxcount] before storing. *)
Theorem suback_overflow buf id qoss o len :
  0 <= id < 65536 -> zlen (suback_body id qoss) < 2 ^ 28 -> stored buf 0 (suback_bytes id qoss) ->
  (length qoss = length (sa_grantedQoSs o) ->
    MQTTDeserialize_suback o (zlen (sa_grantedQoSs o)) buf len =
      Some (1, {| sa_packetid := id; sa_count := zlen qoss; sa_grantedQoSs := qoss |})) /\
  (length qoss = S (length (sa_grantedQoSs o)) ->
    MQTTDeserialize_suback o (zlen (sa_grantedQoSs o)) buf len = None).
Proof.
  intros Hi Hl Hs.
  assert (Hb : zlen (suback_body id qoss) = 2 + zlen qoss)
    by (unfold suback_body; rewrite length_app; cbn [length int16]; lia).
  destruct (MQTTDeserialize_suback_prefix o (zlen (sa_grantedQoSs o)) buf len id qoss Hi Hl Hs)
    as (p & Hp & ->).
  split; intros Hn.
  - pose proof (suback_loop_stored qoss (S (Z.to_nat (zlen (suback_body id qoss))))
      (zlen (sa_grantedQoSs o)) buf p (p + zlen qoss) id [] (sa_grantedQoSs o)) as H.
    cbn [length app] in H. change (Z.of_nat 0) with 0 in H. rewrite H by (done || lia).
    by rewrite Hn, drop_all, app_nil_r.
  - apply (suback_loop_overflow (sa_grantedQoSs o) qoss _ _ buf p (p + zlen qoss) id []);
      (done || (cbn [length]; lia)).
Qed.

Lemma suback_overflow_witness :
  let o := {| sa_packetid := 0; sa_count := 0; sa_grantedQoSs := [-1] |} in
  (length [1; 2] = length (sa_grantedQoSs o) ->
    MQTTDeserialize_suback o (zlen (sa_grantedQoSs o)) [144; 4; 0; 9; 1; 2] 6 =
      Some (1, {| sa_packetid := 9; sa_count := zlen [1; 2]; sa_grantedQoSs := [1; 2] |})) /\
  (length [1; 2] = S (length (sa_grantedQoSs o)) ->
    MQTTDeserialize_suback o (zlen (sa_grantedQoSs o)) [144; 4; 0; 9; 1; 2] 6 = None).
Proof.
  intros o. apply (suback_overflow [144; 4; 0; 9; 1; 2] 9 [1; 2] o 6); [lia|reflexivity|].
  split; [lia|]. by exists [], [].
Defined.
