(* ===== verification/RtxMem.v ===== *)
(** * The memory the RTX kernel works on

    The control blocks of the kernel ([rt_TypeDef.h], [os_tcb.h]) are C structs
    that point at each other, are chained into several lists at once and are
    reached through pointers of several struct types.  They are modelled where
    they live, in one memory: a finite map from an address and a field to the
    value stored there, so that aliasing is the one of the code.

    - A cast between [P_TCB], [P_XCB], [P_MCB], [P_SCB] and [P_MUCB] keeps the
      address; the code reads through a cast pointer only [cb_type] and
      [p_lnk], which all five structs hold at the same place.
    - Global variables sit at addresses of their own.
    - Reading or writing a cell that is not part of the memory (the null
      pointer, an index outside an array) has no defined outcome: [Stuck].
      A loop that does not end is [Stuck] as well.
    - [os_error] never returns; it is the outcome [Halt]. *)

From S2P Require Export Prelude.
From stdpp Require Export functions list gmap.
#[global] Open Scope Z_scope.

(** ** Fields *)

Inductive field :=
  (* struct OS_TCB, and the part of it that the other blocks share *)
  | cb_type | state | prio | task_id | p_lnk | p_rlnk | p_dlnk | p_blnk
  | delta_time | interval_time | events | waits | msg
  | stack_frame | priv_stack | tsk_stack | stack | ptask
  (* struct OS_MCB and struct OS_PSQ *)
  | isr_st | first_ | last_ | count_ | size_ | msgs (i : Z) | q_id (i : Z) | q_arg (i : Z)
  (* struct OS_SCB *)
  | mask | tokens
  (* struct OS_MUCB *)
  | level | owner
  (* struct OS_BM *)
  | free | end_ | blk_size
  (* struct OS_TSK, struct OS_ROBIN *)
  | run | new_tsk | task | time | tout
  (* scalar variables, array elements, words of stacks and memory pools *)
  | value | elem (i : Z) | word
  (* struct os_timer_cb_ of rt_CMSIS.c *)
  | next_ | type_ | tcnt | icnt | arg_ | timer_
  (* the definition structs of cmsis_os.h *)
  | pthread | tpriority | stacksize | stack_pointer | ptimer | mutex_ | semaphore_
  | pool_sz | item_sz | queue_sz | pool_.

#[export] Instance field_eq_dec : EqDecision field.
Proof. solve_decision. Defined.

Definition field_code (f : field) : Z * Z :=
  match f with
  | cb_type => (0, 0) | state => (1, 0) | prio => (2, 0) | task_id => (3, 0)
  | p_lnk => (4, 0) | p_rlnk => (5, 0) | p_dlnk => (6, 0) | p_blnk => (7, 0)
  | delta_time => (8, 0) | interval_time => (9, 0) | events => (10, 0) | waits => (11, 0)
  | msg => (12, 0) | stack_frame => (13, 0) | priv_stack => (14, 0) | tsk_stack => (15, 0)
  | stack => (16, 0) | ptask => (17, 0) | isr_st => (18, 0) | first_ => (19, 0)
  | last_ => (20, 0) | count_ => (21, 0) | size_ => (22, 0) | msgs i => (23, i)
  | q_id i => (24, i) | q_arg i => (25, i) | mask => (26, 0) | tokens => (27, 0)
  | level => (28, 0) | owner => (29, 0) | free => (30, 0) | end_ => (31, 0)
  | blk_size => (32, 0) | run => (33, 0) | new_tsk => (34, 0) | task => (35, 0)
  | time => (36, 0) | tout => (37, 0) | value => (38, 0) | elem i => (39, i) | word => (40, 0)
  | next_ => (41, 0) | type_ => (42, 0) | tcnt => (43, 0) | icnt => (44, 0)
  | arg_ => (45, 0) | timer_ => (46, 0) | pthread => (47, 0) | tpriority => (48, 0)
  | stacksize => (49, 0) | stack_pointer => (50, 0) | ptimer => (51, 0) | mutex_ => (52, 0)
  | semaphore_ => (53, 0) | pool_sz => (54, 0) | item_sz => (55, 0) | queue_sz => (56, 0)
  | pool_ => (57, 0)
  end.

Definition field_decode (c : Z * Z) : field :=
  match c with
  | (0, _) => cb_type | (1, _) => state | (2, _) => prio | (3, _) => task_id
  | (4, _) => p_lnk | (5, _) => p_rlnk | (6, _) => p_dlnk | (7, _) => p_blnk
  | (8, _) => delta_time | (9, _) => interval_time | (10, _) => events | (11, _) => waits
  | (12, _) => msg | (13, _) => stack_frame | (14, _) => priv_stack | (15, _) => tsk_stack
  | (16, _) => stack | (17, _) => ptask | (18, _) => isr_st | (19, _) => first_
  | (20, _) => last_ | (21, _) => count_ | (22, _) => size_ | (23, i) => msgs i
  | (24, i) => q_id i | (25, i) => q_arg i | (26, _) => mask | (27, _) => tokens
  | (28, _) => level | (29, _) => owner | (30, _) => free | (31, _) => end_
  | (32, _) => blk_size | (33, _) => run | (34, _) => new_tsk | (35, _) => task
  | (36, _) => time | (37, _) => tout | (38, _) => value | (39, i) => elem i | (41, _) => next_
  | (42, _) => type_ | (43, _) => tcnt | (44, _) => icnt | (45, _) => arg_
  | (46, _) => timer_ | (47, _) => pthread | (48, _) => tpriority | (49, _) => stacksize
  | (50, _) => stack_pointer | (51, _) => ptimer | (52, _) => mutex_ | (53, _) => semaphore_
  | (54, _) => pool_sz | (55, _) => item_sz | (56, _) => queue_sz | (57, _) => pool_
  | (_, _) => word
  end.

#[export] Instance field_countable : Countable field.
Proof. by refine (inj_countable' field_code field_decode _); intros []. Defined.

Abbreviation mem := (gmap (Z * field) Z).

Implicit Types (p v : Z) (f : field) (m : gmap (Z * field) Z).

(** ** Computations *)

Inductive outcome (A : Type) :=
  | Ret (a : A) (m : mem)
  | Halt (err_code : Z)
  | Stuck.
Arguments Ret {A} a m.
Arguments Halt {A} err_code.
Arguments Stuck {A}.

Definition M (A : Type) : Type := mem -> outcome A.

#[export] Instance M_ret : MRet M := fun A a m => Ret a m.
#[export] Instance M_bind : MBind M := fun A B k c m =>
  match c m with
  | Ret a m' => k a m'
  | Halt e => Halt e
  | Stuck => Stuck
  end.

(** [p->f] *)
Definition load (p : Z) (f : field) : M Z := fun m =>
  match m !! (p, f) with Some v => Ret v m | None => Stuck end.

(** [p->f = v] *)
Definition store (p : Z) (f : field) (v : Z) : M unit := fun m =>
  match m !! (p, f) with Some _ => Ret tt (<[(p, f) := v]> m) | None => Stuck end.

Definition stuck {A} : M A := fun _ => Stuck.
Definition halt {A} (err_code : Z) : M A := fun _ => Halt err_code.

(** [if (b) c], without an else part *)
Definition when (b : bool) (c : M unit) : M unit := if b then c else mret tt.

(** The bound on the number of iterations of the loops that follow pointers:
    one more than the number of cells of the memory.  A list without a cycle
    is shorter. *)
Definition mem_fuel : M nat := fun m => Ret (S (size m)) m.

(** [for (i = 0; i < n; i++) body (i)] *)
Fixpoint for_loop (n : nat) (i : Z) (body : Z -> M unit) : M unit :=
  match n with
  | O => mret tt
  | S n => body i ;; for_loop n (i + 1) body
  end.

Definition NULL : Z := 0.

(** ** Running a computation to a result

    [wp c Q m]: started in [m], [c] returns, and its result and the memory it
    leaves satisfy [Q]. *)

Definition wp {A} (c : M A) (Q : A -> mem -> Prop) (m : mem) : Prop :=
  match c m with Ret a m' => Q a m' | _ => False end.

Lemma wp_out {A} (c : M A) Q m : wp c Q m -> exists a m', c m = Ret a m' /\ Q a m'.
Proof. unfold wp. destruct (c m); [by eauto|done..]. Qed.

Lemma wp_in {A} (c : M A) (Q : A -> mem -> Prop) m a m' : c m = Ret a m' -> Q a m' -> wp c Q m.
Proof. unfold wp. by intros ->. Qed.

Lemma wp_ret {A} (a : A) (Q : A -> mem -> Prop) m : Q a m -> wp (mret a) Q m.
Proof. done. Qed.

Lemma wp_bind {A B} (c : M A) (k : A -> M B) Q m :
  wp c (fun a m' => wp (k a) Q m') m -> wp (c ≫= k) Q m.
Proof. unfold wp, mbind, M_bind. by destruct (c m). Qed.

Lemma wp_unbind {A B} (c : M A) (k : A -> M B) Q m :
  wp (c ≫= k) Q m -> wp c (fun a m' => wp (k a) Q m') m.
Proof. unfold wp, mbind, M_bind. by destruct (c m). Qed.

Lemma wp_mono {A} (c : M A) (Q Q' : A -> mem -> Prop) m :
  wp c Q' m -> (forall a m', Q' a m' -> Q a m') -> wp c Q m.
Proof. unfold wp. destruct (c m); naive_solver. Qed.

Lemma wp_load p f v (Q : Z -> mem -> Prop) m :
  m !! (p, f) = Some v -> Q v m -> wp (load p f) Q m.
Proof. unfold wp, load. by intros ->. Qed.

Lemma wp_store p f v (Q : unit -> mem -> Prop) m :
  is_Some (m !! (p, f)) -> Q tt (<[(p, f) := v]> m) -> wp (store p f v) Q m.
Proof. unfold wp, store. by intros [? ->]. Qed.

Lemma wp_fuel (Q : nat -> mem -> Prop) m : Q (S (size m)) m -> wp mem_fuel Q m.
Proof. done. Qed.

Lemma wp_when (b : bool) (c : M unit) (Q : unit -> mem -> Prop) m :
  (b = true -> wp c Q m) -> (b = false -> Q tt m) -> wp (when b c) Q m.
Proof. destruct b; cbn; auto. Qed.

#[global] Opaque wp.
#[global] Arguments load : simpl never.
#[global] Arguments store : simpl never.
#[global] Arguments mem_fuel : simpl never.
#[global] Arguments when : simpl never.

(** ** What an operation may change

    [frame K m m']: the two memories have the same cells, and agree on all of
    those outside [K]. *)

Definition frame (K : Z -> field -> Prop) (m m' : mem) : Prop :=
  forall p f, (is_Some (m !! (p, f)) <-> is_Some (m' !! (p, f))) /\
         (~ K p f -> m' !! (p, f) = m !! (p, f)).

Lemma frame_refl K m : frame K m m.
Proof. done. Qed.

Lemma frame_trans (K K' : Z -> field -> Prop) m1 m2 m3 :
  frame K m1 m2 -> frame K' m2 m3 -> frame (fun p f => K p f \/ K' p f) m1 m3.
Proof.
  intros H1 H2 p f. destruct (H1 p f), (H2 p f). split; [tauto|].
  intros. etrans; [|apply H0; tauto]. tauto.
Qed.

Lemma frame_mono (K K' : Z -> field -> Prop) m m' :
  frame K m m' -> (forall p f, K p f -> K' p f) -> frame K' m m'.
Proof. intros H HK p f. destruct (H p f). split; [done|]. eauto. Qed.

Lemma frame_store p f v m :
  is_Some (m !! (p, f)) -> frame (fun q g => q = p /\ g = f) m (<[(p, f) := v]> m).
Proof.
  intros ? q g. destruct (decide ((q, g) = (p, f))) as [[= -> ->]|].
  - rewrite lookup_insert_eq. split; [done|tauto].
  - by rewrite lookup_insert_ne by congruence.
Qed.

Lemma frame_insert (K : Z -> field -> Prop) m m1 p f v :
  frame K m m1 -> K p f -> is_Some (m !! (p, f)) -> frame K m (<[(p, f) := v]> m1).
Proof.
  intros H HK Hs q g. destruct (H q g) as [H1 H2].
  destruct (decide ((q, g) = (p, f))) as [[= -> ->]|].
  - rewrite lookup_insert_eq. split; [|tauto]. split; eauto.
  - by rewrite lookup_insert_ne by congruence.
Qed.

Lemma frame_some K m m' p f : frame K m m' -> is_Some (m !! (p, f)) -> is_Some (m' !! (p, f)).
Proof. intros H. apply H. Qed.

Lemma frame_eq K m m' p f v :
  frame K m m' -> m !! (p, f) = Some v -> ~ K p f -> m' !! (p, f) = Some v.
Proof. intros H ? ?. by rewrite (proj2 (H p f)). Qed.

(** ** Tactics for running code symbolically *)

(** A lookup in a memory that was updated at known cells. *)
Ltac mlook :=
  repeat first
    [ rewrite lookup_insert_eq
    | rewrite lookup_insert_ne by (first [congruence | (intros [=]; subst; congruence)]) ].

Ltac look := mlook; first [eassumption | done | eauto].

(** A cell of an updated memory is there because it was there before. *)
Ltac somes := repeat (apply lookup_insert_is_Some'; right); first [eassumption | done | eauto].

(** A disjunction or conjunction of which each part is at hand. *)
Ltac pick :=
  lazymatch goal with
  | |- _ /\ _ => split; pick
  | |- _ \/ _ => first [assumption | left; pick | right; pick]
  | |- _ => done
  end.

(** The frame of a sequence of stores. *)
Ltac frames :=
  lazymatch goal with
  | |- frame _ ?m ?m => apply frame_refl
  | |- frame _ _ (<[_ := _]> _) => apply frame_insert; [frames|cbv beta; pick|by somes]
  | |- _ => first [eassumption | eapply frame_mono; [eassumption|cbv beta; tauto]]
  end.

(** [(p, f)] is outside the cells a frame may change. *)
Ltac outside :=
  cbv beta;
  let H := fresh in
  intros H;
  repeat match type of H with
  | _ \/ _ => destruct H as [H|H]
  | _ /\ _ => let H' := fresh in destruct H as [H' H]; try discriminate H'; try congruence
  end;
  try discriminate H; try congruence; try contradiction.

(** A lookup in a memory reached through operations with known frames. *)
Ltac flook :=
  mlook;
  first
    [ eassumption
    | match goal with H : frame _ ?m0 ?m1 |- ?m1 !! _ = _ => eapply (frame_eq _ _ _ _ _ _ H); [flook|outside] end
    | match goal with H : frame _ ?m0 ?m1 |- is_Some (?m1 !! _) => apply (frame_some _ _ _ _ _ H); flook end
    | apply lookup_insert_is_Some'; right; flook
    | done | by eauto ].

(** One step of a straight-line program. *)
Ltac wp_step :=
  lazymatch goal with
  | |- wp (mbind _ _) _ _ => apply wp_bind
  | |- wp (mret _) _ _ => apply wp_ret
  | |- wp mem_fuel _ _ => apply wp_fuel
  | |- wp (load _ _) _ _ => eapply wp_load; [by look|]
  | |- wp (store _ _ _) _ _ => eapply wp_store; [by somes|]
  | |- wp (when true ?c) _ _ => change (when true c) with c
  | |- wp (when false _) _ _ => apply wp_ret
  | |- (fun _ => _) _ _ => cbv beta
  end; cbv beta.

Ltac wp_run := repeat wp_step.

(** Continue after an operation whose specification is [H]. *)
Ltac wp_use H := eapply wp_mono; [eapply H|cbv beta].

(** ** Global variables

    The addresses of the kernel's global variables; scalars are stored in the
    field [value] and array elements in [elem i]. *)

Definition os_rdy : Z := 4.
Definition os_dly : Z := 8.
Definition os_tsk : Z := 12.
Definition os_active_TCB : Z := 16.
Definition os_time : Z := 20.
Definition os_psq : Z := 24.
Definition os_robin : Z := 28.
(** The registers IPSR and CONTROL of the core. *)
Definition IPSR : Z := 32.
Definition CONTROL : Z := 92.
Definition os_lock : Z := 36.
Definition os_psh_flag : Z := 40.
Definition pend_flags : Z := 44.
Definition os_tick_irqn : Z := 48.
Definition os_maxtaskrun : Z := 52.
Definition os_fifo_size : Z := 56.
Definition os_rrobin : Z := 60.
(** The process stack pointer, a register of the core. *)
Definition PSP : Z := 64.
Definition os_clockrate : Z := 68.
Definition os_timer_head : Z := 72.
Definition os_initialized : Z := 76.
Definition os_running : Z := 80.
Definition osThreadId_osTimerThread : Z := 84.
Definition osMessageQId_osTimerMessageQ : Z := 88.
(** The stack slot of the local variable [ret.value] of the message services. *)
Definition ret_value : Z := 96.
(** Variables and registers are up to this address, control blocks above. *)
Definition kernel_end : Z := 96.
Definition os_idle_TCB : Z := 100.

Lemma filter_keep {A} (P : A -> Prop) `{forall x, Decision (P x)} (l : list A) :
  (forall x, x ∈ l -> P x) -> filter P l = l.
Proof.
  induction l as [|x l IH]; intros Hl; [done|].
  rewrite filter_cons_True by (apply Hl; by left). f_equal. apply IH. intros. apply Hl. by right.
Qed.

(** ** Linked lists

    [seg m f p l e]: from the block at [p], the links [f] lead through the
    blocks [l], and the last of them is linked to [e]. *)

Fixpoint seg (m : mem) (f : field) (p : Z) (l : list Z) (e : Z) : Prop :=
  match l with
  | [] => m !! (p, f) = Some e
  | q :: l => m !! (p, f) = Some q /\ seg m f q l e
  end.

(** The last block of the path. *)
Fixpoint lst (p : Z) (l : list Z) : Z :=
  match l with [] => p | q :: l => lst q l end.

(** The links [f] of the blocks of [l] lead back, the first one to [p]. *)
Fixpoint backs (m : mem) (f : field) (p : Z) (l : list Z) : Prop :=
  match l with
  | [] => True
  | q :: l => m !! (q, f) = Some p /\ backs m f q l
  end.

(** The first block of [l], the null pointer if there is none. *)
Definition hdz (l : list Z) : Z := match l with [] => NULL | q :: _ => q end.

Lemma lst_in p l : lst p l = p \/ lst p l ∈ l.
Proof.
  revert p. induction l as [|q l IH]; intros p; cbn; [by left|].
  right. destruct (IH q) as [->|]; [by left|by right].
Qed.

Lemma lst_app p l k : lst p (l ++ k) = lst (lst p l) k.
Proof. revert p. induction l; cbn; auto. Qed.

Lemma seg_hd m f p l : seg m f p l NULL -> m !! (p, f) = Some (hdz l).
Proof. destruct l; cbn; [done|by intros []]. Qed.

Lemma seg_app m f p l q k e :
  seg m f p (l ++ q :: k) e <-> seg m f p l q /\ seg m f q k e.
Proof.
  revert p. induction l as [|x l IH]; intros p; cbn; [done|]. rewrite IH. tauto.
Qed.

Lemma seg_lst m f p l e : seg m f p l e -> m !! (lst p l, f) = Some e.
Proof. revert p. induction l; intros p; cbn; [done|]. intros []. auto. Qed.

Lemma seg_split m f p l k :
  seg m f p (l ++ k) NULL -> seg m f p l (hdz k) /\ (k <> [] -> seg m f (hdz k) (tail k) NULL).
Proof.
  destruct k as [|q k]; cbn.
  - rewrite app_nil_r. done.
  - rewrite seg_app. tauto.
Qed.

Lemma seg_ext m m' f p l e :
  seg m f p l e -> (forall q, q = p \/ q ∈ l -> m' !! (q, f) = m !! (q, f)) -> seg m' f p l e.
Proof.
  revert p. induction l as [|x l IH]; intros p; cbn.
  - intros H E. rewrite E; auto.
  - intros [H ?] E. rewrite E by auto. split; [done|]. apply IH; [done|].
    intros q Hq. apply E. right. apply elem_of_cons. tauto.
Qed.

Lemma seg_set_last m f p l e e' :
  NoDup (p :: l) -> seg m f p l e -> seg (<[(lst p l, f) := e']> m) f p l e'.
Proof.
  revert p. induction l as [|x l IH]; intros p; cbn; intros Hnd.
  - intros _. by rewrite lookup_insert_eq.
  - intros [H ?]. apply NoDup_cons in Hnd as [Hp Hnd]. split.
    + rewrite lookup_insert_ne; [done|].
      intros [= E]. apply Hp. rewrite <- E. destruct (lst_in x l) as [->|]; [by left|by right].
    + auto.
Qed.

Lemma seg_some m f p l e q : seg m f p l e -> q = p \/ q ∈ l -> is_Some (m !! (q, f)).
Proof.
  revert p. induction l as [|x l IH]; intros p; cbn.
  - intros H [->|[]%elem_of_nil]. eauto.
  - intros [H ?] [->|[->|]%elem_of_cons]; eauto.
Qed.

Lemma seg_length m f p l e : NoDup (p :: l) -> seg m f p l e -> (length l < size m)%nat.
Proof.
  intros Hnd Hs. rewrite <- size_dom.
  enough (size (list_to_set ((fun q => (q, f)) <$> (p :: l)) : gset (Z * field))
    <= size (dom m))%nat as Hle.
  { rewrite size_list_to_set in Hle.
    - rewrite length_fmap in Hle. cbn in Hle. lia.
    - apply NoDup_fmap; [|done]. by intros ?? [=]. }
  apply subseteq_size. intros k. rewrite elem_of_list_to_set, list_elem_of_fmap.
  intros (q & -> & Hq). apply elem_of_dom. eapply seg_some; [done|].
  by apply elem_of_cons in Hq.
Qed.

Lemma backs_app m f p l k : backs m f p (l ++ k) <-> backs m f p l /\ backs m f (lst p l) k.
Proof. revert p. induction l as [|q l IH]; intros p; cbn; [tauto|]. rewrite IH. tauto. Qed.

Lemma backs_ext m m' f p l :
  backs m f p l -> (forall q, q ∈ l -> m' !! (q, f) = m !! (q, f)) -> backs m' f p l.
Proof.
  revert p. induction l as [|x l IH]; intros p; cbn; [done|].
  intros [H ?] E. rewrite E by (by left). split; [done|]. apply IH; [done|].
  intros q Hq. apply E. by right.
Qed.

Lemma hdz_in l : hdz l <> NULL -> hdz l ∈ l.
Proof. destruct l; cbn; [done|by left]. Qed.
