(* ===== verification/RtxList.v ===== *)
(** * The lists of the RTX kernel ([rt_List.c], [rt_List.h])

    Ready tasks, tasks that wait for a semaphore, mutex or mailbox, and tasks
    with a time-out are chained into lists through their control blocks.

    The first part has the functions of [rt_List.c] (and [rt_inc_qi] of
    [rt_HAL_CM.h]).  The second part states what the lists are: [queues] for
    the ready list and the waiting lists, [delays] for the list of time-outs,
    and [tcb] for a task's control block.  The third part proves of each
    function what it does to these lists. *)

From Stdlib Require Export Sorting.Sorted.
From S2P Require Export RtxMem.

(** ** Values of [cb_type], of [state], and error codes *)

Definition TCB : Z := 0.
Definition MCB : Z := 1.
Definition SCB : Z := 2.
Definition MUCB : Z := 3.
Definition HCB : Z := 4.

Definition INACTIVE : Z := 0.
Definition READY : Z := 1.
Definition RUNNING : Z := 2.
Definition WAIT_DLY : Z := 3.
Definition WAIT_ITV : Z := 4.
Definition WAIT_OR : Z := 5.
Definition WAIT_AND : Z := 6.
Definition WAIT_SEM : Z := 7.
Definition WAIT_MBX : Z := 8.
Definition WAIT_MUT : Z := 9.

Definition OS_ERR_STK_OVF : Z := 1.
Definition OS_ERR_FIFO_OVF : Z := 2.
Definition OS_ERR_MBX_OVF : Z := 3.

(** ** The functions *)

(** [cb_type == SCB || cb_type == MCB || cb_type == MUCB] *)
Definition sem_mbx (ty : Z) : bool := (ty =? SCB) || (ty =? MCB) || (ty =? MUCB).

Fixpoint put_prio_loop (fuel : nat) (prio_ p_CB p_CB2 : Z) : M (Z * Z) :=
  match fuel with
  | O => stuck
  | S fuel =>
      if negb (p_CB2 =? NULL) then
        prio2 ← load p_CB2 prio;
        if prio_ <=? prio2 then
          next ← load p_CB2 p_lnk;
          put_prio_loop fuel prio_ p_CB2 next
        else mret (p_CB, p_CB2)
      else mret (p_CB, p_CB2)
  end.

Definition rt_put_prio (p_CB p_task : Z) : M unit :=
  ty ← load p_CB cb_type;
  prio_ ← load p_task prio;
  p_CB2 ← load p_CB p_lnk;
  fuel ← mem_fuel;
  r ← put_prio_loop fuel prio_ p_CB p_CB2;
  let p_CB := r.1 in
  let p_CB2 := r.2 in
  store p_task p_lnk p_CB2;;
  store p_CB p_lnk p_task;;
  if sem_mbx ty then
    when (negb (p_CB2 =? NULL)) (store p_CB2 p_rlnk p_task);;
    store p_task p_rlnk p_CB
  else store p_task p_rlnk NULL.

Definition rt_get_first (p_CB : Z) : M Z :=
  p_first ← load p_CB p_lnk;
  next ← load p_first p_lnk;
  store p_CB p_lnk next;;
  ty ← load p_CB cb_type;
  (if sem_mbx ty then
     next ← load p_first p_lnk;
     when (negb (next =? NULL)) (
       store next p_rlnk p_CB;;
       store p_first p_lnk NULL);;
     store p_first p_rlnk NULL
   else store p_first p_lnk NULL);;
  mret p_first.

Definition rt_put_rdy_first (p_task : Z) : M unit :=
  p ← load os_rdy p_lnk;
  store p_task p_lnk p;;
  store p_task p_rlnk NULL;;
  store os_rdy p_lnk p_task.

Definition rt_get_same_rdy_prio : M Z :=
  p_first ← load os_rdy p_lnk;
  prio1 ← load p_first prio;
  r ← load os_tsk run;
  prio2 ← load r prio;
  if prio1 =? prio2 then
    p ← load os_rdy p_lnk;
    next ← load p p_lnk;
    store os_rdy p_lnk next;;
    mret p_first
  else mret NULL.

Fixpoint rmv_list_loop (fuel : nat) (p_task p_b : Z) : M unit :=
  match fuel with
  | O => stuck
  | S fuel =>
      if negb (p_b =? NULL) then
        next ← load p_b p_lnk;
        if next =? p_task then
          lnk ← load p_task p_lnk;
          store p_b p_lnk lnk
        else rmv_list_loop fuel p_task next
      else mret tt
  end.

Definition rt_rmv_list (p_task : Z) : M unit :=
  r ← load p_task p_rlnk;
  if negb (r =? NULL) then
    lnk ← load p_task p_lnk;
    store r p_lnk lnk;;
    when (negb (lnk =? NULL)) (
      r ← load p_task p_rlnk;
      store lnk p_rlnk r)
  else
    fuel ← mem_fuel;
    rmv_list_loop fuel p_task os_rdy.

(** [while (p_CB->cb_type == TCB) p_CB = p_CB->p_rlnk;] *)
Fixpoint find_header (fuel : nat) (p_CB : Z) : M Z :=
  match fuel with
  | O => stuck
  | S fuel =>
      ty ← load p_CB cb_type;
      if ty =? TCB then
        r ← load p_CB p_rlnk;
        find_header fuel r
      else mret p_CB
  end.

Definition rt_resort_prio (p_task : Z) : M unit :=
  r ← load p_task p_rlnk;
  if r =? NULL then
    st ← load p_task state;
    when (st =? READY) (
      rt_rmv_list p_task;;
      rt_put_prio os_rdy p_task)
  else
    fuel ← mem_fuel;
    p_CB ← find_header fuel r;
    rt_rmv_list p_task;;
    rt_put_prio p_CB p_task.

(** The search of [rt_put_dly]: the block after which to insert, the time
    [delta] of its successor, and whether the end of the list was reached. *)
Fixpoint put_dly_loop (fuel : nat) (idelay p delta : Z) : M (Z * Z * bool) :=
  match fuel with
  | O => stuck
  | S fuel =>
      if delta <? idelay then
        next ← load p p_dlnk;
        if next =? NULL then mret (p, delta, true)
        else
          d ← load next delta_time;
          put_dly_loop fuel idelay next (u32 (delta + d))
      else mret (p, delta, false)
  end.

Definition rt_put_dly (p_task delay : Z) : M unit :=
  let idelay := delay in
  next ← load os_dly p_dlnk;
  r ← (if next =? NULL then mret (os_dly, 0, true)
       else
         delta ← load os_dly delta_time;
         fuel ← mem_fuel;
         put_dly_loop fuel idelay os_dly delta);
  let p := r.1.1 in
  let delta := r.1.2 in
  if r.2 : bool then
    store p_task p_dlnk NULL;;
    store p p_dlnk p_task;;
    store p_task p_blnk p;;
    store p delta_time (u16 (idelay - delta));;
    store p_task delta_time 0
  else
    next ← load p p_dlnk;
    store p_task p_dlnk next;;
    store p p_dlnk p_task;;
    store p_task p_blnk p;;
    when (negb (next =? NULL)) (store next p_blnk p_task);;
    store p_task delta_time (u16 (delta - idelay));;
    d ← load p delta_time;
    d' ← load p_task delta_time;
    store p delta_time (u16 (d - d')).

(** The body of the loop of [rt_dec_dly] for the task [p_rdy]: first, the task
    leaves the waiting list it is really enqueued in. *)
Definition dec_dly_leave (p_rdy : Z) : M unit :=
  r ← load p_rdy p_rlnk;
  when (negb (r =? NULL)) (
    lnk ← load p_rdy p_lnk;
    store r p_lnk lnk;;
    when (negb (lnk =? NULL)) (
      r ← load p_rdy p_rlnk;
      store lnk p_rlnk r;;
      store p_rdy p_lnk NULL);;
    store p_rdy p_rlnk NULL).

Definition dec_dly_body (p_rdy : Z) : M unit :=
  dec_dly_leave p_rdy;;
  rt_put_prio os_rdy p_rdy;;
  d ← load p_rdy delta_time;
  store os_dly delta_time d;;
  st ← load p_rdy state;
  when (st =? WAIT_ITV) (
    itv ← load p_rdy interval_time;
    t ← load os_time value;
    store p_rdy delta_time (u16 (itv + u16 t)));;
  store p_rdy state READY;;
  next ← load p_rdy p_dlnk;
  store os_dly p_dlnk next;;
  when (negb (next =? NULL)) (
    store next p_blnk os_dly;;
    store p_rdy p_dlnk NULL);;
  store p_rdy p_blnk NULL.

Fixpoint dec_dly_loop (fuel : nat) : M unit :=
  match fuel with
  | O => stuck
  | S fuel =>
      d ← load os_dly delta_time;
      p_rdy ← load os_dly p_dlnk;
      if (d =? 0) && negb (p_rdy =? NULL) then
        dec_dly_body p_rdy;;
        dec_dly_loop fuel
      else mret tt
  end.

Definition rt_dec_dly : M unit :=
  next ← load os_dly p_dlnk;
  if next =? NULL then mret tt
  else
    d ← load os_dly delta_time;
    store os_dly delta_time (u16 (d - 1));;
    fuel ← mem_fuel;
    dec_dly_loop fuel.

Definition rt_rmv_dly (p_task : Z) : M unit :=
  p_b ← load p_task p_blnk;
  when (negb (p_b =? NULL)) (
    next ← load p_task p_dlnk;
    store p_b p_dlnk next;;
    (if negb (next =? NULL) then
       d ← load p_b delta_time;
       d' ← load p_task delta_time;
       store p_b delta_time (u16 (d + d'));;
       store next p_blnk p_b;;
       store p_task p_dlnk NULL
     else store p_b delta_time 0);;
    store p_task p_blnk NULL).

(** [rt_inc_qi (size, &q->count, &q->first)], with interrupts disabled: the
    old head index, or the number of entries when the queue is full. *)
Definition rt_inc_qi (size q : Z) : M Z :=
  cnt ← load q count_;
  if cnt <? size then
    store q count_ (u8 (cnt + 1));;
    cnt ← load q first_;
    let c2 := cnt + 1 in
    let c2 := if c2 =? size then 0 else c2 in
    store q first_ (u8 c2);;
    mret cnt
  else mret cnt.

Definition rt_psq_enq (entry arg : Z) : M unit :=
  size ← load os_psq size_;
  idx ← rt_inc_qi size os_psq;
  if idx <? size then
    store os_psq (q_id idx) entry;;
    store os_psq (q_arg idx) arg
  else halt OS_ERR_FIFO_OVF.

(** The priority of the first ready task. *)
Definition rt_rdy_prio : M Z :=
  p ← load os_rdy p_lnk;
  load p prio.

(** ** What the lists are *)

(** The waiting list or ready list [l] of the block [h].  In a waiting list
    the tasks are chained backwards too; the tasks of the ready list have a
    null [p_rlnk], by which the kernel tells the two apart. *)
Definition queue (m : mem) (h : Z) (l : list Z) : Prop :=
  seg m p_lnk h l NULL /\
  if decide (h = os_rdy) then
    m !! (h, cb_type) = Some HCB /\ Forall (fun t => m !! (t, p_rlnk) = Some NULL) l
  else
    (exists ty, m !! (h, cb_type) = Some ty /\ sem_mbx ty = true) /\ backs m p_rlnk h l.

(** All the queues [Q], by the address of their head; [T] are the tasks. *)
Record queues (m : mem) (T : gset Z) (Q : gmap Z (list Z)) : Prop := {
  q_head h l : Q !! h = Some l -> h <> NULL /\ h ∉ T;
  q_queue h l : Q !! h = Some l -> queue m h l;
  q_nodup h l : Q !! h = Some l -> NoDup l;
  q_tasks h l t : Q !! h = Some l -> t ∈ l -> t ∈ T;
  q_uniq h l h' l' t : Q !! h = Some l -> Q !! h' = Some l' -> t ∈ l -> t ∈ l' -> h = h';
  q_free t : t ∈ T -> (forall h l, Q !! h = Some l -> t ∉ l) -> m !! (t, p_rlnk) = Some NULL
}.

(** The delay list holds tasks with the number of ticks until their time-out,
    earliest first; each block stores the difference to the next one, [e] is
    the time that follows the last one (none at the end of the list). *)
Fixpoint deltas (m : mem) (p t0 : Z) (D : list (Z * Z)) (e : option Z) : Prop :=
  match D with
  | [] => m !! (p, delta_time) = Some (match e with Some t1 => t1 - t0 | None => 0 end)
  | (q, d) :: D => t0 <= d < 65536 /\ m !! (p, delta_time) = Some (d - t0) /\ deltas m q d D e
  end.

Record delays (m : mem) (T : gset Z) (D : list (Z * Z)) : Prop := {
  d_list : seg m p_dlnk os_dly D.*1 NULL;
  d_back : backs m p_blnk os_dly D.*1;
  d_time : deltas m os_dly 0 D None;
  d_nodup : NoDup D.*1;
  d_tasks t : t ∈ D.*1 -> t ∈ T;
  d_free t : t ∈ T -> t ∉ D.*1 -> m !! (t, p_blnk) = Some NULL
}.

(** The control block of a task of priority [pr t], somewhere behind the
    kernel's own variables, with a stack that holds the saved registers. *)
Definition tcb_fields : list field :=
  [state; task_id; p_lnk; p_rlnk; p_dlnk; p_blnk; delta_time; interval_time;
   events; waits; msg; tsk_stack; stack; priv_stack; stack_frame; ptask].

Definition tcb (m : mem) (pr : Z -> Z) (t : Z) : Prop :=
  kernel_end < t /\ m !! (t, cb_type) = Some TCB /\ m !! (t, prio) = Some (pr t) /\
  (forall f, f ∈ tcb_fields -> is_Some (m !! (t, f))) /\
  (exists sp, m !! (t, tsk_stack) = Some sp /\
     is_Some (m !! (u32 (sp + 32), word)) /\ is_Some (m !! (u32 (sp + 36), word))).

Definition tcbs (m : mem) (pr : Z -> Z) (T : gset Z) : Prop := forall t, t ∈ T -> tcb m pr t.

(** Where [rt_put_prio] inserts: behind all tasks of at least the priority [P]. *)
Fixpoint before (pr : Z -> Z) (P : Z) (l : list Z) : list Z :=
  match l with
  | [] => []
  | x :: l => if P <=? pr x then x :: before pr P l else []
  end.

Fixpoint after (pr : Z -> Z) (P : Z) (l : list Z) : list Z :=
  match l with
  | [] => []
  | x :: k => if P <=? pr x then after pr P k else l
  end.

Definition insert_prio (pr : Z -> Z) (t : Z) (l : list Z) : list Z :=
  before pr (pr t) l ++ t :: after pr (pr t) l.

(** Highest priority first. *)
Definition by_prio (pr : Z -> Z) (l : list Z) : Prop := StronglySorted (fun a b => pr b <= pr a) l.

(** What the list functions may change. *)
Definition links (f : field) : Prop := f = p_lnk \/ f = p_rlnk.
Definition dlinks (f : field) : Prop := f = p_dlnk \/ f = p_blnk \/ f = delta_time.

(** ** Lemmas on the abstract lists *)

Lemma before_after pr P l : before pr P l ++ after pr P l = l.
Proof. induction l as [|x l IH]; cbn; [done|]. destruct (P <=? pr x); cbn; congruence. Qed.

Lemma insert_prio_in pr t l x : x ∈ insert_prio pr t l <-> x = t \/ x ∈ l.
Proof.
  unfold insert_prio. rewrite <- (before_after pr (pr t) l) at 3.
  rewrite !elem_of_app, elem_of_cons. tauto.
Qed.

Lemma insert_prio_perm pr t l : insert_prio pr t l ≡ₚ t :: l.
Proof.
  unfold insert_prio. rewrite <- Permutation_middle. by rewrite before_after.
Qed.

Lemma before_le pr P l : Forall (fun x => P <= pr x) (before pr P l).
Proof.
  induction l as [|x l IH]; cbn; [constructor|].
  destruct (Z.leb_spec P (pr x)); [by constructor|constructor].
Qed.

Lemma after_lt pr P l : by_prio pr l -> Forall (fun x => pr x < P) (after pr P l).
Proof.
  induction 1 as [|x l Hs IH Hx]; cbn; [constructor|].
  destruct (Z.leb_spec P (pr x)); [done|]. constructor; [done|].
  eapply Forall_impl; [done|]. cbn. lia.
Qed.

Lemma by_prio_app pr l k :
  by_prio pr (l ++ k) <-> by_prio pr l /\ by_prio pr k /\ forall x y, x ∈ l -> y ∈ k -> pr y <= pr x.
Proof.
  unfold by_prio. induction l as [|a l IH]; cbn.
  - split; [|tauto]. intros. split_and!; [constructor|done|]. by intros ?? []%elem_of_nil.
  - split.
    + intros H. apply StronglySorted_inv in H as [H Ha]. apply IH in H as (? & ? & Hlk).
      rewrite Forall_app in Ha. destruct Ha as [Ha1 Ha2]. rewrite Forall_forall in Ha2.
      split_and!; [by constructor|done|].
      intros x y [->|]%elem_of_cons ?; eauto.
    + intros (H & Hk & Hlk). apply StronglySorted_inv in H as [H Ha]. constructor.
      * apply IH. split_and!; [done..|]. intros. apply Hlk; [by right|done].
      * apply Forall_app. split; [done|]. apply Forall_forall. intros. apply Hlk; [by left|done].
Qed.

(** Inserting keeps the order by priority. *)
Lemma insert_prio_sorted pr t l : by_prio pr l -> by_prio pr (insert_prio pr t l).
Proof.
  intros H. pose proof (before_le pr (pr t) l) as Hb.
  pose proof (after_lt pr (pr t) l H) as Ha. rewrite Forall_forall in Hb, Ha.
  rewrite <- (before_after pr (pr t) l) in H. apply by_prio_app in H as (Hs1 & Hs2 & Hs).
  unfold insert_prio. apply by_prio_app. split_and!; [done| |].
  - constructor; [done|]. apply Forall_forall. intros x Hx. specialize (Ha x Hx). cbn in *. lia.
  - intros x y Hx [->|Hy]%elem_of_cons; [by apply Hb|by apply Hs].
Qed.

Lemma insert_prio_ext pr pr' t l :
  pr t = pr' t -> (forall x, x ∈ l -> pr x = pr' x) -> insert_prio pr t l = insert_prio pr' t l.
Proof.
  intros Ht Hl. unfold insert_prio. rewrite Ht.
  enough (before pr (pr' t) l = before pr' (pr' t) l /\ after pr (pr' t) l = after pr' (pr' t) l)
    as [-> ->] by done.
  induction l as [|x l IH]; cbn; [done|].
  destruct IH as [-> ->]; [intros; apply Hl; by right|].
  by rewrite (Hl x) by (by left).
Qed.

(** ** Framing *)

Lemma queue_ext m m' h l :
  queue m h l ->
  (forall p f, f = cb_type \/ links f -> p = h \/ p ∈ l -> m' !! (p, f) = m !! (p, f)) ->
  queue m' h l.
Proof.
  unfold links. intros [Hs Hq] E. split.
  - eapply seg_ext; [done|]. intros q Hq'. apply E; tauto.
  - case_decide.
    + destruct Hq as [Hc Hl]. split; [rewrite E by tauto; done|].
      rewrite Forall_forall in Hl |- *. intros t Ht. rewrite E by tauto. auto.
    + destruct Hq as [(ty & Hc & ?) Hb]. split.
      * exists ty. rewrite E by tauto. done.
      * eapply backs_ext; [done|]. intros. apply E; tauto.
Qed.

Lemma queues_frame K m m' T Q :
  queues m T Q -> frame K m m' -> (forall p f, K p f -> f <> cb_type /\ ~ links f) ->
  queues m' T Q.
Proof.
  intros HQ HF HK.
  assert (E : forall p f, f = cb_type \/ links f -> m' !! (p, f) = m !! (p, f)).
  { intros p f Hf. apply (HF p f). intros ?%HK. tauto. }
  constructor.
  - apply HQ.
  - intros. eapply queue_ext; [by eapply q_queue|]. auto.
  - apply HQ.
  - apply HQ.
  - apply HQ.
  - intros. rewrite E by (right; by right). by eapply q_free.
Qed.

Lemma delays_frame K m m' T D :
  delays m T D -> frame K m m' -> (forall p f, K p f -> ~ dlinks f) -> delays m' T D.
Proof.
  unfold dlinks. intros HD HF HK.
  assert (E : forall p f, dlinks f -> m' !! (p, f) = m !! (p, f)).
  { intros p f Hf. apply (HF p f). intros ?%HK. tauto. }
  unfold dlinks in E. destruct HD. constructor; [..|done|done|].
  - eapply seg_ext; [done|]. auto.
  - eapply backs_ext; [done|]. auto.
  - clear -d_time0 E. revert d_time0. generalize os_dly, 0.
    induction D as [|[q d] D IH]; cbn; intros p t0; rewrite E by auto; [done|].
    intros (? & ? & ?). auto.
  - intros. rewrite E by auto. auto.
Qed.

Lemma tcbs_frame K m m' pr T :
  tcbs m pr T -> frame K m m' -> (forall p f, p ∈ T -> K p f -> f <> cb_type /\ f <> prio /\ f <> tsk_stack) -> tcbs m' pr T.
Proof.
  intros HT HF HK t Ht. destruct (HT t Ht) as (? & ? & ? & H & sp & ? & ? & ?).
  split_and!; [done| | | |].
  - eapply frame_eq; [done..|]. intros ?%HK; naive_solver.
  - eapply frame_eq; [done..|]. intros ?%HK; naive_solver.
  - intros. eapply frame_some; eauto.
  - exists sp. split_and!; [|by eapply frame_some..].
    eapply frame_eq; [done..|]. intros ?%HK; naive_solver.
Qed.

Lemma tcb_some m pr T t f : tcbs m pr T -> t ∈ T -> f ∈ tcb_fields -> is_Some (m !! (t, f)).
Proof. intros HT Ht. by apply (HT t Ht). Qed.

Lemma tcb_addr m pr T t : tcbs m pr T -> t ∈ T -> kernel_end < t.
Proof. intros HT Ht. by apply (HT t Ht). Qed.

Lemma tcb_nonnull m pr T t : tcbs m pr T -> t ∈ T -> t <> NULL.
Proof. intros HT Ht. apply (tcb_addr _ _ _ _ HT) in Ht. unfold kernel_end, NULL in *. lia. Qed.

Lemma tcb_not_dly m pr T t : tcbs m pr T -> t ∈ T -> t <> os_dly.
Proof. intros HT Ht. apply (tcb_addr _ _ _ _ HT) in Ht. unfold kernel_end, os_dly in *. lia. Qed.

Lemma tcb_prio m pr T t : tcbs m pr T -> t ∈ T -> m !! (t, prio) = Some (pr t).
Proof. intros HT Ht. by apply (HT t Ht). Qed.

(** No queue holds [t]. *)
Definition free_of (Q : gmap Z (list Z)) (t : Z) : Prop := forall h l, Q !! h = Some l -> t ∉ l.

Lemma queues_drop m T Q t : queues m T Q -> free_of Q t -> queues m (T ∖ {[t]}) Q.
Proof.
  intros HQ Hf. constructor; try apply HQ.
  - intros h l H. apply (q_head _ _ _ HQ) in H. set_solver.
  - intros h l x H ?. pose proof (q_tasks _ _ _ HQ _ _ _ H H0). specialize (Hf _ _ H). set_solver.
  - intros x Hx ?. apply (q_free _ _ _ HQ); [set_solver|done].
Qed.

(** The one way to establish [queues] after one queue changed: its new list
    is represented, newcomers come from no other queue, those that left have a
    null [p_rlnk], and no cell of another block was touched. *)
Lemma queues_update m m' T T' Q h l l' :
  queues m T Q -> Q !! h = Some l ->
  queue m' h l' -> NoDup l' ->
  h ∉ T' -> (forall t, t ∈ T' -> t ∈ T \/ t ∈ l' \/ m' !! (t, p_rlnk) = Some NULL) ->
  (forall t h l, Q !! h = Some l -> t ∈ l -> t ∈ T') ->
  (forall h l, Q !! h = Some l -> h ∉ T') ->
  (forall t, t ∈ l' -> t ∈ T') ->
  (forall t, t ∈ l' -> t ∉ l -> free_of Q t) ->
  (forall t, t ∈ l -> t ∉ l' -> m' !! (t, p_rlnk) = Some NULL) ->
  (forall p f, f = cb_type \/ links f -> p <> h -> p ∉ l -> p ∉ l' -> m' !! (p, f) = m !! (p, f)) ->
  queues m' T' (<[h := l']> Q).
Proof.
  intros HQ Hh Hq' Hnd HhT HT Hin HheadT Hl'T Hnew Hold E.
  assert (Hother : forall h' k x, Q !! h' = Some k -> h' <> h -> x ∈ k -> (x ∉ l) /\ (x ∉ l')).
  { intros h' k x Hk Hne Hx. split.
    - intros Hxl. apply Hne. by eapply (q_uniq _ _ _ HQ).
    - intros Hxl. destruct (decide (x ∈ l)).
      + apply Hne. by eapply (q_uniq _ _ _ HQ).
      + by eapply Hnew. }
  constructor.
  - intros h' k [[<- <-]|[Hne Hk]]%lookup_insert_Some.
    + split; [|done]. by eapply (q_head _ _ _ HQ).
    + split; [|eauto]. by eapply (q_head _ _ _ HQ).
  - intros h' k [[<- <-]|[Hne Hk]]%lookup_insert_Some; [done|].
    eapply queue_ext; [by eapply (q_queue _ _ _ HQ)|].
    intros p f Hf [->|Hp].
    + apply E; [done|done| |].
      * intros Hx%(q_tasks _ _ _ HQ _ _ _ Hh). by apply (q_head _ _ _ HQ) in Hk as [_ []].
      * intros Hx%Hl'T. by apply HheadT in Hk.
    + destruct (Hother h' k p) as [? ?]; [done..|]. apply E; [done| |done..].
      intros ->. apply (q_head _ _ _ HQ) in Hh as [_ []]. by eapply (q_tasks _ _ _ HQ).
  - intros h' k [[<- <-]|[Hne Hk]]%lookup_insert_Some; [done|]. by eapply (q_nodup _ _ _ HQ).
  - intros h' k t [[<- <-]|[Hne Hk]]%lookup_insert_Some ?; [auto|eauto].
  - intros h1 k1 h2 k2 t [[<- <-]|[Hn1 Hk1]]%lookup_insert_Some
      [[<- <-]|[Hn2 Hk2]]%lookup_insert_Some Ht1 Ht2.
    + done.
    + exfalso. by eapply (Hother h2 k2 t).
    + exfalso. by eapply (Hother h1 k1 t).
    + by eapply (q_uniq _ _ _ HQ).
  - intros t Ht Hfree. assert (t ∉ l') by (apply (Hfree h); by simplify_map_eq).
    destruct (decide (t ∈ l)); [by apply Hold|].
    destruct (HT t Ht) as [HtT|[?|?]]; [|done|done].
    rewrite E; [|by right; right|congruence|done|done].
    apply (q_free _ _ _ HQ); [done|]. intros h' k Hk.
    destruct (decide (h' = h)) as [->|]; [congruence|].
    apply (Hfree h'). by simplify_map_eq.
Qed.

(** ** [rt_put_prio] *)

Lemma put_prio_loop_spec m pr P h l fuel :
  seg m p_lnk h l NULL -> (forall x, x ∈ l -> x <> NULL /\ m !! (x, prio) = Some (pr x)) ->
  (length l < fuel)%nat ->
  wp (put_prio_loop fuel P h (hdz l))
     (fun r m' => m' = m /\ r = (lst h (before pr P l), hdz (after pr P l))) m.
Proof.
  revert h fuel. induction l as [|x l IH]; intros h fuel; destruct fuel as [|fuel];
    cbn [length put_prio_loop hdz]; [lia| |lia|]; intros Hs Hx Hf.
  - by wp_run.
  - destruct (Hx x) as [Hx0 Hp]; [by left|].
    rewrite (proj2 (Z.eqb_neq _ _)) by done. cbn [negb]. wp_run.
    cbn [before after]. destruct (Z.leb_spec P (pr x)).
    + destruct Hs as [_ Hs]. wp_step. eapply wp_load; [by apply seg_hd|].
      apply IH; [done| |lia]. intros. apply Hx. by right.
    + by wp_run.
Qed.

(** The cells of a queue and its tasks are there. *)
Lemma queue_some m T Q h l t : queues m T Q -> Q !! h = Some l -> t ∈ l -> is_Some (m !! (t, p_lnk)).
Proof.
  intros HQ Hh Ht. destruct (q_queue _ _ _ HQ _ _ Hh) as [Hs _].
  eapply seg_some; [done|by right].
Qed.

Lemma queue_type m h l :
  queue m h l -> exists ty, m !! (h, cb_type) = Some ty /\ sem_mbx ty = bool_decide (h <> os_rdy).
Proof.
  intros [_ H]. case_decide as E.
  - exists HCB. rewrite bool_decide_eq_false_2 by tauto. by destruct H.
  - rewrite bool_decide_eq_true_2 by done. by destruct H.
Qed.

Lemma queue_nodup m T Q h l :
  queues m T Q -> Q !! h = Some l -> NoDup (h :: l).
Proof.
  intros HQ Hh. apply NoDup_cons. split; [|by eapply q_nodup].
  intros H%(q_tasks _ _ _ HQ _ _ _ Hh). by apply (q_head _ _ _ HQ) in Hh as [_ []].
Qed.

(** Linking [t] between [l1] and [l2], the way the two branches of
    [rt_put_prio] do it. *)
Lemma queue_insert m h l1 l2 t (m1 := <[(lst h l1, p_lnk) := t]> (<[(t, p_lnk) := hdz l2]> m)) :
  queue m h (l1 ++ l2) -> NoDup (h :: t :: l1 ++ l2) -> t <> NULL ->
  (forall x, x ∈ l2 -> x <> NULL) ->
  queue (if decide (h = os_rdy) then <[(t, p_rlnk) := NULL]> m1
         else <[(t, p_rlnk) := lst h l1]>
                (if hdz l2 =? NULL then m1 else <[(hdz l2, p_rlnk) := t]> m1)) h (l1 ++ t :: l2).
Proof.
  intros [Hs Hq] Hnd Ht Hl2.
  apply NoDup_cons in Hnd as [Hh [Ht' Hnd]%NoDup_cons].
  apply not_elem_of_cons in Hh as [Hht Hh].
  apply not_elem_of_app in Ht' as [Ht1 Ht2], Hh as [Hh1 Hh2]. apply NoDup_app in Hnd as (Hn1 & Hn12 & Hn2).
  assert (Hl : lst h l1 = h \/ lst h l1 ∈ l1) by apply lst_in.
  assert (Hlt : lst h l1 <> t) by (destruct Hl as [->|]; [congruence|intros E; apply Ht1; by rewrite <- E]).
  assert (Hseg : seg m1 p_lnk h (l1 ++ t :: l2) NULL).
  { apply seg_app. split.
    - apply seg_set_last with (hdz l2); [by apply NoDup_cons|].
      apply seg_split in Hs as [Hs _]. eapply seg_ext; [done|].
      intros q Hq'. rewrite lookup_insert_ne; [done|]. intros [= <-]. destruct Hq'; naive_solver.
    - assert (E : m1 !! (t, p_lnk) = Some (hdz l2)) by (unfold m1; by mlook).
      destruct l2 as [|x l2]; [done|]. split; [done|].
      apply seg_app in Hs as [_ Hs]. eapply seg_ext; [done|].
      intros q Hq'. rewrite <- elem_of_cons in Hq'.
      unfold m1. rewrite !lookup_insert_ne; [done|..].
      + intros [= <-]. naive_solver.
      + intros [= <-]. destruct Hl as [E'|]; [rewrite E' in Hq'; tauto|]. by apply (Hn12 (lst h l1)). }
  assert (Hm1 : forall p f, f <> p_lnk -> m1 !! (p, f) = m !! (p, f)).
  { intros. unfold m1. by rewrite !lookup_insert_ne by congruence. }
  case_decide; split.
  - eapply seg_ext; [done|]. intros. by mlook.
  - destruct Hq as [? Hr]. rewrite decide_True by done. split; [mlook; by rewrite Hm1|].
    rewrite Forall_forall in Hr |- *. intros x Hx.
    destruct (decide (x = t)) as [->|]; [by mlook|].
    rewrite lookup_insert_ne, Hm1 by congruence. apply Hr. set_solver.
  - eapply seg_ext; [done|]. intros. rewrite lookup_insert_ne by congruence.
    destruct (_ =? _); by mlook.
  - destruct Hq as [(ty & Hty & ?) Hb]. rewrite decide_False by done. split.
    { exists ty. split; [|done]. rewrite lookup_insert_ne by congruence.
      destruct (_ =? _); mlook; by rewrite Hm1. }
    apply backs_app in Hb as [Hb1 Hb2]. apply backs_app. split_and!.
    + eapply backs_ext; [done|]. intros q Hq.
      rewrite lookup_insert_ne by (intros [= <-]; tauto).
      destruct (_ =? _) eqn:E; [by rewrite Hm1|].
      rewrite lookup_insert_ne, Hm1; [done..|]. intros [= <-].
      apply (Hn12 (hdz l2)); [done|]. by apply hdz_in, Z.eqb_neq.
    + cbn. split; [by mlook|].
      destruct l2 as [|x l2]; [done|]. cbn in Hb2 |- *.
      rewrite (proj2 (Z.eqb_neq _ _)) by (apply Hl2; by left).
      apply NoDup_cons in Hn2 as [? ?].
      split; [rewrite lookup_insert_ne by set_solver; by mlook|].
      eapply backs_ext; [apply Hb2|]. intros q Hq.
      rewrite !lookup_insert_ne by set_solver. by rewrite Hm1.
Qed.

(** [rt_put_prio] inserts a task that is in no queue at its place by priority. *)
Lemma rt_put_prio_spec m pr T Q h l t :
  queues m (T ∖ {[t]}) Q -> tcbs m pr T -> Q !! h = Some l -> t ∈ T ->
  (forall h l, Q !! h = Some l -> h ∉ T) ->
  wp (rt_put_prio h t) (fun _ m' =>
    queues m' T (<[h := insert_prio pr t l]> Q) /\ frame (fun _ f => links f) m m') m.
Proof.
  intros HQ HT Hh Ht HQT. pose proof (HQT h l Hh) as HhT. pose proof (q_queue _ _ _ HQ _ _ Hh) as Hq.
  destruct (queue_type _ _ _ Hq) as (ty & Hty & Hsm). pose proof Hq as [Hs _].
  pose proof (tcb_nonnull _ _ _ _ HT Ht) as Ht0. destruct (HT t Ht) as (_ & _ & Htp & Htf & _).
  assert (Hin : forall x, x ∈ l -> x ∈ T /\ x <> t /\ x <> NULL /\ m !! (x, prio) = Some (pr x)).
  { intros x Hx. pose proof (q_tasks _ _ _ HQ _ _ _ Hh Hx).
    assert (Hx' : x ∈ T) by set_solver.
    split_and!; [done|set_solver|by eapply tcb_nonnull|by eapply tcb_prio]. }
  assert (Hnd : NoDup (h :: t :: l)).
  { pose proof (queue_nodup _ _ _ _ _ HQ Hh) as [? ?]%NoDup_cons.
    apply NoDup_cons. split; [|apply NoDup_cons; split; [|done]].
    - apply not_elem_of_cons. split; [congruence|done].
    - intros ?%Hin. naive_solver. }
  unfold rt_put_prio. wp_run. eapply wp_load; [by apply seg_hd|].
  wp_step. wp_step. wp_step. eapply wp_mono.
  { apply (put_prio_loop_spec _ pr); [done| |].
    - intros x Hx. destruct (Hin x Hx) as (? & ? & ? & ?). done.
    - enough (length l < size m)%nat by lia. eapply seg_length; [|done].
      by eapply queue_nodup. }
  intros r m' [-> ->]. cbn [fst snd].
  set (l1 := before pr (pr t) l). set (l2 := after pr (pr t) l).
  assert (El : l1 ++ l2 = l) by apply before_after.
  assert (Hl2 : forall x, x ∈ l2 -> x ∈ l) by (intros; rewrite <- El; set_solver).
  assert (Hl1 : lst h l1 = h \/ lst h l1 ∈ l).
  { destruct (lst_in h l1); [tauto|]. right. rewrite <- El. set_solver. }
  pose proof (queue_insert m h l1 l2 t) as Hins. rewrite El in Hins.
  specialize (Hins Hq Hnd Ht0 ltac:(intros; by apply Hin, Hl2)).
  set (m1 := <[(lst h l1, p_lnk) := t]> (<[(t, p_lnk) := hdz l2]> m)) in *.
  assert (Hfin : forall m', queue m' h (l1 ++ t :: l2) -> frame (fun p f => links f /\ (p = t \/ p = h \/ p ∈ l)) m m' ->
     queues m' T (<[h := insert_prio pr t l]> Q) /\ frame (fun _ f => links f) m m').
  { intros m' Hq' Hfr. split; [|eapply frame_mono; [done|naive_solver]].
    eapply queues_update; [exact HQ|exact Hh|exact Hq'|..]; try done.
    - eapply NoDup_Permutation_proper; [apply insert_prio_perm|]. by apply NoDup_cons in Hnd as [_ ?].
    - intros x Hx. destruct (decide (x = t)) as [->|].
      + right. left. apply insert_prio_in. by left.
      + left. set_solver.
    - intros x h' l' Hl' Hx. pose proof (q_tasks _ _ _ HQ _ _ _ Hl' Hx). set_solver.
    - intros x [->|Hx]%insert_prio_in; [done|]. by apply Hin.
    - intros x [->|Hx]%insert_prio_in ?; [|done]. intros h' l' Hl' Hx.
      pose proof (q_tasks _ _ _ HQ _ _ _ Hl' Hx). set_solver.
    - intros x Hx Hx'. destruct Hx'. apply insert_prio_in. by right.
    - intros p f Hf Hp Hpl Hpl'. apply (Hfr p f). intros [? [->|[->|?]]]; try done.
      apply Hpl', insert_prio_in. by left. }
  assert (Hs1 : is_Some (m !! (t, p_lnk))) by (apply Htf; set_solver).
  assert (Hs2 : is_Some (m !! (t, p_rlnk))) by (apply Htf; set_solver).
  assert (Hs3 : is_Some (m !! (lst h l1, p_lnk))) by (by eapply seg_some).
  assert (Hk : frame (fun p f => links f /\ (p = t \/ p = h \/ p ∈ l)) m m1).
  { unfold m1, links. frames. }
  wp_run. fold m1. rewrite Hsm. destruct (decide (h = os_rdy)) as [E|E].
  - rewrite bool_decide_eq_false_2 by tauto. unfold m1. wp_run. fold m1. apply Hfin; [done|].
    unfold links in *. frames.
  - rewrite bool_decide_eq_true_2 by done. unfold m1. wp_run. fold m1.
    destruct (Z.eqb_spec (hdz l2) NULL) as [E2|E2]; cbn [negb].
    + unfold m1. wp_run. fold m1. apply Hfin; [done|]. unfold links in *. frames.
    + apply hdz_in, Hl2 in E2 as ?. assert (Hs4 : is_Some (m !! (hdz l2, p_rlnk))).
      { eapply tcb_some; [done|by apply Hin|set_solver]. }
      unfold m1. wp_run. fold m1. apply Hfin; [done|]. unfold links in *. frames.
Qed.

(** ** Taking a task out of its queue *)

(** The queue without [t], in any memory where the neighbours of [t] are
    linked to each other and the other tasks are as before. *)
Lemma queue_remove m m' h l1 l2 t :
  queue m h (l1 ++ t :: l2) -> NoDup (h :: l1 ++ t :: l2) ->
  m' !! (lst h l1, p_lnk) = Some (hdz l2) ->
  (l2 <> [] -> m' !! (hdz l2, p_rlnk) = if decide (h = os_rdy) then Some NULL else Some (lst h l1)) ->
  (forall p f, f = cb_type \/ links f -> p <> t -> ~ (p = lst h l1 /\ f = p_lnk) ->
     ~ (l2 <> [] /\ p = hdz l2 /\ f = p_rlnk) -> m' !! (p, f) = m !! (p, f)) ->
  queue m' h (l1 ++ l2).
Proof.
  unfold links. intros [Hs Hq] Hnd Hl Hr E.
  apply NoDup_cons in Hnd as [Hh Hnd]. apply NoDup_app in Hnd as (Hn1 & Hn12 & Hn2).
  apply NoDup_cons in Hn2 as [Ht2 Hn2].
  apply not_elem_of_app in Hh as [Hh1 Hh2]. apply not_elem_of_cons in Hh2 as [Hht Hh2].
  assert (Ht1 : t ∉ l1) by (intros H; apply (Hn12 t H); by left).
  assert (Hlst : lst h l1 = h \/ lst h l1 ∈ l1) by apply lst_in.
  apply seg_app in Hs as [Hs1 Hs2].
  assert (Hseg1 : seg m' p_lnk h l1 (hdz l2)).
  { eapply (seg_set_last _ _ _ _ _ (hdz l2)) in Hs1; [|by apply NoDup_cons].
    eapply seg_ext; [done|]. intros q Hq'.
    destruct (decide (q = lst h l1)) as [->|]; [by rewrite lookup_insert_eq|].
    rewrite lookup_insert_ne by congruence. apply E; [tauto| |naive_solver..].
    intros ->. destruct Hq'; naive_solver. }
  assert (Hne : forall x, x ∈ l2 -> x <> t /\ x <> lst h l1).
  { intros x Hx. split; [by intros ->|]. intros ->.
    destruct Hlst as [Hx'|Hx']; [by rewrite Hx' in Hx|]. apply (Hn12 _ Hx'). by right. }
  split.
  - destruct l2 as [|x l2]; [by rewrite app_nil_r|]. apply seg_app. split; [done|].
    destruct Hs2 as [_ Hs2]. eapply seg_ext; [done|]. intros q Hq'. rewrite <- elem_of_cons in Hq'.
    apply Hne in Hq' as [??]. apply E; naive_solver.
  - case_decide as Ho.
    + destruct Hq as [Hty Hf]. split; [rewrite E; [done|tauto|done|naive_solver..]|].
      rewrite Forall_forall in Hf |- *. intros x Hx.
      destruct (decide (x = hdz l2 /\ l2 <> [])) as [[-> ?]|Hx']; [by apply Hr|].
      rewrite E; [apply Hf; set_solver|tauto| |naive_solver|naive_solver].
      intros ->. set_solver.
    + destruct Hq as [(ty & Hty & ?) Hb]. split.
      { exists ty. rewrite E; [done|tauto|done|naive_solver..]. }
      apply backs_app in Hb as [Hb1 Hb2]. apply backs_app. split.
      * eapply backs_ext; [done|]. intros q Hq. apply E; [tauto|by intros ->|naive_solver|].
        intros (? & -> & _). apply (Hn12 _ Hq). right. by destruct l2; [|left].
      * destruct l2 as [|x l2]; [done|]. split; [by apply Hr|]. destruct Hb2 as (_ & _ & Hb2).
        apply NoDup_cons in Hn2 as [? ?].
        eapply backs_ext; [done|]. intros q Hq. apply E; [tauto| |naive_solver|].
        { intros ->. apply Ht2. by right. }
        intros (_ & -> & _). done.
Qed.

(** A task that was taken out of its queue is in none. *)
Lemma free_of_removed m T Q h l1 l2 t :
  queues m T Q -> Q !! h = Some (l1 ++ t :: l2) -> free_of (<[h := l1 ++ l2]> Q) t.
Proof.
  intros HQ Hh h' k [[<- <-]|[Hne Hk]]%lookup_insert_Some Ht.
  - pose proof (q_nodup _ _ _ HQ _ _ Hh) as Hnd. rewrite <- Permutation_middle in Hnd.
    by apply NoDup_cons in Hnd as [? _].
  - apply Hne. eapply (q_uniq _ _ _ HQ); [done..| |done]. set_solver.
Qed.

(** Taking [t] out of the queue of [h]; [t] itself may be left out of the tasks. *)
Lemma queues_remove m m' T T' Q h l1 l2 t :
  queues m T Q -> Q !! h = Some (l1 ++ t :: l2) ->
  m' !! (lst h l1, p_lnk) = Some (hdz l2) ->
  (l2 <> [] -> m' !! (hdz l2, p_rlnk) = if decide (h = os_rdy) then Some NULL else Some (lst h l1)) ->
  (forall p f, f = cb_type \/ links f -> p <> t -> ~ (p = lst h l1 /\ f = p_lnk) ->
     ~ (l2 <> [] /\ p = hdz l2 /\ f = p_rlnk) -> m' !! (p, f) = m !! (p, f)) ->
  T' = T /\ m' !! (t, p_rlnk) = Some NULL \/ T' = T ∖ {[t]} ->
  queues m' T' (<[h := l1 ++ l2]> Q).
Proof.
  intros HQ Hh Hl Hr E HT'.
  pose proof (queue_nodup _ _ _ _ _ HQ Hh) as Hnd.
  assert (HTT : forall x, x ∈ T' -> x ∈ T) by (destruct HT' as [[-> _]| ->]; set_solver).
  assert (HTT' : forall x, x ∈ T -> x <> t -> x ∈ T') by (destruct HT' as [[-> _]| ->]; set_solver).
  pose proof (free_of_removed _ _ _ _ _ _ _ HQ Hh) as Hfree.
  assert (HL : lst h l1 = h \/ lst h l1 ∈ l1) by apply lst_in.
  constructor.
  - intros h' k [[<- <-]|[Hne Hk]]%lookup_insert_Some.
    + apply (q_head _ _ _ HQ) in Hh as [? ?]. split; [done|]. auto.
    + apply (q_head _ _ _ HQ) in Hk as [? ?]. split; [done|]. auto.
  - intros h' k [[<- <-]|[Hne Hk]]%lookup_insert_Some.
    + eapply queue_remove; [by eapply (q_queue _ _ _ HQ)|done..].
    + eapply queue_ext; [by eapply (q_queue _ _ _ HQ)|].
      intros p f Hf Hp. pose proof (q_head _ _ _ HQ _ _ Hh) as [_ HhT].
      pose proof (q_head _ _ _ HQ _ _ Hk) as [_ HkT].
      assert (Hpn : p ∉ h :: l1 ++ t :: l2).
      { intros [->|Hp']%elem_of_cons.
        - destruct Hp as [->|Hp]; [done|]. by apply (q_tasks _ _ _ HQ _ _ _ Hk) in Hp.
        - destruct Hp as [->|Hp]; [by apply (q_tasks _ _ _ HQ _ _ _ Hh) in Hp'|].
          apply Hne. by eapply (q_uniq _ _ _ HQ). }
      apply not_elem_of_cons in Hpn as [Hp1 Hp2]. apply not_elem_of_app in Hp2 as [Hp2 Hp3].
      apply not_elem_of_cons in Hp3 as [Hp3 Hp4].
      apply E; [done|done| |].
      * intros [-> _]. destruct HL as [HL|HL]; [by rewrite HL in Hp1|done].
      * intros (Hl2 & -> & _). destruct l2; [done|]. apply Hp4. by left.
  - intros h' k [[<- <-]|[Hne Hk]]%lookup_insert_Some; [|by eapply (q_nodup _ _ _ HQ)].
    pose proof (q_nodup _ _ _ HQ _ _ Hh) as Hnd'. rewrite <- Permutation_middle in Hnd'.
    by apply NoDup_cons in Hnd' as [_ ?].
  - intros h' k x Hk Hx. assert (x <> t) by (intros ->; by eapply Hfree).
    apply HTT'; [|done].
    apply lookup_insert_Some in Hk as [[<- <-]|[Hne Hk]].
    + apply (q_tasks _ _ _ HQ _ _ _ Hh). set_solver.
    + by eapply (q_tasks _ _ _ HQ).
  - intros h1 k1 h2 k2 x [[<- <-]|[Hn1 Hk1]]%lookup_insert_Some
      [[<- <-]|[Hn2 Hk2]]%lookup_insert_Some Hx1 Hx2; [done|..|by eapply (q_uniq _ _ _ HQ)];
      (eapply (q_uniq _ _ _ HQ) with (t := x); [done|done|set_solver|set_solver]).
  - intros x Hx Hxf. destruct (decide (x = t)) as [->|Hxt].
    + destruct HT' as [[_ ?]| ->]; [done|]. set_solver.
    + assert (x ∉ l1 ++ l2) as Hxl by (apply (Hxf h); by simplify_map_eq).
      apply not_elem_of_app in Hxl as [Hx1 Hx2].
      rewrite E; [|by right; right|done|by intros [_ [=]]|].
      * apply (q_free _ _ _ HQ); [auto|]. intros h' k Hk.
        destruct (decide (h' = h)) as [->|]; [|apply (Hxf h'); by simplify_map_eq].
        simplify_eq. set_solver.
      * intros (? & -> & _). destruct l2; [done|]. apply Hx2. by left.
Qed.

(** The first task of a queue is in the table, and so is its successor. *)
Lemma queue_hdz_tcb m pr T Q h l1 l2 t :
  queues m T Q -> tcbs m pr T -> Q !! h = Some (l1 ++ t :: l2) ->
  t ∈ T /\ (hdz l2 <> NULL -> hdz l2 ∈ T) /\ (l2 <> [] -> hdz l2 <> NULL).
Proof.
  intros HQ HT Hh. pose proof (fun x => q_tasks _ _ _ HQ _ _ x Hh) as Hin.
  split_and!; [apply Hin; set_solver|..].
  - intros Hn%hdz_in. apply Hin. set_solver.
  - destruct l2 as [|x l2]; [done|]. intros _. eapply tcb_nonnull; [done|].
    apply Hin. cbn. set_solver.
Qed.

Lemma hdz_null l2 : (l2 <> [] -> hdz l2 <> NULL) -> hdz l2 = NULL -> l2 = [].
Proof. destruct l2; [done|]. intros H E. by destruct H. Qed.

(** [rt_get_first] takes the first task out of the queue. *)
Lemma rt_get_first_spec m pr T Q h t l :
  queues m T Q -> tcbs m pr T -> Q !! h = Some (t :: l) ->
  wp (rt_get_first h) (fun r m' => r = t /\ queues m' T (<[h := l]> Q) /\
    free_of (<[h := l]> Q) t /\ m' !! (t, p_rlnk) = Some NULL /\
    frame (fun p f => links f /\ (p = h \/ p ∈ T)) m m') m.
Proof.
  intros HQ HT Hh. pose proof (q_queue _ _ _ HQ _ _ Hh) as Hq.
  destruct (queue_type _ _ _ Hq) as (ty & Hty & Hsm). pose proof Hq as [Hs Hq'].
  destruct (queue_hdz_tcb _ _ _ _ _ [] l t HQ HT Hh) as (Ht & HnT & Hnn).
  pose proof (free_of_removed _ _ _ _ [] l t HQ Hh) as Hfree. cbn [app] in Hfree.
  pose proof (q_head _ _ _ HQ _ _ Hh) as [Hh0 HhT].
  assert (Hht : h <> t) by congruence.
  destruct Hs as [Hs1 Hs2]. apply seg_hd in Hs2 as Hs3.
  assert (Hs4 : is_Some (m !! (t, p_rlnk))) by (eapply tcb_some; [done..|set_solver]).
  assert (Hfin : forall m', m' !! (h, p_lnk) = Some (hdz l) ->
    (l <> [] -> m' !! (hdz l, p_rlnk) = if decide (h = os_rdy) then Some NULL else Some h) ->
    (forall p f, f = cb_type \/ links f -> p <> t -> ~ (p = h /\ f = p_lnk) ->
      ~ (l <> [] /\ p = hdz l /\ f = p_rlnk) -> m' !! (p, f) = m !! (p, f)) ->
    m' !! (t, p_rlnk) = Some NULL -> queues m' T (<[h := l]> Q)).
  { intros m' ????. eapply (queues_remove _ _ _ _ _ _ [] l); [exact HQ|done..|]. tauto. }
  assert (Hlt : l <> [] -> hdz l <> t).
  { intros Hl E. pose proof (q_nodup _ _ _ HQ _ _ Hh) as [Htl _]%NoDup_cons. apply Htl.
    rewrite <- E at 1. apply hdz_in. auto. }
  unfold rt_get_first. wp_run. rewrite Hsm. destruct (decide (h = os_rdy)) as [E|E].
  - rewrite bool_decide_eq_false_2 by tauto. wp_run.
    destruct Hq' as [_ [Hr Hf]%Forall_cons_iff].
    split_and!; [done| |done|by look|unfold links in *; frames]. apply Hfin; [by look| | |by look].
    + intros Hl. mlook. rewrite Forall_forall in Hf. apply Hf, hdz_in. auto.
    + intros p f Hf' Hp Hph _. rewrite !lookup_insert_ne; [done|..]; intros [= <- <-]; naive_solver.
  - rewrite bool_decide_eq_true_2 by done. wp_run.
    destruct (Z.eqb_spec (hdz l) NULL) as [E2|E2]; cbn [negb]; wp_run.
    + apply hdz_null in E2 as E3; [|done].
      split_and!; [done| |done|by look|unfold links in *; frames].
      apply Hfin; [by look|done| |by look].
      intros p f Hf' Hp Hph _. rewrite !lookup_insert_ne; [done|..]; intros [= <- <-]; naive_solver.
    + assert (Hs5 : is_Some (m !! (hdz l, p_rlnk))) by (eapply tcb_some; [done|by apply HnT|set_solver]).
      assert (hdz l <> h) by (intros E3; apply HhT; rewrite <- E3; auto).
      apply HnT in E2 as ?. wp_run.
      split_and!; [done| |done|by look|unfold links in *; frames].
      apply Hfin; [by look| | |by look].
      * intros Hl. specialize (Hlt Hl). by mlook.
      * intros p f Hf' Hp Hph Hpl. rewrite !lookup_insert_ne; [done|..];
          intros [= <- <-]; naive_solver.
Qed.

(** ** [rt_rmv_list], [rt_resort_prio] *)

Lemma rmv_list_loop_spec m h l1 l2 t fuel :
  seg m p_lnk h (l1 ++ t :: l2) NULL -> h <> NULL -> (forall x, x ∈ l1 -> x <> NULL) ->
  NoDup (h :: l1 ++ t :: l2) -> (length l1 < fuel)%nat ->
  wp (rmv_list_loop fuel t h) (fun _ m' => m' = <[(lst h l1, p_lnk) := hdz l2]> m) m.
Proof.
  revert h fuel. induction l1 as [|x l1 IH]; intros h fuel; destruct fuel as [|fuel];
    cbn [length rmv_list_loop app lst]; intros Hs Hh Hx Hnd Hf; try lia;
    rewrite (proj2 (Z.eqb_neq _ _)) by done; cbn [negb]; destruct Hs as [Hs1 Hs2]; wp_run.
  - rewrite Z.eqb_refl. apply seg_hd in Hs2. by wp_run.
  - apply NoDup_cons in Hnd as [_ Hnd]. pose proof Hnd as [Hxt _]%NoDup_cons.
    rewrite (proj2 (Z.eqb_neq _ _)) by (intros ->; set_solver).
    apply IH; [done| | |done|lia].
    + apply Hx. by left.
    + intros y Hy. apply Hx. by right.
Qed.

(** For a task that is not enqueued the search of the ready list ends at its end. *)
Lemma rmv_list_loop_none m h l t fuel :
  seg m p_lnk h l NULL -> h <> NULL -> (forall x, x ∈ l -> x <> NULL) -> t ∉ l -> t <> NULL ->
  (S (length l) < fuel)%nat ->
  wp (rmv_list_loop fuel t h) (fun _ m' => m' = m) m.
Proof.
  revert h fuel. induction l as [|x l IH]; intros h fuel; destruct fuel as [|fuel];
    cbn [length rmv_list_loop]; intros Hs Hh Hx Hxt Ht Hf; try lia;
    rewrite (proj2 (Z.eqb_neq h _)) by done; cbn [negb].
  - cbn in Hs. wp_run. rewrite (proj2 (Z.eqb_neq _ _)) by congruence.
    destruct fuel as [|fuel]; [lia|]. cbn. by wp_run.
  - destruct Hs as [Hs1 Hs2]. wp_run. apply not_elem_of_cons in Hxt as [? ?].
    rewrite (proj2 (Z.eqb_neq _ _)) by congruence.
    apply IH; [done|apply Hx; by left|intros; apply Hx; by right|done|done|lia].
Qed.

Lemma queue_nonnull m pr T Q h l x :
  queues m T Q -> tcbs m pr T -> Q !! h = Some l -> x ∈ l -> x <> NULL.
Proof. intros HQ HT Hh Hx. eapply tcb_nonnull; [done|]. by eapply (q_tasks _ _ _ HQ). Qed.

(** [p_rlnk] is null in the ready list and not null in the waiting lists. *)
Lemma queue_rlnk m pr T Q h l1 l2 t :
  queues m T Q -> tcbs m pr T -> Q !! h = Some (l1 ++ t :: l2) ->
  m !! (t, p_rlnk) = Some (if decide (h = os_rdy) then NULL else lst h l1) /\ lst h l1 <> NULL.
Proof.
  intros HQ HT Hh. destruct (q_queue _ _ _ HQ _ _ Hh) as [_ Hq].
  assert (lst h l1 <> NULL).
  { destruct (lst_in h l1) as [->|Hl]; [by apply (q_head _ _ _ HQ) in Hh as [? _]|].
    eapply queue_nonnull; [done..|]. set_solver. }
  split; [|done]. case_decide.
  - destruct Hq as [_ Hf]. rewrite Forall_forall in Hf. apply Hf. set_solver.
  - destruct Hq as [_ Hb]. by apply backs_app in Hb as (_ & ? & _).
Qed.

(** [rt_rmv_list] takes an enqueued task out of its queue.  It leaves the
    task's own links as they were: the task is no longer one of [queues]. *)
Lemma rt_rmv_list_spec m pr T Q h l1 l2 t :
  queues m T Q -> tcbs m pr T -> Q !! h = Some (l1 ++ t :: l2) ->
  wp (rt_rmv_list t) (fun _ m' => queues m' (T ∖ {[t]}) (<[h := l1 ++ l2]> Q) /\
    frame (fun _ f => links f) m m') m.
Proof.
  intros HQ HT Hh. pose proof (q_queue _ _ _ HQ _ _ Hh) as [Hs Hq].
  destruct (queue_hdz_tcb _ _ _ _ _ _ _ _ HQ HT Hh) as (Ht & HnT & Hnn).
  destruct (queue_rlnk _ _ _ _ _ _ _ _ HQ HT Hh) as [Hr Hn].
  pose proof (queue_nodup _ _ _ _ _ HQ Hh) as Hnd.
  pose proof Hs as [Hs1 Hs2]%seg_app. apply seg_lst in Hs1 as Hs3. apply seg_hd in Hs2 as Hs4.
  assert (Hfin : forall m', m' !! (lst h l1, p_lnk) = Some (hdz l2) ->
    (l2 <> [] -> m' !! (hdz l2, p_rlnk) = if decide (h = os_rdy) then Some NULL else Some (lst h l1)) ->
    (forall p f, f = cb_type \/ links f -> p <> t -> ~ (p = lst h l1 /\ f = p_lnk) ->
      ~ (l2 <> [] /\ p = hdz l2 /\ f = p_rlnk) -> m' !! (p, f) = m !! (p, f)) ->
    queues m' (T ∖ {[t]}) (<[h := l1 ++ l2]> Q)).
  { intros m' ???. eapply queues_remove; [exact HQ|done..|]. by right. }
  unfold rt_rmv_list. wp_run. destruct (decide (h = os_rdy)) as [->|E]; cbn [Z.eqb NULL negb].
  - wp_run. eapply wp_mono.
    { eapply rmv_list_loop_spec; [done|done| |done|].
      - intros. eapply queue_nonnull; [done..|]. set_solver.
      - pose proof (seg_length _ _ _ _ _ Hnd Hs) as Hlen. rewrite length_app in Hlen. lia. }
    intros _ m' ->. split; [|unfold links; frames]. apply Hfin; [by look| |].
    + intros Hl2. mlook. destruct Hq as [_ Hf]. rewrite Forall_forall in Hf. apply Hf.
      apply elem_of_app. right. right. by apply hdz_in, Hnn.
    + intros p f Hf Hp Hph _. rewrite lookup_insert_ne; [done|]. intros [= <- <-]. naive_solver.
  - rewrite (proj2 (Z.eqb_neq _ _)) by done. cbn [negb]. wp_run.
    destruct (Z.eqb_spec (hdz l2) NULL) as [E2|E2]; cbn [negb]; wp_run.
    + apply hdz_null in E2 as E3; [|done]. split; [|unfold links; frames].
      apply Hfin; [by look|done|].
      intros p f Hf Hp Hph _. rewrite lookup_insert_ne; [done|]. intros [= <- <-]. naive_solver.
    + assert (Hs5 : is_Some (m !! (hdz l2, p_rlnk))) by (eapply tcb_some; [done|by apply HnT|set_solver]).
      wp_run. split; [|unfold links; frames]. apply Hfin; [by look| |].
      * intros _. by mlook.
      * intros p f Hf Hp Hph Hpl. rewrite !lookup_insert_ne; [done|..]; intros [= <- <-]; naive_solver.
Qed.

(** A free task is not searched for in vain. *)
Lemma rt_rmv_list_free m pr T Q t l :
  queues m T Q -> tcbs m pr T -> Q !! os_rdy = Some l -> t ∈ T -> free_of Q t ->
  wp (rt_rmv_list t) (fun _ m' => m' = m) m.
Proof.
  intros HQ HT Hh Ht Hfree. pose proof (q_queue _ _ _ HQ _ _ Hh) as [Hs Hq].
  pose proof (q_free _ _ _ HQ _ Ht Hfree) as Hr.
  pose proof (queue_nodup _ _ _ _ _ HQ Hh) as Hnd.
  unfold rt_rmv_list. wp_run. cbn [Z.eqb NULL negb]. wp_run.
  eapply rmv_list_loop_none; [done|done| |by eapply Hfree|by eapply tcb_nonnull|].
  - intros. by eapply queue_nonnull.
  - pose proof (seg_length _ _ _ _ _ Hnd Hs) as Hlen. lia.
Qed.

Lemma rt_put_prio_free m pr T Q h l t :
  queues m T Q -> tcbs m pr T -> Q !! h = Some l -> t ∈ T -> free_of Q t ->
  wp (rt_put_prio h t) (fun _ m' =>
    queues m' T (<[h := insert_prio pr t l]> Q) /\ frame (fun _ f => links f) m m') m.
Proof.
  intros HQ HT Hh Ht Hf. eapply rt_put_prio_spec; [by apply queues_drop|done..|].
  intros. by apply (q_head _ _ _ HQ) in H as [_ ?].
Qed.

Lemma find_header_spec m h l fuel ty :
  backs m p_rlnk h l -> (forall x, x ∈ l -> m !! (x, cb_type) = Some TCB) ->
  m !! (h, cb_type) = Some ty -> ty <> TCB -> (length l < fuel)%nat ->
  wp (find_header fuel (lst h l)) (fun r m' => m' = m /\ r = h) m.
Proof.
  revert fuel. induction l as [|x l IH] using rev_ind; intros fuel Hb Hx Hh Hty Hf;
    (destruct fuel as [|fuel]; [lia|]); cbn [find_header].
  - cbn [lst]. wp_run. rewrite (proj2 (Z.eqb_neq _ _)) by done. by wp_run.
  - rewrite length_app in Hf. cbn in Hf. rewrite lst_app. cbn [lst].
    apply backs_app in Hb as (Hb & Hb' & _).
    assert (m !! (x, cb_type) = Some TCB) by (apply Hx; set_solver).
    wp_run. rewrite Z.eqb_refl. wp_run. apply IH; [done| |done|done|lia].
    intros. apply Hx. set_solver.
Qed.

(** [rt_resort_prio] moves an enqueued task to its place by (new) priority. *)
Lemma rt_resort_prio_spec m pr T Q h l1 l2 t :
  queues m T Q -> tcbs m pr T -> Q !! h = Some (l1 ++ t :: l2) ->
  (h = os_rdy -> m !! (t, state) = Some READY) ->
  wp (rt_resort_prio t) (fun _ m' =>
    queues m' T (<[h := insert_prio pr t (l1 ++ l2)]> Q) /\ frame (fun _ f => links f) m m') m.
Proof.
  intros HQ HT Hh Hst. destruct (queue_rlnk _ _ _ _ _ _ _ _ HQ HT Hh) as [Hr Hn].
  destruct (queue_hdz_tcb _ _ _ _ _ _ _ _ HQ HT Hh) as (Ht & _ & _).
  assert (Hmove : wp (rt_rmv_list t ;; rt_put_prio h t) (fun _ m' =>
    queues m' T (<[h := insert_prio pr t (l1 ++ l2)]> Q) /\ frame (fun _ f => links f) m m') m).
  { wp_step. wp_use rt_rmv_list_spec; [done..|]. intros _ m1 [HQ1 HF1].
    assert (HT1 : tcbs m1 pr T).
    { eapply tcbs_frame; [done..|]. unfold links. naive_solver. }
    wp_use rt_put_prio_spec; [done..|by simplify_map_eq|done| |].
    - intros h' l' Hl. assert (is_Some (Q !! h')) as [k Hk].
      { destruct (decide (h' = h)) as [->|]; [by eexists|]. rewrite lookup_insert_ne in Hl by done. eauto. }
      by apply (q_head _ _ _ HQ) in Hk as [_ ?].
    - intros _ m2 [HQ2 HF2]. rewrite insert_insert_eq in HQ2. split; [done|].
      eapply frame_mono; [by eapply frame_trans|]. naive_solver. }
  unfold rt_resort_prio. wp_run. destruct (decide (h = os_rdy)) as [->|E].
  - cbn [Z.eqb NULL]. assert (m !! (t, state) = Some READY) by auto. wp_run.
    rewrite Z.eqb_refl. exact Hmove.
  - rewrite (proj2 (Z.eqb_neq _ _)) by done. wp_run.
    destruct (q_queue _ _ _ HQ _ _ Hh) as [Hs Hq]. rewrite decide_False in Hq by done.
    destruct Hq as ((ty & Hty & Hsm) & Hb). apply backs_app in Hb as [Hb _].
    eapply wp_mono.
    { apply (find_header_spec _ h l1 _ ty); [done| |done| |].
      - intros x Hx. apply HT. apply (q_tasks _ _ _ HQ _ _ _ Hh). set_solver.
      - by intros ->.
      - pose proof (seg_length _ _ _ _ _ (queue_nodup _ _ _ _ _ HQ Hh) Hs) as Hlen.
        rewrite length_app in Hlen. lia. }
    intros _ m' [-> ->]. done.
Qed.

(** A task that is in no queue stays where it is. *)
Lemma rt_resort_prio_free m pr T Q t st :
  queues m T Q -> tcbs m pr T -> t ∈ T -> free_of Q t -> m !! (t, state) = Some st -> st <> READY ->
  wp (rt_resort_prio t) (fun _ m' => m' = m) m.
Proof.
  intros HQ HT Ht Hf Hst Hne. pose proof (q_free _ _ _ HQ _ Ht Hf) as Hr.
  unfold rt_resort_prio. wp_run. cbn [Z.eqb NULL]. wp_run.
  rewrite (proj2 (Z.eqb_neq _ _)) by done. by wp_run.
Qed.

(** ** [rt_put_rdy_first], [rt_get_same_rdy_prio] *)

Lemma rt_put_rdy_first_spec m pr T Q l t :
  queues m T Q -> tcbs m pr T -> Q !! os_rdy = Some l -> t ∈ T -> free_of Q t ->
  wp (rt_put_rdy_first t) (fun _ m' => queues m' T (<[os_rdy := t :: l]> Q) /\
    frame (fun _ f => links f) m m') m.
Proof.
  intros HQ HT Hh Ht Hf. pose proof (q_queue _ _ _ HQ _ _ Hh) as Hq. pose proof Hq as [Hs _].
  apply seg_hd in Hs as Hs1.
  assert (is_Some (m !! (t, p_lnk))) by (eapply tcb_some; [done..|set_solver]).
  assert (is_Some (m !! (t, p_rlnk))) by (eapply tcb_some; [done..|set_solver]).
  pose proof (q_head _ _ _ HQ _ _ Hh) as [_ HhT].
  assert (t <> os_rdy) by congruence.
  unfold rt_put_rdy_first. wp_run. split; [|unfold links; frames].
  assert (Hnd : NoDup (os_rdy :: t :: l)).
  { pose proof (queue_nodup _ _ _ _ _ HQ Hh) as [? ?]%NoDup_cons.
    apply NoDup_cons. split; [set_solver|]. apply NoDup_cons. split; [by eapply Hf|done]. }
  pose proof (queue_insert m os_rdy [] l t Hq Hnd) as Hins. cbn in Hins.
  rewrite (insert_insert_ne _ (os_rdy, p_lnk)) by congruence.
  eapply queues_update; [exact HQ|exact Hh| |..]; try done.
  - apply Hins; [by eapply tcb_nonnull|]. intros. by eapply queue_nonnull.
  - by apply NoDup_cons in Hnd as [_ ?].
  - intros. tauto.
  - intros. by eapply (q_tasks _ _ _ HQ).
  - intros h' l' Hl'. by apply (q_head _ _ _ HQ) in Hl' as [_ ?].
  - intros x [->|Hx]%elem_of_cons; [done|]. by eapply (q_tasks _ _ _ HQ).
  - intros x [->|Hx]%elem_of_cons ?; done.
  - intros x Hx Hx'. destruct Hx'. by right.
  - intros p f Hf' Hp Hpl Hpl'. apply not_elem_of_cons in Hpl' as [? ?].
    rewrite !lookup_insert_ne; [done|..]; congruence.
Qed.

Lemma rt_get_same_rdy_prio_spec m pr T Q l t r :
  queues m T Q -> tcbs m pr T -> Q !! os_rdy = Some (t :: l) -> m !! (os_tsk, run) = Some r -> r ∈ T ->
  wp rt_get_same_rdy_prio (fun x m' =>
    if pr t =? pr r then x = t /\ queues m' T (<[os_rdy := l]> Q) /\ free_of (<[os_rdy := l]> Q) t /\
      frame (fun _ f => links f) m m'
    else x = NULL /\ m' = m) m.
Proof.
  intros HQ HT Hh Hrun Hr. pose proof (q_queue _ _ _ HQ _ _ Hh) as [[Hs1 Hs2] [Hty Hf]].
  destruct (queue_hdz_tcb _ _ _ _ _ [] l t HQ HT Hh) as (Ht & HnT & Hnn).
  apply Forall_cons_iff in Hf as [Hf1 Hf]. apply seg_hd in Hs2.
  pose proof (tcb_prio _ _ _ _ HT Ht). pose proof (tcb_prio _ _ _ _ HT Hr).
  unfold rt_get_same_rdy_prio. wp_run. destruct (pr t =? pr r); wp_run; [|done].
  split_and!; [done| |by apply (free_of_removed _ _ _ _ [] l t HQ Hh)|unfold links; frames].
  eapply (queues_remove _ _ _ _ _ _ [] l); [exact HQ|done|by look| | |].
  - intros Hl. mlook. rewrite Forall_forall in Hf. apply Hf, hdz_in. auto.
  - intros p f Hf' Hp Hph _. rewrite !lookup_insert_ne; [done|..]; intros [= <- <-]; naive_solver.
  - left. split; [done|]. by mlook.
Qed.

(** ** The delay list *)

Fixpoint dbefore (d : Z) (D : list (Z * Z)) : list (Z * Z) :=
  match D with
  | [] => []
  | x :: D => if x.2 <? d then x :: dbefore d D else []
  end.

Fixpoint dafter (d : Z) (D : list (Z * Z)) : list (Z * Z) :=
  match D with
  | [] => []
  | x :: E => if x.2 <? d then dafter d E else D
  end.

(** A new time-out goes before those of the same or a later time. *)
Definition insert_dly (t d : Z) (D : list (Z * Z)) : list (Z * Z) :=
  dbefore d D ++ (t, d) :: dafter d D.

Definition remove_dly (t : Z) (D : list (Z * Z)) : list (Z * Z) := filter (fun x => x.1 <> t) D.

(** The time of the last entry. *)
Fixpoint dlast (t0 : Z) (D : list (Z * Z)) : Z :=
  match D with [] => t0 | x :: D => dlast x.2 D end.

Lemma dbefore_dafter d D : dbefore d D ++ dafter d D = D.
Proof. induction D as [|x D IH]; cbn; [done|]. destruct (x.2 <? d); cbn; congruence. Qed.

Lemma insert_dly_perm t d D : insert_dly t d D ≡ₚ (t, d) :: D.
Proof. unfold insert_dly. rewrite <- Permutation_middle. by rewrite dbefore_dafter. Qed.

Lemma deltas_ext m m' p t0 D e :
  deltas m p t0 D e -> (forall q, q = p \/ q ∈ D.*1 -> m' !! (q, delta_time) = m !! (q, delta_time)) ->
  deltas m' p t0 D e.
Proof.
  revert p t0. induction D as [|[x d] D IH]; intros p t0; cbn.
  - intros H E. rewrite E; auto.
  - intros (? & H & ?) E. rewrite E by auto. split_and!; [lia|lia|done|]. apply IH; [done|].
    intros q Hq. apply E. right. apply elem_of_cons. tauto.
Qed.

Lemma deltas_app m p t0 D q d E e :
  deltas m p t0 (D ++ (q, d) :: E) e <->
  deltas m p t0 D (Some d) /\ dlast t0 D <= d < 65536 /\ deltas m q d E e.
Proof.
  revert p t0. induction D as [|[x c] D IH]; intros p t0; cbn; [tauto|]. rewrite IH. tauto.
Qed.

Lemma deltas_last m p t0 D e :
  deltas m p t0 D e -> t0 <= dlast t0 D /\
  m !! (lst p D.*1, delta_time) = Some (match e with Some t1 => t1 - dlast t0 D | None => 0 end).
Proof.
  revert p t0. induction D as [|[x c] D IH]; intros p t0; cbn; [split; [lia|done]|].
  intros (? & ? & H). apply IH in H as [? ?]. split; [lia|done].
Qed.

Lemma deltas_set_last m p t0 D e e' :
  NoDup (p :: D.*1) -> deltas m p t0 D e ->
  deltas (<[(lst p D.*1, delta_time) := match e' with Some t1 => t1 - dlast t0 D | None => 0 end]> m)
    p t0 D e'.
Proof.
  revert p t0. induction D as [|[x c] D IH]; intros p t0; cbn; intros Hnd.
  - intros _. by rewrite lookup_insert_eq.
  - intros (? & H & ?). apply NoDup_cons in Hnd as [Hp Hnd]. split_and!; [lia|lia| |auto].
    rewrite lookup_insert_ne; [done|].
    intros [= E]. apply Hp. rewrite <- E. destruct (lst_in x D.*1) as [->|]; [by left|by right].
Qed.

Lemma deltas_bound m p t0 D e : deltas m p t0 D e -> t0 < 65536 -> dlast t0 D < 65536.
Proof.
  revert p t0. induction D as [|[x c] D IH]; intros p t0; cbn; [lia|].
  intros (? & ? & H) ?. eapply IH; [done|lia].
Qed.

Lemma dafter_hd d D q c E : dafter d D = (q, c) :: E -> d <= c.
Proof.
  induction D as [|[x b] D IH]; cbn; [done|].
  destruct (Z.ltb_spec b d); [done|]. intros [= <- <- <-]. lia.
Qed.

Lemma dbefore_last t0 d D : t0 < d -> dlast t0 (dbefore d D) < d.
Proof.
  revert t0. induction D as [|[x b] D IH]; intros t0; cbn; [done|].
  intros. destruct (Z.ltb_spec b d); cbn; [auto|done].
Qed.

Lemma put_dly_loop_spec m p t0 D fuel idelay v :
  seg m p_dlnk p D.*1 NULL -> deltas m p t0 D None -> m !! (p, delta_time) = Some v ->
  (forall x, x ∈ D.*1 -> x <> NULL) -> 0 <= t0 < 65536 -> (D = [] -> t0 < idelay) ->
  (length D < fuel)%nat ->
  wp (put_dly_loop fuel idelay p (t0 + v)) (fun r m' => m' = m /\
    r = (lst p (dbefore idelay D).*1, dlast t0 (dbefore idelay D) +
         default 0 (m !! (lst p (dbefore idelay D).*1, delta_time)),
         bool_decide (dafter idelay D = []))) m.
Proof.
  revert p t0 fuel v. induction D as [|[x c] D IH]; intros p t0 fuel v;
    cbn [fmap list_fmap fst]; intros Hs Hd Hv Hnn Ht0 Hlt Hf;
    (destruct fuel as [|fuel]; cbn [length] in Hf; [lia|]); cbn [put_dly_loop].
  - cbn in Hd. simplify_eq. rewrite (proj2 (Z.ltb_lt _ _)) by (specialize (Hlt eq_refl); lia).
    cbn in Hs. wp_run. rewrite Z.eqb_refl. wp_run. split; [done|]. cbn. by rewrite Hd.
  - destruct Hd as (Hc & Hv' & Hd). rewrite Hv' in Hv. injection Hv as <-.
    cbn [dbefore dafter snd]. replace (t0 + (c - t0)) with c by lia.
    destruct (Z.ltb_spec c idelay).
    + destruct Hs as [Hs1 Hs]. wp_run.
      rewrite (proj2 (Z.eqb_neq _ _)) by (apply Hnn; by left).
      assert (exists v, m !! (x, delta_time) = Some v /\ 0 <= v /\ c + v < 4294967296) as (v & Hv & Hv0 & Hv1).
      { destruct D as [|[y b] D]; cbn in Hd; [exists 0; split; [done|lia]|].
        destruct Hd as (? & ? & _). eexists. split; [done|lia]. }
      wp_step. eapply wp_load; [done|]. rewrite u32_id by lia.
      apply IH; [done|done|done| |lia|lia|lia].
      intros. apply Hnn. by right.
    + wp_run. split; [done|]. cbn. rewrite Hv'. cbn. by replace (t0 + (c - t0)) with c by lia.
Qed.

Lemma dlist_nonnull m pr T D x : delays m T D -> tcbs m pr T -> x ∈ D.*1 -> x <> NULL /\ x <> os_dly.
Proof.
  intros HD HT Hx%(d_tasks _ _ _ HD). split; [by eapply tcb_nonnull|by eapply tcb_not_dly].
Qed.

Lemma dlist_nodup m pr T D : delays m T D -> tcbs m pr T -> NoDup (os_dly :: D.*1).
Proof.
  intros HD HT. apply NoDup_cons. split; [|apply HD].
  intros Hx. by destruct (dlist_nonnull _ _ _ _ _ HD HT Hx).
Qed.

(** The delay list around a place [D1 ++ D2]: what holds once [t] is linked in
    between with the right differences. *)
Lemma delays_insert m m' pr T D1 D2 t d :
  delays m T (D1 ++ D2) -> tcbs m pr T -> t ∈ T -> t ∉ (D1 ++ D2).*1 ->
  dlast 0 D1 <= d < 65536 -> (forall q c E, D2 = (q, c) :: E -> d <= c) ->
  m' !! (t, p_dlnk) = Some (hdz D2.*1) ->
  m' !! (lst os_dly D1.*1, p_dlnk) = Some t ->
  m' !! (t, p_blnk) = Some (lst os_dly D1.*1) ->
  (D2 <> [] -> m' !! (hdz D2.*1, p_blnk) = Some t) ->
  m' !! (t, delta_time) = Some (match D2 with (_, c) :: _ => c - d | [] => 0 end) ->
  m' !! (lst os_dly D1.*1, delta_time) = Some (d - dlast 0 D1) ->
  (forall p f, dlinks f -> p <> t -> ~ (p = lst os_dly D1.*1 /\ f <> p_blnk) ->
     ~ (D2 <> [] /\ p = hdz D2.*1 /\ f = p_blnk) -> m' !! (p, f) = m !! (p, f)) ->
  delays m' T (D1 ++ (t, d) :: D2).
Proof.
  unfold dlinks. intros HD HT Ht Htn Hd Hd2 M1 M2 M3 M4 M5 M6 E.
  pose proof (dlist_nodup _ _ _ _ HD HT) as Hnd.
  pose proof (tcb_nonnull _ _ _ _ HT Ht) as Ht0.
  pose proof (tcb_not_dly _ _ _ _ HT Ht) as Hto.
  rewrite fmap_app in Hnd, Htn. apply NoDup_cons in Hnd as [Hh Hnd].
  apply NoDup_app in Hnd as (Hn1 & Hn12 & Hn2).
  apply not_elem_of_app in Hh as [Hh1 Hh2], Htn as [Ht1 Ht2].
  assert (Hlst := lst_in os_dly D1.*1).
  assert (HL2 : lst os_dly D1.*1 ∉ D2.*1).
  { destruct Hlst as [->|Hl]; [done|]. by apply Hn12. }
  destruct HD as [Hl Hb Htm Hnd HDT Hfr]. rewrite fmap_app in Hl, Hb.
  assert (Hhd : D2 <> [] -> hdz D2.*1 ∈ D2.*1) by (destruct D2; [done|left]).
  constructor.
  - rewrite fmap_app. cbn. apply seg_app. split.
    + apply seg_split in Hl as [Hl _].
      eapply (seg_set_last _ _ _ _ _ t) in Hl; [|by apply NoDup_cons].
      eapply seg_ext; [done|]. intros q Hq.
      destruct (decide (q = lst os_dly D1.*1)) as [->|]; [by rewrite lookup_insert_eq|].
      rewrite lookup_insert_ne by congruence. apply E; [tauto| |naive_solver..].
      intros ->. destruct Hq; naive_solver.
    + destruct D2 as [|[x c] D2]; [done|]. split; [done|].
      apply seg_app in Hl as [_ Hl]. eapply seg_ext; [done|]. intros q Hq. rewrite <- elem_of_cons in Hq.
      apply E; [tauto| | |naive_solver]; [intros ->; done|intros [-> _]; done].
  - rewrite fmap_app. apply backs_app in Hb as [Hb1 Hb2]. apply backs_app. split.
    + eapply backs_ext; [done|]. intros q Hq. apply E; [tauto|by intros ->|naive_solver|].
      intros (Hne & -> & _). apply (Hn12 _ Hq). auto.
    + cbn. split; [done|]. destruct D2 as [|[x c] D2]; [done|]. cbn in Hb2 |- *.
      split; [by apply M4|]. destruct Hb2 as [_ Hb2]. eapply backs_ext; [done|].
      intros q Hq. apply E; [tauto| |naive_solver|].
      * intros ->. apply Ht2. by right.
      * intros (_ & -> & _). cbn in Hn2. by apply NoDup_cons in Hn2 as [? _].
  - apply deltas_app. split_and!; [|lia|lia|].
    + assert (Htm1 : exists e, deltas m os_dly 0 D1 e).
      { destruct D2 as [|[x c] D2]; [rewrite app_nil_r in Htm; eauto|].
        apply deltas_app in Htm as [? _]. eauto. }
      destruct Htm1 as [e Htm1].
      eapply (deltas_set_last _ _ _ _ _ (Some d)) in Htm1; [|by apply NoDup_cons].
      eapply deltas_ext; [done|]. intros q Hq.
      destruct (decide (q = lst os_dly D1.*1)) as [->|]; [by rewrite lookup_insert_eq|].
      rewrite lookup_insert_ne by congruence. apply E; [tauto| |naive_solver|naive_solver].
      intros ->. destruct Hq; naive_solver.
    + destruct D2 as [|[x c] D2]; [done|]. apply deltas_app in Htm as (_ & Hc & Htm).
      cbn. specialize (Hd2 _ _ _ eq_refl). split_and!; [lia|lia|done|].
      eapply deltas_ext; [done|]. intros q Hq. rewrite <- elem_of_cons in Hq.
      apply E; [tauto| | |naive_solver]; [intros ->; done|intros [-> _]; done].
  - rewrite fmap_app. cbn. rewrite <- Permutation_middle, <- fmap_app. apply NoDup_cons.
    split; [|done]. rewrite fmap_app. apply not_elem_of_app. done.
  - intros x. rewrite fmap_app. cbn. intros [Hx|[->|Hx]%elem_of_cons]%elem_of_app; [|done|];
      apply HDT; rewrite fmap_app; apply elem_of_app; tauto.
  - intros x Hx Hxn. rewrite fmap_app in Hxn. cbn in Hxn.
    apply not_elem_of_app in Hxn as [? [? ?]%not_elem_of_cons].
    rewrite E; [apply Hfr; [done|rewrite fmap_app; by apply not_elem_of_app]|tauto|done|naive_solver|].
    intros (? & -> & _). auto.
Qed.

(** [rt_put_dly] adds a time-out. *)
Lemma rt_put_dly_spec m pr T D t d :
  delays m T D -> tcbs m pr T -> t ∈ T -> t ∉ D.*1 -> 0 < d < 65536 ->
  wp (rt_put_dly t d) (fun _ m' => delays m' T (insert_dly t d D) /\ frame (fun _ f => dlinks f) m m') m.
Proof.
  intros HD HT Ht Htn Hd.
  pose proof (dlist_nodup _ _ _ _ HD HT) as Hnd.
  pose proof HD as [Hl Hb Htm _ HDT _]. apply seg_hd in Hl as Hl0.
  assert (Hs1 : is_Some (m !! (t, p_dlnk))) by (eapply tcb_some; [done..|set_solver]).
  assert (Hs2 : is_Some (m !! (t, p_blnk))) by (eapply tcb_some; [done..|set_solver]).
  assert (Hs3 : is_Some (m !! (t, delta_time))) by (eapply tcb_some; [done..|set_solver]).
  set (D1 := dbefore d D). set (D2 := dafter d D). set (p := lst os_dly D1.*1).
  assert (ED : D1 ++ D2 = D) by apply dbefore_dafter.
  assert (Hdl : dlast 0 D1 < d) by (apply dbefore_last; lia).
  assert (Hdl0 : 0 <= dlast 0 D1).
  { rewrite <- ED in Htm. destruct D2 as [|[x c] D2].
    - rewrite app_nil_r in Htm. by apply deltas_last in Htm as [? _].
    - apply deltas_app in Htm as [Htm _]. by apply deltas_last in Htm as [? _]. }
  assert (Hp : m !! (p, delta_time) = Some (match D2 with (_, c) :: _ => c - dlast 0 D1 | [] => 0 end)).
  { rewrite <- ED in Htm. destruct D2 as [|[x c] D2].
    - rewrite app_nil_r in Htm. by apply deltas_last in Htm as [_ ?].
    - apply deltas_app in Htm as [Htm _]. by apply deltas_last in Htm as [_ ?]. }
  assert (Hpd : m !! (p, p_dlnk) = Some (hdz D2.*1)).
  { rewrite <- ED, fmap_app in Hl. apply seg_split in Hl as [Hl _]. by apply seg_lst in Hl. }
  assert (Hpt : p <> t).
  { unfold p. destruct (lst_in os_dly D1.*1) as [->|Hin].
    - intros <-. by apply (tcb_not_dly _ _ _ _ HT Ht).
    - intros E. rewrite E in Hin. apply Htn. rewrite <- ED, fmap_app. apply elem_of_app. tauto. }
  assert (Hloop : wp (if hdz D.*1 =? NULL then mret (os_dly, 0, true)
       else
         delta ← load os_dly delta_time;
         fuel ← mem_fuel;
         put_dly_loop fuel d os_dly delta)
    (fun r m' => m' = m /\ r = (p, match D2 with (_, c) :: _ => c | [] => dlast 0 D1 end, bool_decide (D2 = []))) m).
  { destruct D as [|[x c] D'].
    - cbn [fmap list_fmap hdz]. rewrite Z.eqb_refl. wp_run. done.
    - set (D := (x, c) :: D') in *.
      rewrite (proj2 (Z.eqb_neq _ _)) by (eapply dlist_nonnull; [done..|by left]).
      pose proof Htm as (? & Hv & _). wp_run.
      eapply wp_mono.
      { apply (put_dly_loop_spec m os_dly 0 D _ d (c - 0)); [done|done|done| |lia|done|].
        - intros y Hy. by apply (dlist_nonnull _ _ _ _ _ HD HT).
        - pose proof (seg_length _ _ _ _ _ Hnd Hl) as Hlen. rewrite length_fmap in Hlen. lia. }
      cbv beta. intros r m' [-> ->]. split; [done|]. fold D1 D2 p. rewrite Hp. unfold default, from_option, id.
      f_equal. f_equal. destruct D2 as [|[y b] D2]; lia. }
  unfold rt_put_dly. wp_run. eapply wp_mono; [exact Hloop|]. intros r m' [-> ->]. cbn [fst snd].
  assert (Hfin : forall m', 
    m' !! (t, p_dlnk) = Some (hdz D2.*1) -> m' !! (p, p_dlnk) = Some t ->
    m' !! (t, p_blnk) = Some p -> (D2 <> [] -> m' !! (hdz D2.*1, p_blnk) = Some t) ->
    m' !! (t, delta_time) = Some (match D2 with (_, c) :: _ => c - d | [] => 0 end) ->
    m' !! (p, delta_time) = Some (d - dlast 0 D1) ->
    (forall q f, dlinks f -> q <> t -> ~ (q = p /\ f <> p_blnk) ->
       ~ (D2 <> [] /\ q = hdz D2.*1 /\ f = p_blnk) -> m' !! (q, f) = m !! (q, f)) ->
    delays m' T (insert_dly t d D)).
  { intros m' ???????. apply (delays_insert m m' pr T D1 D2 t d); rewrite ?ED; try done; [lia|].
    intros. by eapply dafter_hd. }
  case_bool_decide as E2; cbn [fst snd].
  - rewrite E2 in *. wp_run. rewrite !u16_id by lia. split; [|unfold dlinks; frames].
    apply Hfin; try (by look).
    intros q f Hf Hq Hqp _. rewrite !lookup_insert_ne; [done|..]; intros [= <- <-]; naive_solver.
  - destruct D2 as [|[x c] D3] eqn:ED2; [done|]. cbn [fmap list_fmap fst hdz] in *.
    assert (d <= c) by (eapply dafter_hd; exact ED2).
    assert (Hc : c < 65536).
    { rewrite <- ED in Htm. apply deltas_app in Htm as (_ & ? & _). lia. }
    assert (Hxin : x ∈ D.*1) by (rewrite <- ED, fmap_app; apply elem_of_app; right; by left).
    pose proof (dlist_nonnull _ _ _ _ _ HD HT Hxin) as [Hx0 Hxo].
    apply HDT in Hxin as HxT.
    assert (Hs4 : is_Some (m !! (x, p_blnk))) by (eapply tcb_some; [done..|set_solver]).
    assert (Hxt : x <> t) by congruence.
    wp_run. rewrite (proj2 (Z.eqb_neq _ _)) by done. cbn [negb]. wp_run.
    rewrite (u16_id (c - d)), u16_id by lia. split; [|unfold dlinks; frames].
    apply Hfin; try (by look).
    + mlook. f_equal. lia.
    + intros q f Hf Hq Hqp Hqx. rewrite !lookup_insert_ne; [done|..]; intros [= <- <-]; naive_solver.
Qed.

(** The delay list without [t], in any memory where its neighbours are linked
    to each other and the difference to the successor covers the gap. *)
Lemma delays_remove m m' pr T D1 D2 t d :
  delays m T (D1 ++ (t, d) :: D2) -> tcbs m pr T ->
  m' !! (lst os_dly D1.*1, p_dlnk) = Some (hdz D2.*1) ->
  (D2 <> [] -> m' !! (hdz D2.*1, p_blnk) = Some (lst os_dly D1.*1)) ->
  m' !! (lst os_dly D1.*1, delta_time) =
    Some (match D2 with (_, c) :: _ => c - dlast 0 D1 | [] => 0 end) ->
  m' !! (t, p_blnk) = Some NULL ->
  (forall p f, dlinks f -> p <> t -> ~ (p = lst os_dly D1.*1 /\ f <> p_blnk) ->
     ~ (D2 <> [] /\ p = hdz D2.*1 /\ f = p_blnk) -> m' !! (p, f) = m !! (p, f)) ->
  delays m' T (D1 ++ D2).
Proof.
  unfold dlinks. intros HD HT M1 M2 M3 M4 E.
  pose proof (dlist_nodup _ _ _ _ HD HT) as Hnd.
  rewrite fmap_app in Hnd. apply NoDup_cons in Hnd as [Hh Hnd]. cbn in Hh, Hnd.
  apply NoDup_app in Hnd as (Hn1 & Hn12 & [Ht2 Hn2]%NoDup_cons).
  apply not_elem_of_app in Hh as [Hh1 [Hto Hh2]%not_elem_of_cons].
  assert (Ht1 : t ∉ D1.*1) by (intros Hx; apply (Hn12 _ Hx); by left).
  assert (Hlst := lst_in os_dly D1.*1).
  assert (HL2 : lst os_dly D1.*1 ∉ t :: D2.*1).
  { destruct Hlst as [->|Hl]; [by apply not_elem_of_cons|]. by apply Hn12. }
  apply not_elem_of_cons in HL2 as [HLt HL2].
  destruct HD as [Hl Hb Htm Hnd HDT Hfr]. rewrite fmap_app in Hl, Hb, Hnd, HDT. cbn in Hl, Hb, Hnd, HDT.
  apply seg_app in Hl as [Hl1 Hl2]. apply backs_app in Hb as (Hb1 & _ & Hb2).
  apply deltas_app in Htm as (Htm1 & Hd & Htm2).
  constructor.
  - rewrite fmap_app. eapply (seg_set_last _ _ _ _ _ (hdz D2.*1)) in Hl1; [|by apply NoDup_cons].
    assert (Hl1' : seg m' p_dlnk os_dly D1.*1 (hdz D2.*1)).
    { eapply seg_ext; [done|]. intros q Hq.
      destruct (decide (q = lst os_dly D1.*1)) as [->|]; [by rewrite lookup_insert_eq|].
      rewrite lookup_insert_ne by congruence. apply E; [tauto| |naive_solver..].
      intros ->. destruct Hq; naive_solver. }
    destruct D2 as [|[x c] D2]; [by rewrite app_nil_r|]. cbn in Hl2 |- *. apply seg_app. split; [done|].
    destruct Hl2 as [_ Hl2]. eapply seg_ext; [done|]. intros q Hq. rewrite <- elem_of_cons in Hq.
    apply E; [tauto| | |naive_solver]; [by intros ->|intros [-> _]; done].
  - rewrite fmap_app. apply backs_app. split.
    + eapply backs_ext; [done|]. intros q Hq. apply E; [tauto|by intros ->|naive_solver|].
      intros (Hne & -> & _). apply (Hn12 _ Hq). right. by destruct D2; [|left].
    + destruct D2 as [|[x c] D2]; [done|]. cbn in Hb2 |- *. split; [by apply M2|].
      destruct Hb2 as [_ Hb2]. cbn in Hn2. apply NoDup_cons in Hn2 as [? ?].
      eapply backs_ext; [done|]. intros q Hq. apply E; [tauto| |naive_solver|].
      * intros ->. apply Ht2. by right.
      * intros (_ & -> & _). done.
  - assert (Htm1' : forall e, (match e with Some t1 => t1 - dlast 0 D1 | None => 0 end =
        match D2 with (_, c) :: _ => c - dlast 0 D1 | [] => 0 end) -> deltas m' os_dly 0 D1 e).
    { intros e He. eapply (deltas_set_last _ _ _ _ _ e) in Htm1; [|by apply NoDup_cons].
      eapply deltas_ext; [done|]. intros q Hq.
      destruct (decide (q = lst os_dly D1.*1)) as [->|]; [rewrite lookup_insert_eq, He; done|].
      rewrite lookup_insert_ne by congruence. apply E; [tauto| |naive_solver|naive_solver].
      intros ->. destruct Hq; naive_solver. }
    destruct D2 as [|[x c] D2]; [rewrite app_nil_r; by apply Htm1'|].
    destruct Htm2 as (Hc & _ & Htm2). apply deltas_app. split_and!; [by apply Htm1'|lia|lia|].
    eapply deltas_ext; [done|]. intros q Hq. cbn in HL2, Ht2. rewrite <- elem_of_cons in Hq.
    apply E; [tauto| | |naive_solver]; [by intros ->|intros [-> _]; done].
  - rewrite fmap_app. rewrite <- Permutation_middle in Hnd. by apply NoDup_cons in Hnd as [_ ?].
  - intros x. rewrite fmap_app. intros Hx%elem_of_app. apply HDT. set_solver.
  - intros x Hx Hxn. destruct (decide (x = t)) as [->|Hxt]; [done|].
    rewrite fmap_app in Hxn. apply not_elem_of_app in Hxn as [? ?].
    rewrite E; [apply Hfr; [done|rewrite fmap_app; set_solver]|tauto|done|naive_solver|].
    intros (Hne & -> & _). apply H0. destruct D2; [done|]. by left.
Qed.

Lemma remove_dly_eq t D1 D2 d :
  NoDup (D1 ++ (t, d) :: D2).*1 -> remove_dly t (D1 ++ (t, d) :: D2) = D1 ++ D2.
Proof.
  unfold remove_dly. rewrite fmap_app. cbn. intros (_ & Hn12 & [Ht _]%NoDup_cons)%NoDup_app.
  rewrite filter_app, filter_cons_False by (cbn; tauto).
  rewrite !filter_keep; [done|..].
  - intros [x c] Hx; cbn; intros ->. apply Ht. apply list_elem_of_fmap. by exists (t, c).
  - intros [x c] Hx; cbn; intros ->. apply (Hn12 t); [|by left]. apply list_elem_of_fmap. by exists (t, c).
Qed.

Lemma remove_dly_free t D : t ∉ D.*1 -> remove_dly t D = D.
Proof.
  intros Ht. apply filter_keep. intros [x c] Hx; cbn; intros ->. apply Ht.
  apply list_elem_of_fmap. by exists (t, c).
Qed.

Lemma remove_dly_in t D x : x ∈ (remove_dly t D).*1 <-> x ∈ D.*1 /\ x <> t.
Proof.
  unfold remove_dly. rewrite !list_elem_of_fmap. setoid_rewrite list_elem_of_filter. naive_solver.
Qed.

Lemma dlist_split t (D : list (Z * Z)) : t ∈ D.*1 -> exists D1 d D2, D = D1 ++ (t, d) :: D2.
Proof.
  intros ([t' d] & -> & H)%list_elem_of_fmap. apply list_elem_of_split in H as (D1 & D2 & ->).
  by exists D1, d, D2.
Qed.

(** What a removed task leaves in its own cells does not matter. *)
Lemma rt_rmv_dly_spec m pr T D t :
  delays m T D -> tcbs m pr T -> t ∈ T ->
  wp (rt_rmv_dly t) (fun _ m' => delays m' T (remove_dly t D) /\ frame (fun _ f => dlinks f) m m') m.
Proof.
  intros HD HT Ht. unfold rt_rmv_dly. destruct (decide (t ∈ D.*1)) as [Hin|Hn].
  - destruct (dlist_split _ _ Hin) as (D1 & d & D2 & ->).
    rewrite remove_dly_eq by apply HD.
    pose proof (dlist_nodup _ _ _ _ HD HT) as Hnd.
    pose proof HD as [Hl Hb Htm _ HDT _]. rewrite fmap_app in Hl, Hb, HDT, Hnd. cbn in Hl, Hb, HDT, Hnd.
    apply seg_app in Hl as [Hl1 Hl2]. apply seg_lst in Hl1. apply seg_hd in Hl2 as Hl3.
    apply backs_app in Hb as (_ & Hb & _).
    apply deltas_app in Htm as (Htm1 & Hd & Htm2). apply deltas_last in Htm1 as [Hd0 Htm1].
    set (p := lst os_dly D1.*1) in *.
    apply NoDup_cons in Hnd as [Hh Hnd]. apply NoDup_app in Hnd as (Hn1 & Hn12 & [Ht2 Hn2]%NoDup_cons).
    apply not_elem_of_app in Hh as [Hh1 [Hto Hh2]%not_elem_of_cons].
    assert (Hp : p <> NULL /\ p <> t /\ p ∉ D2.*1).
    { destruct (lst_in os_dly D1.*1) as [E|E]; fold p in E.
      - rewrite E. done.
      - split; [eapply tcb_nonnull; [done|apply HDT; set_solver]|].
        specialize (Hn12 p E). set_solver. }
    destruct Hp as (Hp0 & Hpt & Hp2).
    assert (Hs1 : is_Some (m !! (t, p_blnk))) by eauto.
    assert (Hs2 : is_Some (m !! (t, p_dlnk))) by eauto.
    assert (Hfin : forall m', m' !! (p, p_dlnk) = Some (hdz D2.*1) ->
      (D2 <> [] -> m' !! (hdz D2.*1, p_blnk) = Some p) ->
      m' !! (p, delta_time) = Some (match D2 with (_, c) :: _ => c - dlast 0 D1 | [] => 0 end) ->
      m' !! (t, p_blnk) = Some NULL ->
      (forall q f, dlinks f -> q <> t -> ~ (q = p /\ f <> p_blnk) ->
        ~ (D2 <> [] /\ q = hdz D2.*1 /\ f = p_blnk) -> m' !! (q, f) = m !! (q, f)) ->
      delays m' T (D1 ++ D2)) by (intros; by eapply delays_remove).
    wp_run. rewrite (proj2 (Z.eqb_neq _ _)) by done. cbn [negb]. wp_run.
    destruct D2 as [|[x c] D2]; cbn [fmap list_fmap fst hdz] in *.
    + cbn [Z.eqb NULL negb]. wp_run. split; [|unfold dlinks; frames].
      apply Hfin; try (by look).
      intros q f Hf Hq Hqp _. rewrite !lookup_insert_ne; [done|..]; intros [= <- <-]; naive_solver.
    + assert (HxT : x ∈ T) by (apply HDT; set_solver).
      rewrite (proj2 (Z.eqb_neq _ _)) by (by eapply tcb_nonnull). cbn [negb].
      destruct Htm2 as (Hc & Htm2 & _).
      assert (Hs3 : is_Some (m !! (x, p_blnk))) by (eapply tcb_some; [done..|set_solver]).
      assert (Hxt : x <> t) by set_solver. wp_run.
      rewrite u16_id by lia. split; [|unfold dlinks; frames].
      apply Hfin; try (by look).
      * mlook. f_equal. lia.
      * intros q f Hf Hq Hqp Hqx. rewrite !lookup_insert_ne; [done|..]; intros [= <- <-]; naive_solver.
  - pose proof (d_free _ _ _ HD _ Ht Hn). rewrite remove_dly_free by done.
    wp_run. cbn [Z.eqb NULL negb]. wp_run. split; [done|apply frame_refl].
Qed.

(** ** [rt_dec_dly] *)

(** Taking [t] out of whatever queue it waits in. *)
Definition unqueue (t : Z) (Q : gmap Z (list Z)) : gmap Z (list Z) :=
  (fun l => filter (fun x => x <> t) l) <$> Q.

(** Making a task ready: out of its queue, into the ready list. *)
Definition wake (pr : Z -> Z) (t : Z) (Q : gmap Z (list Z)) : gmap Z (list Z) :=
  <[os_rdy := insert_prio pr t (default [] (unqueue t Q !! os_rdy))]> (unqueue t Q).

Definition wakeups (pr : Z -> Z) (ts : list Z) (Q : gmap Z (list Z)) : gmap Z (list Z) :=
  foldl (fun Q t => wake pr t Q) Q ts.

Lemma unqueue_free t Q : free_of Q t -> unqueue t Q = Q.
Proof.
  intros Hf. apply map_eq. intros h. unfold unqueue. rewrite lookup_fmap.
  destruct (Q !! h) as [l|] eqn:E; cbn; [|done]. f_equal. apply filter_keep.
  intros x Hx ->. by apply (Hf _ _ E).
Qed.

Lemma unqueue_in m T Q h l1 l2 t :
  queues m T Q -> Q !! h = Some (l1 ++ t :: l2) -> unqueue t Q = <[h := l1 ++ l2]> Q.
Proof.
  intros HQ Hh. apply map_eq. intros h'. unfold unqueue. rewrite lookup_fmap.
  destruct (decide (h' = h)) as [->|Hne].
  - rewrite Hh, lookup_insert_eq. cbn. f_equal. rewrite filter_app, filter_cons_False by tauto.
    pose proof (q_nodup _ _ _ HQ _ _ Hh) as (_ & Hn & [Ht _]%NoDup_cons)%NoDup_app.
    rewrite !filter_keep; [done|..]; intros x Hx ->; [done|]. apply (Hn t); [done|by left].
  - rewrite lookup_insert_ne by done. destruct (Q !! h') as [l|] eqn:E; cbn; [|done].
    f_equal. apply filter_keep. intros x Hx ->. apply Hne.
    eapply (q_uniq _ _ _ HQ); [done..|set_solver].
Qed.

Lemma unqueue_lookup_free t Q h l : Q !! h = Some l -> t ∉ l -> unqueue t Q !! h = Some l.
Proof.
  intros Hh Ht. unfold unqueue. rewrite lookup_fmap, Hh. cbn. f_equal.
  apply filter_keep. by intros x Hx ->.
Qed.

Lemma unqueue_free_of t Q : free_of (unqueue t Q) t.
Proof.
  intros h l. unfold unqueue. rewrite lookup_fmap. intros (k & _ & ->)%fmap_Some Ht.
  by apply list_elem_of_filter in Ht as [? _].
Qed.

Lemma in_queue_dec (Q : gmap Z (list Z)) t :
  free_of Q t \/ exists h l1 l2, Q !! h = Some (l1 ++ t :: l2).
Proof.
  destruct (decide (map_Exists (fun _ l => t ∈ l) Q)) as [(h & l & Hh & Ht)|Hn].
  - right. apply list_elem_of_split in Ht as (l1 & l2 & ->). eauto.
  - left. intros h l Hh Ht. apply Hn. by exists h, l.
Qed.

(** The first half of the body: out of the waiting list. *)
Lemma dec_dly_unqueue m pr T Q t l :
  queues m T Q -> tcbs m pr T -> t ∈ T -> Q !! os_rdy = Some l -> t ∉ l ->
  wp (dec_dly_leave t)
     (fun _ m' => queues m' T (unqueue t Q) /\ frame (fun _ f => links f) m m') m.
Proof.
  intros HQ HT Ht Hr Htl. unfold dec_dly_leave. destruct (in_queue_dec Q t) as [Hf|(h & l1 & l2 & Hh)].
  - rewrite unqueue_free by done. pose proof (q_free _ _ _ HQ _ Ht Hf).
    wp_run. cbn [Z.eqb NULL negb]. wp_run. split; [done|apply frame_refl].
  - erewrite unqueue_in by done.
    assert (Hho : h <> os_rdy) by (intros ->; simplify_eq; set_solver).
    destruct (queue_hdz_tcb _ _ _ _ _ _ _ _ HQ HT Hh) as (_ & HnT & Hnn).
    destruct (queue_rlnk _ _ _ _ _ _ _ _ HQ HT Hh) as [Hrl Hn]. rewrite decide_False in Hrl by done.
    pose proof (queue_nodup _ _ _ _ _ HQ Hh) as Hnd.
    destruct (q_queue _ _ _ HQ _ _ Hh) as [Hs _].
    apply seg_app in Hs as [Hs1 Hs2]. apply seg_lst in Hs1 as Hs3. apply seg_hd in Hs2 as Hs4.
    assert (Hlt : lst h l1 <> t).
    { rewrite app_comm_cons in Hnd. apply NoDup_app in Hnd as (_ & Hn12 & _).
      intros <-. apply (Hn12 (lst h l1)); [|by left]. apply elem_of_cons, lst_in. }
    assert (Hfin : forall m', m' !! (lst h l1, p_lnk) = Some (hdz l2) ->
      (l2 <> [] -> m' !! (hdz l2, p_rlnk) = Some (lst h l1)) -> m' !! (t, p_rlnk) = Some NULL ->
      (forall p f, f = cb_type \/ links f -> p <> t -> ~ (p = lst h l1 /\ f = p_lnk) ->
        ~ (l2 <> [] /\ p = hdz l2 /\ f = p_rlnk) -> m' !! (p, f) = m !! (p, f)) ->
      queues m' T (<[h := l1 ++ l2]> Q)).
    { intros m' ????. eapply queues_remove; [exact HQ|exact Hh|..]; try done.
      - by rewrite decide_False by done.
      - by left. }
    wp_run. rewrite (proj2 (Z.eqb_neq _ _)) by done. cbn [negb]. wp_run.
    destruct (Z.eqb_spec (hdz l2) NULL) as [E2|E2]; cbn [negb]; wp_run.
    + apply hdz_null in E2 as E3; [|done]. split; [|unfold links; frames].
      apply Hfin; [by look|done|by look|].
      intros p f Hf Hp Hph _. rewrite !lookup_insert_ne; [done|..]; intros [= <- <-]; naive_solver.
    + assert (Hs5 : is_Some (m !! (hdz l2, p_rlnk))) by (eapply tcb_some; [done|by apply HnT|set_solver]).
      assert (hdz l2 <> t).
      { intros E. apply hdz_in in E2. rewrite E in E2.
        apply NoDup_cons in Hnd as [_ (_ & _ & [? _]%NoDup_cons)%NoDup_app]. done. }
      wp_run. split; [|unfold links; frames]. apply Hfin; [by look| |by look|].
      * intros _. by mlook.
      * intros p f Hf Hp Hph Hpl. rewrite !lookup_insert_ne; [done|..]; intros [= <- <-]; naive_solver.
Qed.

Lemma frame_queues m m' T Q K :
  queues m T Q -> frame K m m' -> (forall p f, K p f -> ~ links f /\ f <> cb_type) -> queues m' T Q.
Proof. intros HQ HF HK. eapply queues_frame; [done..|]. intros p f ?%HK. tauto. Qed.

(** The body of the loop, for a task whose time has come. *)
Lemma dec_dly_body_spec m pr T Q t l D tm :
  queues m T Q -> tcbs m pr T -> delays m T ((t, 0) :: D) -> Q !! os_rdy = Some l -> t ∉ l ->
  m !! (os_time, value) = Some tm ->
  wp (dec_dly_body t) (fun _ m' => queues m' T (wake pr t Q) /\ delays m' T D /\
    m' !! (t, state) = Some READY /\
    frame (fun p f => links f \/ dlinks f \/ (p = t /\ f = state)) m m') m.
Proof.
  intros HQ HT HD Hl Htl Htm.
  assert (Ht : t ∈ T) by (apply (d_tasks _ _ _ HD); by left).
  unfold dec_dly_body. wp_step. wp_use dec_dly_unqueue; [done..|]. intros _ m1 [HQ1 HF1].
  assert (HT1 : tcbs m1 pr T) by (eapply tcbs_frame; [done..|]; unfold links; naive_solver).
  assert (HD1 : delays m1 T ((t, 0) :: D)).
  { eapply delays_frame; [done..|]. unfold links, dlinks. naive_solver. }
  pose proof (unqueue_lookup_free _ _ _ _ Hl Htl) as Hl1.
  wp_step. wp_use rt_put_prio_free; [done..|apply unqueue_free_of|]. intros _ m2 [HQ2 HF2].
  pose proof (frame_trans _ _ _ _ _ HF1 HF2) as HF. cbv beta in HF.
  assert (HT2 : tcbs m2 pr T) by (eapply tcbs_frame; [done..|]; unfold links; naive_solver).
  assert (HD2 : delays m2 T ((t, 0) :: D)).
  { eapply delays_frame; [done..|]. unfold links, dlinks. naive_solver. }
  pose proof (frame_eq _ _ _ _ _ _ HF Htm ltac:(unfold links; naive_solver)) as Htm2.
  assert (HQ2' : queues m2 T (wake pr t Q)) by (unfold wake; by rewrite Hl1).
  clear HQ1 HT1 HD1 HF1 HF2 HQ2.
  pose proof HD2 as [[Hd1 Hd2] [Hd3 Hd4] (_ & Hd5 & Hd6) _ HDT _]. cbn in Hd1, Hd2, Hd3, Hd4.
  apply seg_hd in Hd2.
  assert (exists st, m2 !! (t, state) = Some st) as [st Hst] by (eapply (tcb_some _ _ _ _ state); [done..|set_solver]).
  assert (exists itv, m2 !! (t, interval_time) = Some itv) as [itv Hitv].
  { eapply (tcb_some _ _ _ _ interval_time); [done..|set_solver]. }
  pose proof (tcb_not_dly _ _ _ _ HT Ht) as Hto.
  set (v := match D with (_, c) :: _ => c | [] => 0 end).
  assert (Hv : m2 !! (t, delta_time) = Some v).
  { unfold v. destruct D as [|[q c] D]; [done|]. destruct Hd6 as (? & E & _). rewrite E. f_equal. lia. }
  set (K := fun p f => links f \/ dlinks f \/ (p = t /\ f = state)).
  assert (Hfin : forall m', frame (fun p f => dlinks f \/ (p = t /\ f = state)) m2 m' ->
    m' !! (os_dly, p_dlnk) = Some (hdz D.*1) ->
    (D <> [] -> m' !! (hdz D.*1, p_blnk) = Some os_dly) ->
    m' !! (os_dly, delta_time) = Some v -> m' !! (t, p_blnk) = Some NULL ->
    m' !! (t, state) = Some READY ->
    (forall p f, dlinks f -> p <> t -> ~ (p = os_dly /\ f <> p_blnk) ->
       ~ (D <> [] /\ p = hdz D.*1 /\ f = p_blnk) -> m' !! (p, f) = m2 !! (p, f)) ->
    queues m' T (wake pr t Q) /\ delays m' T D /\ m' !! (t, state) = Some READY /\ frame K m m').
  { intros m' HFm ??????. split_and!; [|apply (delays_remove m2 m' pr T [] D t 0); try done|done|].
    - eapply frame_queues; [done..|]. unfold links, dlinks. naive_solver.
    - cbn. unfold v in *. destruct D as [|[q c] D]; [done|]. cbn. rewrite Z.sub_0_r. done.
    - eapply frame_mono; [by eapply frame_trans|]. unfold K. tauto. }
  assert (Hs1 : is_Some (m2 !! (os_dly, delta_time))) by eauto.
  assert (Hs2 : is_Some (m2 !! (os_dly, p_dlnk))) by eauto.
  assert (Hs3 : is_Some (m2 !! (t, p_dlnk))) by eauto.
  assert (Hs4 : is_Some (m2 !! (t, p_blnk))) by eauto.
  assert (Hs5 : is_Some (m2 !! (t, delta_time))) by eauto.
  assert (Hs6 : is_Some (m2 !! (t, state))) by eauto.
  wp_run. eapply wp_mono with (Q' := fun _ m3 => exists w, m3 = <[(os_dly, delta_time) := v]> m2 \/
    m3 = <[(t, delta_time) := w]> (<[(os_dly, delta_time) := v]> m2)).
  { destruct (st =? WAIT_ITV); wp_run; exists (u16 (itv + u16 tm)); auto. }
  intros _ m3 [w Hm3].
  assert (E3 : m3 !! (os_dly, delta_time) = Some v /\
    frame (fun p f => f = delta_time) m2 m3 /\
    forall p f, p <> t -> p <> os_dly -> m3 !! (p, f) = m2 !! (p, f)).
  { destruct Hm3 as [->| ->]; split_and!; try (by look); try (by frames);
      intros; by mlook. }
  destruct E3 as (E3a & E3b & E3c). clear Hm3.
  assert (E3d : m3 !! (t, p_dlnk) = Some (hdz D.*1)) by (eapply frame_eq; [done..|]; done).
  assert (is_Some (m3 !! (t, state))) by (by eapply frame_some).
  assert (is_Some (m3 !! (t, p_dlnk))) by (by eapply frame_some).
  assert (is_Some (m3 !! (t, p_blnk))) by (by eapply frame_some).
  assert (is_Some (m3 !! (os_dly, p_dlnk))) by (by eapply frame_some).
  assert (HF3 : frame (fun p f => dlinks f \/ (p = t /\ f = state)) m2 m3).
  { eapply frame_mono; [done|]. unfold dlinks. intros; subst; tauto. }
  wp_run. destruct D as [|[x c] D]; cbn [fmap list_fmap fst hdz] in *.
  - cbn [Z.eqb NULL negb]. wp_run. apply Hfin; try (by look); [unfold dlinks in *; frames|].
    intros p f Hf Hp Hpd _. rewrite !lookup_insert_ne by naive_solver.
    destruct (decide (p = os_dly)) as [->|]; [|by apply E3c]. apply (E3b os_dly f). naive_solver.
  - assert (HxT : x ∈ T) by (apply HDT; cbn; set_solver).
    rewrite (proj2 (Z.eqb_neq _ _)) by (by eapply tcb_nonnull). cbn [negb].
    pose proof (tcb_not_dly _ _ _ _ HT HxT) as Hxo.
    assert (Hxt : x <> t) by (intros ->; destruct HD2 as [_ _ _ [Hn _]%NoDup_cons _ _]; cbn in Hn; set_solver).
    assert (Hs7 : is_Some (m2 !! (x, p_blnk))) by (eapply tcb_some; [done..|set_solver]).
    assert (is_Some (m3 !! (x, p_blnk))) by (by eapply frame_some).
    wp_run. apply Hfin; try (by look); [unfold dlinks in *; frames|].
    intros p f Hf Hp Hpd Hpx. rewrite !lookup_insert_ne by naive_solver.
    destruct (decide (p = os_dly)) as [->|]; [|by apply E3c]. apply (E3b os_dly f). naive_solver.
Qed.

(** The ready list after tasks were woken. *)
Lemma wake_rdy pr t Q l : Q !! os_rdy = Some l -> t ∉ l ->
  wake pr t Q !! os_rdy = Some (insert_prio pr t l).
Proof.
  intros Hl Ht. unfold wake. rewrite lookup_insert_eq. by rewrite (unqueue_lookup_free _ _ _ _ Hl Ht).
Qed.

Lemma dec_dly_loop_spec m pr T Q D fuel l tm :
  queues m T Q -> tcbs m pr T -> delays m T D -> Q !! os_rdy = Some l ->
  (forall t, t ∈ D.*1 -> t ∉ l) -> (forall x, x ∈ D -> 0 <= x.2) -> m !! (os_time, value) = Some tm ->
  (length D < fuel)%nat ->
  wp (dec_dly_loop fuel) (fun _ m' => queues m' T (wakeups pr (dbefore 1 D).*1 Q) /\
    delays m' T (dafter 1 D) /\
    (forall t, t ∈ (dbefore 1 D).*1 -> m' !! (t, state) = Some READY) /\
    frame (fun p f => links f \/ dlinks f \/ (p ∈ (dbefore 1 D).*1 /\ f = state)) m m') m.
Proof.
  revert m Q fuel l. induction D as [|[t d] D IH]; intros m Q fuel l HQ HT HD Hl Hnl Hge Htm Hf;
    (destruct fuel as [|fuel]; cbn [length] in Hf; [lia|]); cbn [dec_dly_loop];
    pose proof HD as [Hd1 _ Hd2 _ _ _]; apply seg_hd in Hd1; cbn [fmap list_fmap fst hdz] in Hd1.
  - cbn in Hd2. wp_run. cbn. wp_run. split_and!; [done|done|by intros ? []%elem_of_nil|apply frame_refl].
  - destruct Hd2 as (Hd & Hd2 & _). rewrite Z.sub_0_r in Hd2. wp_run.
    rewrite (proj2 (Z.eqb_neq t _)) by (eapply dlist_nonnull; [done..|by left]).
    cbn [negb dbefore dafter snd]. rewrite andb_true_r.
    destruct (Z.eqb_spec d 0) as [->|Hd0].
    + cbn [Z.ltb Z.compare fmap list_fmap fst wakeups foldl].
      assert (Htl : t ∉ l) by (apply Hnl; by left).
      wp_step. wp_use dec_dly_body_spec; [done..|]. intros _ m1 (HQ1 & HD1 & Hst & HF1).
      assert (Hnt : t ∉ D.*1) by (destruct HD as [_ _ _ [? _]%NoDup_cons _ _]; done).
      eapply wp_mono.
      * apply (IH m1 (wake pr t Q) fuel (insert_prio pr t l)); [done| |done|by apply wake_rdy| | | |lia].
        { eapply tcbs_frame; [done..|]. unfold links, dlinks. intros. naive_solver. }
        { intros x Hx Hi. apply insert_prio_in in Hi as [->|Hi]; [done|].
          apply (Hnl x); [by right|done]. }
        { intros x Hx. apply Hge. by right. }
        { eapply frame_eq; [done..|]. unfold links, dlinks. naive_solver. }
      * cbv beta. intros _ m2 (HQ2 & HD2 & Hst2 & HF2). split_and!; [done|done| |].
        { intros x [->|Hx]%elem_of_cons; [|by apply Hst2].
          destruct (decide (t ∈ (dbefore 1 D).*1)); [by apply Hst2|].
          eapply frame_eq; [done..|]. unfold links, dlinks. naive_solver. }
        { eapply frame_mono; [by eapply frame_trans|]. cbv beta. intros p f.
          rewrite elem_of_cons. tauto. }
    + assert (0 <= d) by (apply (Hge (t, d)); by left).
      rewrite (proj2 (Z.ltb_ge _ _)) by lia. wp_run.
      split_and!; [done|done|by intros ? []%elem_of_nil|apply frame_refl].
Qed.

(** One tick passes for all time-outs. *)
Definition tick_dly (D : list (Z * Z)) : list (Z * Z) := (fun x => (x.1, x.2 - 1)) <$> D.

Lemma tick_dly_tasks D : (tick_dly D).*1 = D.*1.
Proof. unfold tick_dly. by rewrite <- list_fmap_compose. Qed.

Lemma deltas_tick m p t0 D :
  0 < t0 -> deltas m p t0 D None -> deltas m p (t0 - 1) (tick_dly D) None.
Proof.
  revert p t0. induction D as [|[q d] D IH]; intros p t0; cbn; [done|].
  intros ? (? & E & H). split_and!; [lia|lia| |apply IH; [lia|done]]. rewrite E. f_equal. lia.
Qed.

(** [rt_dec_dly]: a tick passes; the tasks whose time has come are woken, in
    the order of the delay list. *)
Lemma rt_dec_dly_spec m pr T Q D l tm :
  queues m T Q -> tcbs m pr T -> delays m T D -> Q !! os_rdy = Some l ->
  (forall t, t ∈ D.*1 -> t ∉ l) -> (forall x, x ∈ D -> 0 < x.2) -> m !! (os_time, value) = Some tm ->
  wp rt_dec_dly (fun _ m' => queues m' T (wakeups pr (dbefore 1 (tick_dly D)).*1 Q) /\
    delays m' T (dafter 1 (tick_dly D)) /\
    (forall t, t ∈ (dbefore 1 (tick_dly D)).*1 -> m' !! (t, state) = Some READY) /\
    frame (fun p f => links f \/ dlinks f \/ (p ∈ (dbefore 1 (tick_dly D)).*1 /\ f = state)) m m') m.
Proof.
  intros HQ HT HD Hl Hnl Hge Htm. pose proof HD as [Hd1 Hd3 Hd2 Hd4 Hd5 Hd6].
  apply seg_hd in Hd1 as Hd0. unfold rt_dec_dly. wp_run. destruct D as [|[t d] D].
  - cbn [fmap list_fmap hdz]. rewrite Z.eqb_refl. wp_run.
    split_and!; [done|done|by intros ? []%elem_of_nil|apply frame_refl].
  - cbn [fmap list_fmap fst hdz] in *.
    rewrite (proj2 (Z.eqb_neq _ _)) by (eapply dlist_nonnull; [done..|by left]).
    destruct Hd2 as (Hd & Hd2 & Hd7). rewrite Z.sub_0_r in Hd2.
    assert (0 < d) by (apply (Hge (t, d)); by left). wp_run. rewrite u16_id by lia.
    set (m1 := <[(os_dly, delta_time) := d - 1]> m).
    assert (HF1 : frame (fun p f => p = os_dly /\ f = delta_time) m m1) by (apply frame_store; eauto).
    assert (HD1 : delays m1 T (tick_dly ((t, d) :: D))).
    { constructor; rewrite ?tick_dly_tasks; try done.
      - eapply seg_ext; [done|]. intros. unfold m1. by mlook.
      - eapply backs_ext; [done|]. intros. unfold m1. by mlook.
      - cbn. split_and!; [lia|lia| |].
        + unfold m1. mlook. f_equal. lia.
        + apply deltas_tick; [lia|]. eapply deltas_ext; [done|]. intros q Hq. unfold m1.
          rewrite lookup_insert_ne; [done|]. intros [= <-].
          rewrite <- elem_of_cons in Hq. by destruct (dlist_nonnull _ _ _ _ _ HD HT Hq).
      - intros. unfold m1. mlook. auto. }
    eapply wp_mono.
    + apply (dec_dly_loop_spec _ pr T Q (tick_dly ((t, d) :: D)) _ l tm); try done.
      * eapply queues_frame; [done..|]. unfold links. naive_solver.
      * eapply tcbs_frame; [done..|]. naive_solver.
      * rewrite tick_dly_tasks. done.
      * intros x. unfold tick_dly. rewrite list_elem_of_fmap. intros (y & -> & Hy).
        apply Hge in Hy. cbn. lia.
      * unfold m1. by mlook.
      * pose proof HD1 as [Hs _ _ _ _ _]. pose proof (dlist_nodup m1 pr T _ HD1) as Hnd1.
        apply seg_length in Hs.
        { rewrite length_fmap in Hs. lia. }
        apply Hnd1. eapply tcbs_frame; [done..|]. naive_solver.
    + cbv beta. intros _ m2 (? & ? & ? & HF2). split_and!; try done.
      eapply frame_mono; [by eapply frame_trans|]. cbv beta. unfold dlinks. naive_solver.
Qed.

(** ** The queue of requests from interrupts *)

(** The request queue: [count] requests, the newest before index [first];
    the entries are those of [os_fifo]. *)
Record psq (m : mem) (n first count : Z) : Prop := {
  psq_size : m !! (os_psq, size_) = Some n;
  psq_first : m !! (os_psq, first_) = Some first;
  psq_count : m !! (os_psq, count_) = Some count;
  psq_range : 0 <= first < n /\ 0 <= count <= n /\ n < 256;
  psq_cells i : 0 <= i < n -> is_Some (m !! (os_psq, q_id i)) /\ is_Some (m !! (os_psq, q_arg i))
}.

(** [rt_psq_enq] stores the request at the head index, or stops the system
    when the queue is full; it never writes outside the queue. *)
Lemma rt_psq_enq_spec m n first count entry arg :
  psq m n first count ->
  if count <? n then
    wp (rt_psq_enq entry arg) (fun _ m' =>
      psq m' n (if first + 1 =? n then 0 else first + 1) (count + 1) /\
      m' !! (os_psq, q_id first) = Some entry /\ m' !! (os_psq, q_arg first) = Some arg /\
      frame (fun p f => p = os_psq /\ (f = count_ \/ f = first_ \/ f = q_id first \/ f = q_arg first)) m m') m
  else rt_psq_enq entry arg m = Halt OS_ERR_FIFO_OVF.
Proof.
  intros [Hn Hf Hc Hr Hi]. destruct (Hi first) as [[v1 Hi1] [v2 Hi2]]; [lia|].
  destruct (Z.ltb_spec count n).
  - unfold rt_psq_enq, rt_inc_qi. wp_run. rewrite (proj2 (Z.ltb_lt count n)) by lia.
    assert (Hs1 : is_Some (m !! (os_psq, count_))) by eauto.
    assert (Hs2 : is_Some (m !! (os_psq, first_))) by eauto.
    wp_run. rewrite (proj2 (Z.ltb_lt first n)) by lia.
    assert (Hs3 : is_Some (m !! (os_psq, q_id first))) by eauto.
    assert (Hs4 : is_Some (m !! (os_psq, q_arg first))) by eauto.
    wp_run. rewrite (u8_id (count + 1)) by lia.
    rewrite (u8_id (if _ =? _ then _ else _)) by (destruct (Z.eqb_spec (first + 1) n); lia).
    split_and!; [|by look|by look|frames].
    constructor.
    + by look.
    + by look.
    + by look.
    + destruct (Z.eqb_spec (first + 1) n); lia.
    + intros i Hii. destruct (Hi i Hii) as [? ?].
      split; repeat (apply lookup_insert_is_Some'; right); done.
  - unfold rt_psq_enq, rt_inc_qi, load, mbind, M_bind. cbn. rewrite Hn, Hc.
    rewrite (proj2 (Z.ltb_ge count n)) by lia. cbn.
    by rewrite (proj2 (Z.ltb_ge count n)) by lia.
Qed.
