(* ===== verification/RtxTask.v ===== *)
(** * Tasks of the RTX kernel ([rt_Task.c], [HAL_CM.c])

    The task that runs ([os_tsk.run]), the task selected to run next
    ([os_tsk.new_tsk]), the table of active tasks and the functions that block,
    select, start and end tasks.  [HAL_CM.c] prepares a task's stack and stores
    results into the registers saved on it.

    [lists] says that the lists of the kernel are well formed, [sched] adds
    that the selected task is the right one, [kernel] that it is running: the
    state in which a service starts.  A service ends in [sched]; the context
    switch ([switch_context], the tail of [SVC_Handler] and [PendSV_Handler])
    leads back to [kernel]. *)

From S2P Require Export RtxList.

(** ** Results *)

Definition OS_R_TMO : Z := 1.
Definition OS_R_EVT : Z := 2.
Definition OS_R_SEM : Z := 3.
Definition OS_R_MBX : Z := 4.
Definition OS_R_MUT : Z := 5.
Definition OS_R_OK : Z := 0.
Definition OS_R_NOK : Z := 255.

(** ** [HAL_CM.c] *)

Definition INITIAL_xPSR : Z := 0x01000000.
Definition MAGIC_WORD : Z := 0xE25A2EA5.

Definition rt_init_stack (p_TCB task_body : Z) : M unit :=
  priv ← load p_TCB priv_stack;
  let size := Z.shiftr priv 2 in
  stk0 ← load p_TCB stack;
  let stk := stk0 + 4 * size in
  let stk := if negb (Z.land stk 4 =? 0) then stk - 4 else stk in
  let stk := stk - 64 in
  store (stk + 4 * 15) word INITIAL_xPSR;;
  store (stk + 4 * 14) word task_body;;
  for_loop 14 0 (fun i => store (stk + 4 * i) word 0);;
  arg ← load p_TCB msg;
  store (stk + 4 * 8) word arg;;
  store p_TCB tsk_stack (u32 stk);;
  store p_TCB ptask task_body;;
  id ← load p_TCB task_id;
  when (negb (id =? 1)) (store stk0 word MAGIC_WORD).

(** The address of the saved registers R0..R3; without FPU. *)
Definition rt_ret_regs (p_TCB : Z) : M Z :=
  sp ← load p_TCB tsk_stack;
  mret (sp + 32).

Definition rt_ret_val (p_TCB v0 : Z) : M unit :=
  ret ← rt_ret_regs p_TCB;
  store (u32 ret) word v0.

Definition rt_ret_val2 (p_TCB v0 v1 : Z) : M unit :=
  ret ← rt_ret_regs p_TCB;
  store (u32 ret) word v0;;
  store (u32 (ret + 4)) word v1.

(** ** [rt_Task.c] *)

Fixpoint get_TID_loop (n : nat) (tid : Z) : M Z :=
  match n with
  | O => mret 0
  | S n =>
      p ← load os_active_TCB (elem (tid - 1));
      if p =? NULL then mret tid else get_TID_loop n (tid + 1)
  end.

Definition rt_get_TID : M Z :=
  n ← load os_maxtaskrun value;
  get_TID_loop (Z.to_nat n) 1.

Definition rt_init_context (p_TCB priority task_body : Z) : M unit :=
  store p_TCB cb_type TCB;;
  store p_TCB state READY;;
  store p_TCB prio priority;;
  store p_TCB p_lnk NULL;;
  store p_TCB p_rlnk NULL;;
  store p_TCB p_dlnk NULL;;
  store p_TCB p_blnk NULL;;
  store p_TCB delta_time 0;;
  store p_TCB interval_time 0;;
  store p_TCB events 0;;
  store p_TCB waits 0;;
  store p_TCB stack_frame 0;;
  rt_init_stack p_TCB task_body.

Definition rt_switch_req (p_new : Z) : M unit :=
  store os_tsk new_tsk p_new;;
  store p_new state RUNNING.

Definition rt_dispatch (next_TCB : Z) : M unit :=
  if next_TCB =? NULL then
    next_TCB ← rt_get_first os_rdy;
    rt_switch_req next_TCB
  else
    prio1 ← load next_TCB prio;
    r ← load os_tsk run;
    prio2 ← load r prio;
    if prio2 <? prio1 then
      r ← load os_tsk run;
      rt_put_rdy_first r;;
      r ← load os_tsk run;
      store r state READY;;
      rt_switch_req next_TCB
    else
      store next_TCB state READY;;
      rt_put_prio os_rdy next_TCB.

Definition rt_block (timeout block_state : Z) : M unit :=
  when (negb (timeout =? 0)) (
    when (timeout <? 0xffff) (
      r ← load os_tsk run;
      rt_put_dly r timeout);;
    r ← load os_tsk run;
    store r state block_state;;
    next_TCB ← rt_get_first os_rdy;
    rt_switch_req next_TCB).

Definition rt_tsk_pass : M unit :=
  p_new ← rt_get_same_rdy_prio;
  when (negb (p_new =? NULL)) (
    r ← load os_tsk run;
    rt_put_prio os_rdy r;;
    r ← load os_tsk run;
    store r state READY;;
    rt_switch_req p_new).

Definition rt_tsk_self : M Z :=
  r ← load os_tsk run;
  if r =? NULL then mret 0 else load r task_id.

(** The statements by which the running task gives way to the first ready one,
    here and in [rt_Mutex.c] and [rt_Semaphore.c]. *)
Definition preempt : M unit :=
  r ← load os_tsk run;
  rt_put_prio os_rdy r;;
  r ← load os_tsk run;
  store r state READY;;
  rt_dispatch NULL.

(** The code behind the label [run] of [rt_tsk_prio]. *)
Definition tsk_prio_run (new_prio : Z) : M Z :=
  p ← rt_rdy_prio;
  when (new_prio <? p) preempt;;
  mret OS_R_OK.

Definition rt_tsk_prio (task_id new_prio : Z) : M Z :=
  if task_id =? 0 then
    r ← load os_tsk run;
    store r prio new_prio;;
    tsk_prio_run new_prio
  else
    n ← load os_maxtaskrun value;
    if n <? task_id then mret OS_R_NOK
    else
      p_task ← load os_active_TCB (elem (task_id - 1));
      if p_task =? NULL then mret OS_R_NOK
      else
        store p_task prio new_prio;;
        r ← load os_tsk run;
        if p_task =? r then tsk_prio_run new_prio
        else
          rt_resort_prio p_task;;
          st ← load p_task state;
          when (st =? READY) (
            p_task ← rt_get_first os_rdy;
            rt_dispatch p_task);;
          mret OS_R_OK.

Definition rt_get_PSP : M Z := load PSP value.

Definition rt_stk_check : M unit :=
  r ← load os_tsk run;
  id ← load r task_id;
  if id =? 1 then mret tt
  else
    sp ← load r tsk_stack;
    base ← load r stack;
    w ← load base word;
    if (sp <? base) || negb (w =? MAGIC_WORD) then halt OS_ERR_STK_OVF else mret tt.

Definition rt_tsk_delete (id : Z) : M Z :=
  r ← load os_tsk run;
  self ← (if id =? 0 then mret true else rid ← load r task_id; mret (id =? rid));
  if self : bool then
    store r state INACTIVE;;
    sp ← rt_get_PSP;
    store r tsk_stack sp;;
    rt_stk_check;;
    rid ← load r task_id;
    store os_active_TCB (elem (rid - 1)) NULL;;
    store r stack NULL;;
    store os_tsk run NULL;;
    rt_dispatch NULL;;
    mret OS_R_OK
  else
    n ← load os_maxtaskrun value;
    if n <? id then mret OS_R_NOK
    else
      task_context ← load os_active_TCB (elem (id - 1));
      if task_context =? NULL then mret OS_R_NOK
      else
        rt_rmv_list task_context;;
        rt_rmv_dly task_context;;
        store os_active_TCB (elem (id - 1)) NULL;;
        store task_context stack NULL;;
        mret OS_R_OK.

(** The end of [SVC_Handler] and [PendSV_Handler] ([HAL_CM3.s]): if another
    task was selected, the stack pointer of the old one is saved below the eight
    registers pushed there, and the new one continues behind its own.  The
    contents of the pushed registers are not modelled. *)
Definition switch_context : M unit :=
  r ← load os_tsk run;
  n ← load os_tsk new_tsk;
  if r =? n then mret tt
  else
    when (negb (r =? NULL)) (
      sp ← rt_get_PSP;
      store r tsk_stack (u32 (sp - 32));;
      rt_stk_check);;
    store os_tsk run n;;
    sp ← load n tsk_stack;
    store PSP value (u32 (sp + 32)).

(** ** Well-formed kernel states *)

(** The lists are well formed: the ready list is [l], no ready task has a
    time-out, every queue is ordered by priority. *)
Record lists (m : mem) (T : gset Z) (pr : Z -> Z) (Q : gmap Z (list Z)) (D : list (Z * Z))
    (l : list Z) : Prop := {
  l_queues : queues m T Q;
  l_tcbs : tcbs m pr T;
  l_delays : delays m T D;
  l_rdy : Q !! os_rdy = Some l;
  l_sorted h k : Q !! h = Some k -> by_prio pr k;
  l_apart t : t ∈ l -> t ∉ D.*1;
  l_pos x : x ∈ D -> 0 < x.2
}.

(** Exactly the tasks of the ready list are in state [READY]. *)
Definition readies (m : mem) (T : gset Z) (l : list Z) : Prop :=
  forall t, t ∈ T -> exists st, m !! (t, state) = Some st /\ (st = READY <-> t ∈ l).

(** A task in no list: the running task, or one that was just taken out. *)
Definition loose (T : gset Z) (Q : gmap Z (list Z)) (D : list (Z * Z)) (t : Z) : Prop :=
  t ∈ T /\ free_of Q t /\ t ∉ D.*1.

(** The selected task [c] is in state [RUNNING], and no ready task has a higher
    priority. *)
Record sched (m : mem) (T : gset Z) (pr : Z -> Z) (Q : gmap Z (list Z)) (D : list (Z * Z))
    (l : list Z) (c : Z) : Prop := {
  s_lists : lists m T pr Q D l;
  s_readies : readies m T l;
  s_new : m !! (os_tsk, new_tsk) = Some c;
  s_loose : loose T Q D c;
  s_state : m !! (c, state) = Some RUNNING;
  s_top t : t ∈ l -> pr t <= pr c
}.

(** The selected task is running. *)
Definition kernel (m : mem) (T : gset Z) (pr : Z -> Z) (Q : gmap Z (list Z)) (D : list (Z * Z))
    (l : list Z) (r : Z) : Prop :=
  sched m T pr Q D l r /\ m !! (os_tsk, run) = Some r.

(** ** The list functions on well-formed lists *)

Section Lists.
Context (m : mem) (T : gset Z) (pr : Z -> Z) (Q : gmap Z (list Z)) (D : list (Z * Z)) (l : list Z).
Context (HL : lists m T pr Q D l).

Lemma lists_frame m' K :
  frame K m m' ->
  (forall p f, K p f -> ~ links f /\ ~ dlinks f /\ f <> cb_type /\ (f = prio -> p ∉ T) /\ f <> tsk_stack) ->
  lists m' T pr Q D l.
Proof.
  intros HF HK. pose proof HL as []. constructor; try done.
  - eapply frame_queues; [done..|]. intros p f ?%HK. tauto.
  - eapply tcbs_frame; [done..|]. intros p f ? Hk%HK. split_and!; tauto.
  - eapply delays_frame; [done..|]. intros p f ?%HK. tauto.
Qed.

Lemma lists_tcbs m' K : frame K m m' -> (forall p f, K p f -> links f \/ dlinks f) -> tcbs m' pr T.
Proof.
  intros HF HK. eapply tcbs_frame; [apply HL|done|]. intros p f _ Hp%HK.
  unfold links, dlinks in Hp. naive_solver.
Qed.

(** A loose task becomes ready. *)
Lemma lists_put_rdy t :
  loose T Q D t ->
  wp (rt_put_prio os_rdy t) (fun _ m' =>
    lists m' T pr (<[os_rdy := insert_prio pr t l]> Q) D (insert_prio pr t l) /\
    frame (fun _ f => links f) m m') m.
Proof.
  intros (Ht & Hf & HD). pose proof HL as [HQ HT HDl Hl Hs Ha Hp].
  wp_use rt_put_prio_free; [done..|]. intros _ m' [HQ' HF]. split; [|done].
  constructor; try done.
  - eapply lists_tcbs; [done|]. tauto.
  - eapply delays_frame; [done..|]. unfold links, dlinks. naive_solver.
  - by rewrite lookup_insert_eq.
  - intros h k [[<- <-]|[_ Hk]]%lookup_insert_Some; [|by eapply Hs].
    apply insert_prio_sorted. by eapply Hs.
  - intros x [->|Hx]%insert_prio_in; [done|]. by apply Ha.
Qed.

(** The running task goes to the front of the ready list. *)
Lemma lists_put_rdy_first t :
  loose T Q D t -> (forall x, x ∈ l -> pr x <= pr t) ->
  wp (rt_put_rdy_first t) (fun _ m' =>
    lists m' T pr (<[os_rdy := t :: l]> Q) D (t :: l) /\ frame (fun _ f => links f) m m') m.
Proof.
  intros (Ht & Hf & HD) Htop. pose proof HL as [HQ HT HDl Hl Hs Ha Hp].
  wp_use rt_put_rdy_first_spec; [done..|]. intros _ m' [HQ' HF]. split; [|done].
  constructor; try done.
  - eapply lists_tcbs; [done|]. tauto.
  - eapply delays_frame; [done..|]. unfold links, dlinks. naive_solver.
  - by rewrite lookup_insert_eq.
  - intros h k [[<- <-]|[_ Hk]]%lookup_insert_Some; [|by eapply Hs].
    constructor; [by eapply Hs|]. apply Forall_forall. auto.
  - intros x [->|Hx]%elem_of_cons; [done|]. by apply Ha.
Qed.

(** A loose task starts to wait at an object. *)
Lemma lists_put_wait h k t :
  loose T Q D t -> h <> os_rdy -> Q !! h = Some k ->
  wp (rt_put_prio h t) (fun _ m' =>
    lists m' T pr (<[h := insert_prio pr t k]> Q) D l /\ frame (fun _ f => links f) m m') m.
Proof.
  intros (Ht & Hf & HD) Hne Hk. pose proof HL as [HQ HT HDl Hl Hs Ha Hp].
  wp_use rt_put_prio_free; [done..|]. intros _ m' [HQ' HF]. split; [|done].
  constructor; try done.
  - eapply lists_tcbs; [done|]. tauto.
  - eapply delays_frame; [done..|]. unfold links, dlinks. naive_solver.
  - by rewrite lookup_insert_ne by congruence.
  - intros h' k' [[<- <-]|[_ Hk']]%lookup_insert_Some; [|by eapply Hs].
    apply insert_prio_sorted. by eapply Hs.
Qed.

Lemma by_prio_tail t k : by_prio pr (t :: k) -> by_prio pr k /\ forall x, x ∈ k -> pr x <= pr t.
Proof.
  intros [H Ht]%StronglySorted_inv. split; [done|]. by apply Forall_forall.
Qed.

(** The first ready task is taken. *)
Lemma lists_get_rdy t k :
  l = t :: k ->
  wp (rt_get_first os_rdy) (fun x m' => x = t /\
    lists m' T pr (<[os_rdy := k]> Q) D k /\ loose T (<[os_rdy := k]> Q) D t /\
    (forall x, x ∈ k -> pr x <= pr t) /\ frame (fun _ f => links f) m m') m.
Proof.
  intros El. pose proof HL as [HQ HT HDl Hl Hs Ha Hp]. rewrite El in Hl, Ha.
  wp_use rt_get_first_spec; [done..|]. intros x m' (-> & HQ' & Hf & _ & HF).
  destruct (by_prio_tail t k) as [Hsk Htop]; [by eapply Hs|].
  unfold loose. split_and!; try done.
  - constructor; try done.
    + eapply lists_tcbs; [done|]. cbv beta. tauto.
    + eapply delays_frame; [done..|]. unfold links, dlinks. naive_solver.
    + by rewrite lookup_insert_eq.
    + intros h k' [[<- <-]|[_ Hk']]%lookup_insert_Some; [done|by eapply Hs].
    + intros x Hx. apply Ha. by right.
  - eapply (q_tasks _ _ _ HQ); [done|by left].
  - apply Ha. by left.
  - eapply frame_mono; [done|]. cbv beta. tauto.
Qed.

(** The first task that waits at an object is taken; it may have a time-out. *)
Lemma lists_get_wait h t k :
  h <> os_rdy -> Q !! h = Some (t :: k) ->
  wp (rt_get_first h) (fun x m' => x = t /\
    lists m' T pr (<[h := k]> Q) D l /\ t ∈ T /\ free_of (<[h := k]> Q) t /\
    (forall x, x ∈ k -> pr x <= pr t) /\ frame (fun _ f => links f) m m') m.
Proof.
  intros Hne Hh. pose proof HL as [HQ HT HDl Hl Hs Ha Hp].
  wp_use rt_get_first_spec; [done..|]. intros x m' (-> & HQ' & Hf & _ & HF).
  destruct (by_prio_tail t k) as [Hsk Htop]; [by eapply Hs|].
  split_and!; try done.
  - constructor; try done.
    + eapply lists_tcbs; [done|]. cbv beta. tauto.
    + eapply delays_frame; [done..|]. unfold links, dlinks. naive_solver.
    + by rewrite lookup_insert_ne by congruence.
    + intros h' k' [[<- <-]|[_ Hk']]%lookup_insert_Some; [done|by eapply Hs].
  - apply (q_tasks _ _ _ HQ _ _ _ Hh). by left.
  - eapply frame_mono; [done|]. cbv beta. tauto.
Qed.

(** A time-out is cancelled. *)
Lemma lists_rmv_dly t :
  t ∈ T ->
  wp (rt_rmv_dly t) (fun _ m' => lists m' T pr Q (remove_dly t D) l /\
    frame (fun _ f => dlinks f) m m') m.
Proof.
  intros Ht. pose proof HL as [HQ HT HDl Hl Hs Ha Hp].
  wp_use rt_rmv_dly_spec; [done..|]. intros _ m' [HD' HF]. split; [|done].
  constructor; try done.
  - eapply frame_queues; [done..|]. unfold links, dlinks. naive_solver.
  - eapply lists_tcbs; [done|]. tauto.
  - intros x Hx [? _]%remove_dly_in. by eapply Ha.
  - intros x [_ Hx]%list_elem_of_filter. auto.
Qed.

(** A time-out is set. *)
Lemma lists_put_dly t d :
  t ∈ T -> t ∉ l -> t ∉ D.*1 -> 0 < d < 65536 ->
  wp (rt_put_dly t d) (fun _ m' => lists m' T pr Q (insert_dly t d D) l /\
    frame (fun _ f => dlinks f) m m') m.
Proof.
  intros Ht Htl HtD Hd. pose proof HL as [HQ HT HDl Hl Hs Ha Hp].
  wp_use rt_put_dly_spec; [done..|]. intros _ m' [HD' HF]. split; [|done].
  constructor; try done.
  - eapply frame_queues; [done..|]. unfold links, dlinks. naive_solver.
  - eapply lists_tcbs; [done|]. tauto.
  - intros x Hx. rewrite insert_dly_perm. cbn. apply not_elem_of_cons. split; [congruence|auto].
  - intros x. rewrite insert_dly_perm. intros [->|Hx]%elem_of_cons; [cbn; lia|auto].
Qed.

End Lists.

(** ** Selecting the next task *)

Lemma without_or (T : gset Z) (t x : Z) : x ∈ T -> x ∈ T ∖ {[t]} \/ x = t.
Proof. intros. destruct (decide (x = t)); [by right|left; set_solver]. Qed.

(** What scheduling may change: links, the selected task, and the states of
    the tasks of [S]. *)
Definition sfr (S : list Z) (p : Z) (f : field) : Prop :=
  links f \/ dlinks f \/ (p = os_tsk /\ f = new_tsk) \/ (f = state /\ p ∈ S).

Lemma sfr_trans S1 S2 m1 m2 m3 :
  frame (sfr S1) m1 m2 -> frame (sfr S2) m2 m3 -> frame (sfr (S1 ++ S2)) m1 m3.
Proof.
  intros H1 H2. eapply frame_mono; [by eapply frame_trans|]. unfold sfr. intros p f.
  cbv beta. rewrite elem_of_app. tauto.
Qed.

Lemma sfr_mono S S' m m' : frame (sfr S) m m' -> S ⊆ S' -> frame (sfr S') m m'.
Proof. intros H HS. eapply frame_mono; [done|]. unfold sfr. naive_solver. Qed.

Lemma sfr_links S m m' : frame (fun _ f => links f) m m' -> frame (sfr S) m m'.
Proof. intros H. eapply frame_mono; [done|]. unfold sfr. tauto. Qed.

Lemma sfr_dlinks S m m' : frame (fun _ f => dlinks f) m m' -> frame (sfr S) m m'.
Proof. intros H. eapply frame_mono; [done|]. unfold sfr. tauto. Qed.

Lemma readies_frame m m' T l K :
  readies m T l -> frame K m m' -> (forall p f, K p f -> f <> state) -> readies m' T l.
Proof.
  intros HR HF HK t Ht. destruct (HR t Ht) as (st & Hst & Hiff). exists st. split; [|done].
  eapply frame_eq; [done..|]. by intros ?%HK.
Qed.

(** Setting the state of one task. *)
Lemma readies_set m T T' l l' t st :
  readies m T' l -> (forall x, x ∈ T -> x ∈ T' \/ x = t) ->
  (forall x, x <> t -> x ∈ l <-> x ∈ l') -> (st = READY <-> t ∈ l') ->
  readies (<[(t, state) := st]> m) T l'.
Proof.
  intros HR HT' Hl Ht x Hx. destruct (decide (x = t)) as [->|Hne].
  - exists st. split; [by look|done].
  - destruct (HT' x Hx) as [Hx'|]; [|done]. destruct (HR x Hx') as (st' & Hst & Hiff).
    exists st'. split; [by look|]. rewrite Hiff. by apply Hl.
Qed.

Lemma readies_sub m T T' l : readies m T l -> (forall x, x ∈ T' -> x ∈ T) -> readies m T' l.
Proof. intros HR HT t Ht. by apply HR, HT. Qed.

Lemma state_some m T pr Q D l t : lists m T pr Q D l -> t ∈ T -> is_Some (m !! (t, state)).
Proof. intros HL Ht. eapply tcb_some; [apply HL|done|set_solver]. Qed.

Lemma loose_insert T Q D t h k : loose T Q D t -> t ∉ k -> loose T (<[h := k]> Q) D t.
Proof.
  intros (? & Hf & ?) Hk. split_and!; [done| |done].
  intros h' k' [[<- <-]|[_ Hk']]%lookup_insert_Some; [done|by eapply Hf].
Qed.

Lemma rt_switch_req_spec m T pr Q D l t :
  lists m T pr Q D l -> loose T Q D t -> (forall x, x ∈ l -> pr x <= pr t) ->
  readies m (T ∖ {[t]}) l -> is_Some (m !! (os_tsk, new_tsk)) ->
  wp (rt_switch_req t) (fun _ m' => sched m' T pr Q D l t /\
    frame (fun p f => (p = os_tsk /\ f = new_tsk) \/ (p = t /\ f = state)) m m') m.
Proof.
  intros HL Ht Htop HR Hn. pose proof (state_some _ _ _ _ _ _ _ HL (proj1 Ht)).
  unfold rt_switch_req. wp_run. split; [|frames]. constructor; [| |by look|done|by look|done].
  - eapply lists_frame; [done| |].
    + apply (frame_insert (fun p f => f = new_tsk \/ f = state)); [frames|by right|done].
    + intros p f [->| ->]; unfold links, dlinks; naive_solver.
  - eapply (readies_set _ _ (T ∖ {[t]})); [|intros; by apply without_or|done|].
    + eapply readies_frame; [done|by apply frame_store|]. naive_solver.
    + split; [done|]. intros Hl. by destruct (proj1 (proj2 Ht) os_rdy l (l_rdy _ _ _ _ _ _ HL)).
Qed.

(** The code that switches to the first ready task. *)
Lemma select_first m T pr Q D t k :
  lists m T pr Q D (t :: k) -> readies m T (t :: k) -> is_Some (m !! (os_tsk, new_tsk)) ->
  wp (t ← rt_get_first os_rdy; rt_switch_req t) (fun _ m' =>
    sched m' T pr (<[os_rdy := k]> Q) D k t /\ frame (sfr [t]) m m') m.
Proof.
  intros HL HR Hn. wp_step. wp_use lists_get_rdy; [done..|].
  intros x m1 (-> & HL1 & Ht & Htop & HF1).
  wp_use rt_switch_req_spec; [done..| |by flook|].
  - eapply readies_frame; [|done|unfold links; naive_solver].
    intros x Hx. destruct (HR x) as (st & Hst & Hiff); [set_solver|].
    exists st. split; [done|]. rewrite Hiff, elem_of_cons. set_solver.
  - intros _ m2 [HS HF2]. split; [done|]. eapply frame_mono; [by eapply frame_trans|].
    unfold sfr. set_solver.
Qed.

Lemma rt_dispatch_null m T pr Q D t k :
  lists m T pr Q D (t :: k) -> readies m T (t :: k) -> is_Some (m !! (os_tsk, new_tsk)) ->
  wp (rt_dispatch NULL) (fun _ m' =>
    sched m' T pr (<[os_rdy := k]> Q) D k t /\ frame (sfr [t]) m m') m.
Proof. apply select_first. Qed.

(** Which task continues when [t] wakes up while [r] runs. *)
Definition dispatch (pr : Z -> Z) (t r : Z) (l : list Z) : list Z * Z :=
  if pr r <? pr t then (r :: l, t) else (insert_prio pr t l, r).

Lemma rt_dispatch_spec m T pr Q D l t r :
  lists m T pr Q D l -> loose T Q D t -> loose T Q D r -> t <> r ->
  readies m (T ∖ {[t]}) l -> (forall x, x ∈ l -> pr x <= pr r) ->
  m !! (os_tsk, run) = Some r -> m !! (os_tsk, new_tsk) = Some r -> m !! (r, state) = Some RUNNING ->
  wp (rt_dispatch t) (fun _ m' =>
    sched m' T pr (<[os_rdy := (dispatch pr t r l).1]> Q) D (dispatch pr t r l).1 (dispatch pr t r l).2 /\
    frame (sfr [t; r]) m m') m.
Proof.
  intros HL Ht Hr Hne HR Htop Hrun Hnew Hst.
  pose proof (l_tcbs _ _ _ _ _ _ HL) as HT. pose proof (l_rdy _ _ _ _ _ _ HL) as Hl.
  pose proof (tcb_prio _ _ _ _ HT (proj1 Ht)). pose proof (tcb_prio _ _ _ _ HT (proj1 Hr)).
  pose proof (tcb_nonnull _ _ _ _ HT (proj1 Ht)) as Ht0.
  assert (Hrl : r ∉ l) by (by eapply (proj1 (proj2 Hr))).
  assert (Htl : t ∉ l) by (by eapply (proj1 (proj2 Ht))).
  unfold rt_dispatch, dispatch. rewrite (proj2 (Z.eqb_neq _ _)) by done. wp_run.
  destruct (Z.ltb_spec (pr r) (pr t)); cbn [fst snd].
  - wp_run. wp_use lists_put_rdy_first; [done..|]. intros _ m1 [HL1 HF1].
    assert (Hs1 : is_Some (m1 !! (r, state))) by (by eapply state_some; [done|apply Hr]).
    assert (Hr1 : m1 !! (os_tsk, run) = Some r) by (unfold links in HF1; flook).
    wp_run. set (m2 := <[(r, state) := READY]> m1).
    assert (HF2 : frame (fun p f => p = r /\ f = state) m1 m2) by (by apply frame_store).
    wp_use (rt_switch_req_spec m2 T pr (<[os_rdy := r :: l]> Q) D (r :: l) t).
    + eapply lists_frame; [done..|]. unfold links, dlinks. naive_solver.
    + apply loose_insert; [done|]. set_solver.
    + intros x [->|Hx]%elem_of_cons; [lia|]. apply Htop in Hx. lia.
    + eapply (readies_set _ _ (T ∖ {[t]}) l).
      * eapply readies_frame; [done..|]. unfold links. naive_solver.
      * intros x Hx. destruct (without_or T t x); [set_solver|tauto|set_solver].
      * set_solver.
      * split; [by left|done].
    + unfold links in HF1. unfold m2. flook.
    + intros _ m3 [HS HF3]. split; [done|].
      eapply frame_mono; [eapply frame_trans; [exact HF1|eapply frame_trans; [exact HF2|exact HF3]]|].
      unfold sfr. set_solver.
  - pose proof (state_some _ _ _ _ _ _ _ HL (proj1 Ht)). wp_run.
    set (m1 := <[(t, state) := READY]> m).
    assert (HF1 : frame (fun p f => p = t /\ f = state) m m1) by (by apply frame_store).
    wp_use lists_put_rdy; [eapply lists_frame; [done..|]; unfold links, dlinks; naive_solver|done|].
    intros _ m2 [HL2 HF2]. unfold links in HF2. split.
    + constructor; [done| |unfold m1 in *; by flook| | |].
      * eapply readies_frame; [|done|naive_solver].
        eapply (readies_set _ _ (T ∖ {[t]}) l); [done|intros; by apply without_or| |].
        { intros x Hx. rewrite insert_prio_in. tauto. }
        { rewrite insert_prio_in. tauto. }
      * apply loose_insert; [done|]. rewrite insert_prio_in. intros [|]; congruence.
      * unfold m1 in *. by flook.
      * intros x [->|Hx]%insert_prio_in; [done|]. by apply Htop.
    + eapply frame_mono; [by eapply frame_trans|]. unfold sfr, links. set_solver.
Qed.

(** ** Blocking *)

Definition timeout_dly (r timeout : Z) (D : list (Z * Z)) : list (Z * Z) :=
  if timeout <? 0xffff then insert_dly r timeout D else D.

(** [rt_block]: the running task, which may just have been put into the queue
    of an object, gets its time-out and its new state, and the first ready
    task is selected. *)
Lemma rt_block_spec m T pr Q D t k r timeout st :
  lists m T pr Q D (t :: k) -> readies m (T ∖ {[r]}) (t :: k) -> r ∈ T -> r ∉ t :: k -> r ∉ D.*1 ->
  m !! (os_tsk, run) = Some r -> is_Some (m !! (os_tsk, new_tsk)) -> 0 < timeout < 65536 -> st <> READY ->
  wp (rt_block timeout st) (fun _ m' =>
    sched m' T pr (<[os_rdy := k]> Q) (timeout_dly r timeout D) k t /\
    m' !! (r, state) = Some st /\ frame (sfr [r; t]) m m') m.
Proof.
  intros HL HR Hr Hrl HrD Hrun Hnew Hto Hst.
  assert (Hrt : r <> t) by (intros ->; set_solver).
  unfold rt_block. rewrite (proj2 (Z.eqb_neq timeout _)) by lia. cbn [negb]. wp_run.
  eapply wp_mono with (Q' := fun _ m1 => lists m1 T pr Q (timeout_dly r timeout D) (t :: k) /\
    frame (fun _ f => dlinks f) m m1).
  { unfold timeout_dly. destruct (timeout <? 0xffff); wp_run; [|split; [done|apply frame_refl]].
    by apply lists_put_dly. }
  intros _ m1 [HL1 HF1]. unfold dlinks in HF1.
  assert (m1 !! (os_tsk, run) = Some r) by flook.
  pose proof (state_some _ _ _ _ _ _ _ HL1 Hr). wp_run.
  set (m2 := <[(r, state) := st]> m1).
  assert (HF2 : frame (fun p f => p = r /\ f = state) m1 m2) by (by apply frame_store).
  apply wp_unbind. wp_use select_first.
  - eapply lists_frame; [done..|]. unfold links, dlinks. naive_solver.
  - eapply (readies_set _ _ (T ∖ {[r]})); [|intros; by apply without_or|done|].
    + eapply readies_frame; [done..|]. naive_solver.
    + split; [done|]. intros ?. done.
  - unfold m2. flook.
  - intros _ m3 [HS HF3]. split_and!; [done| |].
    + eapply frame_eq; [done|unfold m2; by look|]. unfold sfr, links, dlinks. set_solver.
    + eapply frame_mono; [eapply frame_trans; [exact HF1|eapply frame_trans; [exact HF2|exact HF3]]|].
      unfold sfr, dlinks. set_solver.
Qed.

(** ** Changing priorities *)

Lemma by_prio_ext pr pr' l : by_prio pr l -> (forall x, x ∈ l -> pr x = pr' x) -> by_prio pr' l.
Proof.
  unfold by_prio. induction 1 as [|x l Hs IH Hx]; intros E; constructor.
  - apply IH. intros. apply E. by right.
  - rewrite Forall_forall in Hx |- *. intros y Hy. rewrite <- !E; [auto|by left|by right].
Qed.

Lemma by_prio_remove pr l1 l2 t : by_prio pr (l1 ++ t :: l2) -> by_prio pr (l1 ++ l2).
Proof.
  intros (H1 & H2 & H12)%by_prio_app. apply by_prio_tail in H2 as [H2 _].
  apply by_prio_app. split_and!; [done..|]. intros. apply H12; [done|by right].
Qed.

Lemma tcbs_setprio m pr T t p :
  tcbs m pr T -> t ∈ T -> tcbs (<[(t, prio) := p]> m) (<[t := p]> pr) T.
Proof.
  intros HT Ht x Hx. destruct (HT x Hx) as (H1 & H2 & H3 & H4 & sp & H5 & H6 & H7).
  split_and!; [done|by look| | |exists sp; split_and!; [by look|by somes..]].
  - destruct (decide (x = t)) as [->|].
    + by rewrite lookup_insert_eq, fn_lookup_insert.
    + by rewrite lookup_insert_ne, fn_lookup_insert_ne by congruence.
  - intros f Hf. somes.
Qed.

(** A task that is in no queue gets a new priority. *)
Lemma lists_setprio m T pr Q D l t p :
  lists m T pr Q D l -> t ∈ T -> free_of Q t ->
  lists (<[(t, prio) := p]> m) T (<[t := p]> pr) Q D l.
Proof.
  intros HL Ht Hf. pose proof HL as [HQ HT HDl Hl Hs Ha Hp].
  assert (HF : frame (fun q f => q = t /\ f = prio) m (<[(t, prio) := p]> m)).
  { apply frame_store. rewrite (tcb_prio _ _ _ _ HT Ht). eauto. }
  constructor; try done.
  - eapply frame_queues; [done..|]. unfold links. naive_solver.
  - by apply tcbs_setprio.
  - eapply delays_frame; [done..|]. unfold dlinks. naive_solver.
  - intros h k Hk. eapply by_prio_ext; [by eapply Hs|]. intros x Hx.
    rewrite fn_lookup_insert_ne; [done|]. intros ->. by eapply Hf.
Qed.

(** An enqueued task gets a new priority and is moved to its new place. *)
Lemma lists_resort m T pr Q D l h l1 l2 t p (pr' := <[t := p]> pr) :
  lists m T pr Q D l -> Q !! h = Some (l1 ++ t :: l2) ->
  (h = os_rdy -> m !! (t, state) = Some READY) ->
  wp (rt_resort_prio t) (fun _ m' =>
    lists m' T pr' (<[h := insert_prio pr' t (l1 ++ l2)]> Q) D
      (if decide (h = os_rdy) then insert_prio pr' t (l1 ++ l2) else l) /\
    frame (fun q f => links f \/ (q = t /\ f = prio)) m m') (<[(t, prio) := p]> m).
Proof.
  intros HL Hh Hst. pose proof HL as [HQ HT HDl Hl Hs Ha Hp].
  assert (Ht : t ∈ T) by (apply (q_tasks _ _ _ HQ _ _ _ Hh); set_solver).
  assert (HF : frame (fun q f => q = t /\ f = prio) m (<[(t, prio) := p]> m)).
  { apply frame_store. rewrite (tcb_prio _ _ _ _ HT Ht). eauto. }
  assert (Hext : forall (k : list Z) x, x ∈ k -> t ∉ k -> pr x = pr' x).
  { intros k x Hx Hk. unfold pr'. rewrite fn_lookup_insert_ne; [done|]. congruence. }
  wp_use (rt_resort_prio_spec (<[(t, prio) := p]> m) pr' T Q).
  - eapply frame_queues; [done..|]. unfold links. naive_solver.
  - by apply tcbs_setprio.
  - done.
  - intros E. mlook. auto.
  - intros _ m' [HQ' HF']. split.
    + constructor; try done.
      * eapply tcbs_frame; [by apply tcbs_setprio|done|]. unfold links. naive_solver.
      * eapply delays_frame; [|done|unfold links, dlinks; naive_solver].
        eapply delays_frame; [done..|]. unfold dlinks. naive_solver.
      * case_decide as E; [rewrite E, lookup_insert_eq; done|].
        by rewrite lookup_insert_ne by done.
      * intros h' k [[<- <-]|[Hne Hk]]%lookup_insert_Some.
        { pose proof (q_nodup _ _ _ HQ _ _ Hh) as Hnd. rewrite <- Permutation_middle in Hnd.
          apply NoDup_cons in Hnd as [Hn _].
          apply insert_prio_sorted. eapply by_prio_ext; [eapply by_prio_remove, Hs, Hh|].
          intros x Hx. by apply (Hext (l1 ++ l2)). }
        { eapply by_prio_ext; [by eapply Hs|]. intros x Hx. apply (Hext k); [done|].
          intros Hx'. apply Hne. eapply (q_uniq _ _ _ HQ); [done..| |done]. set_solver. }
      * case_decide as E; [|done]. subst h. rewrite Hl in Hh. injection Hh as ->.
        intros x [->|Hx]%insert_prio_in; apply Ha; set_solver.
    + eapply frame_mono; [by eapply frame_trans|]. cbv beta. tauto.
Qed.

(** ** The services *)

(** [rt_tsk_pass] (yield): if the first ready task has the priority of the
    running one, that task is selected and the running task goes behind all
    ready tasks of its priority; otherwise nothing changes. *)
Theorem rt_tsk_pass_correct m T pr Q D t k r :
  kernel m T pr Q D (t :: k) r ->
  wp rt_tsk_pass (fun _ m' =>
    if pr t =? pr r then
      sched m' T pr (<[os_rdy := insert_prio pr r k]> Q) D (insert_prio pr r k) t /\
      frame (sfr [r; t]) m m'
    else m' = m) m.
Proof.
  intros [[HL HR Hnew Hr Hst Htop] Hrun]. pose proof HL as [HQ HT HDl Hl Hs Ha Hp].
  unfold rt_tsk_pass. wp_step. wp_use rt_get_same_rdy_prio_spec; [done..|apply Hr|].
  intros x m1. destruct (pr t =? pr r) eqn:E; intros H.
  - destruct H as (-> & HQ1 & Hf & HF1). unfold links in HF1.
    destruct (by_prio_tail pr t k) as [Hsk Htk]; [by eapply Hs|].
    assert (Ht : t ∈ T) by (apply (q_tasks _ _ _ HQ _ _ _ Hl); by left).
    rewrite (proj2 (Z.eqb_neq _ _)) by (by eapply tcb_nonnull). cbn [negb].
    assert (HL1 : lists m1 T pr (<[os_rdy := k]> Q) D k).
    { constructor; try done.
      - eapply tcbs_frame; [done..|]. naive_solver.
      - eapply delays_frame; [done..|]. unfold dlinks. naive_solver.
      - by rewrite lookup_insert_eq.
      - intros h k' [[<- <-]|[_ Hk']]%lookup_insert_Some; [done|by eapply Hs].
      - intros x Hx. apply Ha. by right. }
    assert (Hr' : r ∉ t :: k) by (by eapply (proj1 (proj2 Hr))).
    assert (Hrun1 : m1 !! (os_tsk, run) = Some r) by flook.
    wp_run. wp_use lists_put_rdy; [done| |].
    { apply loose_insert; [done|set_solver]. }
    intros _ m2 [HL2 HF2]. unfold links in HF2.
    assert (m2 !! (os_tsk, run) = Some r) by flook.
    pose proof (state_some _ _ _ _ _ _ _ HL2 (proj1 Hr)). wp_run.
    set (m3 := <[(r, state) := READY]> m2).
    assert (HF3 : frame (fun p f => p = r /\ f = state) m2 m3) by (by apply frame_store).
    rewrite insert_insert_eq in HL2.
    wp_use (rt_switch_req_spec m3 T pr (<[os_rdy := insert_prio pr r k]> Q) D (insert_prio pr r k) t).
    + eapply lists_frame; [done..|]. unfold links, dlinks. naive_solver.
    + split_and!; [done| |apply Ha; by left]. intros h k' Hk' Hx.
      apply lookup_insert_Some in Hk' as [[<- <-]|[Hne Hk']].
      * apply insert_prio_in in Hx as [->|Hx]; [apply Hr'; by left|].
        apply (Hf os_rdy k); [by rewrite lookup_insert_eq|done].
      * apply (Hf h k'); [by rewrite lookup_insert_ne by done|done].
    + intros x [->|Hx]%insert_prio_in; [lia|by apply Htk].
    + assert (t ≠ r) by set_solver.
      eapply (readies_set _ _ (T ∖ {[t]} ∖ {[r]}) k).
      * eapply (readies_frame m1); [|done|naive_solver].
        eapply (readies_frame m); [|done|naive_solver].
        intros x Hx. destruct (HR x) as (st & ? & Hiff); [set_solver|]. exists st.
        split; [done|]. rewrite Hiff, elem_of_cons. set_solver.
      * intros. by apply without_or.
      * intros x Hx. rewrite insert_prio_in. tauto.
      * rewrite insert_prio_in. tauto.
    + unfold m3. flook.
    + intros _ m4 [HS HF4]. split; [done|].
      eapply frame_mono; [eapply frame_trans; [exact HF1|eapply frame_trans; [exact HF2|
        eapply frame_trans; [exact HF3|exact HF4]]]|].
      unfold sfr, links. set_solver.
  - destruct H as [-> ->]. cbn [Z.eqb NULL negb]. by wp_run.
Qed.

(** The running task gives way to the first ready one. *)
Lemma preempt_spec m T pr Q D t k r :
  lists m T pr Q D (t :: k) -> readies m (T ∖ {[r]}) (t :: k) -> loose T Q D r ->
  m !! (os_tsk, run) = Some r -> is_Some (m !! (os_tsk, new_tsk)) -> pr r <= pr t ->
  wp preempt (fun _ m' =>
    sched m' T pr (<[os_rdy := insert_prio pr r k]> Q) D (insert_prio pr r k) t /\
    frame (sfr [r; t]) m m') m.
Proof.
  intros HL HR Hr Hrun Hnew Hle.
  assert (E : insert_prio pr r (t :: k) = t :: insert_prio pr r k).
  { unfold insert_prio. cbn. by rewrite (proj2 (Z.leb_le _ _)) by done. }
  unfold preempt. wp_run. wp_use lists_put_rdy; [done..|]. intros _ m1 [HL1 HF1].
  unfold links in HF1. rewrite E in HL1.
  assert (m1 !! (os_tsk, run) = Some r) by flook.
  pose proof (state_some _ _ _ _ _ _ _ HL1 (proj1 Hr)). wp_run.
  set (m2 := <[(r, state) := READY]> m1).
  assert (HF2 : frame (fun p f => p = r /\ f = state) m1 m2) by (by apply frame_store).
  wp_use (rt_dispatch_null m2).
  - eapply lists_frame; [done..|]. unfold links, dlinks. naive_solver.
  - eapply (readies_set _ _ (T ∖ {[r]})).
    + eapply (readies_frame m); [done..|naive_solver].
    + intros. by apply without_or.
    + intros x Hx. rewrite !elem_of_cons, insert_prio_in. tauto.
    + rewrite elem_of_cons, insert_prio_in. tauto.
  - unfold m2. flook.
  - intros _ m3 [HS HF3]. rewrite insert_insert_eq in HS. split; [done|].
    eapply frame_mono; [eapply frame_trans; [exact HF1|eapply frame_trans; [exact HF2|exact HF3]]|].
    unfold sfr, links. set_solver.
Qed.

(** [set_prio]: the priorities after task [t] got priority [p]. *)
Definition set_prio (t p : Z) (pr : Z -> Z) : Z -> Z := <[t := p]> pr.

(** The scheduler after the running task's priority was set: it gives way when
    the first ready task now has a higher one. *)
Definition reprio_run (pr : Z -> Z) (r : Z) (l : list Z) : list Z * Z :=
  match l with
  | t :: k => if pr r <? pr t then (insert_prio pr r k, t) else (l, r)
  | [] => (l, r)
  end.

Lemma readies_without m T l t : readies m T l -> readies m (T ∖ {[t]}) l.
Proof. intros HR. eapply readies_sub; [done|set_solver]. Qed.

(** The running task gives way if the first ready task has a higher priority. *)
Lemma when_preempt m T pr Q D t k r :
  lists m T pr Q D (t :: k) -> readies m T (t :: k) -> loose T Q D r ->
  m !! (os_tsk, run) = Some r -> m !! (os_tsk, new_tsk) = Some r -> m !! (r, state) = Some RUNNING ->
  wp (when (pr r <? pr t) preempt) (fun _ m' =>
    sched m' T pr (<[os_rdy := (reprio_run pr r (t :: k)).1]> Q) D
      (reprio_run pr r (t :: k)).1 (reprio_run pr r (t :: k)).2 /\ frame (sfr [r; t]) m m') m.
Proof.
  intros HL HR Hr Hrun Hnew Hst. pose proof HL as [HQ HT HDl Hl Hs Ha Hp].
  unfold reprio_run. destruct (Z.ltb_spec (pr r) (pr t)).
  - change (when true preempt) with preempt.
    wp_use preempt_spec; [done|by apply readies_without|done|done|by eauto|lia|]. done.
  - wp_run. cbn [fst snd]. split; [|apply frame_refl].
    rewrite insert_id by done. constructor; try done.
    destruct (by_prio_tail pr t k) as [_ Htk]; [by eapply Hs|].
    intros x [->|Hx]%elem_of_cons; [done|]. specialize (Htk x Hx). lia.
Qed.

(** The priority of the first ready task is read. *)
Lemma rt_rdy_prio_spec (m : mem) (T : gset Z) (pr : Z -> Z) (Q : gmap Z (list Z)) (D : list (Z * Z)) (t : Z) (k : list Z) (P : Z -> mem -> Prop) :
  lists m T pr Q D (t :: k) -> P (pr t) m -> wp rt_rdy_prio P m.
Proof.
  intros HL HP. pose proof HL as [HQ HT HDl Hl Hs Ha Hp].
  destruct (q_queue _ _ _ HQ _ _ Hl) as [[Hs1 _] _].
  assert (Ht : t ∈ T) by (apply (q_tasks _ _ _ HQ _ _ _ Hl); by left).
  pose proof (tcb_prio _ _ _ _ HT Ht). unfold rt_rdy_prio. wp_run. done.
Qed.

Lemma tsk_prio_run_spec m T pr Q D t k r p :
  lists m T pr Q D (t :: k) -> readies m T (t :: k) -> loose T Q D r ->
  m !! (os_tsk, run) = Some r -> m !! (os_tsk, new_tsk) = Some r ->
  m !! (r, state) = Some RUNNING -> pr r = p ->
  wp (tsk_prio_run p) (fun x m' => x = OS_R_OK /\
    sched m' T pr (<[os_rdy := (reprio_run pr r (t :: k)).1]> Q) D
      (reprio_run pr r (t :: k)).1 (reprio_run pr r (t :: k)).2 /\ frame (sfr [r; t]) m m') m.
Proof.
  intros HL HR Hr Hrun Hnew Hst <-. unfold tsk_prio_run. wp_step.
  eapply rt_rdy_prio_spec; [done|]. wp_step. wp_use when_preempt; [done..|].
  intros _ m' [HS HF]. by wp_run.
Qed.

(** [rt_tsk_prio] on the running task (task id 0): the task has the new
    priority, and it keeps running unless a ready task now has a higher
    priority, in which case the first of those is selected and the caller is
    queued by its new priority. *)
Theorem rt_tsk_prio_self m T pr Q D t k r p (pr' := set_prio r p pr) :
  kernel m T pr Q D (t :: k) r ->
  wp (rt_tsk_prio 0 p) (fun x m' => x = OS_R_OK /\
    sched m' T pr' (<[os_rdy := (reprio_run pr' r (t :: k)).1]> Q) D
      (reprio_run pr' r (t :: k)).1 (reprio_run pr' r (t :: k)).2) m.
Proof.
  intros [[HL HR Hnew Hr Hst Htop] Hrun].
  assert (Hs1 : is_Some (m !! (r, prio))).
  { rewrite (tcb_prio m pr T r); [eauto|apply HL|apply Hr]. }
  unfold rt_tsk_prio. rewrite Z.eqb_refl. wp_run.
  wp_use (tsk_prio_run_spec (<[(r, prio) := p]> m) T pr' Q D t k r).
  - apply lists_setprio; [done|apply Hr..].
  - eapply readies_frame; [done|by apply frame_store|]. naive_solver.
  - done.
  - by look.
  - by look.
  - by look.
  - unfold pr', set_prio. by rewrite fn_lookup_insert.
  - intros x m' (-> & HS & _). done.
Qed.

(** The scheduler after the first ready task was taken out and dispatched. *)
Definition redispatch (pr : Z -> Z) (r : Z) (l : list Z) : list Z * Z :=
  match l with t :: k => dispatch pr t r k | [] => (l, r) end.

(** A queue without [t]. *)
Definition others (t : Z) (l : list Z) : list Z := filter (fun x => x <> t) l.

Lemma others_split t l1 l2 : NoDup (l1 ++ t :: l2) -> others t (l1 ++ t :: l2) = l1 ++ l2.
Proof.
  intros (_ & Hn & [Ht _]%NoDup_cons)%NoDup_app. unfold others.
  rewrite filter_app, filter_cons_False by tauto.
  rewrite !filter_keep; [done|..]; intros x Hx ->; [done|]. apply (Hn t); [done|by left].
Qed.

(** [rt_tsk_prio] on another, active task [t]: [t] has the new priority
    and stands at its place by priority in the queue it is in; if it is ready,
    the first ready task is dispatched against the running one.  In every
    case the task selected afterwards has the highest priority. *)
Theorem rt_tsk_prio_other m T pr Q D l r id n t p (pr' := set_prio t p pr) :
  kernel m T pr Q D l r -> 0 < id <= n -> m !! (os_maxtaskrun, value) = Some n ->
  m !! (os_active_TCB, elem (id - 1)) = Some t -> t ∈ T -> t <> r ->
  wp (rt_tsk_prio id p) (fun x m' => x = OS_R_OK /\ exists Q' l' c,
    sched m' T pr' Q' D l' c /\
    (free_of Q t -> Q' = Q /\ l' = l /\ c = r) /\
    (forall h k, h <> os_rdy -> Q !! h = Some k -> t ∈ k ->
       Q' = <[h := insert_prio pr' t (others t k)]> Q /\ l' = l /\ c = r) /\
    (t ∈ l -> Q' = <[os_rdy := l']> Q /\ (l', c) = redispatch pr' r (insert_prio pr' t (others t l)))) m.
Proof.
  intros [[HL HR Hnew Hr Hst Htop] Hrun] Hid Hn Hact Ht Hne.
  pose proof HL as [HQ HT HDl Hl Hs Ha Hp]. pose proof (tcb_nonnull _ _ _ _ HT Ht) as Ht0.
  assert (Hs1 : is_Some (m !! (t, prio))) by (rewrite (tcb_prio m pr T t); eauto).
  unfold rt_tsk_prio. rewrite (proj2 (Z.eqb_neq id 0)) by lia. wp_run.
  rewrite (proj2 (Z.ltb_ge n id)) by lia. wp_run.
  rewrite (proj2 (Z.eqb_neq t NULL)) by done. wp_run.
  rewrite (proj2 (Z.eqb_neq t r)) by done.
  assert (Hpr : pr' r = pr r) by (unfold pr', set_prio; by rewrite fn_lookup_insert_ne by done).
  destruct (HR t Ht) as (st & Ht1 & Hiff).
  destruct (in_queue_dec Q t) as [Hf|(h & l1 & l2 & Hh)].
  - assert (Hst' : st <> READY) by (intros ?%Hiff; by eapply Hf).
    pose proof (lists_setprio _ _ _ _ _ _ _ p HL Ht Hf) as HL1.
    assert (HF : frame (fun q f => q = t /\ f = prio) m (<[(t, prio) := p]> m)) by (by apply frame_store).
    wp_step. wp_use (rt_resort_prio_free (<[(t, prio) := p]> m) pr' T Q t st);
      [apply HL1|apply HL1|done|done|by look|done|].
    intros _ m1 ->. wp_run. rewrite (proj2 (Z.eqb_neq _ _)) by done. wp_run.
    split; [done|]. exists Q, l, r. split_and!; [|done| |].
    + constructor; [done| |by look|done|by look|].
      * eapply readies_frame; [done..|]. naive_solver.
      * intros x Hx. rewrite Hpr. unfold pr', set_prio.
        rewrite fn_lookup_insert_ne; [auto|]. intros ->. by eapply Hf.
    + intros h k _ Hk Htk. by destruct (Hf _ _ Hk).
    + intros Htl. by destruct (Hf _ _ Hl).
  - assert (Hrh : h = os_rdy -> m !! (t, state) = Some READY).
    { intros ->. rewrite Hl in Hh. injection Hh as ->. rewrite Ht1. f_equal. apply Hiff. set_solver. }
    wp_step. wp_use lists_resort; [done..|]. fold (set_prio t p pr) pr'. intros _ m1 [HL1 HF1].
    unfold links in HF1. set (lt := insert_prio pr' t (l1 ++ l2)) in *.
    assert (m1 !! (t, state) = Some st) by flook. wp_run.
    assert (Hlt : forall x, x ∈ lt -> x = t \/ x ∈ l1 ++ l2) by (intros x; by apply insert_prio_in).
    assert (HF : frame (fun q f => f = p_lnk \/ f = p_rlnk \/ f = prio) m m1).
    { eapply frame_mono; [exact HF1|]. cbv beta. tauto. }
    destruct (decide (h = os_rdy)) as [->|Hho].
    + rewrite Hl in Hh. injection Hh as El.
      assert (Htl : t ∈ l) by (rewrite El; apply elem_of_app; right; left).
      apply Hiff in Htl as ->. rewrite Z.eqb_refl. wp_run.
      destruct lt as [|t0 k0] eqn:Elt; [unfold lt, insert_prio in Elt; by destruct (before _ _ _)|].
      wp_use lists_get_rdy; [exact HL1|done|]. intros x m2 (-> & HL2 & Ht0' & Htop2 & HF2).
      unfold links in HF2. rewrite insert_insert_eq in HL2, Ht0'.
      assert (Hrl : r ∉ t0 :: k0).
      { intros [->|Hx]%Hlt; [done|]. apply (proj1 (proj2 Hr) _ _ Hl). rewrite El. set_solver. }
      assert (Hperm : t0 :: k0 ≡ₚ l).
      { rewrite <- Elt, El. unfold lt. rewrite insert_prio_perm. apply Permutation_middle. }
      wp_use (rt_dispatch_spec m2 T pr' (<[os_rdy := k0]> Q) D k0 t0 r); [done|done| | | | |by flook..|].
      * apply loose_insert; [done|set_solver].
      * set_solver.
      * eapply (readies_frame m1); [|done|naive_solver].
        intros x Hx. destruct (HR x) as (st' & Hx1 & Hx2); [set_solver|].
        exists st'. split; [by flook|]. rewrite Hx2, <- Hperm, elem_of_cons. set_solver.
      * assert (Hpx : forall x, x ∈ t0 :: k0 -> x <> t -> pr' x <= pr' r).
        { intros x Hx Hxt. rewrite Hpr. unfold pr', set_prio. rewrite fn_lookup_insert_ne by done.
          apply Htop. by rewrite <- Hperm. }
        intros x Hx. destruct (decide (x = t)) as [->|]; [|apply Hpx; [by right|done]].
        assert (t0 <> t).
        { intros ->. pose proof (q_nodup _ _ _ HQ _ _ Hl) as Hnd. rewrite <- Hperm in Hnd.
          by apply NoDup_cons in Hnd as [? _]. }
        etrans; [by apply Htop2|]. apply Hpx; [by left|done].
      * intros _ m3 [HS HF3]. rewrite insert_insert_eq in HS. wp_run. split; [done|].
        eexists _, _, _. split_and!; [exact HS| | |].
        { intros Hf. destruct (Hf _ _ Hl). rewrite El. set_solver. }
        { intros h k Hho Hk Htk. destruct Hho.
          eapply (q_uniq _ _ _ HQ _ _ _ _ t Hk Hl); [done|]. rewrite El. set_solver. }
        { intros _. split; [done|]. rewrite El, others_split.
          - fold lt. rewrite Elt. cbn. by destruct (dispatch pr' t0 r k0).
          - rewrite <- El. by eapply (q_nodup _ _ _ HQ). }
    + assert (Htl : t ∉ l).
      { intros Htl. apply Hho. eapply (q_uniq _ _ _ HQ); [done..| |done]. set_solver. }
      rewrite (proj2 (Z.eqb_neq st _)) by (intros ?%Hiff; done). wp_run.
      split; [done|]. exists (<[h := lt]> Q), l, r. split_and!.
      * constructor; [done| |by flook| |by flook|].
        { eapply readies_frame; [done..|]. naive_solver. }
        { apply loose_insert; [done|]. intros [->|Hx]%Hlt; [done|].
          apply (proj1 (proj2 Hr) _ _ Hh). set_solver. }
        { intros x Hx. rewrite Hpr. unfold pr', set_prio.
          rewrite fn_lookup_insert_ne by congruence. auto. }
      * intros Hf. destruct (Hf _ _ Hh). set_solver.
      * intros h' k' _ Hh' Hk'.
        assert (h' = h) as -> by (eapply (q_uniq _ _ _ HQ _ _ _ _ t Hh' Hh); set_solver).
        rewrite Hh in Hh'. injection Hh' as <-.
        rewrite others_split by (by eapply (q_nodup _ _ _ HQ)). done.
      * done.
Qed.

(** ** Ending tasks, the task table, the context switch *)

Lemma delays_drop m T D t : delays m T D -> t ∉ D.*1 -> delays m (T ∖ {[t]}) D.
Proof.
  intros [? ? ? ? HDT Hfr] Ht. constructor; [done..| |].
  - intros x Hx. pose proof (HDT x Hx). set_solver.
  - intros x Hx. apply Hfr. set_solver.
Qed.

Lemma unqueue_sorted pr Q t :
  (forall h k, Q !! h = Some k -> by_prio pr k) -> forall h k, unqueue t Q !! h = Some k -> by_prio pr k.
Proof.
  intros Hs h k. unfold unqueue. rewrite lookup_fmap. intros (k' & Hk' & ->)%fmap_Some.
  apply Hs in Hk'. clear Hs. induction Hk' as [|x k' Hk IH Hx]; [constructor|].
  rewrite filter_cons. case_decide; [|done]. constructor; [done|].
  rewrite Forall_forall in Hx |- *. intros y [_ Hy]%list_elem_of_filter. auto.
Qed.

(** Taking any task out of the queue it may be in. *)
Lemma rmv_list_any m T pr Q t l :
  queues m T Q -> tcbs m pr T -> Q !! os_rdy = Some l -> t ∈ T ->
  wp (rt_rmv_list t) (fun _ m' => queues m' (T ∖ {[t]}) (unqueue t Q) /\
    frame (fun _ f => links f) m m') m.
Proof.
  intros HQ HT Hl Ht. destruct (in_queue_dec Q t) as [Hf|(h & l1 & l2 & Hh)].
  - rewrite unqueue_free by done. wp_use rt_rmv_list_free; [done..|].
    intros _ m' ->. split; [by apply queues_drop|apply frame_refl].
  - erewrite unqueue_in by done. by apply (rt_rmv_list_spec m pr T Q).
Qed.

(** [rt_tsk_delete] on another, active task [t]: [t] is taken out of the
    queue and of the delay list it is in and out of the task table; the other
    tasks keep their order, and the caller keeps running. *)
Theorem rt_tsk_delete_other m T pr Q D l r rid id n t :
  kernel m T pr Q D l r -> 0 < id <= n -> m !! (os_maxtaskrun, value) = Some n ->
  m !! (r, task_id) = Some rid -> id <> rid ->
  m !! (os_active_TCB, elem (id - 1)) = Some t -> t ∈ T -> t <> r ->
  wp (rt_tsk_delete id) (fun x m' => x = OS_R_OK /\
    kernel m' (T ∖ {[t]}) pr (unqueue t Q) (remove_dly t D) (others t l) r /\
    m' !! (os_active_TCB, elem (id - 1)) = Some NULL /\ m' !! (t, stack) = Some NULL) m.
Proof.
  intros [[HL HR Hnew Hr Hst Htop] Hrun] Hid Hn Hrid Hne Hact Ht Htr.
  pose proof HL as [HQ HT HD Hl Hs Ha Hp]. pose proof (tcb_nonnull _ _ _ _ HT Ht) as Ht0.
  unfold rt_tsk_delete. wp_run. rewrite (proj2 (Z.eqb_neq id 0)) by lia. wp_run.
  rewrite (proj2 (Z.eqb_neq id rid)) by done. wp_run.
  rewrite (proj2 (Z.ltb_ge n id)) by lia. wp_run. rewrite (proj2 (Z.eqb_neq t NULL)) by done.
  wp_step. wp_use rmv_list_any; [done..|]. intros _ m1 [HQ1 HF1].
  wp_step. wp_use (rt_rmv_dly_spec m1 pr T D t).
  { eapply delays_frame; [done..|]. unfold links, dlinks. naive_solver. }
  { eapply tcbs_frame; [done..|]. unfold links. naive_solver. }
  { done. }
  intros _ m2 [HD2 HF2]. unfold links in HF1. unfold dlinks in HF2.
  assert (Hs1 : is_Some (m2 !! (os_active_TCB, elem (id - 1)))) by flook.
  assert (Hs2 : is_Some (m2 !! (t, stack))).
  { eapply frame_some; [done|]. eapply frame_some; [done|]. eapply tcb_some; [done..|set_solver]. }
  wp_run. split_and!; [done| |by look|by look].
  set (m3 := <[(t, stack) := NULL]> _).
  assert (HF3 : frame (fun p f => f = elem (id - 1) \/ f = stack) m2 m3) by (unfold m3; frames).
  assert (HF : frame (fun p f => links f \/ dlinks f \/ f = elem (id - 1) \/ f = stack) m m3).
  { eapply frame_mono; [eapply frame_trans; [exact HF1|eapply frame_trans; [exact HF2|exact HF3]]|].
    unfold links, dlinks. tauto. }
  assert (Hnr : forall x, x ∈ others t l -> x ∈ l /\ x <> t).
  { intros x [? ?]%list_elem_of_filter. done. }
  assert (Htd : t ∉ (remove_dly t D).*1) by (rewrite remove_dly_in; tauto).
  unfold links, dlinks in HF. split; [constructor|by flook].
  - constructor.
    + eapply frame_queues; [eapply frame_queues; [exact HQ1|exact HF2|]|exact HF3|];
        unfold links; naive_solver.
    + intros x Hx. eapply tcbs_frame; [exact HT|exact HF|naive_solver|]. set_solver.
    + apply delays_drop; [|done]. eapply delays_frame; [exact HD2|exact HF3|]. unfold dlinks. naive_solver.
    + unfold unqueue. by rewrite lookup_fmap, Hl.
    + by apply unqueue_sorted.
    + intros x [Hx _]%Hnr. rewrite remove_dly_in. intros [? _]. by apply (Ha x).
    + intros x [_ Hx]%list_elem_of_filter. auto.
  - intros x Hx. destruct (HR x) as (st & Hst' & Hiff); [set_solver|]. exists st.
    split; [by flook|]. rewrite Hiff. unfold others. rewrite list_elem_of_filter. set_solver.
  - by flook.
  - destruct Hr as (HrT & Hrf & HrD). split_and!; [set_solver| |].
    + intros h k. unfold unqueue. rewrite lookup_fmap. intros (k' & Hk' & ->)%fmap_Some.
      intros [_ Hx]%list_elem_of_filter. by apply (Hrf _ _ Hk').
    + rewrite remove_dly_in. tauto.
  - by flook.
  - intros x [Hx _]%Hnr. auto.
Qed.

Lemma get_TID_loop_spec m tab n tid :
  (forall i, tid - 1 <= i < tid - 1 + Z.of_nat n -> m !! (os_active_TCB, elem i) = Some (tab i)) -> 0 < tid ->
  wp (get_TID_loop n tid) (fun x m' => m' = m /\
    ((x = 0 /\ forall i, tid - 1 <= i < tid - 1 + Z.of_nat n -> tab i <> NULL) \/
     (tid <= x < tid + Z.of_nat n /\ tab (x - 1) = NULL /\ forall i, tid - 1 <= i < x - 1 -> tab i <> NULL))) m.
Proof.
  revert tid. induction n as [|n IH]; intros tid Htab Ht; cbn [get_TID_loop].
  - wp_run. split; [done|]. left. split; [done|]. intros. lia.
  - wp_step. eapply wp_load; [apply Htab; lia|].
    destruct (Z.eqb_spec (tab (tid - 1)) NULL) as [E|E].
    + wp_run. split; [done|]. right. split_and!; [lia|lia|done|]. intros. lia.
    + wp_use IH; [intros; apply Htab; lia|lia|].
      intros x m' [-> [[-> H]|(Hx & Hx0 & H)]]; (split; [done|]); [left|right].
      * split; [done|]. intros i Hi. destruct (decide (i = tid - 1)) as [->|]; [done|]. apply H. lia.
      * split_and!; [lia|lia|done|]. intros i Hi.
        destruct (decide (i = tid - 1)) as [->|]; [done|]. apply H. lia.
Qed.

(** [rt_get_TID] returns the smallest task id whose table entry is free,
    and 0 exactly when the table is full. *)
Theorem rt_get_TID_correct m n tab :
  m !! (os_maxtaskrun, value) = Some n -> 0 <= n ->
  (forall i, 0 <= i < n -> m !! (os_active_TCB, elem i) = Some (tab i)) ->
  wp rt_get_TID (fun x m' => m' = m /\
    ((x = 0 /\ forall i, 0 <= i < n -> tab i <> NULL) \/
     (1 <= x <= n /\ tab (x - 1) = NULL /\ forall i, 0 <= i < x - 1 -> tab i <> NULL))) m.
Proof.
  intros Hn Hn0 Htab. unfold rt_get_TID. wp_run.
  wp_use (get_TID_loop_spec m tab); [intros; apply Htab; lia|lia|].
  intros x m' [-> [[-> H]|(Hx & Hx0 & H)]]; (split; [done|]); [left|right].
  - split; [done|]. intros. apply H. lia.
  - split_and!; [lia|lia|done|]. intros. apply H. lia.
Qed.

(** The cells a stack check and a context switch of task [r] work on: unless
    it is the main task, the saved stack pointer stays above the base, which
    still holds the magic word. *)
Record stack_ok (m : mem) (r : Z) : Prop := {
  so_psp : exists id sp, m !! (r, task_id) = Some id /\ m !! (PSP, value) = Some sp /\
    is_Some (m !! (u32 (u32 (sp - 32) + 32), word)) /\ is_Some (m !! (u32 (u32 (sp - 32) + 36), word)) /\
    (id = 1 \/ exists base, m !! (r, stack) = Some base /\ base <= u32 (sp - 32) /\
      m !! (base, word) = Some MAGIC_WORD)
}.

Definition switch_frame (r p : Z) (f : field) : Prop :=
  (p = r /\ f = tsk_stack) \/ (p = os_tsk /\ f = run) \/ (p = PSP /\ f = value).

(** [switch_context], with the cells it changes. *)
Lemma switch_context_spec m T pr Q D l c r :
  sched m T pr Q D l c -> m !! (os_tsk, run) = Some r -> r ∈ T -> stack_ok m r ->
  wp switch_context (fun _ m' => kernel m' T pr Q D l c /\ frame (switch_frame r) m m' /\
    (r <> c -> exists sp, m !! (c, tsk_stack) = Some sp /\ m' !! (PSP, value) = Some (u32 (sp + 32)))) m.
Proof.
  intros HS Hrun HrT [(id & sp & Hid & Hsp & Hw1 & Hw2 & Hst0)].
  pose proof HS as [HL HR Hnew Hc Hst Htop]. pose proof HL as [HQ HT HD Hl Hs Ha Hp].
  unfold switch_context. wp_run. destruct (Z.eqb_spec r c) as [->|Hrc]; [wp_run; split_and!; [done|apply frame_refl|done]|].
  rewrite (proj2 (Z.eqb_neq r _)) by (by eapply tcb_nonnull). cbn [negb].
  unfold rt_get_PSP, rt_stk_check.
  assert (Hts : is_Some (m !! (r, tsk_stack))) by (eapply tcb_some; [done..|set_solver]).
  wp_run. eapply wp_mono with (Q' := fun _ m1 => m1 = <[(r, tsk_stack) := u32 (sp - 32)]> m).
  { destruct (Z.eqb_spec id 1) as [|Hid1]; wp_run; [done|].
    destruct Hst0 as [|(base & Hbase & Hle & Hmagic)]; [done|]. wp_run.
    rewrite (proj2 (Z.ltb_ge _ _)) by done. rewrite Z.eqb_refl. by wp_run. }
  intros _ m1 ->.
  destruct (HT c (proj1 Hc)) as (_ & _ & _ & _ & spc & Hspc & _).
  assert (is_Some (m !! (os_tsk, run))) by eauto. assert (is_Some (m !! (PSP, value))) by eauto.
  wp_run. set (m2 := <[(PSP, value) := _]> _).
  assert (HF : frame (fun p f => (p = r /\ f = tsk_stack) \/ (p = os_tsk /\ f = run) \/ (p = PSP /\ f = value)) m m2).
  { unfold m2. frames. }
  split_and!; [|exact HF|intros _; exists spc; split; [done|unfold m2; by look]]. split; [|unfold m2; by look]. constructor; [|eapply readies_frame; [done..|naive_solver]|by flook|done|by flook|done].
  constructor; try done.
  - eapply frame_queues; [done..|]. unfold links. naive_solver.
  - intros x Hx. destruct (decide (x = r)) as [->|Hxr].
    + destruct (HT r Hx) as (H1 & H2 & H3 & H4 & _).
      split_and!; [done|by flook|by flook|intros; eapply frame_some; eauto|].
      exists (u32 (sp - 32)). split_and!; [unfold m2; by look|by flook|by flook].
    + destruct (HT x Hx) as (H1 & H2 & H3 & H4 & spx & H5 & H6 & H7).
      split_and!; [done|by flook|by flook|intros; eapply frame_some; eauto|].
      exists spx. split_and!; [by flook|by flook|by flook].
  - eapply delays_frame; [done..|]. unfold dlinks. naive_solver.
Qed.

(** the context switch makes the selected task the running one and
    changes nothing the scheduler uses: every service that ends with the right
    task selected leads back to a state in which a service can start. *)
Theorem switch_context_correct m T pr Q D l c r :
  sched m T pr Q D l c -> m !! (os_tsk, run) = Some r -> r ∈ T -> stack_ok m r ->
  wp switch_context (fun _ m' => kernel m' T pr Q D l c) m.
Proof.
  intros. wp_use switch_context_spec; [done..|]. by intros _ m' [? _].
Qed.
