(* ===== verification/RtxCheck.v ===== *)
(** * Concrete kernel states

    The predicates of [RtxList.v] and [RtxTask.v] are decidable for a concrete
    memory.  [state_ok] decides [sched] for given tasks, queues and delay
    list; [boot] builds the memory of a small system, whose states the examples
    of the other files start from. *)

From S2P Require Export RtxTask.

(** ** Deciding [kernel] *)

#[export] Instance seg_dec m f p l e : Decision (seg m f p l e).
Proof. revert p. induction l; cbn; apply _. Defined.

#[export] Instance backs_dec m f p l : Decision (backs m f p l).
Proof. revert p. induction l; cbn; apply _. Defined.

#[export] Instance deltas_dec m p t0 D e : Decision (deltas m p t0 D e).
Proof. revert p t0. induction D as [|[q d] D IH]; intros p t0; cbn; apply _. Defined.

#[export] Instance by_prio_dec pr l : Decision (by_prio pr l).
Proof.
  unfold by_prio. induction l as [|x l IH]; [left; constructor|].
  destruct (decide (Forall (fun y => pr y <= pr x) l)) as [Hx|Hx]; [destruct IH as [IH|IH]|].
  - left. by constructor.
  - right. by intros [? _]%StronglySorted_inv.
  - right. by intros [_ ?]%StronglySorted_inv.
Defined.

(** [o] has a value that satisfies [P]. *)
Definition holds {A} (o : option A) (P : A -> Prop) : Prop :=
  match o with Some x => P x | None => False end.

#[export] Instance holds_dec {A} (o : option A) P `{forall x, Decision (P x)} : Decision (holds o P).
Proof. destruct o; cbn; apply _. Defined.

Definition prio_of (m : mem) (t : Z) : Z := default 0 (m !! (t, prio)).

Definition tcb_ok (m : mem) (t : Z) : Prop :=
  kernel_end < t /\ m !! (t, cb_type) = Some TCB /\ is_Some (m !! (t, prio)) /\
  Forall (fun f => is_Some (m !! (t, f))) tcb_fields /\
  holds (m !! (t, tsk_stack)) (fun sp =>
    is_Some (m !! (u32 (sp + 32), word)) /\ is_Some (m !! (u32 (sp + 36), word))).

Definition queue_ok (m : mem) (T : list Z) (q : Z * list Z) : Prop :=
  q.1 <> NULL /\ q.1 ∉ T /\ seg m p_lnk q.1 q.2 NULL /\
  holds (m !! (q.1, cb_type)) (fun ty =>
    (q.1 = os_rdy -> ty = HCB /\ Forall (fun t => m !! (t, p_rlnk) = Some NULL) q.2) /\
    (q.1 <> os_rdy -> sem_mbx ty = true /\ backs m p_rlnk q.1 q.2)) /\
  Forall (fun t => t ∈ T) q.2 /\ by_prio (prio_of m) q.2.

Definition delays_ok (m : mem) (T : list Z) (D : list (Z * Z)) : Prop :=
  seg m p_dlnk os_dly D.*1 NULL /\ backs m p_blnk os_dly D.*1 /\
  deltas m os_dly 0 D None /\ NoDup D.*1 /\
  Forall (fun t => t ∈ T) D.*1 /\ Forall (fun x => 0 < x.2) D /\
  Forall (fun t => t ∈ D.*1 \/ m !! (t, p_blnk) = Some NULL) T.

Definition sched_ok (m : mem) (T : list Z) (qs : list (Z * list Z)) (D : list (Z * Z))
    (l : list Z) (r : Z) : Prop :=
  Forall (fun t => t ∉ D.*1) l /\
  Forall (fun t => holds (m !! (t, state)) (fun st => st = READY <-> t ∈ l)) T /\
  m !! (os_tsk, new_tsk) = Some r /\
  r ∈ T /\ r ∉ concat qs.*2 /\ r ∉ D.*1 /\ m !! (r, state) = Some RUNNING /\
  Forall (fun t => prio_of m t <= prio_of m r) l.

(** Everything [sched] asks for. *)
Definition state_ok (m : mem) (T : list Z) (qs : list (Z * list Z)) (D : list (Z * Z))
    (l : list Z) (r : Z) : Prop :=
  Forall (tcb_ok m) T /\ Forall (queue_ok m T) qs /\
  NoDup qs.*1 /\ NoDup (concat qs.*2) /\
  Forall (fun t => t ∈ concat qs.*2 \/ m !! (t, p_rlnk) = Some NULL) T /\
  delays_ok m T D /\ (os_rdy, l) ∈ qs /\ sched_ok m T qs D l r.

#[export] Instance state_ok_dec m T qs D l r : Decision (state_ok m T qs D l r).
Proof. unfold state_ok, tcb_ok, queue_ok, delays_ok, sched_ok. apply _. Defined.

Lemma tcb_ok_sound m t : tcb_ok m t -> tcb m (prio_of m) t.
Proof.
  intros (? & ? & [p Hp] & Hf & Hsp). split_and!; [done|done| | |].
  - unfold prio_of. by rewrite Hp.
  - by rewrite Forall_forall in Hf.
  - destruct (m !! (t, tsk_stack)) as [sp|]; [|done]. eauto.
Qed.

Lemma queue_ok_sound m T h l : queue_ok m T (h, l) ->
  h <> NULL /\ h ∉ T /\ queue m h l /\ (forall t, t ∈ l -> t ∈ T) /\ by_prio (prio_of m) l.
Proof.
  intros (? & ? & ? & Hty & Hin & ?). cbn [fst snd] in *. rewrite Forall_forall in Hin.
  split_and!; [done|done| |done|done]. split; [done|].
  destruct (m !! (h, cb_type)) as [ty|] eqn:E; [|done]. destruct Hty as [Hty1 Hty2].
  case_decide; [by destruct Hty1 as [-> ?]|]. destruct Hty2; [done|]. eauto.
Qed.

Lemma state_ok_sound m T qs D l r :
  state_ok m T qs D l r -> sched m (list_to_set T) (prio_of m) (list_to_map qs) D l r.
Proof.
  intros (HT & Hq & Hnd & Hnc & Hfree & (Hd1 & Hd2 & Hd3 & Hd4 & Hd5 & Hd6 & Hd7) & Hl &
    (Ha & Hst & Hnew & HrT & Hrq & HrD & Hrs & Htop)).
  rewrite !Forall_forall in *.
  assert (Hin : forall h k, (list_to_map qs : gmap Z (list Z)) !! h = Some k <-> (h, k) ∈ qs).
  { intros h k. symmetry. by apply elem_of_list_to_map. }
  assert (Hcon : forall h k t, (h, k) ∈ qs -> t ∈ k -> t ∈ concat qs.*2).
  { intros h k t Hk Ht. apply list_elem_of_In, in_concat. exists k.
    rewrite <- !list_elem_of_In. split; [|done]. apply list_elem_of_fmap. by exists (h, k). }
  constructor.
  - constructor.
    + constructor.
      * intros h k Hk%Hin. destruct (queue_ok_sound _ _ _ _ (Hq _ Hk)) as (? & ? & _).
        by rewrite elem_of_list_to_set.
      * intros h k Hk%Hin. by destruct (queue_ok_sound _ _ _ _ (Hq _ Hk)) as (? & ? & ? & _).
      * intros h k Hk%Hin. apply list_elem_of_split in Hk as (q1 & q2 & ->).
        rewrite fmap_app, concat_app in Hnc. cbn in Hnc. by apply NoDup_app in Hnc as (_ & _ & [? _]%NoDup_app).
      * intros h k t Hk%Hin Ht. destruct (queue_ok_sound _ _ _ _ (Hq _ Hk)) as (_ & _ & _ & H & _).
        rewrite elem_of_list_to_set. auto.
      * intros h1 k1 h2 k2 t Hk1%Hin Hk2%Hin Ht1 Ht2.
        apply list_elem_of_split in Hk1 as (q1 & q2 & ->).
        rewrite fmap_app, concat_app in Hnc. cbn in Hnc.
        apply NoDup_app in Hnc as (_ & Hn1 & (_ & Hn2 & _)%NoDup_app).
        apply elem_of_app in Hk2 as [Hk2|[[= -> ->]|Hk2]%elem_of_cons]; [|done|].
        { destruct (Hn1 t); [|apply elem_of_app; by left].
          apply list_elem_of_In, in_concat. exists k2. rewrite <- !list_elem_of_In.
          split; [|done]. apply list_elem_of_fmap. by exists (h2, k2). }
        { destruct (Hn2 t); [done|].
          apply list_elem_of_In, in_concat. exists k2. rewrite <- !list_elem_of_In.
          split; [|done]. apply list_elem_of_fmap. by exists (h2, k2). }
      * intros t Ht Hf. rewrite elem_of_list_to_set in Ht.
        destruct (Hfree t Ht) as [H|]; [|done]. apply list_elem_of_In, in_concat in H as (k & Hk & Htk).
        apply list_elem_of_In in Hk, Htk. apply list_elem_of_fmap in Hk as ([h k'] & -> & Hk).
        destruct (Hf h k'); [by apply Hin|done].
    + intros t Ht. rewrite elem_of_list_to_set in Ht. apply tcb_ok_sound. auto.
    + constructor; try done.
      * intros t Ht. rewrite elem_of_list_to_set. auto.
      * intros t Ht ?. rewrite elem_of_list_to_set in Ht. destruct (Hd7 t Ht); done.
    + by apply Hin.
    + intros h k Hk%Hin. by destruct (queue_ok_sound _ _ _ _ (Hq _ Hk)) as (_ & _ & _ & _ & ?).
    + done.
    + done.
  - intros t Ht. rewrite elem_of_list_to_set in Ht. specialize (Hst t Ht).
    destruct (m !! (t, state)) as [st|]; [|done]. eauto.
  - done.
  - split_and!; [by rewrite elem_of_list_to_set| |done]. intros h k Hk%Hin ?. eauto.
  - done.
  - done.
Qed.

(** The checker on a computed state. *)
Lemma sched_by_check m T qs D l r :
  bool_decide (state_ok m T qs D l r) = true ->
  sched m (list_to_set T) (prio_of m) (list_to_map qs) D l r.
Proof. intros H%bool_decide_eq_true_1. by apply state_ok_sound. Qed.

Lemma kernel_by_check m T qs D l r :
  bool_decide (state_ok m T qs D l r) && bool_decide (m !! (os_tsk, run) = Some r) = true ->
  kernel m (list_to_set T) (prio_of m) (list_to_map qs) D l r.
Proof.
  intros [H1 H2%bool_decide_eq_true_1]%andb_true_iff. split; [by apply sched_by_check|done].
Qed.

(** A task that is in none of the given queues. *)
Lemma free_by_check (qs : list (Z * list Z)) t :
  bool_decide (t ∉ concat qs.*2) = true -> free_of (list_to_map qs) t.
Proof.
  intros H%bool_decide_eq_true_1 h k Hk%elem_of_list_to_map_2 Ht. apply H.
  apply list_elem_of_In, in_concat. exists k. rewrite <- !list_elem_of_In.
  split; [|done]. apply list_elem_of_fmap. by exists (h, k).
Qed.

(** ** A small system *)

Definition idle : Z := os_idle_TCB.
Definition taskA : Z := 200.
Definition taskB : Z := 300.
Definition taskC : Z := 400.
Definition sem1 : Z := 500.
Definition mut1 : Z := 600.

(** The cells of a task with its stack and saved registers. *)
Definition task_cells (t id p st : Z) : list (Z * field * Z) :=
  [((t, cb_type), TCB); ((t, state), st); ((t, prio), p); ((t, task_id), id);
   ((t, p_lnk), NULL); ((t, p_rlnk), NULL); ((t, p_dlnk), NULL); ((t, p_blnk), NULL);
   ((t, delta_time), 0); ((t, interval_time), 0); ((t, events), 0); ((t, waits), 0);
   ((t, msg), 0); ((t, stack_frame), 0); ((t, priv_stack), 400); ((t, tsk_stack), 1000 * t + 200);
   ((t, stack), 1000 * t); ((t, ptask), 0);
   ((1000 * t, word), MAGIC_WORD); ((1000 * t + 232, word), 0); ((1000 * t + 236, word), 0)].

Definition kernel_cells (r : Z) : list (Z * field * Z) :=
  [((os_rdy, cb_type), HCB); ((os_rdy, p_lnk), NULL);
   ((os_dly, cb_type), HCB); ((os_dly, p_dlnk), NULL); ((os_dly, p_blnk), NULL); ((os_dly, delta_time), 0);
   ((os_tsk, run), r); ((os_tsk, new_tsk), r); ((os_time, value), 0); ((PSP, value), 1000 * r + 232);
   ((os_maxtaskrun, value), 3); ((os_active_TCB, elem 0), taskA); ((os_active_TCB, elem 1), taskB);
   ((os_active_TCB, elem 2), taskC);
   ((os_robin, task), 0); ((os_robin, time), 0); ((os_robin, tout), 5);
   ((os_psq, size_), 2); ((os_psq, first_), 0); ((os_psq, last_), 0); ((os_psq, count_), 0);
   ((os_psq, q_id 0), 0); ((os_psq, q_arg 0), 0); ((os_psq, q_id 1), 0); ((os_psq, q_arg 1), 0)].

(** Idle task of priority 0; A and B of priority 1, C of priority 2; a
    semaphore without tokens and a free mutex. *)
Definition boot : mem :=
  list_to_map (kernel_cells taskC ++ task_cells idle 255 0 INACTIVE ++ task_cells taskA 1 1 INACTIVE ++
    task_cells taskB 2 1 INACTIVE ++ task_cells taskC 3 2 RUNNING ++
    [((sem1, cb_type), SCB); ((sem1, tokens), 0); ((sem1, p_lnk), NULL); ((sem1, mask), 0);
     ((mut1, cb_type), MUCB); ((mut1, prio), 0); ((mut1, level), 0); ((mut1, p_lnk), NULL); ((mut1, owner), NULL)]).

(** The memory a computation leaves. *)
Definition mem_of {A} (o : outcome A) : mem := match o with Ret _ m => m | _ => ∅ end.

(** Idle, A and B are ready, C runs. *)
Definition start : mem :=
  mem_of ((rt_put_prio os_rdy idle;; rt_put_prio os_rdy taskA;; rt_put_prio os_rdy taskB;;
           store idle state READY;; store taskA state READY;; store taskB state READY) boot).

Definition all_tasks : list Z := [idle; taskA; taskB; taskC].

Definition start_queues : gmap Z (list Z) :=
  list_to_map [(os_rdy, [taskA; taskB; idle]); (sem1, []); (mut1, [])].

Lemma start_kernel :
  kernel start (list_to_set all_tasks) (prio_of start) start_queues [] [taskA; taskB; idle] taskC.
Proof. apply kernel_by_check. vm_compute. reflexivity. Qed.

(** ** The services of [RtxTask.v] at work *)

(** C runs with the priority of A and B. *)
Definition start_equal : mem := mem_of (rt_tsk_prio 0 1 start).

Lemma start_equal_kernel :
  kernel start_equal (list_to_set all_tasks) (prio_of start_equal) start_queues [] [taskA; taskB; idle] taskC.
Proof. apply kernel_by_check. vm_compute. reflexivity. Qed.

Lemma rt_tsk_pass_witness :
  wp rt_tsk_pass (fun _ m' => exists Q,
    sched m' (list_to_set all_tasks) (prio_of start_equal) Q [] [taskB; taskC; idle] taskA) start_equal.
Proof.
  wp_use rt_tsk_pass_correct; [exact start_equal_kernel|]. intros _ m'.
  replace (prio_of start_equal taskA =? prio_of start_equal taskC) with true by (vm_compute; reflexivity).
  intros [H _]. eexists.
  replace (insert_prio _ _ _) with [taskB; taskC; idle] in H by (vm_compute; reflexivity). exact H.
Defined.

(** C lowers its own priority below that of A and B. *)
Lemma rt_tsk_prio_self_witness :
  wp (rt_tsk_prio 0 0) (fun _ m' => exists pr Q,
    sched m' (list_to_set all_tasks) pr Q [] [taskB; idle; taskC] taskA) start.
Proof.
  wp_use rt_tsk_prio_self; [exact start_kernel|]. intros x m' [_ H]. do 2 eexists.
  replace (reprio_run _ _ _) with ([taskB; idle; taskC], taskA) in H by (vm_compute; reflexivity).
  exact H.
Defined.

(** C raises B above itself. *)
Lemma rt_tsk_prio_other_witness :
  wp (rt_tsk_prio 2 9) (fun _ m' => exists pr Q,
    sched m' (list_to_set all_tasks) pr Q [] [taskC; taskA; idle] taskB) start.
Proof.
  wp_use (rt_tsk_prio_other start (list_to_set all_tasks) (prio_of start)
    start_queues [] [taskA; taskB; idle] taskC 2 3 taskB); [exact start_kernel|lia|vm_compute; reflexivity..|set_solver|done|].
  intros x m' (_ & Q' & l' & c & H & _ & _ & H3).
  destruct H3 as [_ H3]; [set_solver|].
  replace (redispatch _ _ _) with ([taskC; taskA; idle], taskB) in H3 by (vm_compute; reflexivity).
  injection H3 as -> ->. eauto.
Defined.

Lemma rt_tsk_delete_other_witness :
  wp (rt_tsk_delete 2) (fun _ m' => exists Q,
    kernel m' (list_to_set all_tasks ∖ {[taskB]}) (prio_of start) Q [] [taskA; idle] taskC) start.
Proof.
  wp_use (rt_tsk_delete_other start (list_to_set all_tasks) (prio_of start)
    start_queues [] [taskA; taskB; idle] taskC 3 2 3 taskB); [exact start_kernel|lia|vm_compute; reflexivity..|done|
    vm_compute; reflexivity|set_solver|done|].
  intros x m' (_ & H & _). eexists. exact H.
Defined.

Lemma rt_get_TID_witness : wp rt_get_TID (fun x m' => x = 0) boot.
Proof.
  wp_use (rt_get_TID_correct boot 3 (fun i => 200 + 100 * i)); [vm_compute; reflexivity|lia| |].
  - intros i Hi. assert (i = 0 \/ i = 1 \/ i = 2) as [->|[->| ->]] by lia; vm_compute; reflexivity.
  - intros x m' [_ [[-> _]|(Hx & H & _)]]; [done|]. unfold NULL in H. lia.
Defined.

(** A was selected while C runs. *)
Definition after_pass : mem := mem_of (rt_tsk_pass start_equal).

Lemma switch_context_witness :
  wp switch_context (fun _ m' => exists Q,
    kernel m' (list_to_set all_tasks) (prio_of after_pass) Q [] [taskB; taskC; idle] taskA) after_pass.
Proof.
  wp_use (switch_context_correct after_pass (list_to_set all_tasks) (prio_of after_pass)
    (list_to_map [(os_rdy, [taskB; taskC; idle]); (sem1, []); (mut1, [])]) [] [taskB; taskC; idle] taskA taskC).
  - apply (sched_by_check _ all_tasks). vm_compute. reflexivity.
  - vm_compute. reflexivity.
  - set_solver.
  - constructor. exists 3, 400232. split_and!; try (vm_compute; congruence); [eexists; vm_compute; reflexivity..|].
    right. exists 400000. split_and!; vm_compute; congruence.
  - intros _ m' H. eauto.
Defined.
