(* ===== verification/RtxSem.v ===== *)
(** * Semaphores of the RTX kernel ([rt_Semaphore.c])

    Tasks that wait for a token are in the queue of the semaphore; a returned
    token goes to the first of them, or is counted.  The requests of interrupt
    handlers go through the queue of [rt_psq_enq]; [rt_psh_req] ([rt_System.c])
    asks for it to be served. *)

From S2P Require Export RtxTask RtxCheck.

(** ** The interrupt control register

    Writing [NVIC_INT_CTRL] sets and clears the pending bits of exceptions; what
    it holds afterwards is up to the core: [icsr_write old v]. *)

Class ICSR := icsr_write : Z -> Z -> Z.

Definition NVIC_INT_CTRL : Z := 0xE000ED04.
Definition NVIC_ST_CTRL : Z := 0xE000E010.

Definition write_int_ctrl `{ICSR} (v : Z) : M unit :=
  old ← load NVIC_INT_CTRL value;
  store NVIC_INT_CTRL value (icsr_write old v).

Definition __TRUE : Z := 1.
Definition __FALSE : Z := 0.

(** [rt_psh_req] *)
Definition rt_psh_req `{ICSR} : M unit :=
  lock ← load os_lock value;
  if lock =? __FALSE then write_int_ctrl (Z.shiftl 1 28)
  else store os_psh_flag value __TRUE.

(** ** The functions *)

Definition rt_sem_init (p_SCB token_count : Z) : M unit :=
  store p_SCB cb_type SCB;;
  store p_SCB p_lnk NULL;;
  store p_SCB tokens token_count.

(** [while (p_CB->p_lnk != NULL)]: all waiting tasks become ready and get 0 as
    their result; the same loop is in [rt_mut_delete]. *)
Fixpoint release_waiters (fuel : nat) (p_CB : Z) : M unit :=
  match fuel with
  | O => stuck
  | S fuel =>
      p ← load p_CB p_lnk;
      if negb (p =? NULL) then
        p_TCB ← rt_get_first p_CB;
        rt_ret_val p_TCB 0;;
        rt_rmv_dly p_TCB;;
        store p_TCB state READY;;
        rt_put_prio os_rdy p_TCB;;
        release_waiters fuel p_CB
      else mret tt
  end.

(** [if (os_rdy.p_lnk && (os_rdy.p_lnk->prio > os_tsk.run->prio))]: preempt the
    running task. *)
Definition preempt_if_higher : M unit :=
  p ← load os_rdy p_lnk;
  when (negb (p =? NULL)) (
    prio1 ← load p prio;
    r ← load os_tsk run;
    prio2 ← load r prio;
    when (prio2 <? prio1) preempt).

Definition rt_sem_delete (p_SCB : Z) : M Z :=
  fuel ← mem_fuel;
  release_waiters fuel p_SCB;;
  preempt_if_higher;;
  store p_SCB cb_type 0;;
  mret OS_R_OK.

Definition rt_sem_send (p_SCB : Z) : M Z :=
  p ← load p_SCB p_lnk;
  (if negb (p =? NULL) then
     p_TCB ← rt_get_first p_SCB;
     rt_ret_val p_TCB 1;;
     rt_rmv_dly p_TCB;;
     rt_dispatch p_TCB
   else
     n ← load p_SCB tokens;
     store p_SCB tokens (u16 (n + 1)));;
  mret OS_R_OK.

(** The running task joins the queue of the object [p_CB]: the first one is
    linked by hand. *)
Definition join_queue (p_CB : Z) : M unit :=
  p ← load p_CB p_lnk;
  if negb (p =? NULL) then
    r ← load os_tsk run;
    rt_put_prio p_CB r
  else
    r ← load os_tsk run;
    store p_CB p_lnk r;;
    r ← load os_tsk run;
    store r p_lnk NULL;;
    r ← load os_tsk run;
    store r p_rlnk p_CB.

Definition rt_sem_wait (p_SCB timeout : Z) : M Z :=
  n ← load p_SCB tokens;
  if negb (n =? 0) then
    store p_SCB tokens (u16 (n - 1));;
    mret OS_R_OK
  else if timeout =? 0 then mret OS_R_TMO
  else
    join_queue p_SCB;;
    rt_block timeout WAIT_SEM;;
    mret OS_R_TMO.

Definition isr_sem_send `{ICSR} (p_SCB : Z) : M unit :=
  rt_psq_enq p_SCB 0;;
  rt_psh_req.

Definition rt_sem_psh (p_CB : Z) : M unit :=
  p ← load p_CB p_lnk;
  if negb (p =? NULL) then
    p_TCB ← rt_get_first p_CB;
    rt_rmv_dly p_TCB;;
    store p_TCB state READY;;
    rt_ret_val p_TCB 1;;
    rt_put_prio os_rdy p_TCB
  else
    n ← load p_CB tokens;
    store p_CB tokens (u16 (n + 1)).

(** ** Lemmas shared by the waiting objects *)

(** The object [s] of the queue [k]: its first waiting task. *)
Lemma wait_head m T pr Q D l s k :
  lists m T pr Q D l -> Q !! s = Some k -> m !! (s, p_lnk) = Some (hdz k).
Proof. intros HL Hk. destruct (q_queue _ _ _ (l_queues _ _ _ _ _ _ HL) _ _ Hk) as [Hs _]. by apply seg_hd in Hs. Qed.

Lemma wait_nonnull m T pr Q D l s t k :
  lists m T pr Q D l -> Q !! s = Some (t :: k) -> t <> NULL.
Proof.
  intros HL Hk. pose proof (l_queues _ _ _ _ _ _ HL) as HQ.
  eapply tcb_nonnull; [apply HL|]. apply (q_tasks _ _ _ HQ _ _ _ Hk). by left.
Qed.

(** A result is stored on the stack of a task, and nothing else changes. *)
Lemma rt_ret_val_spec m T pr Q D l t v :
  lists m T pr Q D l -> t ∈ T ->
  wp (rt_ret_val t v) (fun _ m' => lists m' T pr Q D l /\
    (exists sp, m !! (t, tsk_stack) = Some sp /\ m' !! (u32 (sp + 32), word) = Some v) /\
    frame (fun _ f => f = word) m m') m.
Proof.
  intros HL Ht. destruct (l_tcbs _ _ _ _ _ _ HL t Ht) as (_ & _ & _ & _ & sp & Hsp & Hw & _).
  unfold rt_ret_val, rt_ret_regs. wp_run.
  assert (HF : frame (fun _ f => f = word) m (<[(u32 (sp + 32), word) := v]> m)) by frames.
  split_and!; [|exists sp; split; [done|by look]|done].
  eapply lists_frame; [done..|]. unfold links, dlinks. naive_solver.
Qed.

Lemma rt_ret_val2_spec m T pr Q D l t v0 v1 :
  lists m T pr Q D l -> t ∈ T ->
  wp (rt_ret_val2 t v0 v1) (fun _ m' => lists m' T pr Q D l /\
    (exists sp, m !! (t, tsk_stack) = Some sp /\ m' !! (u32 (sp + 36), word) = Some v1 /\
      (u32 (sp + 32) <> u32 (sp + 36) -> m' !! (u32 (sp + 32), word) = Some v0)) /\
    frame (fun _ f => f = word) m m') m.
Proof.
  intros HL Ht. destruct (l_tcbs _ _ _ _ _ _ HL t Ht) as (_ & _ & _ & _ & sp & Hsp & Hw & Hw2).
  unfold rt_ret_val2, rt_ret_regs. replace (u32 (sp + 36)) with (u32 (sp + 32 + 4)) in * by (f_equal; lia).
  wp_run. set (m' := <[_ := v1]> _).
  assert (HF : frame (fun _ f => f = word) m m') by (unfold m'; frames).
  split_and!; [|exists sp; replace (u32 (sp + 36)) with (u32 (sp + 32 + 4)) by (f_equal; lia);
    split_and!; [done|unfold m'; by look|intros; unfold m'; by look]|done].
  eapply lists_frame; [done..|]. unfold links, dlinks. naive_solver.
Qed.

(** The running task joins a queue. *)
Lemma join_queue_spec m T pr Q D l s k r :
  lists m T pr Q D l -> loose T Q D r -> s <> os_rdy -> Q !! s = Some k ->
  m !! (os_tsk, run) = Some r ->
  wp (join_queue s) (fun _ m' => lists m' T pr (<[s := insert_prio pr r k]> Q) D l /\
    frame (fun _ f => links f) m m') m.
Proof.
  intros HL Hr Hs Hk Hrun. pose proof (wait_head _ _ _ _ _ _ _ _ HL Hk) as Hh.
  unfold join_queue. wp_run. destruct k as [|t k]; cbn [hdz] in *.
  - cbn [Z.eqb NULL negb]. pose proof HL as [HQ HT HD Hl Hs' Ha Hp].
    destruct Hr as (HrT & Hrf & HrD).
    assert (Hs1 : is_Some (m !! (r, p_lnk))) by (eapply tcb_some; [done..|set_solver]).
    assert (Hs2 : is_Some (m !! (r, p_rlnk))) by (eapply tcb_some; [done..|set_solver]).
    pose proof (tcb_nonnull _ _ _ _ HT HrT) as Hr0.
    pose proof (q_head _ _ _ HQ _ _ Hk) as [Hs0 HsT].
    assert (Hrs : r <> s) by congruence.
    wp_run. set (m' := <[(r, p_rlnk) := s]> _).
    assert (HF : frame (fun _ f => links f) m m') by (unfold m', links; frames).
    split; [|done]. constructor; try done.
    + pose proof (q_queue _ _ _ HQ _ _ Hk) as Hq.
      pose proof (queue_insert m s [] [] r Hq) as Hins. cbn [app lst hdz] in Hins.
      rewrite decide_False, Z.eqb_refl in Hins by done.
      unfold m'. rewrite (insert_insert_ne _ (r, p_lnk) (s, p_lnk)) by congruence.
      eapply queues_update; [exact HQ|exact Hk| |..]; try done.
      * apply Hins; [|done|by intros ? []%elem_of_nil].
        apply NoDup_cons. split; [set_solver|]. apply NoDup_singleton.
      * apply NoDup_singleton.
      * intros. tauto.
      * intros. by eapply (q_tasks _ _ _ HQ).
      * intros h' l' Hl'. by apply (q_head _ _ _ HQ) in Hl' as [_ ?].
      * intros x ->%list_elem_of_singleton. done.
      * intros x ->%list_elem_of_singleton _. done.
      * by intros x []%elem_of_nil.
      * intros p f Hf Hp1 _ Hp2. apply not_elem_of_cons in Hp2 as [? _].
        rewrite !lookup_insert_ne; [done|..]; congruence.
    + eapply tcbs_frame; [done..|]. unfold links. naive_solver.
    + eapply delays_frame; [done..|]. unfold links, dlinks. naive_solver.
    + by rewrite lookup_insert_ne by congruence.
    + intros h' k' [[<- <-]|[_ Hk']]%lookup_insert_Some; [|by eapply Hs'].
      apply insert_prio_sorted. by eapply Hs'.
  - rewrite (proj2 (Z.eqb_neq _ _)) by (by eapply wait_nonnull). cbn [negb]. wp_run.
    by apply lists_put_wait.
Qed.

(** A change outside the scheduler's cells. *)
Lemma kernel_frame m m' T pr Q D l r K :
  kernel m T pr Q D l r -> frame K m m' ->
  (forall p f, K p f -> ~ links f /\ ~ dlinks f /\ f <> cb_type /\ (f = prio -> p ∉ T) /\ f <> tsk_stack /\
     f <> state /\ f <> run /\ f <> new_tsk) ->
  kernel m' T pr Q D l r.
Proof.
  intros [[HL HR Hnew Hr Hst Htop] Hrun] HF HK.
  split; [constructor; try done|].
  - eapply lists_frame; [done..|]. intros p f ?%HK. tauto.
  - eapply readies_frame; [done..|]. intros p f ?%HK. tauto.
  - eapply frame_eq; [done..|]. intros ?%HK. tauto.
  - eapply frame_eq; [done..|]. intros ?%HK. tauto.
  - eapply frame_eq; [done..|]. intros ?%HK. tauto.
Qed.

(** The result a task finds when it runs again. *)
Definition result_is (m : mem) (t v : Z) : Prop :=
  exists sp, m !! (t, tsk_stack) = Some sp /\ m !! (u32 (sp + 32), word) = Some v.

Lemma result_frame m m' t v K :
  result_is m t v -> frame K m m' -> (forall p f, K p f -> f <> tsk_stack /\ f <> word) -> result_is m' t v.
Proof.
  intros (sp & H1 & H2) HF HK. exists sp. split; (eapply frame_eq; [done..|]; intros ?%HK; tauto).
Qed.

(** The first task [t] that waits at the object [s] is taken out, gets its
    result, and its time-out is cancelled: the common part of all wake-ups. *)
Lemma wake_first m T pr Q D l s t k v :
  lists m T pr Q D l -> s <> os_rdy -> Q !! s = Some (t :: k) ->
  wp (p ← rt_get_first s; rt_ret_val p v;; rt_rmv_dly p;; mret p) (fun p m' => p = t /\
    lists m' T pr (<[s := k]> Q) (remove_dly t D) l /\
    loose T (<[s := k]> Q) (remove_dly t D) t /\ result_is m' t v /\
    frame (fun _ f => links f \/ dlinks f \/ f = word) m m') m.
Proof.
  intros HL Hs Hk. wp_step. wp_use lists_get_wait; [done..|].
  intros p m1 (-> & HL1 & Ht & Hf & _ & HF1). wp_step. wp_use rt_ret_val_spec; [done..|].
  intros _ m2 (HL2 & (sp & Hsp & Hw) & HF2). wp_step. wp_use lists_rmv_dly; [done..|].
  intros _ m3 [HL3 HF3]. wp_run. unfold links, dlinks in *. split_and!; [done|done| | |].
  - split_and!; [done|done|]. rewrite remove_dly_in. tauto.
  - exists sp. split; by flook.
  - eapply frame_mono; [eapply frame_trans; [exact HF1|eapply frame_trans; [exact HF2|exact HF3]]|].
    cbv beta. unfold links, dlinks. tauto.
Qed.

(** [wake_first] in the place of the statements it covers. *)
Lemma wake_first_use {A} m T pr Q D l s t k v (c : Z -> M A) Post :
  lists m T pr Q D l -> s <> os_rdy -> Q !! s = Some (t :: k) ->
  (forall m', lists m' T pr (<[s := k]> Q) (remove_dly t D) l ->
    loose T (<[s := k]> Q) (remove_dly t D) t -> result_is m' t v ->
    frame (fun _ f => links f \/ dlinks f \/ f = word) m m' -> wp (c t) Post m') ->
  wp (p ← rt_get_first s; rt_ret_val p v;; rt_rmv_dly p;; c p) Post m.
Proof.
  intros HL Hs Hk Hc. pose proof (wake_first m T pr Q D l s t k v HL Hs Hk) as H.
  apply wp_unbind in H. wp_step. eapply wp_mono; [exact H|]. intros p m1 H1.
  apply wp_unbind in H1. wp_step. eapply wp_mono; [exact H1|]. intros u1 m2 H2.
  apply wp_unbind in H2. wp_step. eapply wp_mono; [exact H2|]. intros u2 m3 H3.
  apply wp_out in H3 as (p' & m' & E & -> & ? & ? & ? & ?).
  injection E as E1 E2. rewrite E1, E2. by apply Hc.
Qed.

Lemma loose_remove_dly T Q D t r : loose T Q D r -> loose T Q (remove_dly t D) r.
Proof. intros (? & ? & ?). split_and!; [done|done|]. rewrite remove_dly_in. tauto. Qed.

Lemma loose_shorter T Q D s t k r : loose T Q D r -> Q !! s = Some (t :: k) -> loose T (<[s := k]> Q) D r.
Proof.
  intros Hr Hk. apply loose_insert; [done|]. intros Hx. apply (proj1 (proj2 Hr) _ _ Hk). by right.
Qed.

(** A waiting task is not ready, and not running. *)
Lemma waiter_apart m T pr Q D l s t k r :
  lists m T pr Q D l -> loose T Q D r -> s <> os_rdy -> Q !! s = Some (t :: k) -> t <> r /\ t ∉ l /\ t ∈ T.
Proof.
  intros HL Hr Hs Hk. pose proof HL as [HQ _ _ Hl _ _ _]. split_and!.
  - intros ->. apply (proj1 (proj2 Hr) _ _ Hk). by left.
  - intros Hx. apply Hs. eapply (q_uniq _ _ _ HQ _ _ _ _ t Hk Hl); [by left|done].
  - apply (q_tasks _ _ _ HQ _ _ _ Hk). by left.
Qed.

(** The wake-up of the first waiting task by the running task. *)
Lemma wake_dispatch m T pr Q D l r s t k v :
  kernel m T pr Q D l r -> s <> os_rdy -> Q !! s = Some (t :: k) ->
  wp (p ← rt_get_first s; rt_ret_val p v;; rt_rmv_dly p;; rt_dispatch p) (fun _ m' =>
    sched m' T pr (<[os_rdy := (dispatch pr t r l).1]> (<[s := k]> Q)) (remove_dly t D)
      (dispatch pr t r l).1 (dispatch pr t r l).2 /\ result_is m' t v /\
    frame (fun p f => sfr [t; r] p f \/ f = word) m m') m.
Proof.
  intros [[HL HR Hnew Hr Hst Htop] Hrun] Hs Hk.
  destruct (waiter_apart _ _ _ _ _ _ _ _ _ _ HL Hr Hs Hk) as (Htr & Htl & Ht).
  eapply wake_first_use; [done..|]. intros m1 HL1 Hlo Hres HF1. unfold links, dlinks in HF1.
  wp_use rt_dispatch_spec; [exact HL1|done| |done| |done|by flook..|].
  - by apply loose_remove_dly, (loose_shorter _ _ _ _ t).
  - apply readies_without. eapply readies_frame; [done..|]. naive_solver.
  - intros _ m2 [HS HF2]. split_and!; [done| |].
    + eapply result_frame; [done..|]. unfold sfr, links, dlinks. naive_solver.
    + eapply frame_mono; [by eapply frame_trans|]. unfold sfr, links, dlinks. tauto.
Qed.

(** ** The services *)

(** [rt_sem_send], with the cells it changes. *)
Lemma rt_sem_send_spec m T pr Q D l r s k n :
  kernel m T pr Q D l r -> s <> os_rdy -> Q !! s = Some k -> m !! (s, tokens) = Some n ->
  wp (rt_sem_send s) (fun x m' => x = OS_R_OK /\
    match k with
    | [] => kernel m' T pr Q D l r /\ m' !! (s, tokens) = Some (u16 (n + 1)) /\
        frame (fun p f => p = s /\ f = tokens) m m'
    | t :: k' =>
        sched m' T pr (<[os_rdy := (dispatch pr t r l).1]> (<[s := k']> Q)) (remove_dly t D)
          (dispatch pr t r l).1 (dispatch pr t r l).2 /\
        result_is m' t 1 /\ m' !! (s, tokens) = Some n /\
        frame (fun p f => sfr [t; r] p f \/ f = word) m m'
    end) m.
Proof.
  intros HK Hs Hk Hn. pose proof HK as [[HL _ _ _ _ _] _].
  pose proof (wait_head _ _ _ _ _ _ _ _ HL Hk) as Hh. unfold rt_sem_send. wp_run.
  destruct k as [|t k]; cbn [hdz] in *.
  - cbn [Z.eqb NULL negb]. assert (is_Some (m !! (s, tokens))) by eauto. wp_run.
    split_and!; [done| |by look|by apply frame_store]. eapply kernel_frame; [done|by apply frame_store|].
    unfold links, dlinks. naive_solver.
  - rewrite (proj2 (Z.eqb_neq _ _)) by (by eapply wait_nonnull). cbn [negb].
    eapply wp_mono; [by eapply wake_dispatch|]. intros _ m' (HS & Hres & HF). wp_run.
    split_and!; [done|done|done| |exact HF]. unfold sfr, links, dlinks in HF.
    eapply frame_eq; [done..|]. naive_solver.
Qed.

(** [rt_sem_send]: if a task waits at the semaphore, the first of them (the
    longest waiting among those of the highest priority) gets the token: it
    leaves the queue and the delay list, its result is 1, and it runs next if
    its priority is higher than the caller's, else it becomes ready.  If no
    task waits, the token is counted. *)
Theorem rt_sem_send_correct m T pr Q D l r s k n :
  kernel m T pr Q D l r -> s <> os_rdy -> Q !! s = Some k -> m !! (s, tokens) = Some n ->
  wp (rt_sem_send s) (fun x m' => x = OS_R_OK /\
    match k with
    | [] => kernel m' T pr Q D l r /\ m' !! (s, tokens) = Some (u16 (n + 1))
    | t :: k' =>
        sched m' T pr (<[os_rdy := (dispatch pr t r l).1]> (<[s := k']> Q)) (remove_dly t D)
          (dispatch pr t r l).1 (dispatch pr t r l).2 /\
        result_is m' t 1 /\ m' !! (s, tokens) = Some n
    end) m.
Proof.
  intros. wp_use rt_sem_send_spec; [done..|]. intros x m' [-> H']. split; [done|]. destruct k; tauto.
Qed.

(** [rt_sem_wait], with the cells it changes. *)
Lemma rt_sem_wait_spec m T pr Q D t l r s k n timeout :
  kernel m T pr Q D (t :: l) r -> s <> os_rdy -> Q !! s = Some k -> m !! (s, tokens) = Some n ->
  0 <= timeout < 65536 ->
  wp (rt_sem_wait s timeout) (fun x m' =>
    if n =? 0 then
      x = OS_R_TMO /\
      if timeout =? 0 then m' = m
      else
        sched m' T pr (<[os_rdy := l]> (<[s := insert_prio pr r k]> Q)) (timeout_dly r timeout D) l t /\
        m' !! (r, state) = Some WAIT_SEM /\ m' !! (s, tokens) = Some 0 /\
        frame (sfr [r; t]) m m'
    else x = OS_R_OK /\ kernel m' T pr Q D (t :: l) r /\ m' !! (s, tokens) = Some (u16 (n - 1)) /\
      frame (fun p f => p = s /\ f = tokens) m m') m.
Proof.
  intros HK Hs Hk Hn Hto. pose proof HK as [[HL HR Hnew Hr Hst Htop] Hrun].
  unfold rt_sem_wait. wp_run. destruct (Z.eqb_spec n 0) as [->|Hn1]; cbn [negb].
  - destruct (Z.eqb_spec timeout 0); wp_run; [done|].
    assert (Hrl : r ∉ t :: l) by (eapply (proj1 (proj2 Hr)), HL).
    wp_use join_queue_spec; [done..|]. intros _ m1 [HL1 HF1]. unfold links in HF1.
    wp_step. wp_use rt_block_spec; [exact HL1| |apply Hr|done|apply Hr|by flook|by flook|lia|done|].
    + apply readies_without. eapply readies_frame; [done..|]. naive_solver.
    + intros _ m2 (HS & Hst2 & HF2). wp_run.
      assert (frame (sfr [r; t]) m m2).
      { eapply frame_mono; [eapply frame_trans; [exact HF1|exact HF2]|]. unfold sfr, links. tauto. }
      split_and!; [done|done|done| |done].
      unfold sfr, links, dlinks in HF2. eapply frame_eq; [exact HF2|by flook|]. naive_solver.
  - assert (is_Some (m !! (s, tokens))) by eauto. wp_run.
    split_and!; [done| |by look|by apply frame_store]. eapply kernel_frame; [done|by apply frame_store|].
    unfold links, dlinks. naive_solver.
Qed.

(** [rt_sem_wait]: a token is taken at once if there is one; without token
    and with time-out 0 nothing happens and the result is a time-out; otherwise
    the caller joins the queue of the semaphore by its priority, gets its
    time-out, and the first ready task runs. *)
Theorem rt_sem_wait_correct m T pr Q D t l r s k n timeout :
  kernel m T pr Q D (t :: l) r -> s <> os_rdy -> Q !! s = Some k -> m !! (s, tokens) = Some n ->
  0 <= n < 65536 -> 0 <= timeout < 65536 ->
  wp (rt_sem_wait s timeout) (fun x m' =>
    if n =? 0 then
      x = OS_R_TMO /\
      if timeout =? 0 then m' = m
      else
        sched m' T pr (<[os_rdy := l]> (<[s := insert_prio pr r k]> Q)) (timeout_dly r timeout D) l t /\
        m' !! (r, state) = Some WAIT_SEM /\ m' !! (s, tokens) = Some 0
    else x = OS_R_OK /\ kernel m' T pr Q D (t :: l) r /\ m' !! (s, tokens) = Some (n - 1)) m.
Proof.
  intros. wp_use rt_sem_wait_spec; [done..|]. intros x m'. destruct (Z.eqb_spec n 0), (timeout =? 0); try tauto.
  all: rewrite u16_id by lia; tauto.
Qed.

(** ** Making tasks ready *)

Lemma make_ready m T pr Q D l t :
  lists m T pr Q D l -> loose T Q D t -> readies m (T ∖ {[t]}) l ->
  wp (store t state READY;; rt_put_prio os_rdy t) (fun _ m' =>
    lists m' T pr (<[os_rdy := insert_prio pr t l]> Q) D (insert_prio pr t l) /\
    readies m' T (insert_prio pr t l) /\
    frame (fun p f => links f \/ (p = t /\ f = state)) m m') m.
Proof.
  intros HL Ht HR. pose proof (state_some _ _ _ _ _ _ _ HL (proj1 Ht)) as Hs.
  assert (HF : frame (fun p f => p = t /\ f = state) m (<[(t, state) := READY]> m)) by (by apply frame_store).
  wp_run. wp_use lists_put_rdy; [|done|].
  - eapply lists_frame; [done..|]. unfold links, dlinks. naive_solver.
  - intros _ m2 [HL2 HF2]. unfold links in HF2. split_and!; [done| |].
    + eapply readies_frame; [|done|naive_solver].
      eapply readies_set; [done|intros; by apply without_or| |].
      * intros x Hx. rewrite insert_prio_in. tauto.
      * rewrite insert_prio_in. tauto.
    + eapply frame_mono; [by eapply frame_trans|]. unfold links. cbv beta. tauto.
Qed.

(** The running task gives way if the first ready task has a higher priority. *)
Lemma preempt_if_higher_spec m T pr Q D l r :
  lists m T pr Q D l -> readies m T l -> loose T Q D r ->
  m !! (os_tsk, run) = Some r -> m !! (os_tsk, new_tsk) = Some r -> m !! (r, state) = Some RUNNING ->
  wp preempt_if_higher (fun _ m' =>
    sched m' T pr (<[os_rdy := (reprio_run pr r l).1]> Q) D (reprio_run pr r l).1 (reprio_run pr r l).2 /\
    frame (fun p f => sfr (r :: l) p f) m m') m.
Proof.
  intros HL HR Hr Hrun Hnew Hst. pose proof HL as [HQ HT HD Hl Hs Ha Hp].
  destruct (q_queue _ _ _ HQ _ _ Hl) as [Hs1 _]. apply seg_hd in Hs1.
  assert (Hstay : (forall x, x ∈ l -> pr x <= pr r) -> sched m T pr (<[os_rdy := l]> Q) D l r).
  { intros Htop. rewrite insert_id by done. by constructor. }
  unfold preempt_if_higher. wp_run. destruct l as [|t k]; cbn [hdz] in *.
  - cbn [Z.eqb NULL negb]. wp_run. split; [|apply frame_refl]. apply Hstay. by intros ? []%elem_of_nil.
  - assert (Ht : t ∈ T) by (apply (q_tasks _ _ _ HQ _ _ _ Hl); by left).
    rewrite (proj2 (Z.eqb_neq _ _)) by (by eapply tcb_nonnull). cbn [negb].
    pose proof (tcb_prio _ _ _ _ HT Ht). pose proof (tcb_prio _ _ _ _ HT (proj1 Hr)).
    wp_run. wp_use when_preempt; [done..|]. intros _ m' [HS HF]. split; [done|].
    eapply sfr_mono; [done|]. set_solver.
Qed.

(** The ready list and the delay list after the tasks of [k] were released. *)
Definition release_rdy (pr : Z -> Z) (k l : list Z) : list Z := foldl (fun l t => insert_prio pr t l) l k.
Definition release_dly (k : list Z) (D : list (Z * Z)) : list (Z * Z) := foldl (fun D t => remove_dly t D) D k.

Lemma release_rdy_in pr k l x : x ∈ release_rdy pr k l <-> x ∈ l \/ x ∈ k.
Proof.
  unfold release_rdy. revert l. induction k as [|t k IH]; intros l; cbn.
  - rewrite elem_of_nil. tauto.
  - rewrite IH, insert_prio_in, elem_of_cons. tauto.
Qed.

Lemma release_waiters_spec m T pr Q D l s k fuel :
  lists m T pr Q D l -> readies m T l -> s <> os_rdy -> Q !! s = Some k -> (length k < fuel)%nat ->
  wp (release_waiters fuel s) (fun _ m' =>
    lists m' T pr (<[os_rdy := release_rdy pr k l]> (<[s := []]> Q)) (release_dly k D) (release_rdy pr k l) /\
    readies m' T (release_rdy pr k l) /\
    frame (fun p f => links f \/ dlinks f \/ f = word \/ (p ∈ k /\ f = state)) m m') m.
Proof.
  revert m Q D l fuel. induction k as [|t k IH]; intros m Q D l fuel HL HR Hs Hk Hf;
    (destruct fuel as [|fuel]; cbn [length] in Hf; [lia|]); cbn [release_waiters];
    pose proof (wait_head _ _ _ _ _ _ _ _ HL Hk) as Hh; cbn [hdz] in Hh; wp_run.
  - cbn [Z.eqb NULL negb]. wp_run. split_and!; [|done|apply frame_refl].
    cbn [release_rdy release_dly foldl]. rewrite (insert_id Q s) by done. by rewrite insert_id by apply HL.
  - rewrite (proj2 (Z.eqb_neq _ _)) by (by eapply wait_nonnull). cbn [negb].
    assert (Htl : t ∉ l).
    { intros Hx. apply Hs. eapply (q_uniq _ _ _ (l_queues _ _ _ _ _ _ HL) _ _ _ _ t Hk); [apply HL|by left|done]. }
    eapply wake_first_use; [done..|]. intros m1 HL1 Hlo _ HF1.
    assert (HR1 : readies m1 T l).
    { eapply readies_frame; [done..|]. unfold links, dlinks. naive_solver. }
    pose proof (make_ready m1 T pr (<[s := k]> Q) (remove_dly t D) l t HL1 Hlo (readies_without _ _ _ _ HR1)) as Hmk.
    apply wp_unbind in Hmk. wp_step. eapply wp_mono; [exact Hmk|]. intros u m2 Hmk2.
    wp_step. eapply wp_mono; [exact Hmk2|]. intros _ m3 (HL3 & HR3 & HF3).
    eapply wp_mono.
    { apply (IH m3 _ _ _ fuel HL3 HR3 Hs); [|lia].
      rewrite lookup_insert_ne by done. by rewrite lookup_insert_eq. }
    cbv beta. intros _ m4 (HL4 & HR4 & HF4). split_and!; [|done|].
    + rewrite (insert_insert_ne _ s os_rdy), insert_insert_eq, insert_insert_eq in HL4 by done. exact HL4.
    + eapply frame_mono; [eapply frame_trans; [exact HF1|eapply frame_trans; [exact HF3|exact HF4]]|].
      cbv beta. intros p f. rewrite elem_of_cons. tauto.
Qed.

(** An object without waiting tasks can be taken out of [queues]. *)
Lemma lists_forget m T pr Q D l s v :
  lists m T pr Q D l -> Q !! s = Some [] -> s <> os_rdy -> s ∉ T -> is_Some (m !! (s, cb_type)) ->
  lists (<[(s, cb_type) := v]> m) T pr (delete s Q) D l.
Proof.
  intros HL Hk Hs HsT Hty. pose proof HL as [HQ HT HD Hl Hso Ha Hp].
  assert (HF : frame (fun p f => p = s /\ f = cb_type) m (<[(s, cb_type) := v]> m)) by (by apply frame_store).
  constructor; try done.
  - constructor.
    + intros h k [_ Hk']%lookup_delete_Some. by eapply (q_head _ _ _ HQ).
    + intros h k [Hne Hk']%lookup_delete_Some. eapply queue_ext; [by eapply (q_queue _ _ _ HQ)|].
      intros p f Hf Hp'. rewrite lookup_insert_ne; [done|]. intros [= <- <-].
      destruct Hp' as [?|Hp']; [done|]. by apply (q_tasks _ _ _ HQ _ _ _ Hk') in Hp'.
    + intros h k [_ Hk']%lookup_delete_Some. by eapply (q_nodup _ _ _ HQ).
    + intros h k t [_ Hk']%lookup_delete_Some. by eapply (q_tasks _ _ _ HQ).
    + intros h1 k1 h2 k2 t [_ Hk1]%lookup_delete_Some [_ Hk2]%lookup_delete_Some. by eapply (q_uniq _ _ _ HQ).
    + intros t Ht Hf. mlook. apply (q_free _ _ _ HQ); [done|]. intros h k Hk' Hx.
      destruct (decide (h = s)) as [->|]; [simplify_eq; by apply elem_of_nil in Hx|].
      apply (Hf h k); [by rewrite lookup_delete_ne by done|done].
  - eapply tcbs_frame; [done..|]. naive_solver.
  - eapply delays_frame; [done..|]. unfold dlinks. naive_solver.
  - by rewrite lookup_delete_ne by done.
  - intros h k [_ Hk']%lookup_delete_Some. by eapply Hso.
Qed.

(** Releasing all tasks that wait at [s] and forgetting [s]: the common part
    of deleting a semaphore and a mutex. *)
Lemma release_object m T pr Q D l r s k (l1 := release_rdy pr k l) :
  lists m T pr Q D l -> readies m T l -> loose T Q D r -> s <> os_rdy -> Q !! s = Some k ->
  m !! (os_tsk, run) = Some r -> m !! (os_tsk, new_tsk) = Some r -> m !! (r, state) = Some RUNNING ->
  wp (fuel ← mem_fuel; release_waiters fuel s;; preempt_if_higher;; store s cb_type 0;; mret OS_R_OK)
    (fun x m' => x = OS_R_OK /\ m' !! (s, cb_type) = Some 0 /\
      sched m' T pr (<[os_rdy := (reprio_run pr r l1).1]> (delete s Q)) (release_dly k D)
        (reprio_run pr r l1).1 (reprio_run pr r l1).2) m.
Proof.
  intros HL HR Hr Hs Hk Hrun Hnew Hst. pose proof HL as [HQ HT HD Hl Hso Ha Hp].
  assert (HrQ : r ∉ k) by (by eapply (proj1 (proj2 Hr))).
  wp_run. wp_use release_waiters_spec; [done..| |].
  { enough (length k < size m)%nat by lia. eapply seg_length; [by eapply queue_nodup|].
    by apply (q_queue _ _ _ HQ _ _ Hk). }
  intros _ m1 (HL1 & HR1 & HF1). unfold links, dlinks in HF1. fold l1 in HL1, HR1.
  assert (Hr1 : loose T (<[os_rdy := l1]> (<[s := []]> Q)) (release_dly k D) r).
  { apply loose_insert; [apply loose_insert; [|by apply not_elem_of_nil]|].
    - split_and!; [apply Hr|apply Hr|]. destruct Hr as (_ & _ & HrD). clear -HrD.
      unfold release_dly. revert D HrD. induction k as [|t k IH]; intros D HrD; cbn; [done|].
      apply IH. rewrite remove_dly_in. tauto.
    - unfold l1. rewrite release_rdy_in. intros [Hx|Hx]; [|done]. by apply (proj1 (proj2 Hr) _ _ Hl). }
  wp_step. wp_use preempt_if_higher_spec; [exact HL1|done|done|by flook|by flook| |].
  { eapply frame_eq; [done..|]. naive_solver. }
  intros _ m2 [HS2 HF2].
  assert (Hty : is_Some (m !! (s, cb_type))).
  { destruct (queue_type _ _ _ (q_queue _ _ _ HQ _ _ Hk)) as (ty & Hty & _). eauto. }
  assert (Hty2 : is_Some (m2 !! (s, cb_type))) by (eapply frame_some; [done|by eapply frame_some]).
  wp_run. split_and!; [done|by look|]. destruct HS2 as [HL2 HR2 Hnew2 Hlo2 Hst2 Htop2].
  rewrite insert_insert_eq in HL2, Hlo2.
  assert (E : delete s (<[os_rdy := (reprio_run pr r l1).1]> (<[s := []]> Q)) =
    <[os_rdy := (reprio_run pr r l1).1]> (delete s Q)).
  { rewrite delete_insert_ne by done. f_equal. by rewrite delete_insert_eq. }
  rewrite <- E. constructor; [|eapply readies_frame; [done|by apply frame_store|naive_solver]|by look| |by look|done].
  - apply lists_forget; [done| |done| |done].
    + rewrite lookup_insert_ne by done. by rewrite lookup_insert_eq.
    + by apply (q_head _ _ _ HQ) in Hk as [_ ?].
  - destruct Hlo2 as (? & Hf & ?). split_and!; [done| |done].
    intros h k' [_ Hk']%lookup_delete_Some. by eapply Hf.
Qed.

(** [rt_sem_delete]: all waiting tasks become ready in their order, their
    time-outs are cancelled, the task of the highest priority continues, and
    the block is no longer a semaphore (its type becomes 0). *)
Theorem rt_sem_delete_correct m T pr Q D l r s k (l1 := release_rdy pr k l) :
  kernel m T pr Q D l r -> s <> os_rdy -> Q !! s = Some k ->
  wp (rt_sem_delete s) (fun x m' => x = OS_R_OK /\ m' !! (s, cb_type) = Some 0 /\
    sched m' T pr (<[os_rdy := (reprio_run pr r l1).1]> (delete s Q)) (release_dly k D)
      (reprio_run pr r l1).1 (reprio_run pr r l1).2) m.
Proof. intros [[HL HR Hnew Hr Hst Htop] Hrun] Hs Hk. by apply release_object. Qed.

(** ** Examples *)

(** C waits for the semaphore; A runs, then sends. *)
Definition sem_waiting : mem := mem_of ((rt_sem_wait sem1 0xffff;; switch_context) start).

Lemma rt_sem_wait_witness :
  wp (rt_sem_wait sem1 7) (fun x m' => x = OS_R_TMO /\ exists Q,
    sched m' (list_to_set all_tasks) (prio_of start) Q [(taskC, 7)] [taskB; idle] taskA) start.
Proof.
  wp_use (rt_sem_wait_correct start (list_to_set all_tasks) (prio_of start) start_queues [] taskA
    [taskB; idle] taskC sem1 [] 0 7);
    [exact start_kernel|done|vm_compute; reflexivity|vm_compute; reflexivity|lia|lia|].
  intros x m' (-> & HS & _). split; [done|]. eexists. exact HS.
Defined.

Lemma rt_sem_send_witness :
  wp (rt_sem_send sem1) (fun x m' => x = OS_R_OK /\ result_is m' taskC 1 /\ exists Q,
    sched m' (list_to_set all_tasks) (prio_of sem_waiting) Q [] [taskA; taskB; idle] taskC) sem_waiting.
Proof.
  wp_use (rt_sem_send_correct sem_waiting (list_to_set all_tasks) (prio_of sem_waiting)
    (list_to_map [(os_rdy, [taskB; idle]); (sem1, [taskC]); (mut1, [])]) [] [taskB; idle] taskA sem1 [taskC] 0).
  - apply (kernel_by_check _ all_tasks). vm_compute. reflexivity.
  - done.
  - vm_compute. reflexivity.
  - vm_compute. reflexivity.
  - intros x m' (-> & HS & Hres & _). split_and!; [done|done|]. eexists.
    replace (dispatch _ _ _ _) with ([taskA; taskB; idle], taskC) in HS by (vm_compute; reflexivity).
    exact HS.
Defined.

Lemma rt_sem_delete_witness :
  wp (rt_sem_delete sem1) (fun x m' => x = OS_R_OK /\ m' !! (sem1, cb_type) = Some TCB /\ exists Q,
    sched m' (list_to_set all_tasks) (prio_of sem_waiting) Q [] [taskB; taskA; idle] taskC) sem_waiting.
Proof.
  wp_use (rt_sem_delete_correct sem_waiting (list_to_set all_tasks) (prio_of sem_waiting)
    (list_to_map [(os_rdy, [taskB; idle]); (sem1, [taskC]); (mut1, [])]) [] [taskB; idle] taskA sem1 [taskC]).
  - apply (kernel_by_check _ all_tasks). vm_compute. reflexivity.
  - done.
  - vm_compute. reflexivity.
  - intros x m' (-> & Hty & HS). split_and!; [done|done|]. eexists.
    replace (reprio_run _ _ _) with ([taskB; taskA; idle], taskC) in HS by (vm_compute; reflexivity).
    exact HS.
Defined.
