(* ===== verification/RtxMutex.v ===== *)
(** * Mutexes of the RTX kernel ([rt_Mutex.c])

    A mutex counts the nesting [level] of its [owner], remembers the owner's
    priority at the first lock and raises it while a task of higher priority
    waits.  The theorems state what lock and release do on every path, and what
    priority inheritance does not do: a second waiting task may lower the
    priority the owner inherited. *)

From S2P Require Export RtxSem.

(** ** The functions *)

Definition rt_mut_init (p_MCB : Z) : M unit :=
  store p_MCB cb_type MUCB;;
  store p_MCB prio 0;;
  store p_MCB level 0;;
  store p_MCB p_lnk NULL;;
  store p_MCB owner NULL.

Definition rt_mut_delete (p_MCB : Z) : M Z :=
  lv ← load p_MCB level;
  when (negb (lv =? 0)) (
    own ← load p_MCB owner;
    pr ← load p_MCB prio;
    store own prio pr;;
    own ← load p_MCB owner;
    r ← load os_tsk run;
    when (negb (own =? r)) (rt_resort_prio own));;
  fuel ← mem_fuel;
  release_waiters fuel p_MCB;;
  preempt_if_higher;;
  store p_MCB cb_type 0;;
  mret OS_R_OK.

(** The hand-over of a mutex that was released to its first waiting task. *)
Definition mut_hand_over (p_MCB : Z) : M unit :=
  p_TCB ← rt_get_first p_MCB;
  rt_ret_val p_TCB 0;;
  rt_rmv_dly p_TCB;;
  store p_MCB level 1;;
  store p_MCB owner p_TCB;;
  pr ← load p_TCB prio;
  store p_MCB prio pr;;
  r ← load os_tsk run;
  prio1 ← load r prio;
  prio2 ← rt_rdy_prio;
  if prio2 <=? prio1 then rt_dispatch p_TCB
  else
    r ← load os_tsk run;
    rt_put_prio os_rdy r;;
    rt_put_prio os_rdy p_TCB;;
    r ← load os_tsk run;
    store r state READY;;
    store p_TCB state READY;;
    rt_dispatch NULL.

Definition rt_mut_release (p_MCB : Z) : M Z :=
  lv ← load p_MCB level;
  bad ← (if lv =? 0 then mret true
         else own ← load p_MCB owner; r ← load os_tsk run; mret (negb (own =? r)));
  if bad : bool then mret OS_R_NOK
  else
    lv ← load p_MCB level;
    store p_MCB level (u16 (lv - 1));;
    lv ← load p_MCB level;
    if negb (lv =? 0) then mret OS_R_OK
    else
      r ← load os_tsk run;
      pr ← load p_MCB prio;
      store r prio pr;;
      p ← load p_MCB p_lnk;
      (if negb (p =? NULL) then mut_hand_over p_MCB
       else
         prio1 ← rt_rdy_prio;
         r ← load os_tsk run;
         prio2 ← load r prio;
         when (prio2 <? prio1) preempt);;
      mret OS_R_OK.

(** The code behind the label [inc]. *)
Definition mut_inc (p_MCB : Z) : M Z :=
  lv ← load p_MCB level;
  store p_MCB level (u16 (lv + 1));;
  mret OS_R_OK.

Definition rt_mut_wait (p_MCB timeout : Z) : M Z :=
  lv ← load p_MCB level;
  if lv =? 0 then
    r ← load os_tsk run;
    store p_MCB owner r;;
    r ← load os_tsk run;
    pr ← load r prio;
    store p_MCB prio pr;;
    mut_inc p_MCB
  else
    own ← load p_MCB owner;
    r ← load os_tsk run;
    if own =? r then mut_inc p_MCB
    else if timeout =? 0 then mret OS_R_TMO
    else
      pr ← load p_MCB prio;
      r ← load os_tsk run;
      prr ← load r prio;
      when (pr <? prr) (
        own ← load p_MCB owner;
        r ← load os_tsk run;
        prr ← load r prio;
        store own prio prr;;
        own ← load p_MCB owner;
        rt_resort_prio own);;
      join_queue p_MCB;;
      rt_block timeout WAIT_MUT;;
      mret OS_R_TMO.

(** ** Changing the priority of any task *)

(** The queues after [t] was moved to its place by the priorities [pr]. *)
Definition replace (pr : Z -> Z) (t : Z) (k : list Z) : list Z :=
  if decide (t ∈ k) then insert_prio pr t (others t k) else k.

Definition requeue (pr : Z -> Z) (t : Z) (Q : gmap Z (list Z)) : gmap Z (list Z) := replace pr t <$> Q.

Lemma requeue_free pr t Q : free_of Q t -> requeue pr t Q = Q.
Proof.
  intros Hf. apply map_eq. intros h. unfold requeue. rewrite lookup_fmap.
  destruct (Q !! h) as [k|] eqn:E; cbn; [|done]. unfold replace.
  rewrite decide_False; [done|]. by eapply Hf.
Qed.

Lemma requeue_in m T pr Q h l1 l2 t :
  queues m T Q -> Q !! h = Some (l1 ++ t :: l2) ->
  requeue pr t Q = <[h := insert_prio pr t (l1 ++ l2)]> Q.
Proof.
  intros HQ Hh. apply map_eq. intros h'. unfold requeue, replace. rewrite lookup_fmap.
  destruct (decide (h' = h)) as [->|Hne].
  - rewrite Hh, lookup_insert_eq. cbn. rewrite decide_True by set_solver.
    rewrite others_split; [done|]. by eapply (q_nodup _ _ _ HQ).
  - rewrite lookup_insert_ne by done. destruct (Q !! h') as [k|] eqn:E; cbn; [|done].
    rewrite decide_False; [done|]. intros Hx. apply Hne.
    eapply (q_uniq _ _ _ HQ _ _ _ _ t E Hh); [done|set_solver].
Qed.

Lemma replace_in pr t k x : x ∈ replace pr t k <-> x ∈ k.
Proof.
  unfold replace. case_decide; [|done]. rewrite insert_prio_in. unfold others.
  rewrite list_elem_of_filter. split; [naive_solver|].
  intros. destruct (decide (x = t)); tauto.
Qed.

(** Storing a new priority and re-sorting, wherever the task is. *)
Lemma lists_reprio m T pr Q D l t p (pr' := set_prio t p pr) :
  lists m T pr Q D l -> readies m T l -> t ∈ T ->
  wp (rt_resort_prio t) (fun _ m' =>
    lists m' T pr' (requeue pr' t Q) D (replace pr' t l) /\
    frame (fun q f => links f \/ (q = t /\ f = prio)) m m') (<[(t, prio) := p]> m).
Proof.
  intros HL HR Ht. pose proof HL as [HQ HT HD Hl Hs Ha Hp].
  destruct (HR t Ht) as (st & Hst & Hiff).
  assert (Hsp : is_Some (m !! (t, prio))) by (rewrite (tcb_prio m pr T t); eauto).
  destruct (in_queue_dec Q t) as [Hf|(h & l1 & l2 & Hh)].
  - pose proof (lists_setprio _ _ _ _ _ _ _ p HL Ht Hf) as HL1.
    assert (Htl : t ∉ l) by (by eapply Hf).
    wp_use (rt_resort_prio_free (<[(t, prio) := p]> m) pr' T Q t st);
      [apply HL1|apply HL1|done|done|by look|naive_solver|].
    intros _ m' ->. rewrite requeue_free by done. unfold replace. rewrite decide_False by done.
    split; [done|]. eapply frame_mono; [by apply frame_store|]. cbv beta. tauto.
  - erewrite requeue_in by done.
    wp_use lists_resort; [done..| |].
    + intros ->. rewrite Hl in Hh. injection Hh as El. rewrite Hst. f_equal. apply Hiff.
      rewrite El. set_solver.
    + intros _ m' [HL' HF]. split; [|done]. fold (set_prio t p pr) pr' in HL'.
      assert (E : replace pr' t l = if decide (h = os_rdy) then insert_prio pr' t (l1 ++ l2) else l).
      { unfold replace. case_decide as Ho.
        - subst h. rewrite Hl in Hh. injection Hh as ->. rewrite decide_True by set_solver.
          by rewrite others_split by (by eapply (q_nodup _ _ _ HQ)).
        - rewrite decide_False; [done|]. intros Hx. apply Ho.
          eapply (q_uniq _ _ _ HQ _ _ _ _ t Hh Hl); [set_solver|done]. }
      by rewrite E.
Qed.

Lemma requeue_loose T Q D pr t r : loose T Q D r -> loose T (requeue pr t Q) D r.
Proof.
  intros (? & Hf & ?). split_and!; [done| |done]. intros h k. unfold requeue. rewrite lookup_fmap.
  intros (k' & Hk' & ->)%fmap_Some. rewrite replace_in. by apply (Hf h).
Qed.

(** ** The state of a mutex *)

Record mutex (m : mem) (x lv own mp : Z) : Prop := {
  mx_level : m !! (x, level) = Some lv;
  mx_owner : m !! (x, owner) = Some own;
  mx_prio : m !! (x, prio) = Some mp
}.

Lemma mutex_frame m m' x lv own mp K :
  mutex m x lv own mp -> frame K m m' -> (forall f, K x f -> f <> level /\ f <> owner /\ f <> prio) ->
  mutex m' x lv own mp.
Proof.
  intros [] HF HK. constructor; (eapply frame_eq; [done..|]; intros ?%HK; tauto).
Qed.

(** [rt_mut_wait] without waiting: a free mutex gets the caller as owner,
    at level 1 and with the caller's priority remembered; a caller that is the
    owner nests one level deeper (the level is a 16-bit number); with time-out 0
    a mutex of another task is left alone. *)
Theorem rt_mut_wait_now m T pr Q D l r x lv own mp timeout :
  kernel m T pr Q D l r -> x ∉ T -> mutex m x lv own mp ->
  lv = 0 \/ own = r \/ timeout = 0 ->
  wp (rt_mut_wait x timeout) (fun res m' => kernel m' T pr Q D l r /\
    if lv =? 0 then res = OS_R_OK /\ mutex m' x 1 r (pr r)
    else if own =? r then res = OS_R_OK /\ mutex m' x (u16 (lv + 1)) own mp
    else res = OS_R_TMO /\ m' = m) m.
Proof.
  intros HK Hx [Hlv Hown Hmp] Hcase. pose proof HK as [[HL HR Hnew Hr Hst Htop] Hrun].
  assert (is_Some (m !! (x, level))) by eauto. assert (is_Some (m !! (x, owner))) by eauto.
  assert (is_Some (m !! (x, prio))) by eauto.
  pose proof (tcb_prio _ _ _ _ (l_tcbs _ _ _ _ _ _ HL) (proj1 Hr)) as Hrp.
  unfold rt_mut_wait, mut_inc. wp_run. destruct (Z.eqb_spec lv 0) as [->|Hl0].
  - wp_run. set (m' := <[_ := u16 (0 + 1)]> _).
    assert (HF : frame (fun p f => p = x /\ (f = level \/ f = owner \/ f = prio)) m m') by (unfold m'; frames).
    split_and!; [|done|by constructor; unfold m'; look].
    eapply kernel_frame; [done..|]. unfold links, dlinks. naive_solver.
  - wp_run. destruct (Z.eqb_spec own r) as [->|Hor].
    + wp_run. set (m' := <[_ := u16 (lv + 1)]> _).
      assert (HF : frame (fun p f => p = x /\ f = level) m m') by (unfold m'; frames).
      split_and!; [|done|by constructor; unfold m'; look].
      eapply kernel_frame; [done..|]. unfold links, dlinks. naive_solver.
    + rewrite (proj2 (Z.eqb_eq timeout 0)) by (destruct Hcase as [|[|]]; done). wp_run. done.
Qed.

(** Priorities and queues after a task of priority [pr r] started to wait for a
    mutex owned by [own], which remembers priority [mp]. *)
Definition inherit (pr : Z -> Z) (r own mp : Z) : Z -> Z :=
  if mp <? pr r then set_prio own (pr r) pr else pr.
Definition inherit_queues (pr : Z -> Z) (r own mp : Z) (Q : gmap Z (list Z)) : gmap Z (list Z) :=
  if mp <? pr r then requeue (inherit pr r own mp) own Q else Q.
Definition inherit_rdy (pr : Z -> Z) (r own mp : Z) (l : list Z) : list Z :=
  if mp <? pr r then replace (inherit pr r own mp) own l else l.

Lemma mut_wait_spec m T pr Q D l r x lv own mp timeout k t l'
    (pr' := inherit pr r own mp) (Q' := inherit_queues pr r own mp Q) :
  kernel m T pr Q D l r -> x <> os_rdy -> x ∉ T -> mutex m x lv own mp ->
  lv <> 0 -> own ∈ T -> own <> r -> 0 < timeout < 65536 ->
  Q' !! x = Some k -> inherit_rdy pr r own mp l = t :: l' ->
  wp (rt_mut_wait x timeout) (fun res m' => res = OS_R_TMO /\
    sched m' T pr' (<[os_rdy := l']> (<[x := insert_prio pr' r k]> Q')) (timeout_dly r timeout D) l' t /\
    m' !! (r, state) = Some WAIT_MUT /\ mutex m' x lv own mp) m.
Proof.
  intros HK Hxr HxT Hmx Hlv0 HoT Hor Hto Hk Hl'.
  pose proof HK as [[HL HR Hnew Hr Hst Htop] Hrun]. pose proof Hmx as [Hlv Hown Hmp].
  pose proof (tcb_prio _ _ _ _ (l_tcbs _ _ _ _ _ _ HL) (proj1 Hr)) as Hrp.
  assert (is_Some (m !! (own, prio))) by (rewrite (tcb_prio m pr T own); [eauto|apply HL|done]).
  unfold rt_mut_wait. wp_run. rewrite (proj2 (Z.eqb_neq lv 0)) by done. wp_run.
  rewrite (proj2 (Z.eqb_neq own r)) by done. rewrite (proj2 (Z.eqb_neq timeout 0)) by lia. wp_run.
  eapply wp_mono with (Q' := fun _ m1 => lists m1 T pr' Q' D (t :: l') /\ loose T Q' D r /\
    frame (fun q f => links f \/ (q = own /\ f = prio)) m m1).
  { unfold pr', Q', inherit_queues, inherit_rdy, inherit in *. destruct (Z.ltb_spec mp (pr r)).
    - assert (own <> x) by congruence. wp_run. rewrite <- Hl'.
      wp_use lists_reprio; [done..|]. intros _ m1 [HL1 HF1]. split_and!; [done|by apply requeue_loose|done].
    - subst l. wp_run. split_and!; [done|done|apply frame_refl]. }
  intros _ m1 (HL1 & Hr1 & HF1). unfold links in HF1.
  assert (Hx1 : own <> x) by congruence.
  assert (Hrl : r ∉ t :: l') by (eapply (proj1 (proj2 Hr1)), HL1).
  wp_step. wp_use join_queue_spec; [done..|by flook|]. intros _ m2 [HL2 HF2]. unfold links in HF2.
  wp_step. wp_use rt_block_spec; [exact HL2| |apply Hr1|done|apply Hr1|by flook|by flook|lia|done|].
  - apply readies_without. eapply readies_frame; [|done|naive_solver].
    eapply (readies_frame m); [|done|naive_solver]. intros y Hy. destruct (HR y Hy) as (st & ? & Hiff).
    exists st. split; [done|]. rewrite Hiff, <- Hl'. unfold inherit_rdy.
    destruct (mp <? pr r); [|done]. by rewrite replace_in.
  - intros _ m3 (HS & Hst3 & HF3). wp_run. split_and!; [done|done|done|].
    eapply mutex_frame; [|done|unfold sfr, links, dlinks; naive_solver].
    eapply mutex_frame; [|done|naive_solver]. eapply mutex_frame; [done|done|]. naive_solver.
Qed.

(** ** Releasing *)

(** Which task continues when [r] hands the mutex over to [t]. *)
Definition hand_over (pr : Z -> Z) (t r : Z) (l : list Z) : list Z * Z :=
  match l with
  | h :: _ =>
      if pr h <=? pr r then dispatch pr t r l
      else match insert_prio pr t (insert_prio pr r l) with
           | c :: l' => (l', c)
           | [] => ([], r)
           end
  | [] => ([], r)
  end.

Lemma insert_prio_cons pr t l : exists c l', insert_prio pr t l = c :: l'.
Proof. unfold insert_prio. destruct (before pr (pr t) l); cbn; eauto. Qed.

(** Both the running task and a woken one become ready, and the first ready
    task is selected. *)
Lemma both_ready m T pr Q D l t r c l' :
  lists m T pr Q D l -> readies m T l -> loose T Q D r -> loose T Q D t -> t <> r ->
  m !! (os_tsk, run) = Some r -> is_Some (m !! (os_tsk, new_tsk)) ->
  insert_prio pr t (insert_prio pr r l) = c :: l' ->
  wp (rt_put_prio os_rdy r;; rt_put_prio os_rdy t;; x ← load os_tsk run;
      store x state READY;; store t state READY;; rt_dispatch NULL) (fun _ m' =>
    sched m' T pr (<[os_rdy := l']> Q) D l' c /\ frame (sfr [r; t; c]) m m') m.
Proof.
  intros HL HR Hr Ht Htr Hrun Hnew Hl'.
  assert (Hrl : r ∉ l) by (eapply (proj1 (proj2 Hr)), HL).
  assert (Htl : t ∉ l) by (eapply (proj1 (proj2 Ht)), HL).
  wp_step. wp_use lists_put_rdy; [done..|]. intros _ m1 [HL1 HF1]. unfold links in HF1.
  wp_step. wp_use lists_put_rdy; [done| |].
  { apply loose_insert; [done|]. rewrite insert_prio_in. tauto. }
  intros _ m2 [HL2 HF2]. unfold links in HF2. rewrite Hl', insert_insert_eq in HL2.
  assert (m2 !! (os_tsk, run) = Some r) by flook.
  pose proof (state_some _ _ _ _ _ _ _ HL2 (proj1 Hr)). pose proof (state_some _ _ _ _ _ _ _ HL2 (proj1 Ht)).
  wp_run. set (m3 := <[(t, state) := READY]> _).
  assert (HF3 : frame (fun p f => f = state /\ p ∈ [r; t]) m2 m3).
  { unfold m3. apply frame_insert; [apply frame_insert; [apply frame_refl|set_solver|done]|set_solver|done]. }
  wp_use (rt_dispatch_null m3).
  - eapply lists_frame; [done..|]. unfold links, dlinks. naive_solver.
  - eapply (readies_set _ _ (T ∖ {[t]}) (insert_prio pr r l)).
    + eapply (readies_set _ _ (T ∖ {[t]} ∖ {[r]}) l).
      * apply readies_without, readies_without. eapply readies_frame; [|done|naive_solver].
        eapply readies_frame; [done|done|naive_solver].
      * intros. by apply without_or.
      * intros y Hy. rewrite insert_prio_in. tauto.
      * rewrite insert_prio_in. tauto.
    + intros. by apply without_or.
    + intros y Hy. rewrite <- Hl', !insert_prio_in. tauto.
    + rewrite <- Hl', !insert_prio_in. tauto.
  - unfold m3. flook.
  - intros _ m4 [HS HF4]. rewrite insert_insert_eq in HS. split; [done|].
    eapply frame_mono; [eapply frame_trans; [exact HF1|eapply frame_trans; [exact HF2|
      eapply frame_trans; [exact HF3|exact HF4]]]|].
    unfold sfr, links. set_solver.
Qed.

(** The mutex goes to its first waiting task [t]. *)
Lemma mut_hand_over_spec m T pr Q D l r x t k lv own mp :
  kernel m T pr Q D l r \/
    (lists m T pr Q D l /\ readies m T l /\ loose T Q D r /\ m !! (r, state) = Some RUNNING /\
     m !! (os_tsk, run) = Some r /\ m !! (os_tsk, new_tsk) = Some r) ->
  x <> os_rdy -> x ∉ T -> mutex m x lv own mp -> Q !! x = Some (t :: k) -> l <> [] ->
  wp (mut_hand_over x) (fun _ m' =>
    sched m' T pr (<[os_rdy := (hand_over pr t r l).1]> (<[x := k]> Q)) (remove_dly t D)
      (hand_over pr t r l).1 (hand_over pr t r l).2 /\
    result_is m' t 0 /\ mutex m' x 1 t (pr t)) m.
Proof.
  intros Hst Hxr HxT [Hlv Hown Hmp] Hk Hl0.
  assert (lists m T pr Q D l /\ readies m T l /\ loose T Q D r /\ m !! (r, state) = Some RUNNING /\
     m !! (os_tsk, run) = Some r /\ m !! (os_tsk, new_tsk) = Some r) as (HL & HR & Hr & Hrs & Hrun & Hnew).
  { destruct Hst as [[[] ?]|]; done. } clear Hst.
  destruct (waiter_apart _ _ _ _ _ _ _ _ _ _ HL Hr Hxr Hk) as (Htr & Htl & Ht).
  destruct l as [|h l0] eqn:El; [done|]. rewrite <- El in *.
  assert (Hh : h ∈ T).
  { apply (q_tasks _ _ _ (l_queues _ _ _ _ _ _ HL) _ _ _ (l_rdy _ _ _ _ _ _ HL)). rewrite El. by left. }
  unfold mut_hand_over. eapply wake_first_use; [done..|]. intros m1 HL1 Hlo Hres HF1.
  unfold links, dlinks in HF1.
  assert (Hs1 : is_Some (m1 !! (x, level))) by (by eapply frame_some; [|eauto]).
  assert (Hs2 : is_Some (m1 !! (x, owner))) by (by eapply frame_some; [|eauto]).
  assert (Hs3 : is_Some (m1 !! (x, prio))) by (by eapply frame_some; [|eauto]).
  pose proof (tcb_prio _ _ _ _ (l_tcbs _ _ _ _ _ _ HL1) Ht) as Htp.
  pose proof (tcb_prio _ _ _ _ (l_tcbs _ _ _ _ _ _ HL1) (proj1 Hr)) as Hrp.
  pose proof (tcb_prio _ _ _ _ (l_tcbs _ _ _ _ _ _ HL1) Hh) as Hhp.
  assert (Hrun1 : m1 !! (os_tsk, run) = Some r) by flook.
  assert (Hx1 : r <> x) by (intros ->; by destruct Hr). assert (Hx2 : h <> x) by congruence.
  assert (Hhd : m1 !! (os_rdy, p_lnk) = Some h).
  { destruct (q_queue _ _ _ (l_queues _ _ _ _ _ _ HL1) _ _ (l_rdy _ _ _ _ _ _ HL1)) as [Hs _].
    apply seg_hd in Hs. by rewrite El in Hs. }
  unfold rt_rdy_prio. wp_run. set (m2 := <[(x, prio) := pr t]> _).
  assert (HF2 : frame (fun p f => p = x /\ (f = level \/ f = owner \/ f = prio)) m1 m2) by (unfold m2; frames).
  assert (HL2 : lists m2 T pr (<[x := k]> Q) (remove_dly t D) l).
  { eapply lists_frame; [done..|]. unfold links, dlinks. naive_solver. }
  assert (HR2 : readies m2 T l).
  { eapply readies_frame; [eapply readies_frame; [exact HR|exact HF1|naive_solver]|exact HF2|naive_solver]. }
  assert (Hmx2 : mutex m2 x 1 t (pr t)) by (constructor; unfold m2; look).
  assert (Hr2 : loose T (<[x := k]> Q) (remove_dly t D) r) by (by apply loose_remove_dly, (loose_shorter _ _ _ _ t)).
  assert (Hres2 : result_is m2 t 0) by (eapply result_frame; [done..|naive_solver]).
  assert (Hfin : forall m', frame (sfr [t; r]) m2 m' \/ (exists c, frame (sfr [r; t; c]) m2 m') ->
    result_is m' t 0 /\ mutex m' x 1 t (pr t)).
  { unfold sfr, links, dlinks. intros m' [HF|[c HF]].
    - split; [eapply result_frame; [done..|]|eapply mutex_frame; [done..|]]; naive_solver.
    - split; [eapply result_frame; [done..|]|eapply mutex_frame; [done..|]]; naive_solver. }
  unfold hand_over. rewrite El. cbv iota. rewrite <- El.
  destruct (Z.leb_spec (pr h) (pr r)).
  - wp_use rt_dispatch_spec; [exact HL2|done|done|done|by apply readies_without| |
      unfold m2; look; by flook|unfold m2; look; by flook| |].
    + intros y Hy. rewrite El in Hy. apply elem_of_cons in Hy as [->|Hy]; [done|].
      destruct (by_prio_tail pr h l0) as [_ Hl]; [rewrite <- El; eapply l_sorted; [exact HL|apply HL]|].
      specialize (Hl y Hy). lia.
    + unfold m2. mlook. flook.
    + intros _ m3 [HS HF3]. split; [done|]. apply Hfin. by left.
  - destruct (insert_prio_cons pr t (insert_prio pr r l)) as (c & l' & Hl'). rewrite Hl'.
    assert (Hrun2 : m2 !! (os_tsk, run) = Some r) by (unfold m2; mlook; done).
    assert (Hnew2 : is_Some (m2 !! (os_tsk, new_tsk))) by (unfold m2; flook).
    wp_run. pose proof (both_ready m2 T pr _ _ l t r c l' HL2 HR2 Hr2 Hlo Htr Hrun2 Hnew2 Hl') as Hboth.
    apply wp_unbind in Hboth. eapply wp_mono; [exact Hboth|]. intros u1 m3 H3.
    apply wp_unbind in H3. wp_step. eapply wp_mono; [exact H3|]. intros u2 m4 H4.
    eapply wp_mono; [exact H4|]. intros _ m5 [HS HF]. split; [done|]. apply Hfin. by right; exists c.
Qed.

(** [rt_mut_release] by a task that does not hold the mutex is refused and
    changes nothing; the release of a nested lock only lowers the level. *)
Theorem rt_mut_release_inner m T pr Q D l r x lv own mp :
  kernel m T pr Q D l r -> x ∉ T -> mutex m x lv own mp -> 0 <= lv < 65536 ->
  lv = 0 \/ own <> r \/ 1 < lv ->
  wp (rt_mut_release x) (fun res m' =>
    if (lv =? 0) || negb (own =? r) then res = OS_R_NOK /\ m' = m
    else res = OS_R_OK /\ kernel m' T pr Q D l r /\ mutex m' x (lv - 1) own mp) m.
Proof.
  intros HK Hx [Hlv Hown Hmp] Hlv0 Hcase. pose proof HK as [[HL HR Hnew Hr Hst Htop] Hrun].
  assert (is_Some (m !! (x, level))) by eauto.
  unfold rt_mut_release. wp_run. destruct (Z.eqb_spec lv 0) as [->|Hl0]; [by wp_run|]. wp_run.
  destruct (Z.eqb_spec own r) as [->|Hor]; cbn [negb orb]; [|by wp_run].
  wp_run. rewrite u16_id by lia. rewrite (proj2 (Z.eqb_neq (lv - 1) 0)) by lia. cbn [negb]. wp_run.
  split_and!; [done| |constructor; by look].
  eapply kernel_frame; [done|by apply frame_store|]. unfold links, dlinks. naive_solver.
Qed.

(** C28: the last release of a mutex gives the owner its own priority back.
    If tasks wait, the first of them becomes the owner at level 1, with its own
    priority remembered and its time-out cancelled; either way the task that
    continues has the highest priority. *)
Theorem rt_mut_release_last m T pr Q D l r x mp k (pr' := set_prio r mp pr) :
  kernel m T pr Q D l r -> x <> os_rdy -> x ∉ T -> mutex m x 1 r mp -> Q !! x = Some k -> l <> [] ->
  wp (rt_mut_release x) (fun res m' => res = OS_R_OK /\
    match k with
    | [] =>
        sched m' T pr' (<[os_rdy := (reprio_run pr' r l).1]> Q) D (reprio_run pr' r l).1 (reprio_run pr' r l).2 /\
        mutex m' x 0 r mp
    | t :: k' =>
        sched m' T pr' (<[os_rdy := (hand_over pr' t r l).1]> (<[x := k']> Q)) (remove_dly t D)
          (hand_over pr' t r l).1 (hand_over pr' t r l).2 /\
        result_is m' t 0 /\ mutex m' x 1 t (pr t)
    end) m.
Proof.
  intros HK Hxr HxT [Hlv Hown Hmp] Hk Hl0. pose proof HK as [[HL HR Hnew Hr Hst Htop] Hrun].
  assert (Hs1 : is_Some (m !! (x, level))) by eauto.
  assert (Hs2 : is_Some (m !! (r, prio))) by (rewrite (tcb_prio m pr T r); [eauto|apply HL|apply Hr]).
  assert (Hrx : r <> x) by (intros ->; by destruct Hr).
  pose proof (wait_head _ _ _ _ _ _ _ _ HL Hk) as Hh.
  unfold rt_mut_release. wp_run. cbn [Z.eqb Pos.eqb]. wp_run. rewrite Z.eqb_refl. cbn [negb]. wp_run.
  change (u16 (1 - 1)) with 0. cbn [Z.eqb negb]. wp_run.
  set (m1 := <[(x, level) := 0]> m).
  assert (HF1 : frame (fun p f => p = x /\ f = level) m m1) by (by apply frame_store).
  assert (HL1 : lists m1 T pr Q D l).
  { eapply lists_frame; [done..|]. unfold links, dlinks. naive_solver. }
  pose proof (lists_setprio m1 T pr Q D l r mp HL1 (proj1 Hr) (proj1 (proj2 Hr))) as HL2.
  set (m2 := <[(r, prio) := mp]> m1) in *. fold (set_prio r mp pr) pr' in HL2.
  assert (HF2 : frame (fun p f => (p = x /\ f = level) \/ (p = r /\ f = prio)) m m2).
  { unfold m2, m1. frames. }
  assert (HR2 : readies m2 T l) by (eapply readies_frame; [done..|naive_solver]).
  assert (Hh2 : m2 !! (x, p_lnk) = Some (hdz k)) by flook.
  assert (Hmx : mutex m2 x 0 r mp).
  { constructor; unfold m2, m1; look. }
  wp_run. destruct k as [|t k]; cbn [hdz] in *.
  - cbn [Z.eqb NULL negb]. destruct l as [|h l0]; [done|].
    pose proof (tcb_prio _ _ _ _ (l_tcbs _ _ _ _ _ _ HL2) (proj1 Hr)).
    wp_step. eapply rt_rdy_prio_spec; [exact HL2|].
    assert (Hrun2 : m2 !! (os_tsk, run) = Some r) by flook. wp_run.
    wp_use (when_preempt m2 T pr' Q D h l0 r); [done|done|done|by flook|by flook|by flook|].
    intros _ m3 [HS HF3]. wp_run. split_and!; [done|done|].
    eapply mutex_frame; [done..|]. unfold sfr, links, dlinks. naive_solver.
  - rewrite (proj2 (Z.eqb_neq t _)) by (by eapply wait_nonnull). cbn [negb].
    wp_use (mut_hand_over_spec m2 T pr' Q D l r x t k 0 r mp); [|done|done|done|done|done|].
    + right. split_and!; [done|done|done|by flook|by flook|by flook].
    + intros _ m3 (HS & Hres & Hmx3). wp_run. split_and!; [done|done|done|].
      destruct (waiter_apart _ _ _ _ _ _ _ _ _ _ HL Hr Hxr Hk) as (Htr & _).
      unfold pr', set_prio in Hmx3. rewrite fn_lookup_insert_ne in Hmx3 by done. done.
Qed.

(** ** Waiting *)

(** [rt_mut_wait] on a mutex of another task: if the caller's priority is
    higher than the one the mutex remembers, the owner gets the caller's
    priority and moves to its new place in whatever queue it is in; then the
    caller joins the queue of the mutex with its time-out and the first ready
    task runs. *)
Theorem rt_mut_wait_blocks m T pr Q D l r x lv own mp timeout k t l'
    (pr' := inherit pr r own mp) (Q' := inherit_queues pr r own mp Q) :
  kernel m T pr Q D l r -> x <> os_rdy -> x ∉ T -> mutex m x lv own mp ->
  lv <> 0 -> own ∈ T -> own <> r -> 0 < timeout < 65536 ->
  Q' !! x = Some k -> inherit_rdy pr r own mp l = t :: l' ->
  wp (rt_mut_wait x timeout) (fun res m' => res = OS_R_TMO /\
    sched m' T pr' (<[os_rdy := l']> (<[x := insert_prio pr' r k]> Q')) (timeout_dly r timeout D) l' t /\
    m' !! (r, state) = Some WAIT_MUT /\ mutex m' x lv own mp) m.
Proof. apply mut_wait_spec. Qed.

(** priority inheritance can lower an inherited priority.  The owner's
    raised priority is compared nowhere: [rt_mut_wait] looks at the priority the
    mutex remembers.  If the owner runs at a priority above the caller's that it
    inherited from the waiting task [w], it is left with the caller's priority,
    below that of [w], which still waits for the mutex. *)
Theorem mut_wait_lowers_inherited m T pr Q D l r x lv own mp timeout k t l' w :
  kernel m T pr Q D l r -> x <> os_rdy -> x ∉ T -> mutex m x lv own mp ->
  lv <> 0 -> own ∈ T -> own <> r -> own ∉ k -> 0 < timeout < 65536 -> Q !! x = Some k ->
  inherit_rdy pr r own mp l = t :: l' ->
  mp < pr r -> pr r < pr own -> w ∈ k -> pr w = pr own ->
  wp (rt_mut_wait x timeout) (fun _ m' => exists Q' D' k',
    sched m' T (set_prio own (pr r) pr) Q' D' l' t /\ Q' !! x = Some k' /\ w ∈ k' /\
    m' !! (own, prio) = Some (pr r) /\ m' !! (w, prio) = Some (pr own)) m.
Proof.
  intros HK Hxr HxT Hmx Hlv HoT Hor Hok Hto Hk Hl Hmp Hlt Hw Hpw.
  assert (Ei : inherit pr r own mp = set_prio own (pr r) pr).
  { unfold inherit. by rewrite (proj2 (Z.ltb_lt _ _)) by done. }
  assert (Hkx : inherit_queues pr r own mp Q !! x = Some k).
  { unfold inherit_queues. rewrite (proj2 (Z.ltb_lt _ _)) by done. unfold requeue, replace.
    rewrite lookup_fmap, Hk. cbn. by rewrite decide_False by done. }
  wp_use mut_wait_spec; [done..|]. intros res m' (-> & HS & _). rewrite Ei in HS.
  eexists _, _, _. split_and!; [exact HS| | | |].
  - rewrite lookup_insert_ne by congruence. by rewrite lookup_insert_eq.
  - rewrite insert_prio_in. by right.
  - pose proof (tcb_prio _ _ _ _ (l_tcbs _ _ _ _ _ _ (s_lists _ _ _ _ _ _ _ HS)) HoT) as E.
    unfold set_prio in E. by rewrite fn_lookup_insert in E.
  - assert (HwT : w ∈ T).
    { pose proof HK as [[HL _ _ _ _ _] _]. by apply (q_tasks _ _ _ (l_queues _ _ _ _ _ _ HL) _ _ _ Hk). }
    pose proof (tcb_prio _ _ _ _ (l_tcbs _ _ _ _ _ _ (s_lists _ _ _ _ _ _ _ HS)) HwT) as E.
    unfold set_prio in E. rewrite fn_lookup_insert_ne in E by congruence. by rewrite E, Hpw.
Qed.

(** ** Examples *)

(** C runs and locks the mutex. *)
Definition mut_locked : mem := mem_of (rt_mut_wait mut1 0 start).

Lemma rt_mut_wait_now_witness :
  wp (rt_mut_wait mut1 0) (fun res m' => res = OS_R_OK /\ mutex m' mut1 1 taskC 2) start.
Proof.
  wp_use (rt_mut_wait_now start (list_to_set all_tasks) (prio_of start) start_queues [] [taskA; taskB; idle]
    taskC mut1 0 0 0 0); [exact start_kernel|set_solver|by constructor; vm_compute|by left|].
  intros res m' [_ H]. exact H.
Defined.

Lemma rt_mut_release_inner_witness : wp (rt_mut_release mut1) (fun res m' => res = OS_R_NOK /\ m' = start) start.
Proof.
  wp_use (rt_mut_release_inner start (list_to_set all_tasks) (prio_of start) start_queues [] [taskA; taskB; idle]
    taskC mut1 0 0 0); [exact start_kernel|set_solver|by constructor; vm_compute|lia|by left|].
  intros res m' H. exact H.
Defined.

(** A locks the mutex and gives the semaphore to C and B, which wait for it; C
    (priority 5) waits for the mutex, A gets priority 5 and sleeps; B has
    priority 3. *)
Definition inherited : mem := mem_of ((
  rt_tsk_prio 0 5;; rt_tsk_prio 2 3;;
  rt_sem_wait sem1 0xffff;; switch_context;;
  rt_sem_wait sem1 0xffff;; switch_context;;
  rt_mut_wait mut1 0xffff;; rt_sem_send sem1;; switch_context;;
  rt_mut_wait mut1 0xffff;; switch_context;;
  rt_sem_send sem1;; rt_block 100 WAIT_DLY;; switch_context) start).

Lemma inherited_kernel :
  kernel inherited (list_to_set all_tasks) (prio_of inherited)
    (list_to_map [(os_rdy, [idle]); (sem1, []); (mut1, [taskC])]) [(taskA, 100)] [idle] taskB.
Proof. apply kernel_by_check. vm_compute. reflexivity. Qed.

Lemma rt_mut_wait_blocks_witness :
  wp (rt_mut_wait mut1 50) (fun res m' => res = OS_R_TMO /\ m' !! (taskB, state) = Some WAIT_MUT /\
    mutex m' mut1 1 taskA 1) inherited.
Proof.
  wp_use (rt_mut_wait_blocks inherited (list_to_set all_tasks) (prio_of inherited)
    (list_to_map [(os_rdy, [idle]); (sem1, []); (mut1, [taskC])]) [(taskA, 100)] [idle] taskB mut1 1 taskA 1
    50 [taskC] idle []);
    [exact inherited_kernel|done|set_solver|by constructor; vm_compute|done|set_solver|done|lia|
     vm_compute; reflexivity|vm_compute; reflexivity|].
  intros res m' (-> & _ & ? & ?). done.
Defined.

Lemma mut_wait_lowers_inherited_witness :
  wp (rt_mut_wait mut1 50) (fun _ m' => m' !! (taskA, prio) = Some 3 /\ m' !! (taskC, prio) = Some 5) inherited.
Proof.
  wp_use (mut_wait_lowers_inherited inherited (list_to_set all_tasks) (prio_of inherited)
    (list_to_map [(os_rdy, [idle]); (sem1, []); (mut1, [taskC])]) [(taskA, 100)] [idle] taskB mut1 1 taskA 1
    50 [taskC] idle [] taskC);
    [exact inherited_kernel|done|set_solver|by constructor; vm_compute|done|set_solver|done|set_solver|lia|
     vm_compute; reflexivity|vm_compute; reflexivity|vm_compute; reflexivity|vm_compute; reflexivity|
     set_solver|vm_compute; reflexivity|].
  intros _ m' (Q' & D' & k' & _ & _ & _ & H1 & H2). split; [exact H1|exact H2].
Defined.

Lemma rt_mut_release_last_witness :
  wp (rt_mut_release mut1) (fun res m' => res = OS_R_OK /\ mutex m' mut1 0 taskC 2) mut_locked.
Proof.
  wp_use (rt_mut_release_last mut_locked (list_to_set all_tasks) (prio_of mut_locked)
    start_queues [] [taskA; taskB; idle] taskC mut1 2 []).
  - apply (kernel_by_check _ all_tasks). vm_compute. reflexivity.
  - done.
  - set_solver.
  - by constructor; vm_compute.
  - vm_compute. reflexivity.
  - done.
  - intros res m' (-> & _ & H). done.
Defined.
