(* ===== verification/RtxEvent.v ===== *)
(** * Event flags of the RTX kernel ([rt_Event.c])

    Every task has sixteen event flags; it waits for all ([WAIT_AND]) or one
    ([WAIT_OR]) of the flags in [waits].  [evt_result] says when posted flags
    wake a waiting task and which flags it consumes and reports. *)

From S2P Require Export RtxSem.

(** ** The functions *)

Definition osEventSignal : Z := 0x08.

Definition rt_evt_wait (wait_flags timeout and_wait : Z) : M Z :=
  if negb (and_wait =? 0) then
    r ← load os_tsk run;
    ev ← load r events;
    if Z.land ev wait_flags =? wait_flags then
      r ← load os_tsk run;
      ev ← load r events;
      store r events (Z.land ev (Z.lnot wait_flags));;
      mret OS_R_EVT
    else
      r ← load os_tsk run;
      store r waits wait_flags;;
      rt_block timeout WAIT_AND;;
      mret OS_R_TMO
  else
    r ← load os_tsk run;
    ev ← load r events;
    if negb (Z.land ev wait_flags =? 0) then
      r ← load os_tsk run;
      ev ← load r events;
      store r waits (Z.land ev wait_flags);;
      r ← load os_tsk run;
      ev ← load r events;
      store r events (Z.land ev (Z.lnot wait_flags));;
      mret OS_R_EVT
    else
      r ← load os_tsk run;
      store r waits wait_flags;;
      rt_block timeout WAIT_OR;;
      mret OS_R_TMO.

(** The two tests that lead to the label [wkup] (or [rdy]). *)
Definition evt_met (p_tcb event_flags : Z) : M bool :=
  st ← load p_tcb state;
  b ← (if st =? WAIT_AND then
         ev ← load p_tcb events;
         mret (Z.land ev event_flags =? event_flags)
       else mret false);
  if b : bool then mret true
  else
    st ← load p_tcb state;
    if st =? WAIT_OR then
      ev ← load p_tcb events;
      if negb (Z.land ev event_flags =? 0) then
        w ← load p_tcb waits;
        ev ← load p_tcb events;
        store p_tcb waits (Z.land w ev);;
        mret true
      else mret false
    else mret false.

(** The code that [rt_evt_set] and [rt_evt_psh] share, up to making the task
    ready: whether the task wakes up. *)
Definition evt_post (p_tcb event_flags : Z) : M bool :=
  ev ← load p_tcb events;
  store p_tcb events (Z.lor ev event_flags);;
  event_flags ← load p_tcb waits;
  b ← evt_met p_tcb event_flags;
  when b (
    ev ← load p_tcb events;
    store p_tcb events (Z.land ev (Z.lnot event_flags));;
    rt_rmv_dly p_tcb;;
    store p_tcb state READY;;
    w ← load p_tcb waits;
    rt_ret_val2 p_tcb osEventSignal w);;
  mret b.

Definition rt_evt_set (event_flags task_id : Z) : M unit :=
  p_tcb ← load os_active_TCB (elem (task_id - 1));
  if p_tcb =? NULL then mret tt
  else
    b ← evt_post p_tcb event_flags;
    when b (rt_dispatch p_tcb).

Definition rt_evt_clr (clear_flags task_id : Z) : M unit :=
  p_tcb ← load os_active_TCB (elem (task_id - 1));
  if p_tcb =? NULL then mret tt
  else
    ev ← load p_tcb events;
    store p_tcb events (Z.land ev (Z.lnot clear_flags)).

Definition isr_evt_set `{ICSR} (event_flags task_id : Z) : M unit :=
  p_tcb ← load os_active_TCB (elem (task_id - 1));
  if p_tcb =? NULL then mret tt
  else
    rt_psq_enq p_tcb event_flags;;
    rt_psh_req.

Definition rt_evt_get : M Z :=
  r ← load os_tsk run;
  load r waits.

Definition rt_evt_psh (p_CB set_flags : Z) : M unit :=
  b ← evt_post p_CB set_flags;
  when b (rt_put_prio os_rdy p_CB).

(** ** Posting flags *)

(** The flags of a task in state [st] that has [ev] pending and [w] to wait
    for: the flags that stay pending and those it is told about when it wakes
    up, if it does. *)
Definition evt_result (st ev w : Z) : option (Z * Z) :=
  if (st =? WAIT_AND) && (Z.land ev w =? w) then Some (Z.land ev (Z.lnot w), w)
  else if (st =? WAIT_OR) && negb (Z.land ev w =? 0) then Some (Z.land ev (Z.lnot w), Z.land w ev)
  else None.

(** The two results a task finds when it runs again. *)
Definition results_are (m : mem) (t v0 v1 : Z) : Prop :=
  exists sp, m !! (t, tsk_stack) = Some sp /\
    m !! (u32 (sp + 32), word) = Some v0 /\ m !! (u32 (sp + 36), word) = Some v1.

Lemma results_frame m m' t v0 v1 K :
  results_are m t v0 v1 -> frame K m m' -> (forall p f, K p f -> f <> tsk_stack /\ f <> word) ->
  results_are m' t v0 v1.
Proof.
  intros (sp & H1 & H2 & H3) HF HK. exists sp.
  split_and!; (eapply frame_eq; [done..|]; intros ?%HK; tauto).
Qed.

Lemma u32_next x : u32 (x + 32) <> u32 (x + 36).
Proof.
  unfold u32. intros E. replace (x + 36) with (x + 32 + 4) in E by lia.
  rewrite <- (Z.add_mod_idemp_l (x + 32) 4) in E by lia.
  pose proof (Z.mod_pos_bound (x + 32) (2 ^ 32) ltac:(lia)).
  set (y := (x + 32) mod 2 ^ 32) in *.
  destruct (Z.lt_ge_cases (y + 4) (2 ^ 32)).
  - rewrite (Z.mod_small (y + 4)) in E by lia. lia.
  - replace (y + 4) with (y + 4 - 2 ^ 32 + 1 * 2 ^ 32) in E by lia.
    rewrite Z.mod_add, Z.mod_small in E by lia. lia.
Qed.

(** The result of a task, by [rt_ret_val2]. *)
Lemma rt_ret_val2_results m T pr Q D l t v0 v1 :
  lists m T pr Q D l -> t ∈ T ->
  wp (rt_ret_val2 t v0 v1) (fun _ m' => lists m' T pr Q D l /\ results_are m' t v0 v1 /\
    frame (fun _ f => f = word) m m') m.
Proof.
  intros HL Ht. wp_use rt_ret_val2_spec; [done..|]. intros _ m' (HL' & (sp & H1 & H2 & H3) & HF).
  split_and!; [done| |done]. exists sp. split_and!; [flook| |done]. apply H3, u32_next.
Qed.

Lemma evt_met_spec m t st ev w :
  m !! (t, state) = Some st -> m !! (t, events) = Some ev -> m !! (t, waits) = Some w ->
  wp (evt_met t w) (fun b m' =>
    match evt_result st ev w with
    | None => b = false /\ m' = m
    | Some (_, w') => b = true /\ m' = <[(t, waits) := w']> m
    end) m.
Proof.
  intros Hst Hev Hw. unfold evt_met, evt_result. wp_run.
  assert (Hs : is_Some (m !! (t, waits))) by eauto.
  destruct (Z.eqb_spec st WAIT_AND) as [->|]; cbn [andb]; wp_run.
  - destruct (Z.eqb_spec (Z.land ev w) w); wp_run; [|done]. split; [done|]. by rewrite insert_id.
  - destruct (Z.eqb_spec st WAIT_OR); cbn [andb]; wp_run; [|done].
    destruct (Z.eqb_spec (Z.land ev w) 0); cbn [negb]; wp_run; [done|]. done.
Qed.

(** The cells [evt_post] may change. *)
Definition evt_frame (t p : Z) (f : field) : Prop :=
  dlinks f \/ f = word \/ (p = t /\ (f = events \/ f = waits \/ f = state)).

Lemma evt_post_spec m T pr Q D l t st ev w flags :
  lists m T pr Q D l -> t ∈ T ->
  m !! (t, state) = Some st -> m !! (t, events) = Some ev -> m !! (t, waits) = Some w ->
  wp (evt_post t flags) (fun b m' =>
    match evt_result st (Z.lor ev flags) w with
    | None => b = false /\ m' = <[(t, events) := Z.lor ev flags]> m
    | Some (ev', w') => b = true /\
        lists m' T pr Q (remove_dly t D) l /\ m' !! (t, events) = Some ev' /\ m' !! (t, waits) = Some w' /\
        m' !! (t, state) = Some READY /\ results_are m' t osEventSignal w' /\ frame (evt_frame t) m m'
    end) m.
Proof.
  intros HL Ht Hst Hev Hw. unfold evt_post. wp_run.
  assert (Hs : is_Some (m !! (t, events))) by eauto.
  assert (Hs2 : is_Some (m !! (t, waits))) by eauto. wp_run.
  set (m1 := <[_ := _]> m). wp_use (evt_met_spec m1 t st (Z.lor ev flags) w); [unfold m1; by look..|].
  intros b m2. unfold evt_result at 1.
  assert (Hwake : forall w' (HE : m2 = <[(t, waits) := w']> m1),
    wp (when true (
      ev ← load t events; store t events (Z.land ev (Z.lnot w));; rt_rmv_dly t;; store t state READY;;
      w0 ← load t waits; rt_ret_val2 t osEventSignal w0);; mret true) (fun b m' => b = true /\
        lists m' T pr Q (remove_dly t D) l /\ m' !! (t, events) = Some (Z.land (Z.lor ev flags) (Z.lnot w)) /\
        m' !! (t, waits) = Some w' /\
        m' !! (t, state) = Some READY /\ results_are m' t osEventSignal w' /\ frame (evt_frame t) m m') m2).
  { intros w' ->. unfold m1. wp_run. set (m3 := <[_ := _]> _).
    assert (HF3 : frame (fun p f => p = t /\ (f = events \/ f = waits)) m m3) by (unfold m3; frames).
    wp_use lists_rmv_dly; [|done|].
    { eapply lists_frame; [done..|]. unfold links, dlinks. naive_solver. }
    intros _ m4 [HL4 HF4]. unfold dlinks in HF4.
    pose proof (state_some _ _ _ _ _ _ _ HL4 Ht).
    assert (m4 !! (t, waits) = Some w') by (unfold m3 in *; flook).
    wp_run. set (m5 := <[_ := _]> m4).
    assert (HF5 : frame (fun p f => p = t /\ f = state) m4 m5) by (by apply frame_store).
    wp_use rt_ret_val2_results; [|done|].
    { eapply lists_frame; [done..|]. unfold links, dlinks. naive_solver. }
    intros _ m6 (HL6 & Hres & HF6). wp_run.
    split_and!; [done|done|unfold m5, m3 in *; by flook|unfold m5 in *; by flook|unfold m5 in *; by flook|done|].
    eapply frame_mono; [eapply frame_trans; [exact HF3|eapply frame_trans; [exact HF4|eapply frame_trans; [exact HF5|exact HF6]]]|].
    unfold evt_frame, dlinks. cbv beta. tauto. }
  unfold evt_result. destruct ((st =? WAIT_AND) && _); [|destruct ((st =? WAIT_OR) && _)].
  - intros [-> HE]. by apply Hwake.
  - intros [-> HE]. by apply Hwake.
  - intros [-> ->]. wp_run. done.
Qed.

(** Only a waiting task is woken. *)
Lemma evt_result_waiting st ev w x : evt_result st ev w = Some x -> st = WAIT_AND \/ st = WAIT_OR.
Proof.
  unfold evt_result. destruct (Z.eqb_spec st WAIT_AND); [by left|].
  destruct (Z.eqb_spec st WAIT_OR); [by right|]. by cbn.
Qed.

(** ** The services *)

(** [rt_evt_set], with the cells it changes. *)
Lemma rt_evt_set_spec m T pr Q D l r id t st ev w flags :
  kernel m T pr Q D l r -> m !! (os_active_TCB, elem (id - 1)) = Some t -> t ∈ T ->
  m !! (t, state) = Some st -> m !! (t, events) = Some ev -> m !! (t, waits) = Some w ->
  (st = WAIT_AND \/ st = WAIT_OR -> free_of Q t) ->
  wp (rt_evt_set flags id) (fun _ m' =>
    match evt_result st (Z.lor ev flags) w with
    | None => kernel m' T pr Q D l r /\ m' = <[(t, events) := Z.lor ev flags]> m
    | Some (ev', w') =>
        sched m' T pr (<[os_rdy := (dispatch pr t r l).1]> Q) (remove_dly t D)
          (dispatch pr t r l).1 (dispatch pr t r l).2 /\
        m' !! (t, events) = Some ev' /\ m' !! (t, waits) = Some w' /\ results_are m' t osEventSignal w' /\
        frame (fun p f => evt_frame t p f \/ sfr [t; r] p f) m m'
    end) m.
Proof.
  intros HK Hact Ht Hst Hev Hw Hfree. pose proof HK as [[HL HR Hnew Hr Hrs Htop] Hrun].
  unfold rt_evt_set. wp_run. rewrite (proj2 (Z.eqb_neq _ _)) by (eapply tcb_nonnull; [apply HL|done]).
  wp_run. wp_use evt_post_spec; [done..|]. intros b m1.
  destruct (evt_result st (Z.lor ev flags) w) as [[ev' w']|] eqn:E.
  - intros (-> & HL1 & Hev1 & Hw1 & Hst1 & Hres & HF1).
    assert (Htr : t <> r) by (intros ->; apply evt_result_waiting in E; simplify_eq; by destruct E).
    apply evt_result_waiting in E. unfold evt_frame, dlinks in HF1.
    change (when true ?c) with c. wp_use rt_dispatch_spec; [exact HL1| | |done| |done|by flook..|].
    + split_and!; [done|by apply Hfree|]. rewrite remove_dly_in. tauto.
    + by apply loose_remove_dly.
    + intros x Hx. destruct (HR x) as (stx & Hsx & Hiff); [set_solver|]. exists stx. split; [|done].
      eapply frame_eq; [done..|]. set_solver.
    + intros _ m2 [HS HF2].
      assert (frame (fun p f => evt_frame t p f \/ sfr [t; r] p f) m m2).
      { eapply frame_mono; [eapply frame_trans; [exact HF1|exact HF2]|]. unfold evt_frame, dlinks. tauto. }
      unfold sfr, links, dlinks in HF2.
      split_and!; [done|eapply frame_eq; [exact HF2|done|naive_solver]..| |done].
      eapply results_frame; [done|exact HF2|]. naive_solver.
  - intros [-> ->]. wp_run. split; [|done]. eapply kernel_frame; [done|by apply frame_store|].
    unfold links, dlinks. naive_solver.
Qed.

(** [rt_evt_set] for the active task [t]: the flags are added to the task's
    pending ones.  If [t] waits and its condition now holds, it consumes all
    the flags it waited for, the matching ones are its result, its time-out is
    cancelled, and it runs next if its priority is higher than the caller's,
    else it becomes ready.  Otherwise only the pending flags change. *)
Theorem rt_evt_set_correct m T pr Q D l r id t st ev w flags :
  kernel m T pr Q D l r -> m !! (os_active_TCB, elem (id - 1)) = Some t -> t ∈ T ->
  m !! (t, state) = Some st -> m !! (t, events) = Some ev -> m !! (t, waits) = Some w ->
  (st = WAIT_AND \/ st = WAIT_OR -> free_of Q t) ->
  wp (rt_evt_set flags id) (fun _ m' =>
    match evt_result st (Z.lor ev flags) w with
    | None => kernel m' T pr Q D l r /\ m' = <[(t, events) := Z.lor ev flags]> m
    | Some (ev', w') =>
        sched m' T pr (<[os_rdy := (dispatch pr t r l).1]> Q) (remove_dly t D)
          (dispatch pr t r l).1 (dispatch pr t r l).2 /\
        m' !! (t, events) = Some ev' /\ m' !! (t, waits) = Some w' /\ results_are m' t osEventSignal w'
    end) m.
Proof.
  intros. wp_use rt_evt_set_spec; [done..|]. intros _ m'. destruct (evt_result _ _ _) as [[]|]; tauto.
Qed.

(** What waiting for flags may change. *)
Definition wait_frame (r t p : Z) (f : field) : Prop :=
  (p = r /\ (f = events \/ f = waits)) \/ sfr [r; t] p f.

(** The running task blocks for flags, unless the time-out is 0. *)
Lemma evt_block_spec m T pr Q D t l r flags timeout st :
  kernel m T pr Q D (t :: l) r -> 0 <= timeout < 65536 -> st <> READY ->
  wp (r ← load os_tsk run; store r waits flags;; rt_block timeout st;; mret OS_R_TMO) (fun x m' =>
    x = OS_R_TMO /\ m' !! (r, waits) = Some flags /\ frame (wait_frame r t) m m' /\
    if timeout =? 0 then kernel m' T pr Q D (t :: l) r
    else sched m' T pr (<[os_rdy := l]> Q) (timeout_dly r timeout D) l t /\ m' !! (r, state) = Some st) m.
Proof.
  intros HK Hto Hst. pose proof HK as [[HL HR Hnew Hr Hrs Htop] Hrun].
  assert (Hs : is_Some (m !! (r, waits))) by (eapply tcb_some; [apply HL|apply Hr|set_solver]).
  wp_run. set (m1 := <[_ := _]> m).
  assert (HF1 : frame (fun p f => p = r /\ f = waits) m m1) by (by apply frame_store).
  assert (HK1 : kernel m1 T pr Q D (t :: l) r).
  { eapply kernel_frame; [done..|]. unfold links, dlinks. naive_solver. }
  destruct (Z.eqb_spec timeout 0) as [->|Hto0].
  - unfold rt_block. cbn [Z.eqb negb]. wp_run. split_and!; [done|unfold m1; by look|by eapply frame_mono; [exact HF1|]; unfold wait_frame; tauto|done].
  - pose proof HK1 as [[HL1 HR1 Hnew1 Hr1 Hrs1 Htop1] Hrun1].
    wp_use rt_block_spec; [exact HL1| |apply Hr| |apply Hr|done|by eauto|lia|done|].
    + by apply readies_without.
    + eapply (proj1 (proj2 Hr)), HL.
    + intros _ m2 (HS & Hst2 & HF2). wp_run. split_and!; [done| | |done|done].
      * unfold sfr, links, dlinks in HF2. eapply frame_eq; [exact HF2|unfold m1; by look|naive_solver].
      * eapply frame_mono; [eapply frame_trans; [exact HF1|exact HF2]|]. unfold wait_frame. tauto.
Qed.

(** [rt_evt_wait], with the cells it changes. *)
Lemma rt_evt_wait_spec m T pr Q D t l r ev flags timeout and_wait :
  kernel m T pr Q D (t :: l) r -> m !! (r, events) = Some ev -> 0 <= timeout < 65536 ->
  wp (rt_evt_wait flags timeout and_wait) (fun x m' => frame (wait_frame r t) m m' /\
    if (if and_wait =? 0 then negb (Z.land ev flags =? 0) else Z.land ev flags =? flags) then
      x = OS_R_EVT /\ kernel m' T pr Q D (t :: l) r /\ m' !! (r, events) = Some (Z.land ev (Z.lnot flags)) /\
      (and_wait = 0 -> m' !! (r, waits) = Some (Z.land ev flags))
    else
      x = OS_R_TMO /\ m' !! (r, waits) = Some flags /\
      if timeout =? 0 then kernel m' T pr Q D (t :: l) r
      else sched m' T pr (<[os_rdy := l]> Q) (timeout_dly r timeout D) l t /\
        m' !! (r, state) = Some (if and_wait =? 0 then WAIT_OR else WAIT_AND)) m.
Proof.
  intros HK Hev Hto. pose proof HK as [[HL HR Hnew Hr Hrs Htop] Hrun].
  assert (Hs : is_Some (m !! (r, waits))) by (eapply tcb_some; [apply HL|apply Hr|set_solver]).
  assert (Hs2 : is_Some (m !! (r, events))) by eauto.
  assert (HKf : forall m', frame (fun p f => p = r /\ (f = events \/ f = waits)) m m' -> kernel m' T pr Q D (t :: l) r).
  { intros m' HF. eapply kernel_frame; [done..|]. unfold links, dlinks. naive_solver. }
  assert (HFw : forall m', frame (fun p f => p = r /\ (f = events \/ f = waits)) m m' -> frame (wait_frame r t) m m').
  { intros m' HF. eapply frame_mono; [exact HF|]. unfold wait_frame. tauto. }
  unfold rt_evt_wait. destruct (Z.eqb_spec and_wait 0) as [->|Hand]; cbn [negb]; wp_run.
  - destruct (Z.eqb_spec (Z.land ev flags) 0); cbn [negb].
    + wp_use evt_block_spec; [done|done| |tauto]. done.
    + wp_run. split_and!; [apply HFw; frames|done|apply HKf; frames|by look|intros _; by look].
  - destruct (Z.eqb_spec (Z.land ev flags) flags).
    + wp_run. split_and!; [apply HFw; frames|done|apply HKf; frames|by look|done].
    + wp_use evt_block_spec; [done|done| |tauto]. done.
Qed.

(** [rt_evt_wait]: if the flags the caller asks for are pending (all of
    them, or one of them), it consumes all the flags it asked for and goes on;
    waiting for one flag leaves those that were pending in [waits].  Otherwise
    it remembers what it waits for and, unless the time-out is 0, leaves the
    processor to the first ready task with its time-out running. *)
Theorem rt_evt_wait_correct m T pr Q D t l r ev flags timeout and_wait :
  kernel m T pr Q D (t :: l) r -> m !! (r, events) = Some ev -> 0 <= timeout < 65536 ->
  wp (rt_evt_wait flags timeout and_wait) (fun x m' =>
    if (if and_wait =? 0 then negb (Z.land ev flags =? 0) else Z.land ev flags =? flags) then
      x = OS_R_EVT /\ kernel m' T pr Q D (t :: l) r /\ m' !! (r, events) = Some (Z.land ev (Z.lnot flags)) /\
      (and_wait = 0 -> m' !! (r, waits) = Some (Z.land ev flags))
    else
      x = OS_R_TMO /\ m' !! (r, waits) = Some flags /\
      if timeout =? 0 then kernel m' T pr Q D (t :: l) r
      else sched m' T pr (<[os_rdy := l]> Q) (timeout_dly r timeout D) l t /\
        m' !! (r, state) = Some (if and_wait =? 0 then WAIT_OR else WAIT_AND)) m.
Proof.
  intros. wp_use rt_evt_wait_spec; [done..|]. by intros x m' [_ ?].
Qed.

(** A flag that was set before a task waits for it is not lost: [rt_evt_set]
    by the running task on itself, followed by [rt_evt_wait] for one of the
    flags that were set, returns at once and reports all of them. *)
Theorem evt_set_then_wait m T pr Q D t l r id ev flags timeout :
  kernel m T pr Q D (t :: l) r -> m !! (os_active_TCB, elem (id - 1)) = Some r ->
  m !! (r, events) = Some ev -> flags <> 0 -> 0 <= timeout < 65536 ->
  wp (rt_evt_set flags id;; rt_evt_wait flags timeout __FALSE) (fun x m' =>
    x = OS_R_EVT /\ kernel m' T pr Q D (t :: l) r /\
    m' !! (r, waits) = Some flags /\ m' !! (r, events) = Some (Z.land ev (Z.lnot flags))) m.
Proof.
  intros HK Hact Hev Hfl Hto. pose proof HK as [[HL HR Hnew Hr Hrs Htop] Hrun].
  assert (Hs : is_Some (m !! (r, waits))) by (eapply tcb_some; [apply HL|apply Hr|set_solver]).
  assert (Hs2 : is_Some (m !! (r, events))) by eauto. destruct Hs as [w Hw].
  assert (Habs : Z.land (Z.lor ev flags) flags = flags).
  { apply Z.bits_inj'. intros n Hn. rewrite Z.land_spec, Z.lor_spec. destruct (Z.testbit ev n), (Z.testbit flags n); done. }
  assert (Hclr : Z.land (Z.lor ev flags) (Z.lnot flags) = Z.land ev (Z.lnot flags)).
  { apply Z.bits_inj'. intros n Hn. rewrite !Z.land_spec, Z.lor_spec, Z.lnot_spec by lia.
    destruct (Z.testbit ev n), (Z.testbit flags n); done. }
  unfold rt_evt_set. wp_run. rewrite (proj2 (Z.eqb_neq _ _)) by (eapply tcb_nonnull; [apply HL|apply Hr]).
  wp_step. wp_use evt_post_spec; [done|apply Hr|done..|].
  replace (evt_result RUNNING (Z.lor ev flags) w) with (@None (Z * Z)) by done.
  intros _ m1 [-> ->]. wp_run. unfold rt_evt_wait. cbn [Z.eqb __FALSE negb].
  assert (is_Some (m !! (r, waits))) by eauto.
  wp_run. rewrite Habs, (proj2 (Z.eqb_neq flags 0)) by done. cbn [negb]. wp_run.
  split_and!; [done| |mlook; by rewrite ?Habs|mlook; by rewrite ?Hclr].
  eapply kernel_frame; [done| |].
  - apply (frame_insert (fun p f => f = events \/ f = waits)); [frames|by left|by eauto].
  - unfold links, dlinks. naive_solver.
Qed.

(** [rt_evt_psh], for [rt_pop_req]: no task runs at the time, the woken task
    becomes ready. *)
Lemma rt_evt_psh_spec m T pr Q D l t st ev w flags :
  lists m T pr Q D l -> readies m T l -> t ∈ T ->
  m !! (t, state) = Some st -> m !! (t, events) = Some ev -> m !! (t, waits) = Some w ->
  (st = WAIT_AND \/ st = WAIT_OR -> free_of Q t) ->
  wp (rt_evt_psh t flags) (fun _ m' =>
    match evt_result st (Z.lor ev flags) w with
    | None => lists m' T pr Q D l /\ readies m' T l /\ m' = <[(t, events) := Z.lor ev flags]> m
    | Some (ev', w') =>
        lists m' T pr (<[os_rdy := insert_prio pr t l]> Q) (remove_dly t D) (insert_prio pr t l) /\
        readies m' T (insert_prio pr t l) /\
        m' !! (t, events) = Some ev' /\ m' !! (t, waits) = Some w' /\ results_are m' t osEventSignal w' /\
        frame (fun p f => links f \/ evt_frame t p f) m m'
    end) m.
Proof.
  intros HL HR Ht Hst Hev Hw Hfree. unfold rt_evt_psh.
  wp_step. wp_use evt_post_spec; [done..|]. intros b m1.
  destruct (evt_result st (Z.lor ev flags) w) as [[ev' w']|] eqn:E.
  - intros (-> & HL1 & Hev1 & Hw1 & Hst1 & Hres & HF1).
    apply evt_result_waiting in E. unfold evt_frame, dlinks in HF1.
    change (when true ?c) with c.
    wp_use lists_put_rdy; [exact HL1|split_and!; [done|by apply Hfree|rewrite remove_dly_in; tauto]|].
    intros _ m2 [HL2 HF2]. unfold links in HF2. split_and!; [done| |by flook..| |].
    + intros x Hx. destruct (decide (x = t)) as [->|Hne].
      * exists READY. split; [by flook|]. rewrite insert_prio_in. tauto.
      * destruct (HR x Hx) as (stx & Hsx & Hiff). exists stx. rewrite insert_prio_in.
        split; [|rewrite Hiff; tauto]. by flook.
    + eapply results_frame; [done..|]. naive_solver.
    + eapply frame_mono; [by eapply frame_trans|]. unfold evt_frame, links, dlinks. cbv beta. tauto.
  - intros [-> ->]. wp_run.
    assert (HF : frame (fun p f => p = t /\ f = events) m (<[(t, events) := Z.lor ev flags]> m)).
    { apply frame_store. eauto. }
    split_and!; [| |done].
    + eapply lists_frame; [done..|]. unfold links, dlinks. naive_solver.
    + eapply readies_frame; [done..|]. naive_solver.
Qed.

(** ** Examples *)

(** C waits until one of the flags 1 and 4 is set. *)
Definition evt_waiting : mem := mem_of ((rt_evt_wait 5 10 0;; switch_context) start).

Lemma rt_evt_wait_witness :
  wp (rt_evt_wait 5 10 0) (fun x m' => x = OS_R_TMO /\ m' !! (taskC, state) = Some WAIT_OR /\ exists Q,
    sched m' (list_to_set all_tasks) (prio_of start) Q [(taskC, 10)] [taskB; idle] taskA) start.
Proof.
  wp_use (rt_evt_wait_correct start (list_to_set all_tasks) (prio_of start) start_queues []
    taskA [taskB; idle] taskC 0 5 10 0); [exact start_kernel|vm_compute; reflexivity|lia|].
  intros x m' (-> & _ & HS & Hst). split_and!; [done|done|]. eexists. exact HS.
Defined.

Lemma rt_evt_set_witness :
  wp (rt_evt_set 6 3) (fun _ m' => m' !! (taskC, events) = Some 2 /\ results_are m' taskC osEventSignal 4 /\
    exists Q, sched m' (list_to_set all_tasks) (prio_of evt_waiting) Q [] [taskA; taskB; idle] taskC) evt_waiting.
Proof.
  wp_use (rt_evt_set_correct evt_waiting (list_to_set all_tasks) (prio_of evt_waiting)
    (list_to_map [(os_rdy, [taskB; idle]); (sem1, []); (mut1, [])]) [(taskC, 10)] [taskB; idle] taskA
    3 taskC WAIT_OR 0 5 6).
  - apply (kernel_by_check _ all_tasks). vm_compute. reflexivity.
  - vm_compute. reflexivity.
  - set_solver.
  - vm_compute. reflexivity.
  - vm_compute. reflexivity.
  - vm_compute. reflexivity.
  - intros _. apply free_by_check. vm_compute. reflexivity.
  - intros _ m' (HS & Hev & _ & Hres). split_and!; [done|done|]. eexists.
    replace (dispatch _ _ _ _) with ([taskA; taskB; idle], taskC) in HS by (vm_compute; reflexivity).
    exact HS.
Defined.

Lemma evt_set_then_wait_witness :
  wp (rt_evt_set 6 3;; rt_evt_wait 6 100 __FALSE) (fun x m' => x = OS_R_EVT /\ m' !! (taskC, waits) = Some 6) start.
Proof.
  wp_use (evt_set_then_wait start (list_to_set all_tasks) (prio_of start) start_queues []
    taskA [taskB; idle] taskC 3 0 6 100);
    [exact start_kernel|vm_compute; reflexivity|vm_compute; reflexivity|done|lia|].
  intros x m' (-> & _ & Hw & _). done.
Defined.
