(* ===== verification/RtxBox.v ===== *)
(** * Fixed-size memory pools of the RTX kernel ([rt_MemBox.c])

    A pool is a header followed by blocks of one size; the free blocks are
    chained through their first word.  [pool] says that the blocks are split
    between the free ones and those that are handed out. *)

From S2P Require Export RtxMem.

(** ** The functions

    Interrupts are disabled while the free list changes; [_alloc_box] is the
    entry of [rt_alloc_box] for threads and handlers ([HAL_CM3.s]). *)

Definition BOX_ALIGN_8 : Z := 0x80000000.
Definition sizeof_OS_BM : Z := 12.

(** The block size and the header size [_init_box] computes from its argument. *)
Definition box_sizes (blk_size : Z) : Z * Z :=
  if negb (Z.land blk_size BOX_ALIGN_8 =? 0) then
    (u32 (Z.land (u32 (Z.land blk_size (Z.lnot BOX_ALIGN_8) + 7)) (Z.lnot 7)),
     Z.land (sizeof_OS_BM + 7) (Z.lnot 7))
  else (u32 (Z.land (u32 (blk_size + 3)) (Z.lnot 3)), sizeof_OS_BM).

(** [while (1)]: links the blocks from [blk] on. *)
Fixpoint init_box_loop (fuel : nat) (blk bsize e : Z) : M unit :=
  match fuel with
  | O => stuck
  | S fuel =>
      let next := blk + bsize in
      if e <? next then store blk word 0
      else
        store blk word next;;
        init_box_loop fuel next bsize e
  end.

Definition _init_box (box_mem box_size bsize : Z) : M Z :=
  let '(bsize, sizeof_bm) := box_sizes bsize in
  if bsize =? 0 then mret 1
  else if box_size <? u32 (bsize + sizeof_bm) then mret 1
  else
    let blk := box_mem + sizeof_bm in
    store box_mem free blk;;
    let e := box_mem + box_size in
    store box_mem end_ e;;
    store box_mem blk_size bsize;;
    init_box_loop (S (Z.to_nat box_size)) blk bsize (e - bsize);;
    mret 0.

Definition rt_alloc_box (box_mem : Z) : M Z :=
  p ← load box_mem free;
  when (negb (p =? NULL)) (
    next ← load p word;
    store box_mem free next);;
  mret p.

(** [for (i = blk_size; i; i -= 4)] *)
Fixpoint calloc_loop (fuel : nat) (p i : Z) : M unit :=
  match fuel with
  | O => stuck
  | S fuel =>
      if i =? 0 then mret tt
      else
        store p word 0;;
        calloc_loop fuel (p + 4) (u32 (i - 4))
  end.

Definition _calloc_box (box_mem : Z) : M Z :=
  p ← rt_alloc_box box_mem;
  when (negb (p =? NULL)) (
    n ← load box_mem blk_size;
    calloc_loop (S (Z.to_nat n)) p n);;
  mret p.

Definition rt_free_box (box_mem box : Z) : M Z :=
  bad ← (if box <? box_mem then mret true else e ← load box_mem end_; mret (e <=? box));
  if bad : bool then mret 1
  else
    p ← load box_mem free;
    store box word p;;
    store box_mem free box;;
    mret 0.

(** ** What a pool is *)

(** The free blocks, each holding the address of the next one. *)
Fixpoint chain (m : mem) (l : list Z) : Prop :=
  match l with
  | [] => True
  | x :: l => m !! (x, word) = Some (hdz l) /\ chain m l
  end.

(** The pool at [b], of blocks of [n] bytes at the addresses [B]; [F] are the
    free ones, in the order they will be handed out, [A] those in use. *)
Record pool (m : mem) (b n : Z) (B F A : list Z) : Prop := {
  pool_free : m !! (b, free) = Some (hdz F);
  pool_chain : chain m F;
  pool_end : exists e, m !! (b, end_) = Some e /\ forall x, x ∈ B -> b <= x < e;
  pool_size : m !! (b, blk_size) = Some n;
  pool_split : F ++ A ≡ₚ B;
  pool_nodup : NoDup B;
  pool_cells x : x ∈ B -> x <> NULL /\ is_Some (m !! (x, word))
}.

Lemma chain_ext m m' l :
  chain m l -> (forall x, x ∈ l -> m' !! (x, word) = m !! (x, word)) -> chain m' l.
Proof.
  induction l as [|x l IH]; cbn; [done|]. intros [H1 H2] E. split.
  - rewrite E by (by left). done.
  - apply IH; [done|]. intros. apply E. by right.
Qed.

(** The addresses of [k] blocks of [n] bytes from [p] on. *)
Fixpoint blocks (k : nat) (p n : Z) : list Z :=
  match k with O => [] | S k => p :: blocks k (p + n) n end.

Lemma blocks_in k p n x : x ∈ blocks k p n <-> exists i, 0 <= i < Z.of_nat k /\ x = p + i * n.
Proof.
  revert p. induction k as [|k IH]; intros p; cbn [blocks].
  - rewrite elem_of_nil. split; [done|]. intros (i & ? & _). lia.
  - rewrite elem_of_cons, IH. split.
    + intros [->|(i & Hi & ->)]; [exists 0; lia|exists (i + 1); lia].
    + intros (i & Hi & ->). destruct (decide (i = 0)) as [->|]; [left; lia|].
      right. exists (i - 1). lia.
Qed.

Lemma blocks_nodup k p n : 0 < n -> NoDup (blocks k p n).
Proof.
  intros Hn. revert p. induction k as [|k IH]; intros p; cbn; constructor; [|done].
  rewrite blocks_in. intros (i & Hi & E). nia.
Qed.

Lemma init_box_loop_spec m k fuel p n e :
  0 < n -> 0 < p -> p + Z.of_nat k * n <= e < p + Z.of_nat k * n + n -> (k < fuel)%nat ->
  (forall x, x ∈ blocks (S k) p n -> is_Some (m !! (x, word))) ->
  wp (init_box_loop fuel p n e) (fun _ m' => chain m' (blocks (S k) p n) /\
    frame (fun q f => f = word /\ q ∈ blocks (S k) p n) m m') m.
Proof.
  revert m fuel p. induction k as [|k IH]; intros m fuel p Hn Hp He Hf Hc;
    (destruct fuel as [|fuel]; [lia|]); cbn [init_box_loop];
    assert (Hs : is_Some (m !! (p, word))) by (apply Hc; by left).
  - rewrite (proj2 (Z.ltb_lt _ _)) by lia. wp_run. cbn [blocks chain hdz]. split; [split; [by look|done]|].
    eapply frame_mono; [by apply frame_store|]. cbv beta. intros q f [-> ->]. split; [done|by left].
  - rewrite (proj2 (Z.ltb_ge _ _)) by lia. wp_run.
    set (m1 := <[_ := _]> m).
    assert (HF1 : frame (fun q f => q = p /\ f = word) m m1) by (by apply frame_store).
    wp_use (IH m1 fuel (p + n)); [done|lia|lia|lia| |].
    + intros x Hx. eapply frame_some; [done|]. apply Hc. by right.
    + intros _ m2 [Hch HF2]. split.
      * split; [|done]. eapply frame_eq; [exact HF2|unfold m1; by look|]. intros [_ Hx].
        pose proof (blocks_nodup (S (S k)) p n Hn) as [Hnd _]%NoDup_cons. done.
      * eapply frame_mono; [by eapply frame_trans|]. cbv beta. intros q f [[-> ->]|[-> Hx]].
        { split; [done|by left]. }
        { split; [done|by right]. }
Qed.

(** The sizes are multiples of the alignment and hold the requested size. *)
Lemma box_sizes_spec s n h :
  0 <= s < 2 ^ 32 -> box_sizes s = (n, h) ->
  0 <= n <= 2 ^ 31 /\ n mod 4 = 0 /\ 12 <= h <= 16 /\
  (if decide (2 ^ 31 <= s) then s - 2 ^ 31 <= n /\ n mod 8 = 0 /\ h mod 8 = 0 else s <= n /\ h = 12).
Proof.
  intros Hs. unfold box_sizes.
  assert (Hal : forall x k, 0 <= k -> Z.land x (Z.lnot (Z.ones k)) = x - x mod 2 ^ k).
  { intros x k Hk. rewrite <- Z.ldiff_land, Z.ldiff_ones_r, Z.shiftl_mul_pow2, Z.shiftr_div_pow2 by lia.
    assert (2 ^ k <> 0) by (apply Z.pow_nonzero; lia). pose proof (Z.div_mod x (2 ^ k)). lia. }
  assert (Hal3 : forall x, Z.land x (Z.lnot 7) = x - x mod 8) by (intros x; apply (Hal x 3); lia).
  assert (Hal2 : forall x, Z.land x (Z.lnot 3) = x - x mod 4) by (intros x; apply (Hal x 2); lia).
  rewrite !Hal2, !Hal3. change BOX_ALIGN_8 with (2 ^ 31). rewrite land_pow2 by lia.
  assert (Hbit : Z.testbit s 31 = (2 ^ 31 <=? s)).
  { destruct (Z.leb_spec (2 ^ 31) s).
    - replace s with (s - 2 ^ 31 + 2 ^ 31) by lia. rewrite <- (lor_pow2 _ 31) by lia.
      rewrite Z.lor_spec, Z.pow2_bits_true by lia. by rewrite orb_true_r.
    - apply (testbit_high _ 31); lia. }
  rewrite Hbit. case_decide as Hc.
  - rewrite (proj2 (Z.leb_le _ _)) by lia. cbn [Z.eqb negb Z.pow]. intros [= <- <-].
    replace (Z.land s (Z.lnot (2 ^ 31))) with (s - 2 ^ 31).
    2: { rewrite <- Z.ldiff_land. rewrite Z.sub_nocarry_ldiff; [done|].
         apply Z.bits_inj'. intros i Hi. rewrite Z.ldiff_spec, Z.bits_0, Z.pow2_bits_eqb by lia.
         destruct (Z.eqb_spec 31 i) as [<-|]; [|done]. rewrite Hbit, (proj2 (Z.leb_le _ _)) by lia. done. }
    unfold u32, sizeof_OS_BM.
    rewrite (Z.mod_small (s - 2 ^ 31 + 7)) by lia.
    rewrite (Z.mod_small (_ - _)) by (Z.to_euclidean_division_equations; lia).
    change (12 + 7 - (12 + 7) mod 8) with 16.
    split_and!; Z.to_euclidean_division_equations; lia.
  - rewrite (proj2 (Z.leb_gt _ _)) by lia. cbn [Z.eqb negb]. intros [= <- <-].
    unfold u32, sizeof_OS_BM.
    rewrite (Z.mod_small (s + 3)) by lia.
    rewrite (Z.mod_small (_ - _)) by (Z.to_euclidean_division_equations; lia).
    split_and!; Z.to_euclidean_division_equations; lia.
Qed.

(** ** Correctness *)

(** [_init_box] on a memory area of [size] bytes at [b]: if not even one
    block fits, it reports 1 and leaves the memory alone; otherwise the area is
    a pool all of whose blocks are free, as many as fit behind the header. *)
Theorem init_box_correct m b size s n h (k := Z.to_nat ((size - h) / n)) (B := blocks k (b + h) n) :
  0 <= s < 2 ^ 32 -> 0 <= size < 2 ^ 32 -> 0 < b -> box_sizes s = (n, h) ->
  (forall f, f = free \/ f = end_ \/ f = blk_size -> is_Some (m !! (b, f))) ->
  (forall x, x ∈ B -> is_Some (m !! (x, word))) ->
  wp (_init_box b size s) (fun x m' =>
    if (n =? 0) || (size <? n + h) then x = 1 /\ m' = m
    else x = 0 /\ pool m' b n B B [] /\ B <> []) m.
Proof.
  intros Hs Hsz Hb Hsizes Hcells Hblk.
  pose proof (box_sizes_spec _ _ _ Hs Hsizes) as (Hn & _ & Hh & _).
  unfold _init_box. rewrite Hsizes.
  destruct (Z.eqb_spec n 0) as [->|Hn0]; cbn [orb]; [wp_run; done|].
  rewrite (u32_id (n + h)) by lia.
  destruct (Z.ltb_spec size (n + h)); [wp_run; done|].
  assert (Hs1 : is_Some (m !! (b, free))) by (apply Hcells; tauto).
  assert (Hs2 : is_Some (m !! (b, end_))) by (apply Hcells; tauto).
  assert (Hs3 : is_Some (m !! (b, blk_size))) by (apply Hcells; tauto).
  wp_run. set (m1 := <[_ := _]> _).
  assert (HF1 : frame (fun p f => p = b /\ (f = free \/ f = end_ \/ f = blk_size)) m m1) by (unfold m1; frames).
  pose proof (Z.div_mod (size - h) n) as Hdm. pose proof (Z.mod_pos_bound (size - h) n) as Hmb.
  assert (Hk1 : 1 <= (size - h) / n) by (apply Z.div_le_lower_bound; lia).
  assert (Ek : k = S (Nat.pred k)) by lia.
  assert (HkZ : Z.of_nat k = (size - h) / n) by lia.
  wp_use (init_box_loop_spec m1 (Nat.pred k) (S (Z.to_nat size)) (b + h) n (b + size - n)); [lia|lia|..].
  - replace (Z.of_nat (Nat.pred k)) with ((size - h) / n - 1) by lia. nia.
  - assert ((size - h) / n <= size) by (apply Z.div_le_upper_bound; nia). lia.
  - rewrite <- Ek. intros x Hx. eapply frame_some; [done|]. by apply Hblk.
  - rewrite <- Ek. fold B. intros _ m2 [Hch HF2]. wp_run. split_and!; [done| |].
    + assert (HB : forall x, x ∈ B -> b + h <= x /\ x + n <= b + size).
      { intros x (i & Hi & ->)%blocks_in. nia. }
      constructor.
      * unfold B at 1. rewrite Ek. cbn [blocks hdz]. unfold m1 in *. by flook.
      * done.
      * exists (b + size). split; [unfold m1 in *; by flook|]. intros x Hx%HB. lia.
      * unfold m1 in *. by flook.
      * by rewrite app_nil_r.
      * apply blocks_nodup. lia.
      * intros x Hx. split; [apply HB in Hx; unfold NULL; lia|].
        eapply frame_some; [done|]. eapply frame_some; [done|]. by apply Hblk.
    + unfold B. rewrite Ek. done.
Qed.

(** The requests of the clients of a pool, and what a pool does: the free
    blocks are a stack. *)
Inductive request := Alloc | Free (x : Z).

Definition remove_block (x : Z) (A : list Z) : list Z := filter (fun y => y <> x) A.

Definition pool_step (q : request) (F A : list Z) : option (Z * list Z * list Z) :=
  match q with
  | Alloc => match F with [] => Some (NULL, [], A) | x :: F => Some (x, F, x :: A) end
  | Free x => if decide (x ∈ A) then Some (0, x :: F, remove_block x A) else None
  end.

Fixpoint pool_steps (qs : list request) (F A : list Z) : option (list Z * list Z * list Z) :=
  match qs with
  | [] => Some ([], F, A)
  | q :: qs =>
      '(x, F, A) ← pool_step q F A;
      '(xs, F, A) ← pool_steps qs F A;
      Some (x :: xs, F, A)
  end.

Definition serve (b : Z) (q : request) : M Z :=
  match q with Alloc => rt_alloc_box b | Free x => rt_free_box b x end.

Fixpoint serves (b : Z) (qs : list request) : M (list Z) :=
  match qs with
  | [] => mret []
  | q :: qs => x ← serve b q; xs ← serves b qs; mret (x :: xs)
  end.

Lemma pool_free_in_use m b n B F A x : pool m b n B F A -> x ∈ A -> x ∈ B /\ x ∉ F.
Proof.
  intros HP Hx. pose proof (pool_split _ _ _ _ _ _ HP) as Hsp. split.
  - rewrite <- Hsp. apply elem_of_app. by right.
  - intros HF. pose proof (pool_nodup _ _ _ _ _ _ HP) as Hnd. rewrite <- Hsp in Hnd.
    apply NoDup_app in Hnd as (_ & Hn & _). by eapply Hn.
Qed.

Lemma rt_alloc_box_spec m b n B F A :
  pool m b n B F A ->
  wp (rt_alloc_box b) (fun x m' =>
    match F with
    | [] => x = NULL /\ pool m' b n B [] A
    | y :: F' => x = y /\ pool m' b n B F' (y :: A)
    end) m.
Proof.
  intros HP. pose proof HP as [Hf Hch He Hs Hsp Hnd Hc]. unfold rt_alloc_box. wp_run.
  destruct F as [|y F]; cbn [hdz chain] in *.
  - cbn [Z.eqb NULL negb]. by wp_run.
  - assert (Hy : y ∈ B) by (rewrite <- Hsp; by left).
    destruct (Hc y Hy) as [Hy0 _]. destruct Hch as [Hy1 Hch].
    rewrite (proj2 (Z.eqb_neq _ _)) by done. cbn [negb].
    assert (is_Some (m !! (b, free))) by eauto. wp_run. split; [done|].
    set (m' := <[_ := _]> m).
    assert (HF : frame (fun p f => p = b /\ f = free) m m') by (by apply frame_store).
    constructor; [unfold m'; by look| | |unfold m'; by look| |done|].
    + eapply chain_ext; [done|]. intros. unfold m'. by mlook.
    + destruct He as (e & He & ?). exists e. split; [unfold m'; by look|done].
    + by rewrite <- Permutation_middle.
    + intros x Hx. destruct (Hc x Hx). split; [done|]. by eapply frame_some.
Qed.

Lemma rt_free_box_spec m b n B F A y :
  pool m b n B F A -> y ∈ A ->
  wp (rt_free_box b y) (fun x m' => x = 0 /\ pool m' b n B (y :: F) (remove_block y A)) m.
Proof.
  intros HP HyA. pose proof HP as [Hf Hch He Hs Hsp Hnd Hc].
  destruct (pool_free_in_use _ _ _ _ _ _ _ HP HyA) as [Hy HyF].
  destruct He as (e & He & Hr). destruct (Hr y Hy) as [Hr1 Hr2]. destruct (Hc y Hy) as [Hy0 Hyc].
  unfold rt_free_box. rewrite (proj2 (Z.ltb_ge _ _)) by lia. wp_run.
  rewrite (proj2 (Z.leb_gt _ _)) by lia. assert (is_Some (m !! (b, free))) by eauto. wp_run.
  split; [done|]. set (m' := <[_ := _]> _).
  assert (HF : frame (fun p f => f = free \/ f = word) m m') by (unfold m'; frames).
  constructor; [unfold m'; by look| | |unfold m'; by look| |done|].
  - cbn [chain]. split; [unfold m'; by look|]. eapply chain_ext; [done|].
    intros x Hx. unfold m'. assert (x <> y) by congruence. by mlook.
  - exists e. split; [unfold m'; by look|done].
  - cbn. rewrite <- Hsp. apply list_elem_of_split in HyA as (A1 & A2 & ->).
    rewrite <- Hsp in Hnd. apply NoDup_app in Hnd as (_ & _ & Hnd).
    apply NoDup_app in Hnd as (_ & Hn1 & [Hn2 _]%NoDup_cons).
    unfold remove_block. rewrite filter_app, filter_cons_False by tauto.
    rewrite !filter_keep; [by rewrite (app_assoc F A1 (y :: A2)), <- Permutation_middle, <- app_assoc| |];
      intros x Hx ->; [done|]. apply (Hn1 y); [done|by left].
  - intros x Hx. destruct (Hc x Hx). split; [done|]. by eapply frame_some.
Qed.

(** C20: a pool behaves as a stack of free blocks, whatever its clients ask for:
    if every block that is returned was handed out before, then allocation
    returns the block freed last (0 when none is free), every return succeeds,
    and free and used blocks always make up the pool, so that no block is
    handed out to two clients. *)
Theorem pool_refinement m b n B F A qs xs F' A' :
  pool m b n B F A -> pool_steps qs F A = Some (xs, F', A') ->
  wp (serves b qs) (fun ys m' => ys = xs /\ pool m' b n B F' A') m.
Proof.
  revert m F A xs. induction qs as [|q qs IH]; intros m F A xs HP; cbn [pool_steps serves].
  - intros [= <- <- <-]. by wp_run.
  - destruct (pool_step q F A) as [[[x F1] A1]|] eqn:E; cbn; [|done].
    destruct (pool_steps qs F1 A1) as [[[ys F2] A2]|] eqn:E2; cbn; [|done].
    intros [= <- <- <-]. wp_step.
    eapply wp_mono with (Q' := fun y m1 => y = x /\ pool m1 b n B F1 A1).
    + destruct q as [|y]; cbn [serve pool_step] in *.
      * wp_use rt_alloc_box_spec; [done|]. destruct F; simplify_eq; done.
      * case_decide; simplify_eq. by apply rt_free_box_spec.
    + intros y m1 [-> HP1]. wp_step. wp_use IH; [done..|]. intros ys' m2 [-> HP2]. by wp_run.
Qed.

(** The words of a block are cleared; the loop ends because the size of a block
    is a multiple of four. *)
Lemma calloc_loop_spec m k fuel p :
  4 * Z.of_nat k < 2 ^ 32 -> (k < fuel)%nat ->
  (forall i, 0 <= i < Z.of_nat k -> is_Some (m !! (p + 4 * i, word))) ->
  wp (calloc_loop fuel p (4 * Z.of_nat k)) (fun _ m' =>
    (forall i, 0 <= i < Z.of_nat k -> m' !! (p + 4 * i, word) = Some 0) /\
    frame (fun q f => f = word /\ p <= q < p + 4 * Z.of_nat k) m m') m.
Proof.
  revert m fuel p. induction k as [|k IH]; intros m fuel p Hk Hf Hc; (destruct fuel as [|fuel]; [lia|]);
    cbn [calloc_loop].
  - cbn [Z.of_nat Z.mul Z.eqb]. wp_run. split; [intros; lia|apply frame_refl].
  - rewrite (proj2 (Z.eqb_neq _ _)) by lia.
    assert (Hs : is_Some (m !! (p, word))) by (rewrite <- (Z.add_0_r p); apply (Hc 0); lia).
    wp_run. rewrite u32_id by lia. replace (4 * Z.of_nat (S k) - 4) with (4 * Z.of_nat k) by lia.
    set (m1 := <[_ := _]> m).
    assert (HF1 : frame (fun q f => q = p /\ f = word) m m1) by (by apply frame_store).
    wp_use (IH m1 fuel (p + 4)); [lia|lia| |].
    + intros i Hi. eapply frame_some; [done|]. replace (p + 4 + 4 * i) with (p + 4 * (i + 1)) by lia. apply Hc. lia.
    + intros _ m2 [Hz HF2]. split.
      * intros i Hi. destruct (decide (i = 0)) as [->|].
        { rewrite Z.add_0_r. eapply frame_eq; [done|unfold m1; by look|]. intros [_ ?]. lia. }
        { replace (p + 4 * i) with (p + 4 + 4 * (i - 1)) by lia. apply Hz. lia. }
      * eapply frame_mono; [by eapply frame_trans|]. cbv beta. intros q f [[-> ->]|[-> Hq]]; (split; [done|lia]).
Qed.

(** [_calloc_box] on a pool as [_init_box] leaves it (or later): it hands out
    the first free block with all its words 0 and touches no other block, or
    returns 0 when no block is free. *)
Theorem calloc_box_correct m b n k p F A (B := blocks k p n) :
  pool m b n B F A -> 0 < n < 2 ^ 32 -> n mod 4 = 0 ->
  (forall x i, x ∈ B -> 0 <= i < n / 4 -> is_Some (m !! (x + 4 * i, word))) ->
  wp (_calloc_box b) (fun x m' =>
    match F with
    | [] => x = NULL /\ pool m' b n B [] A
    | y :: F' => x = y /\ pool m' b n B F' (y :: A) /\
        (forall i, 0 <= i < n / 4 -> m' !! (y + 4 * i, word) = Some 0) /\
        frame (fun q f => (q = b /\ f = free) \/ (f = word /\ y <= q < y + n)) m m'
    end) m.
Proof.
  intros HP Hn Hal Hw. pose proof HP as [Hf Hch (e & He & Hr) Hs Hsp Hnd Hc]. unfold _calloc_box, rt_alloc_box.
  wp_run. destruct F as [|y F]; cbn [hdz chain] in *.
  - cbn [Z.eqb NULL negb]. wp_run. cbn [Z.eqb NULL negb]. by wp_run.
  - assert (Hy : y ∈ B) by (rewrite <- Hsp; by left).
    destruct (Hc y Hy) as [Hy0 _]. destruct Hch as [Hy1 Hch].
    rewrite (proj2 (Z.eqb_neq _ _)) by done. cbn [negb].
    assert (is_Some (m !! (b, free))) by eauto. wp_run.
    rewrite (proj2 (Z.eqb_neq _ _)) by done. cbn [negb]. wp_run.
    set (m1 := <[_ := _]> m).
    assert (HF1 : frame (fun q f => q = b /\ f = free) m m1) by (by apply frame_store).
    assert (En : n = 4 * Z.of_nat (Z.to_nat (n / 4))).
    { rewrite Z2Nat.id by (apply Z.div_pos; lia). pose proof (Z.div_mod n 4). lia. }
    rewrite En at 2.
    wp_use calloc_loop_spec; [lia|lia| |].
    { intros i Hi. eapply frame_some; [done|]. apply Hw; [done|lia]. }
    intros _ m2 [Hz HF2]. rewrite <- En in HF2. wp_run. split_and!; [done| | |].
    + assert (Hout : forall x, x ∈ B -> x <> y -> ~ (y <= x < y + n)).
      { intros x (i & Hi & ->)%blocks_in Hne. clear -Hn Hi Hy Hne. apply blocks_in in Hy as (j & Hj & ->).
        destruct (Z.lt_trichotomy i j) as [?|[->|?]]; [|done|].
        - assert (i * n <= (j - 1) * n) by (apply Z.mul_le_mono_nonneg_r; lia). lia.
        - assert ((j + 1) * n <= i * n) by (apply Z.mul_le_mono_nonneg_r; lia). lia. }
      constructor; [unfold m1 in *; by flook| |exists e; split; [unfold m1 in *; by flook|done]| | |done|].
      * eapply chain_ext; [done|]. intros x Hx.
        assert (x ∈ B) by (rewrite <- Hsp; right; apply elem_of_app; by left).
        assert (x <> y).
        { intros ->. pose proof Hnd as Hnd'. rewrite <- Hsp in Hnd'. apply NoDup_cons in Hnd' as [Hyn _].
          apply Hyn. apply elem_of_app. by left. }
        rewrite (proj2 (HF2 _ _)) by (intros [_ ?]; by eapply Hout). unfold m1. by mlook.
      * unfold m1 in *. by flook.
      * by rewrite <- Permutation_middle.
      * intros x Hx. destruct (Hc x Hx). split; [done|]. eapply frame_some; [done|]. by eapply frame_some.
    + intros i Hi. apply Hz. lia.
    + eapply frame_mono; [by eapply frame_trans|]. cbv beta. tauto.
Qed.

(** ** Examples *)

(** 40 bytes at 1000 for blocks of 8 bytes: a header of 12 bytes, three blocks. *)
Definition box_area : mem :=
  list_to_map (((1000, free), 7) :: ((1000, end_), 7) :: ((1000, blk_size), 7) ::
    ((fun i => ((1012 + 4 * Z.of_nat i, word), 7)) <$> seq 0 7)).

Definition box_ready : mem := match _init_box 1000 40 8 box_area with Ret _ m => m | _ => ∅ end.

Lemma box_ready_pool : pool box_ready 1000 8 [1012; 1020; 1028] [1012; 1020; 1028] [].
Proof.
  assert (HB : forall (P : Z -> Prop), P 1012 -> P 1020 -> P 1028 -> forall x, x ∈ [1012; 1020; 1028] -> P x).
  { intros P H1 H2 H3 x. rewrite !elem_of_cons, elem_of_nil. by intros [->|[->|[->|[]]]]. }
  constructor; try (vm_compute; reflexivity).
  - vm_compute. split_and!; reflexivity || exact I.
  - exists 1040. split; [vm_compute; reflexivity|]. apply (HB (fun x => 1000 <= x < 1040)); lia.
  - apply (blocks_nodup 3 1012 8). lia.
  - apply HB; split; try done; eexists; vm_compute; reflexivity.
Qed.

Lemma init_box_witness : wp (_init_box 1000 40 8) (fun x m' =>
  x = 0 /\ pool m' 1000 8 [1012; 1020; 1028] [1012; 1020; 1028] []) box_area.
Proof.
  wp_use (init_box_correct box_area 1000 40 8 8 12); [lia|lia|lia|vm_compute; reflexivity| | |].
  - intros f [->|[->| ->]]; eexists; vm_compute; reflexivity.
  - intros x Hx. change (x ∈ [1012; 1020; 1028]) in Hx. rewrite !elem_of_cons, elem_of_nil in Hx.
    destruct Hx as [->|[->|[->|[]]]]; eexists; vm_compute; reflexivity.
  - intros x m' (-> & HP & _). split; [done|exact HP].
Defined.

Lemma pool_refinement_witness :
  wp (serves 1000 [Alloc; Alloc; Free 1012; Alloc; Alloc; Alloc]) (fun ys _ =>
    ys = [1012; 1020; 0; 1012; 1028; 0]) box_ready.
Proof.
  wp_use (pool_refinement box_ready 1000 8 [1012; 1020; 1028]); [exact box_ready_pool|vm_compute; reflexivity|].
  intros ys m' [-> _]. done.
Defined.

Lemma calloc_box_witness :
  wp (_calloc_box 1000) (fun x m' => x = 1012 /\ m' !! (1016, word) = Some 0) box_ready.
Proof.
  wp_use (calloc_box_correct box_ready 1000 8 3 1012 [1012; 1020; 1028] []);
    [exact box_ready_pool|lia|done| |].
  - intros x i Hx Hi. change (x ∈ [1012; 1020; 1028]) in Hx. rewrite !elem_of_cons, elem_of_nil in Hx.
    assert (i = 0 \/ i = 1) as [->| ->] by (change (8 / 4) with 2 in Hi; lia);
      destruct Hx as [->|[->|[->|[]]]]; eexists; vm_compute; reflexivity.
  - intros x m' (-> & _ & Hz & _). split; [done|]. apply (Hz 1). change (8 / 4) with 2. lia.
Defined.
