(* ===== verification/RtxMbx.v ===== *)
(** * Mailboxes of the RTX kernel ([rt_Mailbox.c])

    A mailbox is a ring of message pointers with one queue of waiting tasks,
    used by receivers while the ring is empty ([state] 1) and by senders while
    it is full ([state] 2); [mailbox] gives the stored messages in order. *)

From S2P Require Export RtxEvent RtxBox.

(** ** The functions *)

Definition osOK : Z := 0.
Definition osEventMessage : Z := 0x10.

(** [p_MCB->size = (mbx_size + sizeof(void * ) - sizeof(struct OS_MCB)) / sizeof (void * )] *)
Definition sizeof_OS_MCB : Z := 20.

Definition rt_mbx_init (p_MCB mbx_size : Z) : M unit :=
  store p_MCB cb_type MCB;;
  store p_MCB state 0;;
  store p_MCB isr_st 0;;
  store p_MCB p_lnk NULL;;
  store p_MCB first_ 0;;
  store p_MCB last_ 0;;
  store p_MCB count_ 0;;
  store p_MCB size_ (u16 (u32 (mbx_size + 4 - sizeof_OS_MCB) / 4)).

(** [if (++p->f == p->size) p->f = 0] *)
Definition advance (p : Z) (f : field) : M unit :=
  i ← load p f;
  store p f (u16 (i + 1));;
  i ← load p f;
  n ← load p size_;
  when (i =? n) (store p f 0).

(** [rt_inc (&p->count)] and [rt_dec (&p->count)] *)
Definition rt_inc (p : Z) : M unit := c ← load p count_; store p count_ (u16 (c + 1)).
Definition rt_dec (p : Z) : M unit := c ← load p count_; store p count_ (u16 (c - 1)).

(** The statements that store a message at the head of the ring. *)
Definition put_message (p_MCB p_msg : Z) : M unit :=
  i ← load p_MCB first_;
  store p_MCB (msgs i) p_msg;;
  rt_inc p_MCB;;
  advance p_MCB first_.

(** The running task joins the queue of a mailbox; the first one sets what the
    queue is for. *)
Definition join_mailbox (p_MCB st : Z) : M unit :=
  p ← load p_MCB p_lnk;
  if negb (p =? NULL) then
    r ← load os_tsk run;
    rt_put_prio p_MCB r
  else
    r ← load os_tsk run;
    store p_MCB p_lnk r;;
    r ← load os_tsk run;
    store r p_lnk NULL;;
    r ← load os_tsk run;
    store r p_rlnk p_MCB;;
    store p_MCB state st.

(** The else part of [rt_mbx_send]: store the message, or wait until there is
    room for it. *)
Definition mbx_store (p_MCB p_msg timeout : Z) : M Z :=
  c ← load p_MCB count_;
  n ← load p_MCB size_;
  if c =? n then
    if timeout =? 0 then mret OS_R_TMO
    else
      join_mailbox p_MCB 2;;
      r ← load os_tsk run;
      store r msg p_msg;;
      rt_block timeout WAIT_MBX;;
      mret OS_R_TMO
  else
    put_message p_MCB p_msg;;
    mret OS_R_OK.

Definition rt_mbx_send (p_MCB p_msg timeout : Z) : M Z :=
  p ← load p_MCB p_lnk;
  receiver ← (if negb (p =? NULL) then st ← load p_MCB state; mret (st =? 1) else mret false);
  if receiver : bool then
    p_TCB ← rt_get_first p_MCB;
    rt_ret_val2 p_TCB osEventMessage p_msg;;
    rt_rmv_dly p_TCB;;
    rt_dispatch p_TCB;;
    mret OS_R_OK
  else mbx_store p_MCB p_msg timeout.

Definition rt_mbx_wait (p_MCB message timeout : Z) : M Z :=
  c ← load p_MCB count_;
  if negb (c =? 0) then
    i ← load p_MCB last_;
    x ← load p_MCB (msgs i);
    store message value x;;
    advance p_MCB last_;;
    p ← load p_MCB p_lnk;
    sender ← (if negb (p =? NULL) then st ← load p_MCB state; mret (st =? 2) else mret false);
    (if sender : bool then
       p_TCB ← rt_get_first p_MCB;
       rt_ret_val p_TCB osOK;;
       i ← load p_MCB first_;
       x ← load p_TCB msg;
       store p_MCB (msgs i) x;;
       advance p_MCB first_;;
       rt_rmv_dly p_TCB;;
       rt_dispatch p_TCB
     else rt_dec p_MCB);;
    mret OS_R_OK
  else if timeout =? 0 then mret OS_R_TMO
  else
    join_mailbox p_MCB 1;;
    rt_block timeout WAIT_MBX;;
    mret OS_R_TMO.

Definition rt_mbx_check (p_MCB : Z) : M Z :=
  n ← load p_MCB size_;
  c ← load p_MCB count_;
  mret (u32 (n - c)).

Definition isr_mbx_send `{ICSR} (p_MCB p_msg : Z) : M unit :=
  rt_psq_enq p_MCB p_msg;;
  rt_psh_req.

Definition isr_mbx_receive `{ICSR} (p_MCB message : Z) : M Z :=
  c ← load p_MCB count_;
  if negb (c =? 0) then
    i ← load p_MCB last_;
    x ← load p_MCB (msgs i);
    store message value x;;
    st ← load p_MCB state;
    when (st =? 2) (rt_psq_enq p_MCB 0;; rt_psh_req);;
    rt_dec p_MCB;;
    advance p_MCB last_;;
    mret OS_R_MBX
  else mret OS_R_OK.

(** The end of each case of the switch in [rt_mbx_psh]. *)
Definition psh_ready (p_TCB : Z) : M unit :=
  store p_TCB state READY;;
  rt_rmv_dly p_TCB;;
  rt_put_prio os_rdy p_TCB.

Definition rt_mbx_psh (p_CB p_msg : Z) : M unit :=
  p ← load p_CB p_lnk;
  if negb (p =? NULL) then
    st ← load p_CB state;
    if st =? 3 then
      mem ← rt_alloc_box p_msg;
      if mem =? NULL then mret tt
      else
        p_TCB ← rt_get_first p_CB;
        rt_ret_val p_TCB mem;;
        psh_ready p_TCB
    else if st =? 2 then
      p_TCB ← rt_get_first p_CB;
      rt_ret_val p_TCB osOK;;
      x ← load p_TCB msg;
      put_message p_CB x;;
      psh_ready p_TCB
    else if st =? 1 then
      p_TCB ← rt_get_first p_CB;
      rt_ret_val2 p_TCB osEventMessage p_msg;;
      psh_ready p_TCB
    else mret tt
  else
    c ← load p_CB count_;
    n ← load p_CB size_;
    if c <? n then
      put_message p_CB p_msg
    else halt OS_ERR_MBX_OVF.

(** ** The ring of messages *)

(** The mailbox [b] has room for [n] messages and holds [ms], oldest first. *)
Record mailbox (m : mem) (b n : Z) (ms : list Z) : Prop := {
  mb_size : m !! (b, size_) = Some n /\ 0 < n < 65536;
  mb_count : m !! (b, count_) = Some (zlen ms) /\ zlen ms <= n;
  mb_ring : exists l, 0 <= l < n /\ m !! (b, last_) = Some l /\
    m !! (b, first_) = Some ((l + zlen ms) mod n) /\
    forall j, 0 <= j < zlen ms -> m !! (b, msgs ((l + j) mod n)) = ms !! Z.to_nat j;
  mb_cells i : 0 <= i < n -> is_Some (m !! (b, msgs i))
}.

(** The cells of the ring. *)
Definition ring_field (f : field) : Prop :=
  f = size_ \/ f = count_ \/ f = first_ \/ f = last_ \/ exists i, f = msgs i.

Lemma mailbox_frame m m' b n ms K :
  mailbox m b n ms -> frame K m m' -> (forall p f, K p f -> ~ (p = b /\ ring_field f)) -> mailbox m' b n ms.
Proof.
  intros [[Hs1 Hs2] [Hc1 Hc2] (l & Hl & Hl1 & Hf & Hm) Hi] HF HK.
  assert (HE : forall f, ring_field f -> m' !! (b, f) = m !! (b, f)).
  { intros f Hf'. apply (proj2 (HF b f)). intros H%HK. by apply H. }
  unfold ring_field in HE. constructor.
  - rewrite HE by tauto. done.
  - rewrite HE by tauto. done.
  - exists l. rewrite !HE by tauto. split_and!; [lia..|done|done|].
    intros j Hj. rewrite HE by eauto 10. auto.
  - intros i Hii. rewrite HE by eauto 10. auto.
Qed.

Lemma mod_add_inj n l i j : 0 <= i < n -> 0 <= j < n -> (l + i) mod n = (l + j) mod n -> i = j.
Proof.
  intros Hi Hj E. assert (H : (i - j) mod n = 0).
  { replace (i - j) with ((l + i) - (l + j)) by lia. rewrite Zminus_mod, E, Z.sub_diag. by apply Z.mod_0_l; lia. }
  apply Z.mod_divide in H as [c Hc]; [|lia]. assert (c = 0) by nia. lia.
Qed.

Lemma mod_next n x : 0 <= x < n -> (if x + 1 =? n then 0 else x + 1) = (x + 1) mod n.
Proof.
  intros Hx. destruct (Z.eqb_spec (x + 1) n) as [->|].
  - by rewrite Z.mod_same by lia.
  - by rewrite Z.mod_small by lia.
Qed.

Lemma zlen_snoc {A} (l : list A) x : zlen (l ++ [x]) = zlen l + 1.
Proof. rewrite length_app. cbn [length]. lia. Qed.

Lemma zlen_cons {A} (l : list A) x : zlen (x :: l) = zlen l + 1.
Proof. cbn [length]. lia. Qed.

Lemma zlen_nonneg {A} (l : list A) : 0 <= zlen l.
Proof. lia. Qed.

(** A memory that differs from [m] by a message stored at the head of the ring. *)
Lemma mailbox_push m m' b n ms v f :
  mailbox m b n ms -> zlen ms < n -> m !! (b, first_) = Some f ->
  m' !! (b, size_) = Some n -> m' !! (b, first_) = Some ((f + 1) mod n) -> m' !! (b, last_) = m !! (b, last_) ->
  m' !! (b, count_) = Some (zlen ms + 1) -> m' !! (b, msgs f) = Some v ->
  (forall i, i <> f -> m' !! (b, msgs i) = m !! (b, msgs i)) ->
  mailbox m' b n (ms ++ [v]).
Proof.
  intros [[Hs1 Hs2] [Hc1 Hc2] (l & Hl & Hl1 & Hf & Hm) Hi] Hn Hfi H1 H2 H3 H4 H5 H6.
  rewrite Hf in Hfi. injection Hfi as <-. pose proof (zlen_nonneg ms).
  constructor.
  - done.
  - rewrite zlen_snoc. split; [done|lia].
  - exists l. rewrite zlen_snoc, H3, H2. split_and!; [lia..|done| |].
    + rewrite Z.add_mod_idemp_l by lia. do 2 f_equal. lia.
    + intros j Hj. destruct (decide (j = zlen ms)) as [->|].
      * rewrite H5. symmetry. rewrite Nat2Z.id. by apply list_lookup_middle.
      * rewrite H6 by (intros E%mod_add_inj; lia). rewrite Hm by lia.
        rewrite lookup_app_l; [done|]. lia.
  - intros i Hii. destruct (decide (i = (l + zlen ms) mod n)) as [->|]; [rewrite H5; eauto|].
    rewrite H6 by done. auto.
Qed.

(** A memory that differs from [m] by the oldest message taken out. *)
Lemma mailbox_pop m m' b n x ms l :
  mailbox m b n (x :: ms) -> m !! (b, last_) = Some l ->
  m' !! (b, size_) = Some n -> m' !! (b, last_) = Some ((l + 1) mod n) -> m' !! (b, first_) = m !! (b, first_) ->
  m' !! (b, count_) = Some (zlen ms) ->
  (forall i, m' !! (b, msgs i) = m !! (b, msgs i)) ->
  mailbox m' b n ms.
Proof.
  intros [[Hs1 Hs2] [Hc1 Hc2] (l0 & Hl & Hl1 & Hf & Hm) Hi] Hl2 H1 H2 H3 H4 H5.
  rewrite Hl1 in Hl2. injection Hl2 as ->. rewrite zlen_cons in *. pose proof (zlen_nonneg ms).
  constructor.
  - done.
  - split; [done|lia].
  - exists ((l + 1) mod n). pose proof (Z.mod_pos_bound (l + 1) n). rewrite H2, H3, Hf.
    split_and!; [lia..|done| |].
    + rewrite Z.add_mod_idemp_l by lia. do 2 f_equal. lia.
    + intros j Hj. rewrite Z.add_mod_idemp_l, H5 by lia. replace (l + 1 + j) with (l + (j + 1)) by lia.
      rewrite Hm by lia. replace (Z.to_nat (j + 1)) with (S (Z.to_nat j)) by lia. done.
  - intros i Hii. rewrite H5. auto.
Qed.

(** The oldest message. *)
Lemma mailbox_hd m b n x ms : mailbox m b n (x :: ms) ->
  exists l, m !! (b, last_) = Some l /\ 0 <= l < n /\ m !! (b, msgs l) = Some x.
Proof.
  intros [_ [_ Hc] (l & Hl & Hl1 & _ & Hm) _]. exists l. split_and!; [done|lia..|].
  rewrite zlen_cons in Hm. specialize (Hm 0). pose proof (zlen_nonneg ms).
  rewrite Z.add_0_r, Z.mod_small in Hm by lia. apply Hm. lia.
Qed.

Lemma mailbox_first m b n ms : mailbox m b n ms -> exists f, m !! (b, first_) = Some f /\ 0 <= f < n.
Proof.
  intros [[_ Hs] _ (l & Hl & _ & Hf & _) _]. eexists. split; [done|]. apply Z.mod_pos_bound. lia.
Qed.

(** An index that is advanced stays in the ring. *)
Lemma advance_spec m b n f i :
  m !! (b, f) = Some i -> m !! (b, size_) = Some n -> 0 <= i < n -> n < 65536 -> f <> size_ ->
  wp (advance b f) (fun _ m' => m' !! (b, f) = Some ((i + 1) mod n) /\
    frame (fun q g => q = b /\ g = f) m m') m.
Proof.
  intros Hf Hn Hi Hn2 Hne. assert (Hs : is_Some (m !! (b, f))) by eauto. unfold advance. wp_run.
  rewrite u16_id by lia. rewrite <- mod_next by done.
  apply wp_when; intros E; [apply Z.eqb_eq in E|apply Z.eqb_neq in E].
  - wp_run. rewrite E, Z.eqb_refl. split; [by look|frames].
  - rewrite (proj2 (Z.eqb_neq _ _)) by done. split; [by look|frames].
Qed.

(** A message is stored at the head of a mailbox that is not full. *)
Lemma put_message_spec m b n ms v :
  mailbox m b n ms -> zlen ms < n ->
  wp (put_message b v) (fun _ m' => mailbox m' b n (ms ++ [v]) /\
    frame (fun q g => q = b /\ ring_field g) m m') m.
Proof.
  intros HM Hlt. pose proof HM as [[Hs1 Hs2] [Hc1 Hc2] _ Hcells].
  destruct (mailbox_first _ _ _ _ HM) as (f & Hf & Hfr). pose proof (zlen_nonneg ms).
  assert (is_Some (m !! (b, msgs f))) by auto. assert (is_Some (m !! (b, count_))) by eauto.
  unfold put_message, rt_inc. wp_run. rewrite u16_id by lia. set (m1 := <[_ := _]> _).
  assert (HF1 : frame (fun q g => q = b /\ (g = count_ \/ g = msgs f)) m m1) by (unfold m1; frames).
  wp_use advance_spec; [unfold m1; by look|unfold m1; by look|done|lia|done|].
  intros _ m2 [Hf2 HF2]. split.
  - eapply (mailbox_push m m2); [done|done|done|..]; try (unfold m1 in *; by flook).
    + destruct (mb_ring _ _ _ _ HM) as (l & _ & Hl & _). rewrite Hl. unfold m1 in *. by flook.
    + intros i Hi. rewrite (proj2 (HF2 _ _)) by naive_solver. unfold m1. by mlook.
  - eapply frame_mono; [by eapply frame_trans|]. unfold ring_field. cbv beta. naive_solver.
Qed.

(** ** Waiting tasks *)

(** [join_mailbox] is [join_queue], followed by setting the state. *)
Lemma join_mailbox_eq b st m Post :
  wp (p ← load b p_lnk; join_queue b;; when (p =? NULL) (store b state st)) Post m ->
  wp (join_mailbox b st) Post m.
Proof.
  Transparent wp. unfold join_mailbox, join_queue, wp, mbind, M_bind.
  destruct (load b p_lnk m) as [p m1|e|] eqn:E; [|done..].
  assert (m1 = m) as -> by (unfold load in E; destruct (m !! (b, p_lnk)); by simplify_eq).
  rewrite E. unfold when. destruct (p =? NULL); cbn [negb].
  - destruct (load os_tsk run m) as [r1 m1|e|]; [|done..].
    destruct (store b p_lnk r1 m1) as [? m2|e|]; [|done..].
    destruct (load os_tsk run m2) as [r2 m3|e|]; [|done..].
    destruct (store r2 p_lnk NULL m3) as [? m4|e|]; [|done..].
    destruct (load os_tsk run m4) as [r3 m5|e|]; [|done..].
    by destruct (store r3 p_rlnk b m5) as [? m6|e|].
  - destruct (load os_tsk run m) as [r1 m1|e|]; [|done..].
    by destruct (rt_put_prio b r1 m1) as [[] m2|e|].
  Opaque wp.
Qed.

Lemma join_mailbox_spec m T pr Q D l b k r st st0 :
  lists m T pr Q D l -> loose T Q D r -> b <> os_rdy -> Q !! b = Some k ->
  m !! (os_tsk, run) = Some r -> m !! (b, state) = Some st0 -> 
  wp (join_mailbox b st) (fun _ m' => lists m' T pr (<[b := insert_prio pr r k]> Q) D l /\
    m' !! (b, state) = Some (match k with [] => st | _ => st0 end) /\
    frame (fun p f => links f \/ (p = b /\ f = state)) m m') m.
Proof.
  intros HL Hr Hb Hk Hrun Hst. pose proof (wait_head _ _ _ _ _ _ _ _ HL Hk) as Hh.
  assert (Hk0 : forall t k', k = t :: k' -> t <> NULL) by (intros t k' ->; by eapply wait_nonnull).
  apply join_mailbox_eq. wp_run. wp_use join_queue_spec; [done..|].
  intros _ m1 [HL1 HF1]. assert (Hst1 : m1 !! (b, state) = Some st0) by (unfold links in HF1; flook).
  assert (is_Some (m1 !! (b, state))) by eauto.
  destruct k as [|t k]; cbn [hdz] in *.
  - cbn [Z.eqb NULL]. wp_run. 
    assert (HF : frame (fun p f => p = b /\ f = state) m1 (<[(b, state) := st]> m1)) by (by apply frame_store).
    split_and!; [|by look|].
    + eapply lists_frame; [done..|]. unfold links, dlinks. naive_solver.
    + eapply frame_mono; [by eapply frame_trans|]. cbv beta. tauto.
  - rewrite (proj2 (Z.eqb_neq _ _)) by (by eapply Hk0). wp_run.
    split_and!; [done|done|]. eapply frame_mono; [done|]. cbv beta. tauto.
Qed.

(** A mailbox that is not a task: its ring and its state are not touched by
    scheduling. *)
Lemma mailbox_sched m m' b n ms K :
  mailbox m b n ms -> frame K m m' ->
  (forall p f, K p f -> links f \/ dlinks f \/ f = word \/ f = new_tsk \/ f = state \/ f = msg \/ f = value) ->
  mailbox m' b n ms.
Proof.
  intros HM HF HK. eapply mailbox_frame; [done..|]. intros p f ?%HK [_ Hr].
  unfold links, dlinks, ring_field in *. naive_solver.
Qed.

(** The first task of a queue is taken and gets its result. *)
Lemma take_first {A : Type} (m : mem) (T : gset Z) (pr : Z -> Z) (Q : gmap Z (list Z)) (D : list (Z * Z))
    (l : list Z) (s t : Z) (k : list Z) (ret : Z -> M unit) (R : mem -> Prop) (c : Z -> M A)
    (Post : A -> mem -> Prop) :
  lists m T pr Q D l -> s <> os_rdy -> Q !! s = Some (t :: k) ->
  (forall m1, lists m1 T pr (<[s := k]> Q) D l -> t ∈ T -> wp (ret t) (fun _ m2 =>
    lists m2 T pr (<[s := k]> Q) D l /\ R m2 /\ frame (fun _ f => f = word) m1 m2) m1) ->
  (forall m2, lists m2 T pr (<[s := k]> Q) D l -> t ∈ T -> free_of (<[s := k]> Q) t -> R m2 ->
    frame (fun _ f => links f \/ f = word) m m2 -> wp (c t) Post m2) ->
  wp (p ← rt_get_first s; ret p;; c p) Post m.
Proof.
  intros HL Hs Hk Hret Hc. wp_step. wp_use lists_get_wait; [done..|].
  intros p m1 (-> & HL1 & Ht & Hf & _ & HF1).
  wp_step. eapply wp_mono; [apply (Hret m1 HL1 Ht)|]. intros _ m2 (HL2 & HR & HF2).
  apply Hc; [done..|]. eapply frame_mono; [by eapply frame_trans|]. cbv beta. tauto.
Qed.

Lemma ret_one m T pr Q D l t v :
  lists m T pr Q D l -> t ∈ T ->
  wp (rt_ret_val t v) (fun _ m' => lists m' T pr Q D l /\ result_is m' t v /\
    frame (fun _ f => f = word) m m') m.
Proof.
  intros HL Ht. wp_use rt_ret_val_spec; [done..|]. intros _ m' (HL' & (sp & H1 & H2) & HF).
  split_and!; [done| |done]. exists sp. split; [flook|done].
Qed.

(** A task that was taken out of a queue by the running task is dispatched. *)
Lemma cancel_dispatch m T pr Q D l r t :
  lists m T pr Q D l -> loose T Q D r -> t ∈ T -> free_of Q t -> t <> r ->
  readies m T l -> (forall x, x ∈ l -> pr x <= pr r) ->
  m !! (os_tsk, run) = Some r -> m !! (os_tsk, new_tsk) = Some r -> m !! (r, state) = Some RUNNING ->
  wp (rt_rmv_dly t;; rt_dispatch t) (fun _ m' =>
    sched m' T pr (<[os_rdy := (dispatch pr t r l).1]> Q) (remove_dly t D)
      (dispatch pr t r l).1 (dispatch pr t r l).2 /\
    frame (sfr [t; r]) m m') m.
Proof.
  intros HL Hr Ht Hf Hne HR Htop Hrun Hnew Hst.
  wp_step. wp_use lists_rmv_dly; [done..|]. intros _ m1 [HL1 HF1]. unfold dlinks in HF1.
  wp_use rt_dispatch_spec; [exact HL1| | |done| |done|by flook..|].
  - split_and!; [done|done|]. rewrite remove_dly_in. tauto.
  - by apply loose_remove_dly.
  - apply readies_without. eapply readies_frame; [done..|]. naive_solver.
  - intros _ m2 [HS HF2]. split; [done|]. eapply frame_mono; [by eapply frame_trans|].
    unfold sfr, dlinks. cbv beta. tauto.
Qed.

(** [psh_ready], for [rt_pop_req]: no task runs at the time. *)
Lemma psh_ready_spec m T pr Q D l t :
  lists m T pr Q D l -> t ∈ T -> free_of Q t -> readies m (T ∖ {[t]}) l ->
  wp (psh_ready t) (fun _ m' =>
    lists m' T pr (<[os_rdy := insert_prio pr t l]> Q) (remove_dly t D) (insert_prio pr t l) /\
    readies m' T (insert_prio pr t l) /\
    frame (fun p f => links f \/ dlinks f \/ (p = t /\ f = state)) m m') m.
Proof.
  intros HL Ht Hf HR. pose proof (state_some _ _ _ _ _ _ _ HL Ht). unfold psh_ready. wp_run.
  set (m1 := <[_ := _]> m).
  assert (HF1 : frame (fun p f => p = t /\ f = state) m m1) by (by apply frame_store).
  assert (HL1 : lists m1 T pr Q D l).
  { eapply lists_frame; [done..|]. unfold links, dlinks. naive_solver. }
  wp_use lists_rmv_dly; [done..|]. intros _ m2 [HL2 HF2]. unfold dlinks in HF2.
  wp_use lists_put_rdy; [exact HL2|split_and!; [done|done|rewrite remove_dly_in; tauto]|].
  intros _ m3 [HL3 HF3]. unfold links in HF3. split_and!; [done| |].
  - eapply readies_frame; [|exact HF3|naive_solver]. eapply readies_frame; [|exact HF2|naive_solver].
    eapply (readies_set _ _ (T ∖ {[t]}) l); [done|intros; by apply without_or| |].
    + intros x Hx. rewrite insert_prio_in. tauto.
    + rewrite insert_prio_in. tauto.
  - eapply frame_mono; [eapply frame_trans; [exact HF1|eapply frame_trans; [exact HF2|exact HF3]]|].
    unfold links, dlinks. cbv beta. tauto.
Qed.

(** ** The services *)

(** The running task, which joined the queue of a mailbox, blocks. *)
Lemma mbx_block_spec m T pr Q D t0 l r b n ms timeout :
  lists m T pr Q D (t0 :: l) -> readies m (T ∖ {[r]}) (t0 :: l) -> r ∈ T -> r ∉ t0 :: l -> r ∉ D.*1 ->
  m !! (os_tsk, run) = Some r -> is_Some (m !! (os_tsk, new_tsk)) -> 0 < timeout < 65536 ->
  mailbox m b n ms -> b ∉ T ->
  wp (rt_block timeout WAIT_MBX) (fun _ m' =>
    sched m' T pr (<[os_rdy := l]> Q) (timeout_dly r timeout D) l t0 /\
    m' !! (r, state) = Some WAIT_MBX /\ m' !! (b, state) = m !! (b, state) /\
    m' !! (r, msg) = m !! (r, msg) /\ mailbox m' b n ms) m.
Proof.
  intros HL HR Hr Hrl HrD Hrun Hnew Hto HM HbT.
  assert (Ht0 : t0 ∈ T) by (apply (q_tasks _ _ _ (l_queues _ _ _ _ _ _ HL) _ _ _ (l_rdy _ _ _ _ _ _ HL)); by left).
  wp_use rt_block_spec; [done..|]. intros _ m2 (HS & Hst2 & HF2).
  unfold sfr in HF2. split_and!; [done|done| | |].
  - apply (proj2 (HF2 _ _)). unfold links, dlinks. intros [H|[H|[H|[_ H]]]]; [naive_solver..|].
    apply HbT. set_solver.
  - apply (proj2 (HF2 _ _)). unfold links, dlinks. naive_solver.
  - eapply mailbox_sched; [done|exact HF2|]. intros p f H. cbv beta in H. tauto.
Qed.

(** The message is stored if there is room; else the caller may wait. *)
Lemma mbx_store_spec m T pr Q D t0 l r b k n ms st v timeout :
  kernel m T pr Q D (t0 :: l) r -> b <> os_rdy -> Q !! b = Some k -> m !! (b, state) = Some st ->
  mailbox m b n ms -> 0 <= timeout < 65536 ->
  wp (mbx_store b v timeout) (fun x m' =>
    if zlen ms =? n then
      x = OS_R_TMO /\
      if timeout =? 0 then m' = m
      else
        sched m' T pr (<[os_rdy := l]> (<[b := insert_prio pr r k]> Q)) (timeout_dly r timeout D) l t0 /\
        m' !! (r, state) = Some WAIT_MBX /\ m' !! (r, msg) = Some v /\ mailbox m' b n ms /\
        m' !! (b, state) = Some (match k with [] => 2 | _ => st end)
    else x = OS_R_OK /\ kernel m' T pr Q D (t0 :: l) r /\ mailbox m' b n (ms ++ [v])) m.
Proof.
  intros HK Hb Hk Hst HM Hto. pose proof HK as [[HL HR Hnew Hr Hrs Htop] Hrun].
  pose proof (mb_size _ _ _ _ HM) as [Hs1 Hs2]. pose proof (mb_count _ _ _ _ HM) as [Hc1 Hc2].
  pose proof (q_head _ _ _ (l_queues _ _ _ _ _ _ HL) _ _ Hk) as [_ HbT].
  unfold mbx_store. wp_run. destruct (Z.eqb_spec (zlen ms) n) as [E|E].
    - destruct (Z.eqb_spec timeout 0); [by wp_run|]. wp_step.
      wp_use join_mailbox_spec; [done..|]. intros _ m1 (HL1 & Hst1 & HF1).
      assert (is_Some (m1 !! (r, msg))).
      { eapply frame_some; [done|]. eapply tcb_some; [apply HL|apply Hr|set_solver]. }
      assert (m1 !! (os_tsk, run) = Some r) by (unfold links in HF1; flook).
      wp_run. set (m2 := <[_ := _]> m1).
      assert (HF2 : frame (fun p f => p = r /\ f = msg) m1 m2) by (by apply frame_store).
      assert (Hrt : r ∉ t0 :: l) by (eapply (proj1 (proj2 Hr)), HL).
      unfold links in HF1.
      wp_use mbx_block_spec; [eapply lists_frame; [exact HL1|exact HF2|]; unfold links, dlinks; naive_solver|..].
      + apply readies_without. eapply readies_frame; [|exact HF2|naive_solver].
        intros x Hx. destruct (HR x Hx) as (sx & Hsx & Hiff). exists sx. split; [|done].
        assert (x <> b) by congruence. flook.
      + apply Hr.
      + done.
      + apply Hr.
      + unfold m2. flook.
      + unfold m2. flook.
      + lia.
      + eapply mailbox_sched; [|exact HF2|naive_solver]. eapply mailbox_sched; [exact HM|exact HF1|].
        unfold links. naive_solver.
      + done.
      + intros _ m3 (HS & Hst3 & Hbs & Hms & HM3). wp_run. split_and!; [done|done|done| |done|].
        * rewrite Hms. unfold m2. by look.
        * rewrite Hbs. unfold m2. by look.
    - wp_step. wp_use put_message_spec; [done|lia|]. intros _ m1 [HM1 HF1]. wp_run.
      split_and!; [done| |done]. eapply kernel_frame; [done..|]. intros p f [-> Hf].
      unfold ring_field, links, dlinks in *. naive_solver.
Qed.

(** C29: [rt_mbx_send]: if a task waits for a message, the first of them gets it,
    leaves the queue and the delay list, and runs next if its priority is
    higher than the caller's.  Otherwise the message is put behind the stored
    ones.  If the mailbox is full, the result is a time-out; the caller then
    waits with its message in the queue, which becomes one of senders, unless
    the time-out is 0. *)
Theorem rt_mbx_send_correct m T pr Q D t0 l r b k n ms st v timeout :
  kernel m T pr Q D (t0 :: l) r -> b <> os_rdy -> Q !! b = Some k -> m !! (b, state) = Some st ->
  mailbox m b n ms -> 0 <= timeout < 65536 ->
  wp (rt_mbx_send b v timeout) (fun x m' =>
    match k, st =? 1 with
    | t :: k', true =>
        x = OS_R_OK /\ mailbox m' b n ms /\ results_are m' t osEventMessage v /\
        sched m' T pr (<[os_rdy := (dispatch pr t r (t0 :: l)).1]> (<[b := k']> Q)) (remove_dly t D)
          (dispatch pr t r (t0 :: l)).1 (dispatch pr t r (t0 :: l)).2
    | _, _ =>
        if zlen ms =? n then
          x = OS_R_TMO /\
          if timeout =? 0 then m' = m
          else
            sched m' T pr (<[os_rdy := l]> (<[b := insert_prio pr r k]> Q)) (timeout_dly r timeout D) l t0 /\
            m' !! (r, state) = Some WAIT_MBX /\ m' !! (r, msg) = Some v /\ mailbox m' b n ms /\
            m' !! (b, state) = Some (match k with [] => 2 | _ => st end)
        else x = OS_R_OK /\ kernel m' T pr Q D (t0 :: l) r /\ mailbox m' b n (ms ++ [v])
    end) m.
Proof.
  intros HK Hb Hk Hst HM Hto. pose proof HK as [[HL HR Hnew Hr Hrs Htop] Hrun].
  pose proof (wait_head _ _ _ _ _ _ _ _ HL Hk) as Hh.
  unfold rt_mbx_send. wp_run. destruct k as [|t k]; cbn [hdz] in *.
  - cbn [Z.eqb NULL negb]. wp_run. by eapply mbx_store_spec with (k := []).
  - rewrite (proj2 (Z.eqb_neq _ _)) by (by eapply wait_nonnull). cbn [negb]. wp_run.
    destruct (Z.eqb_spec st 1) as [->|]; [|by eapply mbx_store_spec with (k := t :: k)].
    destruct (waiter_apart _ _ _ _ _ _ _ _ _ _ HL Hr Hb Hk) as (Htr & Htl & Ht).
    apply (take_first m T pr Q D (t0 :: l) b t k (fun p => rt_ret_val2 p osEventMessage v)
      (fun m => results_are m t osEventMessage v)); [done|done|done| |].
    + intros m1 HL1 Ht1. by apply rt_ret_val2_results.
    + intros m2 HL2 _ Hf Hres HF2. unfold links in HF2.
      assert (Hcd : wp (rt_rmv_dly t;; rt_dispatch t) (fun _ m' =>
        sched m' T pr (<[os_rdy := (dispatch pr t r (t0 :: l)).1]> (<[b := k]> Q)) (remove_dly t D)
          (dispatch pr t r (t0 :: l)).1 (dispatch pr t r (t0 :: l)).2 /\ frame (sfr [t; r]) m2 m') m2).
      { eapply cancel_dispatch; [done| |done|done|done| |done|by flook|by flook|by flook].
        - by apply (loose_shorter _ _ _ _ t).
        - eapply readies_frame; [done..|]. naive_solver. }
      apply wp_unbind in Hcd. wp_step. eapply wp_mono; [exact Hcd|]. intros u m3 Hcd3.
      wp_step. eapply wp_mono; [exact Hcd3|]. intros _ m4 [HS HF4]. wp_run. unfold sfr in HF4.
      split_and!; [done| | |done].
      * eapply mailbox_sched; [|exact HF4|intros p f H; cbv beta in H; tauto].
        eapply mailbox_sched; [exact HM|exact HF2|]. unfold links. naive_solver.
      * eapply results_frame; [done..|]. unfold links, dlinks. naive_solver.
Qed.

(** A memory that differs from [m] by the oldest message taken out and a new one
    stored. *)
Lemma mailbox_shift m m' b n x ms v l f :
  mailbox m b n (x :: ms) -> m !! (b, last_) = Some l -> m !! (b, first_) = Some f ->
  m' !! (b, size_) = Some n -> m' !! (b, last_) = Some ((l + 1) mod n) ->
  m' !! (b, first_) = Some ((f + 1) mod n) -> m' !! (b, count_) = m !! (b, count_) ->
  m' !! (b, msgs f) = Some v -> (forall i, i <> f -> m' !! (b, msgs i) = m !! (b, msgs i)) ->
  mailbox m' b n (ms ++ [v]).
Proof.
  intros HM Hl Hf H1 H2 H3 H4 H5 H6. pose proof (mb_count _ _ _ _ HM) as [Hc1 Hc2]. rewrite zlen_cons in *.
  set (m1 := <[(b, count_) := zlen ms]> (<[(b, last_) := (l + 1) mod n]> m)).
  eapply (mailbox_push m1 m').
  - eapply (mailbox_pop m m1); [exact HM|exact Hl|..]; unfold m1; mlook; try done; [apply HM|].
    intros i. by mlook.
  - lia.
  - unfold m1. by look.
  - done.
  - done.
  - unfold m1. rewrite H2. by look.
  - rewrite H4, Hc1. done.
  - done.
  - intros i Hi. rewrite H6 by done. unfold m1. by mlook.
Qed.

(** [rt_mbx_wait] on an empty mailbox. *)
Lemma mbx_wait_empty m T pr Q D t0 l r b k n st timeout :
  kernel m T pr Q D (t0 :: l) r -> b <> os_rdy -> Q !! b = Some k -> m !! (b, state) = Some st ->
  mailbox m b n [] -> 0 < timeout < 65536 ->
  wp (join_mailbox b 1;; rt_block timeout WAIT_MBX;; mret OS_R_TMO) (fun x m' =>
    x = OS_R_TMO /\
    sched m' T pr (<[os_rdy := l]> (<[b := insert_prio pr r k]> Q)) (timeout_dly r timeout D) l t0 /\
    m' !! (r, state) = Some WAIT_MBX /\ mailbox m' b n [] /\
    m' !! (b, state) = Some (match k with [] => 1 | _ => st end)) m.
Proof.
  intros HK Hb Hk Hst HM Hto. pose proof HK as [[HL HR Hnew Hr Hrs Htop] Hrun].
  pose proof (q_head _ _ _ (l_queues _ _ _ _ _ _ HL) _ _ Hk) as [_ HbT].
  assert (Hrt : r ∉ t0 :: l) by (eapply (proj1 (proj2 Hr)), HL).
  wp_step. wp_use join_mailbox_spec; [done..|]. intros _ m1 (HL1 & Hst1 & HF1). unfold links in HF1.
  wp_step. wp_use mbx_block_spec; [exact HL1| |apply Hr|done|apply Hr|flook|flook|lia| |done|].
  - apply readies_without. intros x Hx. destruct (HR x Hx) as (sx & Hsx & Hiff). exists sx. split; [|done].
    assert (x <> b) by congruence. flook.
  - eapply mailbox_sched; [exact HM|exact HF1|]. unfold links. naive_solver.
  - intros _ m3 (HS & Hst3 & Hbs & Hms & HM3). wp_run. split_and!; [done|done|done|done|by rewrite Hbs].
Qed.

(** [rt_mbx_wait] with a message and a waiting sender. *)
Lemma mbx_wait_refill m T pr Q D l r b t k n x0 ms message timeout :
  kernel m T pr Q D l r -> b <> os_rdy -> Q !! b = Some (t :: k) -> m !! (b, state) = Some 2 ->
  mailbox m b n (x0 :: ms) -> is_Some (m !! (message, value)) ->
  wp (rt_mbx_wait b message timeout) (fun x m' => x = OS_R_OK /\ m' !! (message, value) = Some x0 /\
    result_is m' t osOK /\ (exists y, m !! (t, msg) = Some y /\ mailbox m' b n (ms ++ [y])) /\
    sched m' T pr (<[os_rdy := (dispatch pr t r l).1]> (<[b := k]> Q)) (remove_dly t D)
      (dispatch pr t r l).1 (dispatch pr t r l).2) m.
Proof.
  intros HK Hb Hk Hst HM Hv. pose proof HK as [[HL HR Hnew Hr Hrs Htop] Hrun].
  pose proof (wait_head _ _ _ _ _ _ _ _ HL Hk) as Hh. cbn [hdz] in Hh.
  pose proof (mb_size _ _ _ _ HM) as [Hs1 Hs2]. pose proof (mb_count _ _ _ _ HM) as [Hc1 Hc2].
  destruct (mailbox_hd _ _ _ _ _ HM) as (i & Hi & Hir & Hx0).
  destruct (mailbox_first _ _ _ _ HM) as (f & Hf & Hfr).
  destruct (waiter_apart _ _ _ _ _ _ _ _ _ _ HL Hr Hb Hk) as (Htr & Htl & Ht).
  assert (exists y, m !! (t, msg) = Some y) as [y Hy] by (eapply (tcb_some _ _ _ _ msg); [apply HL|done|set_solver]).
  pose proof (wait_nonnull _ _ _ _ _ _ _ _ _ HL Hk) as Ht0. pose proof (zlen_nonneg ms).
  unfold rt_mbx_wait. wp_run. rewrite zlen_cons, (proj2 (Z.eqb_neq _ 0)) by lia. cbn [negb]. wp_run.
  set (m1 := <[_ := _]> m). assert (HF1 : frame (fun p f => p = message /\ f = value) m m1) by (by apply frame_store).
  wp_use advance_spec; [unfold m1; by look|unfold m1; by look|done|lia|done|].
  intros _ m2 [Hl2 HF2].
  assert (HK2 : kernel m2 T pr Q D l r).
  { eapply kernel_frame; [eapply kernel_frame; [exact HK|exact HF1|]|exact HF2|]; unfold links, dlinks; naive_solver. }
  pose proof HK2 as [[HL2 HR2 Hnew2 _ Hrs2 _] Hrun2].
  assert (m2 !! (b, p_lnk) = Some t) by (unfold m1 in *; flook).
  assert (m2 !! (b, state) = Some 2) by (unfold m1 in *; flook).
  wp_run. rewrite (proj2 (Z.eqb_neq _ _)) by done. cbn [negb]. wp_run. rewrite Z.eqb_refl.
  assert (Htake := take_first m2 T pr Q D l b t k (fun p => rt_ret_val p osOK)
      (fun m => result_is m t osOK) (fun p_TCB => i ← load b first_;
       x ← load p_TCB msg; store b (msgs i) x;; advance b first_;; rt_rmv_dly p_TCB;; rt_dispatch p_TCB)).
  eapply Htake; [done|done|done| |].
  { intros m3 HL3 _. by apply ret_one. }
  clear Htake. intros m3 HL3 _ Hfree Hres HF3. unfold links in HF3.
  assert (m3 !! (b, first_) = Some f) by (unfold m1 in *; flook).
  assert (m3 !! (t, msg) = Some y) by (unfold m1 in *; flook).
  assert (m3 !! (b, size_) = Some n) by (unfold m1 in *; flook).
  assert (is_Some (m3 !! (b, msgs f))).
  { eapply frame_some; [exact HF3|]. eapply frame_some; [exact HF2|]. eapply frame_some; [exact HF1|]. by apply HM. }
  wp_run. set (m4 := <[_ := _]> m3).
  assert (HF4 : frame (fun p g => p = b /\ g = msgs f) m3 m4) by (by apply frame_store).
  wp_use advance_spec; [unfold m4; by look|unfold m4; by look|done|lia|done|].
  intros _ m5 [Hf5 HF5].
  assert (HF35 : frame (fun p g => p = b /\ (g = msgs f \/ g = first_)) m3 m5).
  { eapply frame_mono; [by eapply frame_trans|]. cbv beta. tauto. }
  assert (Hcd : wp (rt_rmv_dly t;; rt_dispatch t) (fun _ m' =>
    sched m' T pr (<[os_rdy := (dispatch pr t r l).1]> (<[b := k]> Q)) (remove_dly t D)
      (dispatch pr t r l).1 (dispatch pr t r l).2 /\ frame (sfr [t; r]) m5 m') m5).
  { eapply cancel_dispatch; [|by apply (loose_shorter _ _ _ _ t)|done|done|done| |done|flook|flook|flook].
    - eapply lists_frame; [exact HL3|exact HF35|]. unfold links, dlinks. naive_solver.
    - eapply readies_frame; [|exact HF35|naive_solver]. eapply readies_frame; [exact HR2|exact HF3|naive_solver]. }
  eapply wp_mono; [exact Hcd|]. intros _ m6 [HS HF6]. wp_run. unfold sfr, links, dlinks in HF6.
  assert (Hm5 : forall g, ring_field g -> m6 !! (b, g) = m5 !! (b, g)).
  { intros g Hg. apply (proj2 (HF6 b g)). unfold ring_field in Hg. naive_solver. }
  unfold ring_field in Hm5.
  split_and!; [done| | | |done].
  - unfold m1 in *. flook.
  - eapply result_frame; [eapply result_frame; [exact Hres|exact HF35|naive_solver]|exact HF6|naive_solver].
  - exists y. split; [done|]. eapply (mailbox_shift m m6 b n x0 ms y i f); [done|done|done|..].
    + rewrite Hm5 by tauto. unfold m1, m4 in *. flook.
    + rewrite Hm5 by tauto. unfold m1, m4 in *. flook.
    + rewrite Hm5 by tauto. done.
    + rewrite Hm5, Hc1 by tauto. unfold m1, m4 in *. flook.
    + rewrite Hm5 by eauto 10. unfold m4 in *. flook.
    + intros j Hj. rewrite Hm5 by eauto 10.
      rewrite (proj2 (HF35 _ _)) by naive_solver. rewrite (proj2 (HF3 _ _)) by naive_solver.
      rewrite (proj2 (HF2 _ _)) by naive_solver. by rewrite (proj2 (HF1 _ _)) by naive_solver.
Qed.

(** [rt_mbx_wait] with a message and no waiting sender. *)
Lemma mbx_wait_take m T pr Q D l r b k n x0 ms st message timeout :
  kernel m T pr Q D l r -> b <> os_rdy -> Q !! b = Some k -> m !! (b, state) = Some st ->
  (k = [] \/ st <> 2) -> mailbox m b n (x0 :: ms) -> is_Some (m !! (message, value)) ->
  wp (rt_mbx_wait b message timeout) (fun x m' => x = OS_R_OK /\ m' !! (message, value) = Some x0 /\
    kernel m' T pr Q D l r /\ mailbox m' b n ms) m.
Proof.
  intros HK Hb Hk Hst Hns HM Hv. pose proof HK as [[HL _ _ _ _ _] _].
  pose proof (wait_head _ _ _ _ _ _ _ _ HL Hk) as Hh.
  pose proof (mb_size _ _ _ _ HM) as [Hs1 Hs2]. pose proof (mb_count _ _ _ _ HM) as [Hc1 Hc2].
  destruct (mailbox_hd _ _ _ _ _ HM) as (i & Hi & Hir & Hx0). pose proof (zlen_nonneg ms).
  rewrite zlen_cons in Hc1, Hc2.
  unfold rt_mbx_wait. wp_run. rewrite (proj2 (Z.eqb_neq _ 0)) by lia. cbn [negb]. wp_run.
  set (m1 := <[_ := _]> m). assert (HF1 : frame (fun p f => p = message /\ f = value) m m1) by (by apply frame_store).
  wp_use advance_spec; [unfold m1; by look|unfold m1; by look|done|lia|done|].
  intros _ m2 [Hl2 HF2].
  assert (m2 !! (b, p_lnk) = Some (hdz k)) by (unfold m1 in *; flook).
  assert (m2 !! (b, state) = Some st) by (unfold m1 in *; flook).
  assert (Hc : m2 !! (b, count_) = Some (zlen ms + 1)) by (unfold m1 in *; flook).
  assert (is_Some (m2 !! (b, count_))) by eauto.
  wp_run.
  eapply wp_mono with (Q' := fun s m' => s = false /\ m' = m2).
  { destruct k as [|t k]; cbn [hdz].
    - cbn [Z.eqb NULL negb]. by wp_run.
    - rewrite (proj2 (Z.eqb_neq _ _)) by (eapply (wait_nonnull _ _ _ _ _ _ _ _ _ HL Hk)). cbn [negb].
      wp_run. destruct Hns as [|Hns]; [done|]. split; [by apply Z.eqb_neq|done]. }
  intros s m' [-> ->]. unfold rt_dec. wp_run. rewrite u16_id by lia.
  replace (zlen ms + 1 - 1) with (zlen ms) by lia. set (m3 := <[_ := _]> m2).
  assert (HF3 : frame (fun p f => p = b /\ f = count_) m2 m3) by (by apply frame_store).
  split_and!; [done|unfold m1, m3 in *; flook| |].
  - eapply kernel_frame; [eapply kernel_frame; [eapply kernel_frame; [exact HK|exact HF1|]|exact HF2|]|exact HF3|];
      unfold links, dlinks; naive_solver.
  - eapply (mailbox_pop m m3); [exact HM|exact Hi|..]; try (unfold m1, m3 in *; flook).
    + destruct (mailbox_first _ _ _ _ HM) as (f & Hf & _). rewrite Hf. unfold m1, m3 in *. flook.
    + intros j. unfold m3. mlook. rewrite (proj2 (HF2 _ _)) by naive_solver. unfold m1. by mlook.
Qed.

(** [rt_mbx_wait]: the oldest message is taken out; if a sender waits for
    room, its message takes the last place, it succeeds, and it runs next if its
    priority is higher than the caller's.  Without message the result is a
    time-out; the caller then waits in the queue, which becomes one of
    receivers, unless the time-out is 0. *)
Theorem rt_mbx_wait_correct m T pr Q D t0 l r b k n ms st message timeout :
  kernel m T pr Q D (t0 :: l) r -> b <> os_rdy -> Q !! b = Some k -> m !! (b, state) = Some st ->
  mailbox m b n ms -> is_Some (m !! (message, value)) -> 0 <= timeout < 65536 ->
  wp (rt_mbx_wait b message timeout) (fun x m' =>
    match ms with
    | x0 :: ms' =>
        x = OS_R_OK /\ m' !! (message, value) = Some x0 /\
        match k, st =? 2 with
        | t :: k', true =>
            result_is m' t osOK /\ (exists y, m !! (t, msg) = Some y /\ mailbox m' b n (ms' ++ [y])) /\
            sched m' T pr (<[os_rdy := (dispatch pr t r (t0 :: l)).1]> (<[b := k']> Q)) (remove_dly t D)
              (dispatch pr t r (t0 :: l)).1 (dispatch pr t r (t0 :: l)).2
        | _, _ => kernel m' T pr Q D (t0 :: l) r /\ mailbox m' b n ms'
        end
    | [] =>
        x = OS_R_TMO /\
        if timeout =? 0 then m' = m
        else
          sched m' T pr (<[os_rdy := l]> (<[b := insert_prio pr r k]> Q)) (timeout_dly r timeout D) l t0 /\
          m' !! (r, state) = Some WAIT_MBX /\ mailbox m' b n [] /\
          m' !! (b, state) = Some (match k with [] => 1 | _ => st end)
    end) m.
Proof.
  intros HK Hb Hk Hst HM Hv Hto. destruct ms as [|x0 ms].
  - pose proof (mb_count _ _ _ _ HM) as [Hc1 _]. unfold rt_mbx_wait. wp_run. cbn [length Z.of_nat Z.eqb negb].
    destruct (Z.eqb_spec timeout 0); [by wp_run|]. eapply mbx_wait_empty; try done. lia.
  - destruct k as [|t k]; [|destruct (Z.eqb_spec st 2) as [->|]].
    + eapply mbx_wait_take; try done. by left.
    + by eapply mbx_wait_refill.
    + eapply mbx_wait_take; try done. by right.
Qed.

(** ** Requests from interrupts *)

(** The cells [rt_psh_req] uses. *)
Definition psh_cells (m : mem) : Prop :=
  is_Some (m !! (os_lock, value)) /\ is_Some (m !! (os_psh_flag, value)) /\ is_Some (m !! (NVIC_INT_CTRL, value)).

Lemma rt_psh_req_spec `{ICSR} m : psh_cells m ->
  wp rt_psh_req (fun _ m' => frame (fun p f => f = value /\ (p = os_psh_flag \/ p = NVIC_INT_CTRL)) m m') m.
Proof.
  intros ([v1 H1] & H2 & H3). unfold rt_psh_req, write_int_ctrl. wp_run.
  destruct (v1 =? __FALSE).
  - destruct H3 as [v3 H3]. assert (is_Some (m !! (NVIC_INT_CTRL, value))) by eauto. wp_run.
    eapply frame_mono; [by apply frame_store|]. cbv beta. naive_solver.
  - wp_run. eapply frame_mono; [by apply frame_store|]. cbv beta. naive_solver.
Qed.

(** The requests of an interrupt handler: the block it names and the argument. *)
Lemma post_request `{ICSR} m n first count entry arg :
  psq m n first count -> count < n -> psh_cells m ->
  wp (rt_psq_enq entry arg;; rt_psh_req) (fun _ m' =>
    psq m' n (if first + 1 =? n then 0 else first + 1) (count + 1) /\
    m' !! (os_psq, q_id first) = Some entry /\ m' !! (os_psq, q_arg first) = Some arg /\
    frame (fun p f => (p = os_psq /\ (f = count_ \/ f = first_ \/ f = q_id first \/ f = q_arg first)) \/
      (f = value /\ (p = os_psh_flag \/ p = NVIC_INT_CTRL))) m m') m.
Proof.
  intros HP Hlt (H1 & H2 & H3). pose proof (rt_psq_enq_spec m n first count entry arg HP) as Henq.
  rewrite (proj2 (Z.ltb_lt _ _)) in Henq by done. wp_step. eapply wp_mono; [exact Henq|].
  intros _ m1 (HP1 & Hid & Harg & HF1).
  wp_use rt_psh_req_spec; [split_and!; by eapply frame_some|]. intros _ m2 HF2.
  split_and!; [|by flook|by flook|by eapply frame_trans].
  destruct HP1 as [Ha Hb Hc Hd He]. constructor; [by flook|by flook|by flook|done|].
  intros i Hi. destruct (He i Hi). split; by eapply frame_some.
Qed.

(** [isr_mbx_receive] decides by [state] alone whether a sender waits.  After
    the last waiting sender timed out, [state] is still 2, and receiving a
    message in an interrupt posts a request for a sender that is not there: when
    it is served, a null message that nobody sent is stored in the mailbox. *)
Theorem isr_receive_phantom `{ICSR} m T pr Q D l b n x0 ms message pn first count :
  lists m T pr Q D l -> b <> os_rdy -> b <> os_psq -> Q !! b = Some [] -> m !! (b, state) = Some 2 ->
  mailbox m b n (x0 :: ms) -> is_Some (m !! (message, value)) ->
  message <> os_psh_flag -> message <> NVIC_INT_CTRL ->
  psq m pn first count -> count < pn -> psh_cells m ->
  wp (isr_mbx_receive b message;;
      id ← load os_psq (q_id first);
      arg ← load os_psq (q_arg first);
      rt_mbx_psh id arg) (fun _ m' =>
    m' !! (message, value) = Some x0 /\ mailbox m' b n (ms ++ [NULL])) m.
Proof.
  intros HL Hb Hbp Hk Hst HM Hv Hm1 Hm2 HP Hlt Hc.
  pose proof (wait_head _ _ _ _ _ _ _ _ HL Hk) as Hh. cbn [hdz] in Hh.
  pose proof (mb_size _ _ _ _ HM) as [Hs1 Hs2]. pose proof (mb_count _ _ _ _ HM) as [Hc1 Hc2].
  destruct (mailbox_hd _ _ _ _ _ HM) as (i & Hi & Hir & Hx0). pose proof (zlen_nonneg ms).
  rewrite zlen_cons in Hc1, Hc2. wp_step.
  unfold isr_mbx_receive. wp_run. rewrite (proj2 (Z.eqb_neq _ 0)) by lia. cbn [negb]. wp_run.
  set (m1 := <[_ := _]> m). assert (HF1 : frame (fun p f => p = message /\ f = value) m m1) by (by apply frame_store).
  assert (m1 !! (b, state) = Some 2) by (unfold m1; by look). wp_run. rewrite Z.eqb_refl.
  change (when true ?c) with c.
  wp_use (post_request m1 pn first count b 0); [|done| |].
  { destruct HP as [Ha Hb' Hc' Hd He]. constructor; [unfold m1; by look..|done|].
    intros j Hj. destruct (He j Hj). split; by eapply frame_some. }
  { destruct Hc as (? & ? & ?). split_and!; by eapply frame_some. }
  intros _ m2 (_ & Hid & Harg & HF2).
  assert (m2 !! (b, count_) = Some (zlen ms + 1)) by (unfold m1 in *; flook).
  assert (is_Some (m2 !! (b, count_))) by eauto.
  unfold rt_dec. wp_run. rewrite u16_id by lia. replace (zlen ms + 1 - 1) with (zlen ms) by lia.
  set (m3 := <[_ := _]> m2).
  assert (HF3 : frame (fun p f => p = b /\ f = count_) m2 m3) by (by apply frame_store).
  wp_use advance_spec; [unfold m1, m3 in *; flook|unfold m1, m3 in *; flook|done|lia|done|].
  intros _ m4 [Hl4 HF4]. wp_run.
  assert (m4 !! (os_psq, q_id first) = Some b) by (unfold m3 in *; flook).
  assert (m4 !! (os_psq, q_arg first) = Some 0) by (unfold m3 in *; flook).
  wp_run. unfold rt_mbx_psh.
  assert (m4 !! (b, p_lnk) = Some NULL) by (unfold m1, m3 in *; flook).
  assert (m4 !! (b, count_) = Some (zlen ms)) by (unfold m1, m3 in *; flook).
  assert (m4 !! (b, size_) = Some n) by (unfold m1, m3 in *; flook).
  wp_run. cbn [Z.eqb NULL negb]. wp_run. rewrite (proj2 (Z.ltb_lt _ _)) by lia.
  wp_use (put_message_spec m4 b n ms); [|lia|].
  - eapply (mailbox_pop m m4); [exact HM|exact Hi|..]; try done.
    + destruct (mailbox_first _ _ _ _ HM) as (f & Hf & _). rewrite Hf. unfold m1, m3 in *. flook.
    + intros j. rewrite (proj2 (HF4 _ _)) by naive_solver. unfold m3. mlook.
      rewrite (proj2 (HF2 _ _)) by naive_solver. unfold m1. by mlook.
  - intros _ m5 [HM5 HF5]. split; [|done]. unfold ring_field in HF5.
    eapply (frame_eq _ _ _ _ _ _ HF5); [|naive_solver]. clear HF5 HM5. unfold m1, m3 in *. flook.
Qed.

(** ** Examples *)

Definition mbx1 : Z := 700.
Definition var1 : Z := 800.

(** The system of [start] with a mailbox for two messages. *)
Definition mbx_start : mem :=
  mem_of (rt_mbx_init mbx1 24 (list_to_map
    [((mbx1, cb_type), 0); ((mbx1, state), 0); ((mbx1, isr_st), 0); ((mbx1, p_lnk), 0); ((mbx1, first_), 0);
     ((mbx1, last_), 0); ((mbx1, count_), 0); ((mbx1, size_), 0); ((mbx1, msgs 0), 0); ((mbx1, msgs 1), 0);
     ((os_lock, value), 0); ((os_psh_flag, value), 0); ((NVIC_INT_CTRL, value), 0); ((var1, value), 0)] ∪ start)).

Definition mbx_queues (l k : list Z) : list (Z * list Z) := [(os_rdy, l); (sem1, []); (mut1, []); (mbx1, k)].

(** A mailbox of two messages, decided. *)
Definition mailbox2_ok (m : mem) (ms : list Z) : Prop :=
  m !! (mbx1, size_) = Some 2 /\ m !! (mbx1, count_) = Some (zlen ms) /\ zlen ms <= 2 /\
  holds (m !! (mbx1, last_)) (fun l => 0 <= l < 2 /\ m !! (mbx1, first_) = Some ((l + zlen ms) mod 2) /\
    Forall (fun j => Z.of_nat j < zlen ms -> m !! (mbx1, msgs ((l + Z.of_nat j) mod 2)) = ms !! j) [0%nat; 1%nat]) /\
  Forall (fun i => is_Some (m !! (mbx1, msgs i))) [0; 1].

#[export] Instance mailbox2_ok_dec m ms : Decision (mailbox2_ok m ms).
Proof. unfold mailbox2_ok. apply _. Defined.

Lemma mailbox_by_check m ms : bool_decide (mailbox2_ok m ms) = true -> mailbox m mbx1 2 ms.
Proof.
  intros (H1 & H2 & H3 & H4 & H5)%bool_decide_eq_true_1. rewrite !Forall_cons in H5.
  constructor; [split; [done|lia]|done| |].
  - destruct (m !! (mbx1, last_)) as [l|] eqn:E; [|done]. destruct H4 as (Hl & Hf & Hj).
    rewrite !Forall_cons in Hj. exists l. split_and!; [lia..|done|done|]. intros j Hjr.
    assert (j = 0 \/ j = 1) as [->| ->] by lia; apply Hj; lia.
  - intros i Hi. assert (i = 0 \/ i = 1) as [->| ->] by lia; apply H5.
Qed.

(** C waits for a message; A runs, then sends one. *)
Definition mbx_waiting : mem := mem_of ((rt_mbx_wait mbx1 var1 0xffff;; switch_context) mbx_start).

Lemma rt_mbx_send_witness :
  wp (rt_mbx_send mbx1 77 0) (fun x m' => x = OS_R_OK /\ results_are m' taskC osEventMessage 77 /\
    exists Q, sched m' (list_to_set all_tasks) (prio_of mbx_waiting) Q [] [taskA; taskB; idle] taskC) mbx_waiting.
Proof.
  wp_use (rt_mbx_send_correct mbx_waiting (list_to_set all_tasks) (prio_of mbx_waiting)
    (list_to_map (mbx_queues [taskB; idle] [taskC])) [] taskB [idle] taskA mbx1 [taskC] 2 [] 1 77 0).
  - apply (kernel_by_check _ all_tasks). vm_compute. reflexivity.
  - done.
  - vm_compute. reflexivity.
  - vm_compute. reflexivity.
  - apply mailbox_by_check. vm_compute. reflexivity.
  - lia.
  - cbn [Z.eqb Pos.eqb]. intros x m' (-> & _ & Hres & HS). split_and!; [done|done|]. eexists.
    replace (dispatch _ _ _ _) with ([taskA; taskB; idle], taskC) in HS by (vm_compute; reflexivity).
    exact HS.
Defined.

(** Two messages fill the mailbox; then C waits to send a third one. *)
Definition mbx_full : mem := mem_of ((rt_mbx_send mbx1 7 0;; rt_mbx_send mbx1 8 0) mbx_start).
Definition mbx_sender : mem := mem_of ((rt_mbx_send mbx1 9 5;; switch_context) mbx_full).

Lemma rt_mbx_wait_witness :
  wp (rt_mbx_wait mbx1 var1 0) (fun x m' => x = OS_R_OK /\ m' !! (var1, value) = Some 7 /\
    mailbox m' mbx1 2 [8; 9] /\
    exists Q, sched m' (list_to_set all_tasks) (prio_of mbx_sender) Q [] [taskA; taskB; idle] taskC) mbx_sender.
Proof.
  wp_use (rt_mbx_wait_correct mbx_sender (list_to_set all_tasks) (prio_of mbx_sender)
    (list_to_map (mbx_queues [taskB; idle] [taskC])) [(taskC, 5)] taskB [idle] taskA mbx1 [taskC] 2 [7; 8] 2 var1 0).
  - apply (kernel_by_check _ all_tasks). vm_compute. reflexivity.
  - done.
  - vm_compute. reflexivity.
  - vm_compute. reflexivity.
  - apply mailbox_by_check. vm_compute. reflexivity.
  - eexists. vm_compute. reflexivity.
  - lia.
  - cbn [Z.eqb Pos.eqb]. intros x m' (-> & Hv & _ & (y & Hy & HM) & HS). split_and!; [done|done| |].
    + replace y with 9 in HM; [exact HM|]. vm_compute in Hy. congruence.
    + eexists. replace (dispatch _ _ _ _) with ([taskA; taskB; idle], taskC) in HS by (vm_compute; reflexivity).
      exact HS.
Defined.

(** C's time-out expires (the five ticks of [rt_systick]). *)
Definition mbx_timed_out : mem :=
  mem_of ((store taskA state READY;; rt_put_rdy_first taskA;;
    rt_dec_dly;; rt_dec_dly;; rt_dec_dly;; rt_dec_dly;; rt_dec_dly;;
    p ← rt_get_first os_rdy; rt_switch_req p;; switch_context) mbx_sender).

Definition icsr_plain : ICSR := fun _ v => v.

Lemma isr_receive_phantom_witness :
  wp (isr_mbx_receive (H := icsr_plain) mbx1 var1;;
      id ← load os_psq (q_id 0);
      arg ← load os_psq (q_arg 0);
      rt_mbx_psh id arg) (fun _ m' => m' !! (var1, value) = Some 7 /\ mailbox m' mbx1 2 [8; NULL]) mbx_timed_out.
Proof.
  apply (isr_receive_phantom (H := icsr_plain) mbx_timed_out (list_to_set all_tasks) (prio_of mbx_timed_out)
    (list_to_map (mbx_queues [taskA; taskB; idle] [])) [] [taskA; taskB; idle] mbx1 2 7 [8] var1 2 0 0).
  - apply s_lists with taskC. apply (sched_by_check _ all_tasks). vm_compute. reflexivity.
  - done.
  - done.
  - vm_compute. reflexivity.
  - vm_compute. reflexivity.
  - apply mailbox_by_check. vm_compute. reflexivity.
  - eexists. vm_compute. reflexivity.
  - done.
  - done.
  - constructor; [vm_compute; reflexivity..|lia|].
    intros i Hi. assert (i = 0 \/ i = 1) as [->| ->] by lia; split; eexists; vm_compute; reflexivity.
  - lia.
  - split_and!; eexists; vm_compute; reflexivity.
Defined.
