(* ===== verification/RtxTimer.v ===== *)
(** * Software timers of the CMSIS layer ([rt_CMSIS.c])

    The running timers form a list sorted by expiry; each block stores the
    ticks between the previous timer and itself.  [timers] gives the list with
    absolute remaining times; starting, stopping and the tick are proved against
    the operations on those times. *)

From S2P Require Export RtxMbx.

(** ** Status codes and helpers ([cmsis_os.h], [rt_CMSIS.c]) *)

Definition osEventMail : Z := 0x20.
Definition osEventTimeout : Z := 0x40.
Definition osErrorParameter : Z := 0x80.
Definition osErrorResource : Z := 0x81.
Definition osErrorISR : Z := 0x82.
Definition osErrorPriority : Z := 0x84.
Definition osErrorValue : Z := 0x86.
Definition osErrorTimeoutResource : Z := 0xC1.
Definition osErrorOS : Z := 0xFF.
Definition osWaitForever : Z := 0xFFFFFFFF.

(** [mbed_die] never returns. *)
Definition sysThreadError (status : Z) : M unit :=
  if negb (status =? osOK) then halt status else mret tt.

(** [sysThreadError (status); return NULL;] *)
Definition create_error (status : Z) : M Z :=
  sysThreadError status;;
  mret NULL.

(** Conversion of milliseconds to ticks of [clockrate] microseconds. *)
Definition ms2tick (clockrate millisec : Z) : Z :=
  if millisec =? osWaitForever then 0xFFFF
  else if 4000000 <? millisec then 0xFFFE
  else
    let tick := u32 (u32 (u32 (1000 * millisec) + clockrate) - 1) / clockrate in
    if 0xFFFE <? tick then 0xFFFE else tick.

Definition rt_ms2tick (millisec : Z) : M Z :=
  c ← load os_clockrate value;
  if c =? 0 then stuck else mret (ms2tick c millisec).

(** [OS_SECTIONS_LINK_INFO] is not defined. *)
Definition rt_tid2ptcb (thread_id : Z) : M Z :=
  if thread_id =? NULL then mret NULL
  else if negb (Z.land thread_id 3 =? 0) then mret NULL
  else
    ty ← load thread_id cb_type;
    if negb (ty =? TCB) then mret NULL else mret thread_id.

Definition rt_id2obj (id : Z) : Z :=
  if negb (Z.land id 3 =? 0) then NULL else id.

(** ** The list of running timers *)

Definition osTimerInvalid : Z := 0.
Definition osTimerStopped : Z := 1.
Definition osTimerRunning : Z := 2.
Definition osTimerOnce : Z := 0.
Definition osTimerPeriodic : Z := 1.

(** [while (p != NULL)] of [rt_timer_insert]: the remaining count, the block
    before the place of insertion and the block behind it. *)
Fixpoint timer_insert_loop (fuel : nat) (d prev p : Z) : M (Z * Z * Z) :=
  match fuel with
  | O => stuck
  | S fuel =>
      if p =? NULL then mret (d, prev, p)
      else
        c ← load p tcnt;
        if d <? c then mret (d, prev, p)
        else
          n ← load p next_;
          timer_insert_loop fuel (u32 (d - c)) p n
  end.

Definition rt_timer_insert (pt d : Z) : M unit :=
  p ← load os_timer_head value;
  fuel ← mem_fuel;
  '(d, prev, p) ← timer_insert_loop fuel d NULL p;
  store pt next_ p;;
  store pt tcnt (u16 d);;
  when (negb (p =? NULL)) (
    c ← load p tcnt;
    x ← load pt tcnt;
    store p tcnt (u16 (c - x)));;
  if negb (prev =? NULL) then store prev next_ pt
  else store os_timer_head value pt.

(** [while (p != NULL)] of [rt_timer_remove]. *)
Fixpoint timer_find_loop (fuel : nat) (pt prev p : Z) : M (Z * Z) :=
  match fuel with
  | O => stuck
  | S fuel =>
      if p =? NULL then mret (prev, p)
      else if p =? pt then mret (prev, p)
      else
        n ← load p next_;
        timer_find_loop fuel pt p n
  end.

Definition rt_timer_remove (pt : Z) : M Z :=
  p ← load os_timer_head value;
  fuel ← mem_fuel;
  '(prev, p) ← timer_find_loop fuel pt NULL p;
  if p =? NULL then mret (-1)
  else
    (if negb (prev =? NULL) then
       n ← load pt next_;
       store prev next_ n
     else
       n ← load pt next_;
       store os_timer_head value n);;
    n ← load pt next_;
    when (negb (n =? NULL)) (
      c ← load n tcnt;
      x ← load pt tcnt;
      store n tcnt (u16 (c + x)));;
    mret 0.

(** ** The services *)

Definition svcTimerCreate (timer_def type argument : Z) : M Z :=
  bad ← (if timer_def =? NULL then mret true else f ← load timer_def ptimer; mret (f =? NULL));
  if bad : bool then create_error osErrorParameter
  else
    pt ← load timer_def timer_;
    if pt =? NULL then create_error osErrorParameter
    else if negb (type =? osTimerOnce) && negb (type =? osTimerPeriodic) then create_error osErrorValue
    else
      th ← load osThreadId_osTimerThread value;
      if th =? NULL then create_error osErrorResource
      else
        st ← load pt state;
        if negb (st =? osTimerInvalid) then create_error osErrorResource
        else
          store pt state osTimerStopped;;
          store pt type_ (u8 type);;
          store pt arg_ argument;;
          store pt timer_ timer_def;;
          mret pt.

Definition svcTimerStart (timer_id millisec : Z) : M Z :=
  let pt := rt_id2obj timer_id in
  if pt =? NULL then mret osErrorParameter
  else
    d ← rt_ms2tick millisec;
    if d =? 0 then mret osErrorValue
    else
      st ← load pt state;
      ok ← (if st =? osTimerRunning then
              x ← rt_timer_remove pt;
              mret (x =? 0)
            else if st =? osTimerStopped then
              store pt state osTimerRunning;;
              store pt icnt (u16 d);;
              mret true
            else mret false);
      if ok : bool then
        rt_timer_insert pt d;;
        mret osOK
      else mret osErrorResource.

Definition svcTimerStop (timer_id : Z) : M Z :=
  let pt := rt_id2obj timer_id in
  if pt =? NULL then mret osErrorParameter
  else
    st ← load pt state;
    if negb (st =? osTimerRunning) then mret osErrorResource
    else
      store pt state osTimerStopped;;
      x ← rt_timer_remove pt;
      if negb (x =? 0) then mret osErrorResource else mret osOK.

Definition svcTimerDelete (timer_id : Z) : M Z :=
  let pt := rt_id2obj timer_id in
  if pt =? NULL then mret osErrorParameter
  else
    st ← load pt state;
    if st =? osTimerRunning then
      rt_timer_remove pt;;
      store pt state osTimerInvalid;;
      mret osOK
    else if st =? osTimerStopped then
      store pt state osTimerInvalid;;
      mret osOK
    else mret osErrorResource.

(** The function and the argument of a timer. *)
Definition svcTimerCall (timer_id : Z) : M (Z * Z) :=
  let pt := rt_id2obj timer_id in
  if pt =? NULL then mret (NULL, NULL)
  else
    td ← load pt timer_;
    fp ← load td ptimer;
    a ← load pt arg_;
    mret (fp, a).

Definition isrMessagePut `{ICSR} (queue_id info millisec : Z) : M Z :=
  if (queue_id =? NULL) || negb (millisec =? 0) then mret osErrorParameter
  else
    ty ← load queue_id cb_type;
    if negb (ty =? MCB) then mret osErrorParameter
    else
      room ← rt_mbx_check queue_id;
      if room =? 0 then mret osErrorResource
      else
        isr_mbx_send queue_id info;;
        mret osOK.

(** [while ((p != NULL) && (p->tcnt == 0))]: the expired timers. *)
Fixpoint timer_tick_loop `{ICSR} (fuel : nat) (p : Z) : M unit :=
  match fuel with
  | O => stuck
  | S fuel =>
      go ← (if negb (p =? NULL) then c ← load p tcnt; mret (c =? 0) else mret false);
      if go : bool then
        let pt := p in
        p ← load p next_;
        store os_timer_head value p;;
        q ← load osMessageQId_osTimerMessageQ value;
        isrMessagePut q pt 0;;
        ty ← load pt type_;
        (if ty =? osTimerPeriodic then
           c ← load pt icnt;
           rt_timer_insert pt c
         else store pt state osTimerStopped);;
        timer_tick_loop fuel p
      else mret tt
  end.

Definition sysTimerTick `{ICSR} : M unit :=
  p ← load os_timer_head value;
  if p =? NULL then mret tt
  else
    c ← load p tcnt;
    store p tcnt (u16 (c - 1));;
    fuel ← mem_fuel;
    timer_tick_loop fuel p.

(** ** What the list is *)

(** From the timer [p] on, at time [t0]: the timers with their expiry times. *)
Fixpoint ticks (m : mem) (p t0 : Z) (L : list (Z * Z)) : Prop :=
  match L with
  | [] => p = NULL
  | (q, t) :: L =>
      p = q /\ q <> NULL /\ t0 <= t < 65536 /\ m !! (q, tcnt) = Some (t - t0) /\
      exists n, m !! (q, next_) = Some n /\ ticks m n t L
  end.

(** The running timers [L], each with the ticks until it expires. *)
Record timers (m : mem) (L : list (Z * Z)) : Prop := {
  ti_head : exists p, m !! (os_timer_head, value) = Some p /\ ticks m p 0 L;
  ti_nodup : NoDup L.*1
}.

(** Timers of equal expiry run in the order they were started. *)
Fixpoint insert_timer (pt d : Z) (L : list (Z * Z)) : list (Z * Z) :=
  match L with
  | [] => [(pt, d)]
  | (q, t) :: L' => if d <? t then (pt, d) :: L else (q, t) :: insert_timer pt d L'
  end.

Definition remove_timer (pt : Z) (L : list (Z * Z)) : list (Z * Z) := filter (fun x => x.1 <> pt) L.

(** The cells of the timer list. *)
Definition tlinks (p : Z) (f : field) : Prop := f = next_ \/ f = tcnt \/ (p = os_timer_head /\ f = value).

Lemma ticks_ext m m' p t0 L :
  ticks m p t0 L -> (forall x f, x ∈ L.*1 -> f = next_ \/ f = tcnt -> m' !! (x, f) = m !! (x, f)) ->
  ticks m' p t0 L.
Proof.
  revert p t0. induction L as [|[q t] L IH]; intros p t0; cbn; [done|].
  intros (-> & Hq & Ht & Hc & n & Hn & HL) E. split_and!; [done|done|lia|lia| |].
  - rewrite E; [done|by left|by right].
  - exists n. split; [rewrite E; [done|by left|by left]|]. apply IH; [done|].
    intros x f Hx. apply E. by right.
Qed.

Lemma timers_frame m m' L K :
  timers m L -> frame K m m' -> (forall p f, K p f -> ~ tlinks p f) -> timers m' L.
Proof.
  intros [(p & Hp & HL) Hnd] HF HK. unfold tlinks in HK. constructor; [|done]. exists p. split.
  - eapply frame_eq; [done..|]. intros ?%HK. tauto.
  - eapply ticks_ext; [done|]. intros x f _ Hf. apply (proj2 (HF x f)). intros ?%HK. tauto.
Qed.

Lemma ticks_length m p t0 L : ticks m p t0 L -> NoDup L.*1 -> (length L <= size m)%nat.
Proof.
  intros HL Hnd. assert (Hd : list_to_set ((fun x => (x, tcnt)) <$> L.*1) ⊆ dom m).
  { intros x. rewrite elem_of_list_to_set, list_elem_of_fmap. intros (y & -> & Hy).
    apply elem_of_dom. revert p t0 HL. clear Hnd.
    induction L as [|[q t] L IH]; intros p t0 HL; [by apply elem_of_nil in Hy|].
    destruct HL as (_ & _ & _ & Hc & n & _ & HL). apply elem_of_cons in Hy as [->|Hy]; [eauto|].
    eapply IH; [done|exact HL]. }
  apply subseteq_size in Hd. rewrite size_dom, size_list_to_set in Hd.
  - by rewrite !length_fmap in Hd.
  - apply NoDup_fmap_2; [|done]. intros a b [=]. done.
Qed.

Lemma insert_timer_perm pt d L : insert_timer pt d L ≡ₚ (pt, d) :: L.
Proof.
  induction L as [|[q t] L IH]; cbn; [done|]. destruct (d <? t); [done|].
  rewrite IH. by constructor 3.
Qed.

(** A part of the list, up to the timer [q] at time [t1]. *)
Fixpoint tseg (m : mem) (p t0 : Z) (L : list (Z * Z)) (q t1 : Z) : Prop :=
  match L with
  | [] => p = q /\ t0 = t1
  | (x, t) :: L =>
      p = x /\ x <> NULL /\ t0 <= t < 65536 /\ m !! (x, tcnt) = Some (t - t0) /\
      exists n, m !! (x, next_) = Some n /\ tseg m n t L q t1
  end.

Fixpoint tlast (prev : Z) (L : list (Z * Z)) : Z :=
  match L with [] => prev | (q, _) :: L => tlast q L end.

Lemma ticks_split m p t0 L1 L2 :
  ticks m p t0 (L1 ++ L2) <-> exists q t1, tseg m p t0 L1 q t1 /\ ticks m q t1 L2.
Proof.
  revert p t0. induction L1 as [|[x t] L1 IH]; intros p t0; cbn.
  - split; [intros H; by exists p, t0|]. by intros (? & ? & [-> ->] & H).
  - split.
    + intros (-> & Ha & Hb & Hc & n & Hn & (q & t1 & H1 & H2)%IH). exists q, t1. eauto 10.
    + intros (q & t1 & (-> & Ha & Hb & Hc & n & Hn & H1) & H2). split_and!; [done|done|lia|lia|done|].
      exists n. split; [done|]. apply IH. eauto.
Qed.

Lemma tlast_in prev L : L <> [] -> tlast prev L ∈ L.*1.
Proof.
  revert prev. induction L as [|[x t] L IH]; intros prev; [done|]. intros _. cbn.
  destruct L as [|y L]; [by left|]. right. by apply IH.
Qed.

(** The end of a part is linked to another timer. *)
Lemma tseg_relink m m' p t0 L q q' t1 :
  tseg m p t0 L q t1 -> NoDup L.*1 ->
  (forall x, x ∈ L.*1 -> m' !! (x, tcnt) = m !! (x, tcnt)) ->
  (forall x, x ∈ L.*1 -> x <> tlast NULL L -> m' !! (x, next_) = m !! (x, next_)) ->
  (L <> [] -> m' !! (tlast NULL L, next_) = Some q') ->
  tseg m' (match L with [] => q' | _ => p end) t0 L q' t1.
Proof.
  revert p t0. induction L as [|[x t] L IH]; intros p t0.
  - intros [-> ->]. done.
  - intros (-> & Hx & Ht & Hc & n & Hn & HL) Hnd Hsame Hnext Hlast. cbn in Hnd.
    apply NoDup_cons in Hnd as [Hxn Hnd]. cbn. split_and!; [done|done|lia|lia| |].
    { rewrite Hsame; [done|by left]. }
    destruct L as [|[y ty] L].
    + exists q'. split; [by apply Hlast|]. destruct HL as [_ <-]. done.
    + exists n. cbn [tlast] in *. split.
      * rewrite Hnext; [done|by left|]. intros E. apply Hxn. rewrite E.
        apply (tlast_in NULL ((y, ty) :: L)). done.
      * apply (IH n t); [done|done| | |].
        { intros z Hz. apply Hsame. by right. }
        { intros z Hz. apply Hnext. by right. }
        { intros _. by apply Hlast. }
Qed.

(** The list behind a changed time. *)
Lemma ticks_rebase m m' p t0 t1 L :
  ticks m p t0 L -> NoDup L.*1 -> (forall x t L', L = (x, t) :: L' -> t1 <= t /\ m' !! (x, tcnt) = Some (t - t1)) ->
  (forall x, x ∈ L.*1 -> m' !! (x, next_) = m !! (x, next_)) ->
  (forall x t L', L = (x, t) :: L' -> forall y, y ∈ L'.*1 -> m' !! (y, tcnt) = m !! (y, tcnt)) ->
  ticks m' p t1 L.
Proof.
  destruct L as [|[x t] L]; cbn; [done|]. intros (-> & Hx & Ht & Hc & n & Hn & HL) Hnd Hhd Hnext Htl.
  destruct (Hhd x t L eq_refl) as [Ht1 Hc1]. split_and!; [done|done|lia|lia|done|].
  exists n. split; [rewrite Hnext; [done|by left]|].
  eapply ticks_ext; [done|]. intros y f Hy [->| ->]; [apply Hnext; by right|by eapply Htl].
Qed.

(** Where a timer is inserted. *)
Lemma timer_insert_loop_spec m pt d p t0 L fuel prev :
  ticks m p t0 L -> 0 <= t0 <= d -> d < 2 ^ 32 -> (length L < fuel)%nat ->
  wp (timer_insert_loop fuel (d - t0) prev p) (fun x m' => m' = m /\
    exists L1 L2 t1, L = L1 ++ L2 /\ insert_timer pt d L = L1 ++ (pt, d) :: L2 /\
      t0 <= t1 <= d /\ (forall q t L', L2 = (q, t) :: L' -> d < t) /\
      x = (d - t1, tlast prev L1, x.2) /\ tseg m p t0 L1 x.2 t1 /\ ticks m x.2 t1 L2) m.
Proof.
  revert p t0 fuel prev. induction L as [|[q t] L IH]; intros p t0 fuel prev HL Ht0 Hd Hf;
    (destruct fuel as [|fuel]; cbn [length] in Hf; [lia|]); cbn [timer_insert_loop].
  - cbn in HL. subst p. cbn [Z.eqb NULL]. wp_run. split; [done|].
    exists [], [], t0. cbn. split_and!; try done; lia.
  - destruct HL as (-> & Hq & Ht & Hc & n & Hn & HL).
    rewrite (proj2 (Z.eqb_neq _ _)) by done. wp_run.
    destruct (Z.ltb_spec (d - t0) (t - t0)).
    + wp_run. split; [done|]. exists [], ((q, t) :: L), t0. cbn [insert_timer app tlast snd].
      rewrite (proj2 (Z.ltb_lt _ _)) by lia. split_and!; try done; [lia|intros ? ? ? [= _ <- _]; lia|].
      cbn. split_and!; [done|done|lia|lia|done|]. by exists n.
    + wp_run. rewrite u32_id by lia. replace (d - t0 - (t - t0)) with (d - t) by lia.
      wp_use (IH n t fuel q); [done|lia|done|lia|].
      intros x m' (-> & L1 & L2 & t1 & EL & EI & Ht1 & Hnx & Ex & Hs1 & Hs2). split; [done|].
      exists ((q, t) :: L1), L2, t1. cbn [insert_timer app tlast].
      rewrite (proj2 (Z.ltb_ge _ _)) by lia. rewrite EI. subst L.
      split_and!; [done|done|lia|lia|done|exact Ex| |done].
      cbn. split_and!; [done|done|lia|lia|done|]. by exists n.
Qed.

Lemma NoDup_fst_mid (L1 L2 : list (Z * Z)) x t :
  NoDup (L1 ++ L2).*1 -> x ∉ (L1 ++ L2).*1 -> NoDup (L1 ++ (x, t) :: L2).*1.
Proof.
  rewrite !fmap_app. cbn. intros H1 H2. rewrite <- Permutation_middle. by apply NoDup_cons.
Qed.

Lemma fst_in_app (L1 L2 : list (Z * Z)) x : x ∈ (L1 ++ L2).*1 <-> x ∈ L1.*1 \/ x ∈ L2.*1.
Proof. by rewrite fmap_app, elem_of_app. Qed.

(** [rt_timer_insert]: the timer is inserted with [d] ticks to go. *)
Lemma rt_timer_insert_spec m L pt d :
  timers m L -> pt ∉ L.*1 -> pt <> NULL -> 0 <= d < 65536 ->
  is_Some (m !! (pt, next_)) -> is_Some (m !! (pt, tcnt)) ->
  wp (rt_timer_insert pt d) (fun _ m' => timers m' (insert_timer pt d L) /\
    frame tlinks m m') m.
Proof.
  intros [(p & Hp & HL) Hnd] Hpt Hpt0 Hd Hs1 Hs2. pose proof (ticks_length _ _ _ _ HL Hnd) as Hlen.
  unfold rt_timer_insert. wp_run. replace d with (d - 0) at 1 by lia.
  wp_use (timer_insert_loop_spec m pt d p 0 L); [done|lia|lia|lia|].
  intros [[d1 prev] q] m0 (-> & L1 & L2 & t1 & EL & EI & Ht1 & Hnx & [= -> ->] & Hseg & Htk). cbn [snd] in *.
  rewrite EI. subst L. pose proof Hnd as Hnd'. rewrite fmap_app in Hnd'.
  apply NoDup_app in Hnd' as (Hnd1 & Hdis & Hnd2).
  assert (Hpt1 : pt ∉ L1.*1) by (intros ?; apply Hpt, fst_in_app; by left).
  assert (Hpt2 : pt ∉ L2.*1) by (intros ?; apply Hpt, fst_in_app; by right).
  wp_run. rewrite u16_id by lia. set (m1 := <[(pt, tcnt) := d - t1]> _).
  assert (HF1 : frame tlinks m m1).
  { unfold m1. apply frame_insert; [apply frame_insert; [apply frame_refl|by left|done]|right; by left|done]. }
  (* the next timer *)
  eapply wp_mono with (Q' := fun _ m2 => frame tlinks m m2 /\ ticks m2 q d L2 /\
    frame (fun x f => f = tcnt /\ x ∈ L2.*1) m1 m2).
  { destruct L2 as [|[y t] L2].
    - cbn in Htk. subst q. cbn [Z.eqb NULL negb]. wp_run. split_and!; [done|done|apply frame_refl].
    - destruct Htk as (-> & Hy & Hty & Hc & n & Hn & HL2). specialize (Hnx _ _ _ eq_refl).
      assert (Hyp : y <> pt) by (intros ->; apply Hpt2; by left).
      rewrite (proj2 (Z.eqb_neq _ _)) by done. cbn [negb].
      change (when true ?c) with c.
      assert (m1 !! (y, tcnt) = Some (t - t1)) by (unfold m1; by look).
      assert (m1 !! (pt, tcnt) = Some (d - t1)) by (unfold m1; by look).
      assert (Hsy : is_Some (m1 !! (y, tcnt))) by eauto.
      wp_run. rewrite u16_id by lia. split_and!.
      + apply frame_insert; [done|right; by left|eauto].
      + cbn in Hnd2. apply NoDup_cons in Hnd2 as [Hyn _].
        cbn. split_and!; [done|done|lia|lia|mlook; f_equal; lia|]. exists n. split; [unfold m1; by look|].
        eapply ticks_ext; [done|]. intros z f Hz Hf.
        assert (z <> y) by congruence. assert (z <> pt) by (intros ->; apply Hpt2; by right).
        unfold m1. by mlook.
      + eapply frame_mono; [by apply frame_store|]. cbv beta. intros z f [-> ->]. split; [done|by left]. }
  intros _ m2 (HF2 & HL2 & HF12).
  (* the previous timer or the head *)
  assert (Hfin : forall m3, frame tlinks m2 m3 ->
    (forall x f, x <> tlast NULL L1 \/ f <> next_ -> (x, f) <> (os_timer_head, value) -> m3 !! (x, f) = m2 !! (x, f)) ->
    (L1 <> [] -> m3 !! (tlast NULL L1, next_) = Some pt) ->
    m3 !! (os_timer_head, value) = Some (match L1 with [] => pt | _ => p end) ->
    timers m3 (L1 ++ (pt, d) :: L2) /\ frame tlinks m m3).
  { intros m3 HF3 Hsame Hlast Hhead.
    assert (Hlpt : L1 <> [] -> tlast NULL L1 <> pt) by (intros Hne <-; by apply Hpt1, tlast_in).
    assert (Hl2 : forall x, x ∈ L2.*1 -> L1 <> [] -> x <> tlast NULL L1).
    { intros x Hx Hne ->. eapply Hdis; [by apply tlast_in|done]. }
    assert (H23 : forall x f, x ∈ L2.*1 \/ x = pt -> f = next_ \/ f = tcnt -> m3 !! (x, f) = m2 !! (x, f)).
    { intros x f Hx Hf. apply Hsame; [|destruct Hf; congruence].
      destruct L1 as [|y L1']; [|left; destruct Hx as [Hx| ->]; [by apply Hl2|by apply not_eq_sym, Hlpt]].
      cbn [tlast]. left. destruct Hx as [Hx| ->]; [|done].
      intros ->. clear -HL2 Hx. revert HL2. generalize q d.
      induction L2 as [|[z t] L2 IH]; intros q0 d0; [by apply elem_of_nil in Hx|].
      intros (_ & Hz & _ & _ & n & _ & HL). apply elem_of_cons in Hx as [Hx|Hx]; [by apply Hz|by eapply IH]. }
    split; [|eapply frame_mono; [by eapply frame_trans|cbv beta; tauto]].
    constructor; [|by apply NoDup_fst_mid].
    eexists. split; [exact Hhead|]. apply ticks_split. exists pt, t1. split.
    - eapply tseg_relink; [exact Hseg|done| | |done].
      + intros x Hx. rewrite Hsame by (first [right; congruence|congruence]).
        rewrite (proj2 (HF12 _ _)) by (intros [_ ?]; by eapply Hdis).
        assert (x <> pt) by congruence. unfold m1. by mlook.
      + intros x Hx Hne. rewrite Hsame by (first [by left|congruence]).
        rewrite (proj2 (HF12 _ _)) by (intros [? _]; congruence).
        assert (x <> pt) by congruence. unfold m1. by mlook.
    - cbn. split_and!; [done|done|lia|lia| |].
      + rewrite H23 by tauto. rewrite (proj2 (HF12 _ _)) by (by intros [_ ?]). unfold m1. by look.
      + exists q. split.
        * rewrite H23 by tauto. rewrite (proj2 (HF12 _ _)) by (by intros [_ ?]). unfold m1. by look.
        * eapply ticks_ext; [exact HL2|]. intros x f Hx Hf. apply H23; tauto. }
  destruct L1 as [|[y ty] L1].
  - cbn [tlast] in *. cbn [Z.eqb NULL negb].
    assert (is_Some (m2 !! (os_timer_head, value))) by (eapply frame_some; [exact HF2|by eauto]).
    wp_run. apply Hfin; [| |done|by look].
    + eapply frame_mono; [by apply frame_store|]. unfold tlinks. cbv beta. tauto.
    + intros x f _ Hx. by rewrite lookup_insert_ne by congruence.
  - assert (Hl : tlast NULL ((y, ty) :: L1) ∈ ((y, ty) :: L1).*1) by (by apply tlast_in).
    assert (Hl0 : forall L p0 t0 q0 t1, tseg m p0 t0 L q0 t1 -> forall x, x ∈ L.*1 -> x <> NULL /\ is_Some (m !! (x, next_))).
    { clear. induction L as [|[x t] L IH]; intros p0 t0 q0 t1 HL z Hz; [by apply elem_of_nil in Hz|].
      destruct HL as (_ & Hx & _ & _ & n & Hn & HL). apply elem_of_cons in Hz as [->|Hz]; [eauto|by eapply IH]. }
    destruct (Hl0 _ _ _ _ _ Hseg _ Hl) as [Hlz Hls].
    rewrite (proj2 (Z.eqb_neq _ _)) by done. cbn [negb].
    assert (Hls2 : is_Some (m2 !! (tlast NULL ((y, ty) :: L1), next_))) by (eapply frame_some; [exact HF2|done]).
    wp_run. apply Hfin; [| |intros _; by look|].
    + eapply frame_mono; [by apply frame_store|]. unfold tlinks. cbv beta. tauto.
    + intros x f Hx _. rewrite lookup_insert_ne; [done|]. intros [= <- <-]. by destruct Hx.
    + rewrite lookup_insert_ne by congruence. rewrite (proj2 (HF12 _ _)) by (intros [? _]; congruence).
      unfold m1. mlook. done.
Qed.

Lemma tseg_cells m L p t0 q t1 x :
  tseg m p t0 L q t1 -> x ∈ L.*1 -> x <> NULL /\ is_Some (m !! (x, next_)).
Proof.
  revert p t0. induction L as [|[y t] L IH]; intros p t0 HL Hx; [by apply elem_of_nil in Hx|].
  destruct HL as (_ & Hy & _ & _ & n & Hn & HL). apply elem_of_cons in Hx as [->|Hx]; [eauto|by eapply IH].
Qed.

Lemma tseg_le m L p t0 q t1 : tseg m p t0 L q t1 -> t0 <= t1.
Proof.
  revert p t0. induction L as [|[y t] L IH]; intros p t0; [intros [_ ->]; lia|].
  intros (_ & _ & Ht & _ & n & _ & HL%IH). lia.
Qed.

Lemma ticks_cells m L p t0 x : ticks m p t0 L -> x ∈ L.*1 -> x <> NULL.
Proof.
  revert p t0. induction L as [|[y t] L IH]; intros p t0 HL Hx; [by apply elem_of_nil in Hx|].
  destruct HL as (_ & Hy & _ & _ & n & _ & HL). apply elem_of_cons in Hx as [->|Hx]; [done|by eapply IH].
Qed.

Lemma timer_find_loop_spec m pt p t0 L fuel prev :
  ticks m p t0 L -> (length L < fuel)%nat ->
  wp (timer_find_loop fuel pt prev p) (fun x m' => m' = m /\
    ((pt ∉ L.*1 /\ x.2 = NULL) \/
     exists L1 t L2 t1, L = L1 ++ (pt, t) :: L2 /\ pt ∉ L1.*1 /\ x = (tlast prev L1, pt) /\
       tseg m p t0 L1 pt t1 /\ ticks m pt t1 ((pt, t) :: L2))) m.
Proof.
  revert p t0 fuel prev. induction L as [|[q t] L IH]; intros p t0 fuel prev HL Hf;
    (destruct fuel as [|fuel]; cbn [length] in Hf; [lia|]); cbn [timer_find_loop].
  - cbn in HL. subst p. cbn [Z.eqb NULL]. wp_run. split; [done|]. left. split; [by apply not_elem_of_nil|done].
  - pose proof HL as (-> & Hq & Ht & Hc & n & Hn & HL2).
    rewrite (proj2 (Z.eqb_neq _ _)) by done. destruct (Z.eqb_spec q pt) as [->|Hne]; wp_run.
    + split; [done|]. right. exists [], t, L, t0. cbn [tlast app tseg].
      split_and!; [done|by apply not_elem_of_nil|done|done|done|done].
    + wp_use (IH n t fuel q); [done|lia|]. intros x m' [-> [[Hp Hx]|H]]; (split; [done|]).
      * left. split; [|done]. cbn. apply not_elem_of_cons. by split.
      * right. destruct H as (L1 & t' & L2 & t1 & -> & HpL1 & -> & Hs & Hk).
        exists ((q, t) :: L1), t', L2, t1. cbn [tlast app].
        split_and!; [done| |done| |done].
        { cbn. apply not_elem_of_cons. by split. }
        { cbn. split_and!; [done|done|lia|lia|done|]. by exists n. }
Qed.

Lemma remove_timer_split pt (L1 L2 : list (Z * Z)) t :
  NoDup (L1 ++ (pt, t) :: L2).*1 -> remove_timer pt (L1 ++ (pt, t) :: L2) = L1 ++ L2.
Proof.
  rewrite fmap_app. intros (_ & Hn & [Hp _]%NoDup_cons)%NoDup_app. unfold remove_timer.
  rewrite filter_app, filter_cons_False by (cbn; tauto).
  rewrite !filter_keep; [done|..]; intros [x tx] Hx E; cbn in E; subst x.
  - apply Hp. apply list_elem_of_fmap. by exists (pt, tx).
  - apply (Hn pt); [|by left]. apply list_elem_of_fmap. by exists (pt, tx).
Qed.

Lemma NoDup_remove_fst (L1 L2 : list (Z * Z)) pt t : NoDup (L1 ++ (pt, t) :: L2).*1 -> NoDup (L1 ++ L2).*1.
Proof. rewrite !fmap_app. cbn. rewrite <- Permutation_middle. by intros [_ ?]%NoDup_cons. Qed.

Lemma remove_timer_free pt L : pt ∉ L.*1 -> remove_timer pt L = L.
Proof.
  intros Hp. apply filter_keep. intros [x t] Hx E. cbn in E. subst x. apply Hp.
  apply list_elem_of_fmap. by exists (pt, t).
Qed.

(** [rt_timer_remove]: the other timers keep their times. *)
Lemma rt_timer_remove_spec m L pt :
  timers m L ->
  wp (rt_timer_remove pt) (fun x m' => timers m' (remove_timer pt L) /\ frame tlinks m m' /\
    x = if decide (pt ∈ L.*1) then 0 else -1) m.
Proof.
  intros HT. pose proof HT as [(p & Hp & HL) Hnd]. pose proof (ticks_length _ _ _ _ HL Hnd) as Hlen.
  unfold rt_timer_remove. wp_run. wp_use (timer_find_loop_spec m pt p 0 L); [done|lia|].
  intros [prev q] m0 [-> [[Hpt Eq]|(L1 & t & L2 & t1 & -> & Hpt1 & [= -> ->] & Hseg & Htk)]].
  { cbn in Eq. subst q. cbn [Z.eqb NULL]. wp_run. rewrite remove_timer_free, decide_False by done.
    split_and!; [done|apply frame_refl|done]. }
  destruct Htk as (_ & Hpt0 & Ht & Hc & n & Hn & HL2).
  rewrite (proj2 (Z.eqb_neq _ _)) by done. rewrite remove_timer_split by done.
  rewrite decide_True by (rewrite fst_in_app; right; by left).
  pose proof Hnd as Hnd'. rewrite fmap_app in Hnd'. cbn in Hnd'.
  apply NoDup_app in Hnd' as (Hnd1 & Hdis & [Hpt2 Hnd2]%NoDup_cons).
  (* the link to the next timer *)
  eapply wp_bind, wp_mono with (Q' := fun _ m1 => frame tlinks m m1 /\
    (forall x f, f = tcnt \/ (x ∈ (pt :: L2.*1) /\ f = next_) -> m1 !! (x, f) = m !! (x, f)) /\
    exists p', m1 !! (os_timer_head, value) = Some p' /\ tseg m1 p' 0 L1 n t1).
  { destruct L1 as [|[y ty] L1].
    - cbn [tlast] in *. cbn [Z.eqb NULL negb].
      assert (is_Some (m !! (os_timer_head, value))) by eauto. wp_run. split_and!.
      + eapply frame_mono; [by apply frame_store|]. unfold tlinks. cbv beta. tauto.
      + intros x f Hf. rewrite lookup_insert_ne; [done|]. naive_solver.
      + exists n. split; [by look|]. destruct Hseg as [_ <-]. done.
    - set (K := (y, ty) :: L1) in *.
      assert (Hl : tlast NULL K ∈ K.*1) by (by apply tlast_in).
      destruct (tseg_cells _ _ _ _ _ _ _ Hseg Hl) as [Hlz Hls].
      rewrite (proj2 (Z.eqb_neq _ _)) by done. cbn [negb]. wp_run. split_and!.
      + eapply frame_mono; [by apply frame_store|]. unfold tlinks. cbv beta. tauto.
      + intros x f Hf. rewrite lookup_insert_ne; [done|]. intros [= <- <-].
        destruct Hf as [|[Hf _]]; [done|]. apply elem_of_cons in Hf as [E|Hf].
        * apply Hpt1. rewrite <- E. exact Hl.
        * apply (Hdis _ Hl). by right.
      + exists p. split; [by look|]. apply (tseg_relink m _ p 0 K pt n t1); [done|done| | |intros _; by look].
        * intros x _. by mlook.
        * intros x _ Hx. by mlook. }
  intros _ m1 (HF1 & Hsame & p' & Hp' & Hseg1).
  assert (Hn1 : m1 !! (pt, next_) = Some n).
  { rewrite Hsame; [done|]. right. split; [by left|done]. }
  wp_run.
  eapply wp_mono with (Q' := fun _ m2 => frame tlinks m m2 /\ ticks m2 n t1 L2 /\
    m2 !! (os_timer_head, value) = Some p' /\ tseg m2 p' 0 L1 n t1).
  2: { intros _ m2 (HF2 & HL2' & Hp2 & Hseg2). wp_run. split_and!; [|done|done].
       constructor; [|by apply NoDup_remove_fst with pt t]. exists p'. split; [done|].
       apply ticks_split. eauto. }
  destruct L2 as [|[y ty] L2].
  - cbn in HL2. subst n. cbn [Z.eqb NULL negb]. wp_run. done.
  - pose proof HL2 as (-> & Hy & Hty & Hcy & ny & Hny & HL3).
    rewrite (proj2 (Z.eqb_neq _ _)) by done. cbn [negb]. change (when true ?c) with c.
    assert (m1 !! (y, tcnt) = Some (ty - t)) by (rewrite Hsame; tauto).
    assert (m1 !! (pt, tcnt) = Some (t - t1)) by (rewrite Hsame; tauto).
    assert (is_Some (m1 !! (y, tcnt))) by eauto.
    apply tseg_le in Hseg. wp_run. rewrite u16_id by lia.
    assert (Hy1 : y ∉ L1.*1) by (intros Hy1; apply (Hdis _ Hy1); right; by left).
    split_and!; [| |by look|].
    + apply frame_insert; [done|right; by left|]. rewrite Hcy. eauto.
    + eapply (ticks_rebase m); [exact HL2|done| | |].
      * intros x tx L' [= <- <- <-]. split; [lia|]. mlook. f_equal. lia.
      * intros x Hx. mlook. apply Hsame. right. split; [by right|done].
      * intros x tx L' [= <- <- <-] z Hz. cbn in Hnd2. apply NoDup_cons in Hnd2 as [Hyn _].
        assert (z <> y) by congruence. mlook. apply Hsame. by left.
    + clear -Hseg1 Hy1. revert Hseg1. generalize p' 0. induction L1 as [|[x tx] L1 IH]; intros p0 t0; cbn; [done|].
      cbn in Hy1. apply not_elem_of_cons in Hy1 as [Hxy Hy1].
      intros (-> & Hx & Htx & Hcx & nx & Hnx & Hs). split_and!; [done|done|lia|lia|by mlook|].
      exists nx. split; [by mlook|]. by apply IH.
Qed.

(** ** The tick *)

(** What one tick does to the running timers: [per] gives the period of the
    periodic ones.  The timers with one tick to go expire, in order, and the
    periodic ones start again with their full period. *)
Definition expired (L : list (Z * Z)) : list Z := (filter (fun x => x.2 = 1) L).*1.
Definition remaining (L : list (Z * Z)) : list (Z * Z) :=
  (fun x => (x.1, x.2 - 1)) <$> filter (fun x => x.2 <> 1) L.
Definition restart (per : Z -> option Z) (R : list (Z * Z)) (x : Z) : list (Z * Z) :=
  match per x with Some c => insert_timer x c R | None => R end.
Definition tick_timers (per : Z -> option Z) (L : list (Z * Z)) : list (Z * Z) :=
  foldl (restart per) (remaining L) (expired L).

(** The control block of a timer: its kind and its period. *)
Definition timer_block (m : mem) (per : Z -> option Z) (x : Z) : Prop :=
  x <> NULL /\ is_Some (m !! (x, next_)) /\ is_Some (m !! (x, tcnt)) /\ is_Some (m !! (x, state)) /\
  match per x with
  | Some c => m !! (x, type_) = Some osTimerPeriodic /\ m !! (x, icnt) = Some c /\ 0 < c < 65536
  | None => exists ty, m !! (x, type_) = Some ty /\ ty <> osTimerPeriodic
  end.

(** The message queue of the timer thread, and room for [k] requests. *)
Record timer_queue (m : mem) (q pn : Z) (k : nat) : Prop := {
  tq_var : m !! (osMessageQId_osTimerMessageQ, value) = Some q;
  tq_type : m !! (q, cb_type) = Some MCB;
  tq_ring : exists n c, m !! (q, size_) = Some n /\ m !! (q, count_) = Some c;
  tq_other : q <> NULL /\ q <> os_psq;
  tq_psq : exists first count, psq m pn first count /\ count + Z.of_nat k <= pn;
  tq_cells : psh_cells m
}.

(** The cells posting a request may change. *)
Definition post_frame (p : Z) (f : field) : Prop :=
  (p = os_psq /\ (f = count_ \/ f = first_ \/ exists i, f = q_id i \/ f = q_arg i)) \/
  (f = value /\ (p = os_psh_flag \/ p = NVIC_INT_CTRL)).

Lemma psq_frame m m' pn first count K :
  psq m pn first count -> frame K m m' ->
  (forall f, K os_psq f -> f <> size_ /\ f <> first_ /\ f <> count_) -> psq m' pn first count.
Proof.
  intros [H1 H2 H3 H4 H5] HF HK. constructor; [eapply frame_eq; [done|done|intros ?%HK; tauto]..|done|].
  intros i Hi. destruct (H5 i Hi). split; by eapply frame_some.
Qed.

Lemma timer_queue_frame m m' q pn k K :
  timer_queue m q pn k -> frame K m m' ->
  (forall p f, K p f -> ~ (p = osMessageQId_osTimerMessageQ /\ f = value) /\ f <> cb_type /\ f <> size_ /\ f <> count_ /\ f <> first_) ->
  timer_queue m' q pn k.
Proof.
  intros [H1 H2 (n & c & H3 & H4) H5 (f & ct & H6 & H7) (H8 & H9 & H10)] HF HK. constructor; [..|done| |].
  - eapply frame_eq; [done..|]. intros [H _]%HK. by apply H.
  - eapply frame_eq; [done..|]. intros ?%HK. tauto.
  - exists n, c. split; (eapply frame_eq; [done..|]; intros ?%HK; tauto).
  - exists f, ct. split; [|done]. eapply psq_frame; [done..|]. intros g ?%HK. tauto.
  - split_and!; by eapply frame_some.
Qed.

Lemma isrMessagePut_spec `{ICSR} m q pn k info :
  timer_queue m q pn (S k) ->
  wp (isrMessagePut q info 0) (fun _ m' => timer_queue m' q pn k /\ frame post_frame m m') m.
Proof.
  intros HQ. pose proof HQ as [H1 H2 (n & c & H3 & H4) [H5 H5'] (f & ct & H6 & H7) H8]. unfold isrMessagePut.
  rewrite (proj2 (Z.eqb_neq _ _)) by done. cbn [orb negb Z.eqb]. wp_run. rewrite Z.eqb_refl. cbn [negb].
  unfold rt_mbx_check. wp_run. destruct (u32 (n - c) =? 0).
  - wp_run. split; [|apply frame_refl]. constructor; try done; [by exists n, c|].
    exists f, ct. split; [done|lia].
  - wp_step. unfold isr_mbx_send. wp_use post_request; [done|lia|done|].
    intros _ m1 (HP1 & _ & _ & HF1). wp_run.
    assert (HF : frame post_frame m m1).
    { eapply frame_mono; [exact HF1|]. unfold post_frame. cbv beta. naive_solver. }
    split; [|done]. destruct H8 as (? & ? & ?). constructor.
    + eapply frame_eq; [exact HF|done|]. intros [[E _]|[_ [E|E]]]; discriminate E.
    + eapply frame_eq; [exact HF|done|]. unfold post_frame. naive_solver.
    + exists n, c. split; (eapply frame_eq; [exact HF|done|]; unfold post_frame; naive_solver).
    + done.
    + eexists _, _. split; [exact HP1|lia].
    + split_and!; by eapply frame_some.
Qed.

Lemma ticks_shift m p t0 L : 0 < t0 -> ticks m p t0 L -> ticks m p (t0 - 1) ((fun x => (x.1, x.2 - 1)) <$> L).
Proof.
  revert p t0. induction L as [|[x t] L IH]; intros p t0 Ht0; cbn; [done|].
  intros (-> & Hx & Ht & Hc & n & Hn & HL). split_and!; [done|done|lia|lia|rewrite Hc; f_equal; lia|].
  exists n. split; [done|]. apply IH; [lia|done].
Qed.

Lemma ticks_sorted m p t0 L x t : ticks m p t0 L -> (x, t) ∈ L -> t0 <= t < 65536.
Proof.
  revert p t0. induction L as [|[y ty] L IH]; intros p t0 HL Hx; [by apply elem_of_nil in Hx|].
  destruct HL as (_ & _ & Hty & _ & n & _ & HL). apply elem_of_cons in Hx as [[= -> ->]|Hx]; [lia|].
  specialize (IH _ _ HL Hx). lia.
Qed.

Lemma filter_none {A} (P : A -> Prop) `{forall x, Decision (P x)} (l : list A) :
  (forall x, x ∈ l -> ~ P x) -> filter P l = [].
Proof.
  induction l as [|x l IH]; intros Hl; [done|].
  rewrite filter_cons_False by (apply Hl; by left). apply IH. intros. apply Hl. by right.
Qed.

(** In a sorted list the timers that expire come first. *)
Lemma ticks_partition m p L :
  ticks m p 1 L -> L = ((fun x => (x, 1)) <$> expired L) ++ filter (fun x => x.2 <> 1) L.
Proof.
  intros HL. assert (H1 : 1 <= 1) by lia. revert HL H1. generalize 1 at 1 3 as t0. revert p.
  induction L as [|[x t] L IH]; intros p t0 HL Ht0; [done|].
  pose proof HL as (-> & _ & Ht & _ & n & _ & HL'). unfold expired in *.
  destruct (decide (t = 1)) as [->|Hne].
  - rewrite filter_cons_True, (filter_cons_False (fun x : Z * Z => x.2 <> 1)) by (cbn; tauto). cbn. f_equal.
    eapply IH; [exact HL'|lia].
  - assert (Hall : forall y, y ∈ (x, t) :: L -> y.2 <> 1).
    { intros [y ty] Hy. cbn. assert (t <= ty).
      { apply elem_of_cons in Hy as [[= -> ->]|Hy]; [lia|]. pose proof (ticks_sorted _ _ _ _ _ _ HL' Hy). lia. }
      lia. }
    assert (filter (fun y : Z * Z => y.2 = 1) ((x, t) :: L) = []) as ->.
    { apply filter_none. exact Hall. }
    cbn [fmap list_fmap app]. by rewrite filter_keep.
Qed.

(** [p] is not an expired timer. *)
Definition not_due (m : mem) (p : Z) : Prop := p = NULL \/ exists c, c <> 0 /\ m !! (p, tcnt) = Some c.

Definition zeros (Z : list Z) : list (BinNums.Z * BinNums.Z) := (fun x => (x, 0)) <$> Z.

(** What the tick may change. *)
Definition tick_frame (Z : list Z) (p : BinNums.Z) (f : field) : Prop :=
  tlinks p f \/ post_frame p f \/ (f = state /\ p ∈ Z).

Lemma insert_timer_zeros x c Z R : 0 < c -> insert_timer x c (zeros Z ++ R) = zeros Z ++ insert_timer x c R.
Proof.
  intros Hc. unfold zeros. induction Z as [|y Z IH]; [done|]. cbn.
  rewrite (proj2 (Z.ltb_ge c 0)) by lia. f_equal. exact IH.
Qed.

Lemma zeros_fst Z R : (zeros Z ++ R).*1 = Z ++ R.*1.
Proof. unfold zeros. rewrite fmap_app. f_equal. induction Z as [|x Z IH]; [done|]. cbn. f_equal. exact IH. Qed.

(** After a timer was restarted, the one that followed it is still not due. *)
Lemma head_not_due m L x c n R :
  timers m L -> L = insert_timer x c R -> 0 < c -> (forall y, y ∈ R -> 0 < y.2) ->
  match R with [] => n = NULL | (y, _) :: _ => n = y end -> not_due m n.
Proof.
  intros [(p & _ & HL) _] -> Hc HR Hn. destruct R as [|[y t] R]; [by left|]. subst y. right.
  assert (0 < t) by (apply (HR (n, t)); by left). cbn in HL. destruct (Z.ltb_spec c t).
  - destruct HL as (_ & _ & _ & _ & ? & _ & _ & _ & _ & Hcn & _). exists (t - c). split; [lia|done].
  - destruct HL as (_ & _ & _ & Hcn & _). exists (t - 0). split; [lia|done].
Qed.

Lemma timer_block_frame m m' per x K :
  timer_block m per x -> frame K m m' -> (forall p f, K p f -> f <> type_ /\ f <> icnt) -> timer_block m' per x.
Proof.
  intros (H1 & H2 & H3 & H4 & H5) HF HK. split_and!; [done|by eapply frame_some..|].
  destruct (per x) as [c|].
  - destruct H5 as (H5 & H6 & H7). split_and!; [eapply frame_eq; [done..|]; by intros [??]%HK| |lia|lia].
    eapply frame_eq; [done..|]. by intros [??]%HK.
  - destruct H5 as (ty & H5 & H6). exists ty. split; [|done]. eapply frame_eq; [done..|]. by intros [??]%HK.
Qed.

(** What happens to a timer that expired: it starts again or stops. *)
Lemma timer_again_spec m per x C R :
  timers m (zeros C ++ R) -> x ∉ C -> x ∉ R.*1 -> timer_block m per x ->
  wp (ty ← load x type_;
      if ty =? osTimerPeriodic then c ← load x icnt; rt_timer_insert x c
      else store x state osTimerStopped) (fun _ m' =>
    timers m' (zeros C ++ restart per R x) /\ (per x = None -> m' !! (x, state) = Some osTimerStopped) /\
    frame (fun p f => tlinks p f \/ (per x = None /\ p = x /\ f = state)) m m') m.
Proof.
  intros HT HxC HxR (Hx0 & Hn & Hc & Hs & Hper). unfold restart. destruct (per x) as [c|].
  - destruct Hper as (Hty & Hic & Hcr). wp_run. cbn [Z.eqb]. rewrite Z.eqb_refl. wp_run.
    wp_use rt_timer_insert_spec; [done| |done|lia|done|done|].
    { rewrite zeros_fst, elem_of_app. tauto. }
    rewrite insert_timer_zeros by lia. intros _ m' [HT' HF]. split_and!; [done|done|].
    eapply frame_mono; [done|]. cbv beta. tauto.
  - destruct Hper as (ty & Hty & Hne). wp_run. rewrite (proj2 (Z.eqb_neq _ _)) by done. wp_run.
    assert (HF : frame (fun p f => p = x /\ f = state) m (<[(x, state) := osTimerStopped]> m)) by (by apply frame_store).
    split_and!; [|by look|].
    + eapply timers_frame; [done..|]. unfold tlinks. naive_solver.
    + eapply frame_mono; [exact HF|]. cbv beta. tauto.
Qed.

Lemma timer_tick_loop_spec `{ICSR} m per q pn C R p fuel :
  timers m (zeros C ++ R) -> (forall y, y ∈ R -> 0 < y.2) ->
  (forall x, x ∈ C -> timer_block m per x) ->
  timer_queue m q pn (length C) -> (length C < fuel)%nat ->
  match C with x :: _ => p = x | [] => not_due m p end ->
  wp (timer_tick_loop fuel p) (fun _ m' => timers m' (foldl (restart per) R C) /\
    (forall x, x ∈ C -> per x = None -> m' !! (x, state) = Some osTimerStopped) /\
    frame (tick_frame C) m m') m.
Proof.
  revert m R p fuel. induction C as [|x C IH]; intros m R p fuel HT HR HC HQ Hf Hp;
    (destruct fuel as [|fuel]; cbn [length] in *; [lia|]); cbn [timer_tick_loop].
  - destruct Hp as [->|(c & Hc & Hcp)].
    + cbn [Z.eqb NULL negb]. wp_run. split_and!; [done| |apply frame_refl]. by intros x []%elem_of_nil.
    + wp_step. eapply wp_mono with (Q' := fun b m' => b = false /\ m' = m).
      { destruct (negb (p =? NULL)); wp_run; [|done]. split; [by apply Z.eqb_neq|done]. }
      intros b m' [-> ->]. wp_run. split_and!; [done| |apply frame_refl]. by intros x []%elem_of_nil.
  - subst p. pose proof (HC x ltac:(by left)) as Hblk. pose proof (proj1 Hblk) as Hx0.
    pose proof HT as [(p & Hp & HL) Hnd]. rewrite zeros_fst in Hnd. cbn in Hnd.
    apply NoDup_cons in Hnd as [Hxn Hnd]. rewrite elem_of_app in Hxn.
    cbn in HL. destruct HL as (-> & _ & _ & Hc & n & Hn & HL).
    rewrite Z.sub_0_r in Hc. rewrite (proj2 (Z.eqb_neq x NULL)) by done. cbn [negb]. wp_run. rewrite Z.eqb_refl. wp_run.
    assert (is_Some (m !! (os_timer_head, value))) by eauto. wp_run. set (m1 := <[_ := _]> m).
    assert (HF1 : frame (fun p f => p = os_timer_head /\ f = value) m m1) by (by apply frame_store).
    assert (HT1 : timers m1 (zeros C ++ R)).
    { constructor; [|by rewrite zeros_fst]. exists n. split; [unfold m1; by look|].
      eapply ticks_ext; [exact HL|]. intros y f _ [->| ->]; unfold m1; by mlook. }
    assert (HQ1 : timer_queue m1 q pn (S (length C))).
    { eapply timer_queue_frame; [done..|]. naive_solver. }
    pose proof (tq_var _ _ _ _ HQ1). wp_run. wp_use isrMessagePut_spec; [done|].
    intros _ m2 [HQ2 HF2].
    assert (HT2 : timers m2 (zeros C ++ R)).
    { eapply timers_frame; [done..|]. unfold post_frame, tlinks. naive_solver. }
    assert (HF12 : frame (fun p f => tlinks p f \/ post_frame p f) m m2).
    { eapply frame_mono; [by eapply frame_trans|]. unfold tlinks. cbv beta. naive_solver. }
    assert (Hag := timer_again_spec m2 per x C R HT2 ltac:(tauto) ltac:(tauto)
      ltac:(eapply timer_block_frame; [done|exact HF12|]; unfold tlinks, post_frame; naive_solver)).
    apply wp_unbind in Hag. wp_step. eapply wp_mono; [exact Hag|]. intros ty m2' Hag2. wp_step.
    eapply wp_mono; [exact Hag2|]. intros _ m3 (HT3 & Hst3 & HF3).
    assert (HF : frame (fun p f => tlinks p f \/ post_frame p f \/ (per x = None /\ p = x /\ f = state)) m m3).
    { eapply frame_mono; [eapply frame_trans; [exact HF12|exact HF3]|]. cbv beta. tauto. }
    assert (Hnx : match C with y :: _ => n = y | [] => match R with [] => n = NULL | (y, _) :: _ => n = y end end).
    { destruct C as [|y C]; [destruct R as [|[y t] R]; [done|by destruct HL]|by destruct HL]. }
    wp_use (IH m3 (restart per R x) n fuel); [done| | | |lia| |].
    + unfold restart. destruct (per x) as [c|] eqn:E; [|done]. destruct Hblk as (_ & _ & _ & _ & Hper).
      rewrite E in Hper. intros y. rewrite insert_timer_perm. intros [->|Hy]%elem_of_cons; [cbn; lia|auto].
    + intros y Hy. pose proof (HC y ltac:(by right)).
      eapply timer_block_frame; [done|exact HF|]. unfold tlinks, post_frame. naive_solver.
    + eapply timer_queue_frame; [done|exact HF3|]. unfold tlinks.
      intros p f [[->|[->|[-> ->]]]|(_ & _ & ->)]; split_and!; (done || by intros []).
    + destruct C as [|y C]; [|done]. unfold restart in HT3. destruct (per x) as [c|] eqn:E.
      * destruct Hblk as (_ & _ & _ & _ & Hper). rewrite E in Hper.
        eapply (head_not_due m3 _ x c); [exact HT3|done|lia|done|done].
      * destruct R as [|[y t] R]; [by left|]. right. subst n. exists t.
        assert (0 < t) by (apply (HR (y, t)); by left). split; [lia|].
        destruct HT3 as [(p3 & _ & _ & _ & _ & Hc3 & _) _]. by rewrite Z.sub_0_r in Hc3.
    + intros _ m4 (HT4 & Hst4 & HF4). split_and!; [done| |].
      * intros y [->|Hy]%elem_of_cons Hny; [|by apply Hst4].
        eapply frame_eq; [exact HF4|by apply Hst3|]. unfold tick_frame, tlinks, post_frame.
        intros [[?|[?|[_ ?]]]|[[[_ Hq]|[? _]]|[_ Hz]]]; [done..| |done|tauto].
        destruct Hq as [|[|(i & [|])]]; done.
      * eapply frame_mono; [eapply frame_trans; [exact HF|exact HF4]|]. unfold tick_frame.
        cbv beta. intros p f. rewrite elem_of_cons. naive_solver.
Qed.

(** [sysTimerTick], for the tick of the kernel too. *)
Lemma sysTimerTick_spec `{ICSR} m per q pn L :
  timers m L -> (forall x t, (x, t) ∈ L -> 0 < t) ->
  (forall x, x ∈ expired L -> timer_block m per x) ->
  timer_queue m q pn (length (expired L)) ->
  wp sysTimerTick (fun _ m' => timers m' (tick_timers per L) /\
    (forall x, x ∈ expired L -> per x = None -> m' !! (x, state) = Some osTimerStopped) /\
    frame (tick_frame (expired L)) m m') m.
Proof.
  intros HT Hpos Hblk HQ. pose proof HT as [(p & Hp & HL) Hnd]. unfold sysTimerTick. wp_run.
  destruct L as [|[x t] L].
  - cbn in HL. subst p. cbn [Z.eqb NULL]. wp_run. split_and!; [done| |apply frame_refl].
    by intros x []%elem_of_nil.
  - pose proof HL as (-> & Hx0 & Ht & Hc & n & Hn & HL'). rewrite Z.sub_0_r in Hc.
    assert (Ht0 : 0 < t) by (apply (Hpos x); by left).
    rewrite (proj2 (Z.eqb_neq _ _)) by done. assert (is_Some (m !! (x, tcnt))) by eauto.
    wp_run. rewrite u16_id by lia. set (K := (x, t) :: L) in *. set (m1 := <[_ := _]> m).
    assert (HF1 : frame tlinks m m1) by (unfold m1; apply frame_insert; [apply frame_refl|right; by left|done]).
    assert (HL1 : ticks m1 x 1 K).
    { eapply ticks_rebase; [exact HL|done| | |].
      - intros y ty L' [= <- <- <-]. split; [lia|]. unfold m1. by look.
      - intros y Hy. unfold m1. by mlook.
      - intros y ty L' [= <- <- <-] z Hz. cbn in Hnd. apply NoDup_cons in Hnd as [Hxn _].
        assert (z <> x) by congruence. unfold m1. by mlook. }
    assert (HKs : (fun y => (y.1, y.2 - 1)) <$> K = zeros (expired K) ++ remaining K).
    { unfold zeros, remaining. rewrite (ticks_partition _ _ _ HL1) at 1. rewrite fmap_app. f_equal.
      rewrite <- list_fmap_compose. by apply list_fmap_ext. }
    assert (HT1 : timers m1 (zeros (expired K) ++ remaining K)).
    { rewrite <- HKs. constructor.
      - exists x. split; [unfold m1; by look|]. by apply (ticks_shift _ _ 1).
      - rewrite <- list_fmap_compose. exact Hnd. }
    wp_use (timer_tick_loop_spec m1 per q pn (expired K) (remaining K)); [done| | | | | |].
    + unfold remaining. intros y (z & -> & [Hz1 Hz]%list_elem_of_filter)%list_elem_of_fmap. cbn.
      destruct z as [z tz]. cbn in *. specialize (Hpos _ _ Hz). lia.
    + intros y Hy. pose proof (Hblk y Hy). eapply timer_block_frame; [done|exact HF1|].
      unfold tlinks. naive_solver.
    + eapply timer_queue_frame; [exact HQ|apply (frame_store x tcnt (t - 1)); done|]. naive_solver.
    + pose proof (ticks_length _ _ _ _ HL Hnd) as Hlen. unfold expired.
      pose proof (length_filter (fun y : Z * Z => y.2 = 1) K). rewrite length_fmap.
      assert (size m1 = size m) as -> by (unfold m1; by eapply map_size_insert_Some). lia.
    + rewrite <- HKs in HT1. destruct HT1 as [(p1 & Hp1 & HL2) _].
      rewrite HKs in HL2. destruct (expired K) as [|y E] eqn:EE.
      * destruct (remaining K) as [|[y ty] R] eqn:ER; [done|]. right.
        destruct HL2 as (-> & _ & _ & Hcy & _).
        assert (x = y) as <-. { cbn in HKs. congruence. }
        exists (t - 1). split; [|unfold m1; by look]. intros E1.
        assert (t = 1) by lia. subst t. unfold expired, K in EE. by rewrite filter_cons_True in EE.
      * cbn in HKs. congruence.
    + intros _ m2 (HT2 & Hst2 & HF2). split_and!; [done|done|].
      eapply frame_mono; [eapply frame_trans; [exact HF1|exact HF2]|]. unfold tick_frame. cbv beta. tauto.
Qed.


(** ** Starting and stopping *)

(** [rt_ms2tick] rounds up: the ticks last at least as long as the time that
    was asked for, and one tick less would not; more than 65534 ticks are cut
    to 65534, only [osWaitForever] is 65535, and the 32-bit arithmetic does
    not overflow for any tick length below 294967296 microseconds. *)
Theorem ms2tick_rounds_up c ms (t := ms2tick c ms) :
  0 < c < 294967296 -> 0 <= ms < 2 ^ 32 ->
  0 <= t <= 0xFFFF /\ (t = 0xFFFF <-> ms = osWaitForever) /\ (t = 0 <-> ms = 0) /\
  (t < 0xFFFE -> (t - 1) * c < 1000 * ms <= t * c) /\
  (t = 0xFFFE -> ms <= 4000000 -> 0xFFFD * c < 1000 * ms).
Proof.
  intros Hc Hms. unfold t, ms2tick, osWaitForever.
  destruct (Z.eqb_spec ms 0xFFFFFFFF); [lia|]. destruct (Z.ltb_spec 4000000 ms); [lia|].
  rewrite (u32_id (1000 * ms)), (u32_id (_ + c)) by lia.
  destruct (decide (ms = 0)) as [->|Hne].
  { rewrite u32_id by lia. replace (1000 * 0 + c - 1) with (c - 1) by lia. rewrite Z.div_small by lia.
    change (0xFFFE <? 0) with false. cbv iota. split_and!; lia. }
  rewrite u32_id by lia.
  pose proof (Z.div_mod (1000 * ms + c - 1) c ltac:(lia)) as Hdm.
  pose proof (Z.mod_pos_bound (1000 * ms + c - 1) c ltac:(lia)) as Hmb.
  set (q := (1000 * ms + c - 1) / c) in *.
  assert (0 < q) by nia.
  destruct (Z.ltb_spec 0xFFFE q); split_and!; try lia; nia.
Qed.

Lemma ms2tick_range c ms : 0 <= ms2tick c ms < 65536 \/ c <= 0.
Proof.
  destruct (Z.le_gt_cases c 0); [by right|left]. unfold ms2tick.
  destruct (_ =? _); [lia|]. destruct (_ <? _); [lia|].
  destruct (Z.ltb_spec 0xFFFE (u32 (u32 (u32 (1000 * ms) + c) - 1) / c)); [lia|].
  pose proof (Z.div_pos (u32 (u32 (u32 (1000 * ms) + c) - 1)) c (proj1 (u32_range _)) ltac:(lia)). lia.
Qed.

(** [svcTimerStart] on a stopped timer starts it with the given time as its
    time to go and its period.  On a running timer it takes the timer out and
    starts it with the new time to go, but the period stays the old one.  In
    any other state it fails and changes nothing. *)
Theorem svcTimerStart_correct m L pt ms c st (d := ms2tick c ms) :
  timers m L -> pt <> NULL -> Z.land pt 3 = 0 -> m !! (os_clockrate, value) = Some c -> 0 < c -> d <> 0 ->
  is_Some (m !! (pt, next_)) -> is_Some (m !! (pt, tcnt)) -> is_Some (m !! (pt, icnt)) ->
  m !! (pt, state) = Some st -> (st = osTimerRunning <-> pt ∈ L.*1) ->
  wp (svcTimerStart pt ms) (fun x m' =>
    if st =? osTimerRunning then
      x = osOK /\ timers m' (insert_timer pt d (remove_timer pt L)) /\ m' !! (pt, icnt) = m !! (pt, icnt)
    else if st =? osTimerStopped then
      x = osOK /\ timers m' (insert_timer pt d L) /\ m' !! (pt, icnt) = Some d /\
      m' !! (pt, state) = Some osTimerRunning
    else x = osErrorResource /\ m' = m) m.
Proof.
  intros HT Hp0 Hal Hc Hcp Hd Hs1 Hs2 Hs3 Hst HL. pose proof (ms2tick_range c ms) as Hr.
  unfold svcTimerStart, rt_id2obj. rewrite Hal, Z.eqb_refl. cbn [negb].
  rewrite (proj2 (Z.eqb_neq pt NULL)) by done. unfold rt_ms2tick. wp_run.
  rewrite (proj2 (Z.eqb_neq c 0)) by lia. wp_run. fold d. rewrite (proj2 (Z.eqb_neq d 0)) by done. wp_run.
  destruct (Z.eqb_spec st osTimerRunning) as [->|Hne].
  - wp_step. wp_use rt_timer_remove_spec; [done|]. intros x m1 (HT1 & HF1 & ->).
    rewrite decide_True by tauto. wp_run. rewrite Z.eqb_refl. wp_run.
    wp_use rt_timer_insert_spec; [done| |done|lia|by eapply frame_some..|].
    { intros ([y ty] & E & [Hy _]%list_elem_of_filter)%list_elem_of_fmap. cbn in *. congruence. }
    intros _ m2 [HT2 HF2]. wp_run. split_and!; [done|done|].
    rewrite (proj2 (HF2 _ _)), (proj2 (HF1 _ _)); [done|..]; unfold tlinks; naive_solver.
  - destruct (Z.eqb_spec st osTimerStopped) as [->|Hne2].
    + assert (is_Some (m !! (pt, state))) by eauto. wp_run. rewrite u16_id by lia. set (m1 := <[_ := _]> _).
      assert (HF1 : frame (fun p f => p = pt /\ (f = state \/ f = icnt)) m m1) by (unfold m1; frames).
      wp_use (rt_timer_insert_spec m1 L pt d); [|tauto|done|lia|by eapply frame_some..|].
      { eapply timers_frame; [done..|]. unfold tlinks. naive_solver. }
      intros _ m2 [HT2 HF2]. wp_run. unfold tlinks in HF2.
      split_and!; [done|done| |]; (eapply frame_eq; [exact HF2|unfold m1; by look|naive_solver]).
    + by wp_run.
Qed.

(** ** Examples *)

Definition timer1 : Z := 900.
Definition timer2 : Z := 920.
Definition timer3 : Z := 940.

Definition timer_cells (pt ty : Z) : list (Z * field * Z) :=
  [((pt, next_), NULL); ((pt, state), osTimerStopped); ((pt, type_), ty); ((pt, arg_), 0); ((pt, tcnt), 0);
   ((pt, icnt), 0); ((pt, timer_), NULL)].

(** Three timers, the message queue of the timer thread, ticks of one
    millisecond. *)
Definition timer_start : mem :=
  list_to_map (timer_cells timer1 osTimerPeriodic ++ timer_cells timer2 osTimerOnce ++
    timer_cells timer3 osTimerPeriodic ++
    [((os_timer_head, value), NULL); ((os_clockrate, value), 1000);
     ((osMessageQId_osTimerMessageQ, value), mbx1)]) ∪ mbx_start.

(** Timer 1 every 2 ticks, timer 2 once after 2 ticks, timer 3 every 5. *)
Definition timers_running : mem :=
  mem_of ((svcTimerStart timer1 2;; svcTimerStart timer2 2;; svcTimerStart timer3 5;;
    sysTimerTick (H := icsr_plain)) timer_start).

Definition per1 (x : Z) : option Z := if x =? timer1 then Some 2 else if x =? timer3 then Some 5 else None.

Ltac ticks_check :=
  lazymatch goal with
  | |- ticks _ _ _ [] => reflexivity
  | |- ticks _ _ _ (_ :: _) =>
      split; [vm_compute; reflexivity|]; split; [done|]; split; [lia|]; split; [vm_compute; reflexivity|];
      eexists; split; [vm_compute; reflexivity|]; ticks_check
  end.
Ltac timers_check :=
  constructor;
  [eexists; split; [vm_compute; reflexivity|]; ticks_check
  |eapply bool_decide_eq_true_1; vm_compute; reflexivity].


(** 3 milliseconds are one tick of 10 milliseconds. *)
Lemma ms2tick_rounds_up_witness : (1 - 1) * 10000 < 1000 * 3 <= 1 * 10000.
Proof.
  destruct (ms2tick_rounds_up 10000 3) as (_ & _ & _ & H & _); [lia|lia|].
  apply H. vm_compute. reflexivity.
Defined.

(** Timer 1, which has a period of 2 ticks, is started again with 7. *)
Lemma svcTimerStart_witness :
  wp (svcTimerStart timer1 7) (fun x m' => x = osOK /\
    timers m' [(timer2, 1); (timer3, 4); (timer1, 7)] /\ m' !! (timer1, icnt) = Some 2) timers_running.
Proof.
  wp_use (svcTimerStart_correct timers_running [(timer1, 1); (timer2, 1); (timer3, 4)] timer1 7 1000 osTimerRunning).
  - timers_check.
  - done.
  - reflexivity.
  - vm_compute. reflexivity.
  - lia.
  - done.
  - eexists. vm_compute. reflexivity.
  - eexists. vm_compute. reflexivity.
  - eexists. vm_compute. reflexivity.
  - vm_compute. reflexivity.
  - split; [intros _; by left|done].
  - intros x m' (-> & HT & Hi). split_and!; [done|exact HT|]. rewrite Hi. vm_compute. reflexivity.
Defined.
