(* ===== verification/RtxSystem.v ===== *)
(** * System functions of the RTX kernel ([rt_System.c], [rt_Robin.c],
    [rt_Time.c], the start-up of [rt_Task.c])

    The tick, round-robin switching, locking of the scheduler, tickless sleep
    and the service of the requests that interrupt handlers posted.

    The registers of the interrupt controller and of the system timer are cells
    of the memory that hold what was last written; the code reads back only
    those that read as written, and [NVIC_INT_CTRL], whose contents [ICSR]
    leaves to the core. *)

From S2P Require Export RtxTimer.

(** ** [rt_Time.c] *)

Definition rt_time_get : M Z := load os_time value.

Definition rt_dly_wait (delay_time : Z) : M unit := rt_block delay_time WAIT_DLY.

Definition rt_itv_set (itv : Z) : M unit :=
  r ← load os_tsk run;
  store r interval_time itv;;
  r ← load os_tsk run;
  t ← load os_time value;
  store r delta_time (u16 (itv + u16 t)).

Definition rt_itv_wait : M unit :=
  r ← load os_tsk run;
  d ← load r delta_time;
  t ← load os_time value;
  let delta := u16 (d - u16 t) in
  itv ← load r interval_time;
  store r delta_time (u16 (d + itv));;
  when (Z.land delta 0x8000 =? 0) (rt_block delta WAIT_ITV).

(** ** [rt_Robin.c] *)

Definition rt_init_robin : M unit :=
  store os_robin task NULL;;
  n ← load os_rrobin value;
  store os_robin tout (u16 n).

Definition rt_chk_robin : M unit :=
  t ← load os_robin task;
  p ← load os_rdy p_lnk;
  when (negb (t =? p)) (
    p ← load os_rdy p_lnk;
    store os_robin task p;;
    now ← load os_time value;
    n ← load os_robin tout;
    store os_robin time (u16 (u16 now + n - 1)));;
  x ← load os_robin time;
  now ← load os_time value;
  when (x =? u16 now) (
    store os_robin task NULL;;
    p_new ← rt_get_first os_rdy;
    rt_put_prio os_rdy p_new).

(** ** Registers ([rt_HAL_CM.h]) *)

Definition NVIC_ST_RELOAD : Z := 0xE000E014.
Definition NVIC_ST_CURRENT : Z := 0xE000E018.
Definition NVIC_ISER : Z := 0xE000E100.
Definition NVIC_ICER : Z := 0xE000E180.
Definition NVIC_IP : Z := 0xE000E400.
Definition NVIC_AIR_CTRL : Z := 0xE000ED0C.
Definition NVIC_SYS_PRI2 : Z := 0xE000ED1C.
Definition NVIC_SYS_PRI3 : Z := 0xE000ED20.

Section Registers.
Context `{ICSR}.

(** [OS_UNPEND (&pend_flags)] and [OS_X_UNPEND (&pend_flags)] *)
Definition OS_UNPEND : M unit :=
  v ← load NVIC_INT_CTRL value;
  let fl := u8 (Z.land (Z.shiftr v 26) 5) in
  store pend_flags value fl;;
  write_int_ctrl (Z.shiftl fl 25).

Definition OS_X_UNPEND : M unit :=
  v ← load NVIC_INT_CTRL value;
  let fl := u8 (Z.land (Z.shiftr v 28) 1) in
  store pend_flags value fl;;
  write_int_ctrl (Z.shiftl fl 27).

(** [OS_PEND (pend_flags, os_psh_flag)] and [OS_X_PEND (...)] *)
Definition OS_PEND : M unit :=
  fl ← load pend_flags value;
  p ← load os_psh_flag value;
  write_int_ctrl (u32 (Z.shiftl (Z.lor fl (Z.shiftl p 2)) 26)).

Definition OS_X_PEND : M unit :=
  fl ← load pend_flags value;
  p ← load os_psh_flag value;
  write_int_ctrl (u32 (Z.shiftl (Z.lor fl p) 28)).

Definition OS_LOCK : M unit := store NVIC_ST_CTRL value 5.
Definition OS_UNLOCK : M unit := store NVIC_ST_CTRL value 7.
Definition OS_X_LOCK (n : Z) : M unit := store NVIC_ICER (elem (Z.shiftr n 5)) (Z.shiftl 1 (Z.land n 0x1F)).
Definition OS_X_UNLOCK (n : Z) : M unit := store NVIC_ISER (elem (Z.shiftr n 5)) (Z.shiftl 1 (Z.land n 0x1F)).
Definition OS_X_INIT (n : Z) : M unit :=
  store NVIC_IP (elem n) 0xFF;;
  store NVIC_ISER (elem (Z.shiftr n 5)) (Z.shiftl 1 (Z.land n 0x1F)).

(** ** Locking the scheduler ([rt_System.c]) *)

Definition rt_tsk_lock : M unit :=
  irq ← load os_tick_irqn value;
  if irq <? 0 then
    OS_LOCK;;
    store os_lock value __TRUE;;
    OS_UNPEND
  else
    OS_X_LOCK irq;;
    store os_lock value __TRUE;;
    OS_X_UNPEND.

Definition rt_tsk_unlock : M unit :=
  irq ← load os_tick_irqn value;
  if irq <? 0 then
    OS_UNLOCK;;
    store os_lock value __FALSE;;
    OS_PEND;;
    store os_psh_flag value __FALSE
  else
    OS_X_UNLOCK irq;;
    store os_lock value __FALSE;;
    OS_X_PEND;;
    store os_psh_flag value __FALSE.

(** ** Tickless sleep *)

Definition rt_suspend : M Z :=
  rt_tsk_lock;;
  p ← load os_dly p_dlnk;
  if negb (p =? NULL) then load os_dly delta_time else mret 0xFFFF.

(** [while (os_dly.p_dlnk)]: at most [delta] + 1 rounds. *)
Fixpoint resume_loop (fuel : nat) (delta : Z) : M unit :=
  match fuel with
  | O => stuck
  | S fuel =>
      p ← load os_dly p_dlnk;
      if negb (p =? NULL) then
        rt_dec_dly;;
        if delta =? 0 then mret tt
        else
          t ← load os_time value;
          store os_time value (u32 (t + 1));;
          resume_loop fuel (delta - 1)
      else mret tt
  end.

(** "Update delays." *)
Definition resume_delays (sleep_time : Z) : M unit :=
  p ← load os_dly p_dlnk;
  if negb (p =? NULL) then
    d ← load os_dly delta_time;
    if d <=? sleep_time then
      let delta := sleep_time - d in
      t ← load os_time value;
      store os_time value (u32 (t + d));;
      store os_dly delta_time 1;;
      resume_loop (S (Z.to_nat delta)) delta
    else
      t ← load os_time value;
      store os_time value (u32 (t + sleep_time));;
      store os_dly delta_time (u16 (d - sleep_time))
  else
    t ← load os_time value;
    store os_time value (u32 (t + sleep_time)).

(** The statements with which [rt_resume], [rt_pop_req] and [rt_systick] begin
    and end: the running task goes to the front of the ready list, and the
    first ready task is selected. *)
Definition suspend_run : M unit :=
  r ← load os_tsk run;
  store r state READY;;
  r ← load os_tsk run;
  rt_put_rdy_first r.

Definition switch_to_first : M unit :=
  next ← rt_get_first os_rdy;
  rt_switch_req next.

Definition rt_resume (sleep_time : Z) : M unit :=
  suspend_run;;
  store os_robin task NULL;;
  resume_delays sleep_time;;
  switch_to_first;;
  rt_tsk_unlock.

(** ** Post service requests *)

(** One request of the queue. *)
Definition pop_one (idx : Z) : M unit :=
  p_CB ← load os_psq (q_id idx);
  ty ← load p_CB cb_type;
  if ty =? TCB then
    arg ← load os_psq (q_arg idx);
    rt_evt_psh p_CB (u16 arg)
  else if ty =? MCB then
    arg ← load os_psq (q_arg idx);
    rt_mbx_psh p_CB arg
  else rt_sem_psh p_CB.

(** [while (os_psq->count)]: the count is a byte, and goes down in each round. *)
Fixpoint pop_loop (fuel : nat) (idx : Z) : M Z :=
  match fuel with
  | O => stuck
  | S fuel =>
      c ← load os_psq count_;
      if negb (c =? 0) then
        pop_one idx;;
        n ← load os_psq size_;
        let idx := if u32 (idx + 1) =? n then 0 else u32 (idx + 1) in
        c ← load os_psq count_;
        store os_psq count_ (u8 (c - 1));;
        pop_loop fuel idx
      else mret idx
  end.

Definition rt_pop_req : M unit :=
  suspend_run;;
  idx ← load os_psq last_;
  idx ← pop_loop 256 idx;
  store os_psq last_ (u8 idx);;
  switch_to_first.

(** ** The tick *)

Definition rt_systick : M unit :=
  suspend_run;;
  rt_chk_robin;;
  t ← load os_time value;
  store os_time value (u32 (t + 1));;
  rt_dec_dly;;
  sysTimerTick;;
  switch_to_first.

End Registers.

(** ** Start-up *)

(** The reload value of the system timer, the stack of the idle task and its
    entry point are objects of the configuration ([RTX_CM_lib.h]). *)
Class Config := {
  os_trv : Z;
  idle_task_stack_size : Z;
  idle_task_stack : Z;
  os_idle_demon : Z
}.

Section Startup.
Context `{Config}.

Definition rt_systick_init : M unit :=
  store NVIC_ST_RELOAD value os_trv;;
  store NVIC_ST_CURRENT value 0;;
  store NVIC_ST_CTRL value 7;;
  v ← load NVIC_SYS_PRI3 value;
  store NVIC_SYS_PRI3 value (Z.lor v 0xFF000000).

(** The instruction [clz]: leading zeros of a 32-bit value. *)
Definition __clz (v : Z) : Z := if v <=? 0 then 32 else 31 - Z.log2 v.

Definition rt_svc_init : M unit :=
  v ← load NVIC_SYS_PRI3 value;
  store NVIC_SYS_PRI3 value (Z.lor v 0x00FF0000);;
  v ← load NVIC_SYS_PRI3 value;
  let sh := 8 - __clz (u32 (Z.lnot (Z.land (u32 (Z.shiftl v 8)) 0xFF000000))) in
  a ← load NVIC_AIR_CTRL value;
  let prigroup := Z.land (Z.shiftr a 8) 7 in
  let sh := if sh <=? prigroup then prigroup + 1 else sh in
  w ← load NVIC_SYS_PRI2 value;
  store NVIC_SYS_PRI2 value (Z.lor (Z.land (u32 (Z.shiftl 0xFEFFFFFF sh)) 0xFF000000) (Z.land w 0x00FFFFFF)).

(** [os_tick_init], which an application may replace. *)
Definition os_tick_init : M Z :=
  rt_systick_init;;
  mret (-1).

Definition rt_sys_init : M unit :=
  n ← load os_maxtaskrun value;
  for_loop (Z.to_nat n) 0 (fun i => store os_active_TCB (elem i) NULL);;
  store os_idle_TCB task_id 255;;
  store os_idle_TCB priv_stack (u16 idle_task_stack_size);;
  store os_idle_TCB stack idle_task_stack;;
  rt_init_context os_idle_TCB 0 os_idle_demon;;
  store os_rdy cb_type HCB;;
  store os_rdy p_lnk NULL;;
  store os_dly cb_type HCB;;
  store os_dly p_dlnk NULL;;
  store os_dly p_blnk NULL;;
  store os_dly delta_time 0;;
  store os_tsk run os_idle_TCB;;
  r ← load os_tsk run;
  store r state RUNNING;;
  store os_psq first_ 0;;
  store os_psq last_ 0;;
  n ← load os_fifo_size value;
  store os_psq size_ (u8 n);;
  rt_init_robin;;
  rt_svc_init.

Definition rt_sys_start : M unit :=
  irq ← os_tick_init;
  store os_tick_irqn value irq;;
  irq ← load os_tick_irqn value;
  if 0 <=? irq then OS_X_INIT irq else mret tt.

End Startup.

(** ** Time passes *)

(** The tasks whose time-out comes within [s] ticks, and those that wait
    longer, with the rest of their time. *)
Definition due (s : Z) (D : list (Z * Z)) : list Z := (dbefore (s + 1) D).*1.
Definition later (s : Z) (D : list (Z * Z)) : list (Z * Z) := (fun x => (x.1, x.2 - s)) <$> dafter (s + 1) D.

Lemma dbefore_shift s d D :
  dbefore d ((fun x => (x.1, x.2 - s)) <$> D) = (fun x => (x.1, x.2 - s)) <$> dbefore (d + s) D.
Proof.
  induction D as [|[x t] D IH]; [done|]. cbn.
  destruct (Z.ltb_spec (t - s) d), (Z.ltb_spec t (d + s)); try lia; [|done]. cbn. by rewrite IH.
Qed.

Lemma dafter_shift s d D :
  dafter d ((fun x => (x.1, x.2 - s)) <$> D) = (fun x => (x.1, x.2 - s)) <$> dafter (d + s) D.
Proof.
  induction D as [|[x t] D IH]; [done|]. cbn.
  destruct (Z.ltb_spec (t - s) d), (Z.ltb_spec t (d + s)); try lia; done.
Qed.

Lemma fst_shift s (D : list (Z * Z)) : ((fun x => (x.1, x.2 - s)) <$> D).*1 = D.*1.
Proof. by rewrite <- list_fmap_compose. Qed.

Lemma due_tick D : (dbefore 1 (tick_dly D)).*1 = due 1 D.
Proof. unfold tick_dly, due. by rewrite dbefore_shift, fst_shift. Qed.

Lemma later_tick D : dafter 1 (tick_dly D) = later 1 D.
Proof. unfold tick_dly, later. by rewrite dafter_shift. Qed.

Lemma dsplit_add a b D : a <= b ->
  dbefore b D = dbefore a D ++ dbefore b (dafter a D) /\ dafter b (dafter a D) = dafter b D.
Proof.
  intros Hab. induction D as [|[x t] D [IH1 IH2]]; [done|]. cbn.
  destruct (Z.ltb_spec t a), (Z.ltb_spec t b); try lia; cbn.
  - by rewrite IH1 at 1.
  - by rewrite (proj2 (Z.ltb_lt t b)).
  - by rewrite (proj2 (Z.ltb_ge t b)).
Qed.

(** Waiting [a] ticks and then [b] more. *)
Lemma due_add a b D : 0 <= b -> due (a + b) D = due a D ++ due b (later a D).
Proof.
  intros Hb. unfold due, later. rewrite dbefore_shift, fst_shift, <- fmap_app. f_equal.
  rewrite (proj1 (dsplit_add (a + 1) (a + b + 1) D ltac:(lia))). do 2 f_equal. lia.
Qed.

Lemma later_add a b D : 0 <= b -> later (a + b) D = later b (later a D).
Proof.
  intros Hb. unfold later. rewrite dafter_shift, <- list_fmap_compose.
  replace (b + 1 + a) with (a + b + 1) by lia.
  rewrite (proj2 (dsplit_add (a + 1) (a + b + 1) D ltac:(lia))).
  apply list_fmap_ext. intros _ [x t] _. cbn. f_equal. lia.
Qed.

Lemma due_0 D : (forall x, x ∈ D -> 0 < x.2) -> due 0 D = [] /\ later 0 D = D.
Proof.
  intros Hp. unfold due, later. destruct D as [|[x t] D]; [done|].
  assert (0 < t) by (apply (Hp (x, t)); by left). cbn [dbefore dafter snd]. rewrite (proj2 (Z.ltb_ge t (0 + 1))) by lia. split; [done|].
  cbn. rewrite Z.sub_0_r. f_equal. clear. induction D as [|[y u] D IH]; [done|]. cbn. rewrite IH. do 2 f_equal. lia.
Qed.

Lemma deltas_sorted m p t0 D e x t : deltas m p t0 D e -> (x, t) ∈ D -> t0 <= t < 65536.
Proof.
  revert p t0. induction D as [|[q c] D IH]; intros p t0 HD Hx; [by apply elem_of_nil in Hx|].
  destruct HD as (Hc & _ & HD). apply elem_of_cons in Hx as [[= -> ->]|Hx]; [lia|].
  specialize (IH _ _ HD Hx). lia.
Qed.

Lemma due_nil m p t0 D e s : deltas m p t0 D e -> s < t0 -> due s D = [].
Proof.
  destruct D as [|[q c] D]; [done|]. intros (Hc & _) Hs. unfold due. cbn.
  by rewrite (proj2 (Z.ltb_ge c (s + 1))) by lia.
Qed.

(** Exactly the time-outs of at most [s] ticks are due. *)
Lemma in_due m p t0 D e s x : deltas m p t0 D e -> x ∈ due s D <-> exists t, (x, t) ∈ D /\ t <= s.
Proof.
  revert p t0. induction D as [|[q c] D IH]; intros p t0.
  - intros _. split; [by intros []%elem_of_nil|]. intros (t & []%elem_of_nil & _).
  - intros (Hc & _ & HD). unfold due in *. cbn. destruct (Z.ltb_spec c (s + 1)).
    + cbn. rewrite elem_of_cons, (IH _ _ HD). split.
      * intros [->|(t & Ht & Hs)]; [exists c; split; [by left|lia]|exists t; split; [by right|done]].
      * intros (t & [[= -> ->]|Ht]%elem_of_cons & Hs); [by left|right; eauto].
    + split; [by intros []%elem_of_nil|]. intros (t & [[= -> ->]|Ht]%elem_of_cons & Hs); [lia|].
      pose proof (deltas_sorted _ _ _ _ _ _ _ HD Ht). lia.
Qed.

Lemma in_later m p t0 D e s x t : deltas m p t0 D e -> (x, t) ∈ later s D <-> (x, t + s) ∈ D /\ 0 < t.
Proof.
  revert p t0. induction D as [|[q c] D IH]; intros p t0.
  - intros _. unfold later. cbn. rewrite !elem_of_nil. tauto.
  - intros (Hc & _ & HD). unfold later in *. cbn. destruct (Z.ltb_spec c (s + 1)).
    + rewrite (IH _ _ HD), elem_of_cons. split; [tauto|]. intros [[[= -> Ht]|?] ?]; [lia|done].
    + cbn. rewrite elem_of_cons, elem_of_cons. split.
      * intros [[= -> ->]|([y u] & [= -> ->] & Hy)%list_elem_of_fmap].
        { split; [left; f_equal; lia|lia]. }
        { pose proof (deltas_sorted _ _ _ _ _ _ _ HD Hy). cbn. split; [right|lia].
          replace (u - s + s) with u by lia. done. }
      * intros [[[= -> Ht]|Ht] Hp]; [left; f_equal; lia|]. right. apply list_elem_of_fmap.
        exists (x, t + s). split; [cbn; f_equal; lia|done].
Qed.

Lemma release_rdy_app pr k1 k2 l : release_rdy pr (k1 ++ k2) l = release_rdy pr k2 (release_rdy pr k1 l).
Proof. apply foldl_app. Qed.

Lemma wakeups_app pr k1 k2 Q : wakeups pr (k1 ++ k2) Q = wakeups pr k2 (wakeups pr k1 Q).
Proof. apply foldl_app. Qed.

Lemma wakeups_rdy pr k Q l : Q !! os_rdy = Some l -> NoDup k -> (forall t, t ∈ k -> t ∉ l) ->
  wakeups pr k Q !! os_rdy = Some (release_rdy pr k l).
Proof.
  revert Q l. induction k as [|t k IH]; intros Q l Hl Hnd Hk; [done|]. cbn.
  apply NoDup_cons in Hnd as [Ht Hnd]. apply IH; [|done|].
  - apply wake_rdy; [done|]. apply Hk. by left.
  - intros x Hx Hi. apply insert_prio_in in Hi as [->|Hi]; [done|]. apply (Hk x); [by right|done].
Qed.

Lemma wakeups_sorted pr k Q : (forall h l, Q !! h = Some l -> by_prio pr l) ->
  forall h l, wakeups pr k Q !! h = Some l -> by_prio pr l.
Proof.
  revert Q. induction k as [|t k IH]; intros Q Hs; [done|]. cbn. apply IH.
  intros h l. unfold wake. intros [[<- <-]|[_ Hl]]%lookup_insert_Some; [|by eapply unqueue_sorted].
  apply insert_prio_sorted. destruct (unqueue t Q !! os_rdy) as [l|] eqn:E; [|constructor].
  by eapply unqueue_sorted.
Qed.

(** The cells [rt_dec_dly] changes when it wakes the tasks [k]. *)
Definition wake_frame (k : list Z) (p : Z) (f : field) : Prop :=
  links f \/ dlinks f \/ (p ∈ k /\ f = state).

(** One tick of the time-outs. *)
Lemma lists_dec_dly m T pr Q D l tm :
  lists m T pr Q D l -> readies m T l -> m !! (os_time, value) = Some tm ->
  wp rt_dec_dly (fun _ m' =>
    lists m' T pr (wakeups pr (due 1 D) Q) (later 1 D) (release_rdy pr (due 1 D) l) /\
    readies m' T (release_rdy pr (due 1 D) l) /\ frame (wake_frame (due 1 D)) m m') m.
Proof.
  intros HL HR Htm. pose proof HL as [HQ HT HD Hl Hs Ha Hp].
  wp_use rt_dec_dly_spec; [done|done|done|done|by intros t Ht Hx; eapply Ha|done|done|].
  rewrite due_tick, later_tick. intros _ m' (HQ' & HD' & Hst & HF).
  pose proof (d_time _ _ _ HD) as Hdt. pose proof (d_nodup _ _ _ HD) as Hnd.
  assert (Hsplit : D.*1 = due 1 D ++ (dafter 2 D).*1).
  { unfold due. rewrite <- fmap_app. by rewrite dbefore_dafter. }
  assert (Hdl : forall t, t ∈ due 1 D -> t ∉ l).
  { intros t Ht Hx. apply (Ha t Hx). rewrite Hsplit, elem_of_app. by left. }
  rewrite Hsplit in Hnd. apply NoDup_app in Hnd as (Hnd & Hdis & _).
  split_and!; [|intros t Ht|done].
  - constructor; [done| |done|by apply wakeups_rdy|by apply wakeups_sorted| |].
    + eapply tcbs_frame; [done..|]. unfold links, dlinks. intros p f _. naive_solver.
    + intros t. rewrite release_rdy_in. unfold later. rewrite fst_shift. intros [Hx|Hx] Hy.
      * apply (Ha t Hx). rewrite Hsplit, elem_of_app. by right.
      * by apply (Hdis t).
    + intros [x t] Hx. cbn. by apply (in_later _ _ _ _ _ 1 x t Hdt) in Hx as [_ ?].
  - destruct (decide (t ∈ due 1 D)) as [Hx|Hx].
    + exists READY. rewrite release_rdy_in. split; [by apply Hst|tauto].
    + destruct (HR t Ht) as (st & Hs1 & Hiff). exists st. rewrite release_rdy_in. split; [|rewrite Hiff; tauto].
      eapply frame_eq; [done..|]. unfold links, dlinks. naive_solver.
Qed.

(** [n] ticks in a row. *)
Lemma lists_dec_dly_iter n i m T pr Q D l tm :
  lists m T pr Q D l -> readies m T l -> m !! (os_time, value) = Some tm ->
  wp (for_loop n i (fun _ => rt_dec_dly)) (fun _ m' =>
    lists m' T pr (wakeups pr (due (Z.of_nat n) D) Q) (later (Z.of_nat n) D) (release_rdy pr (due (Z.of_nat n) D) l) /\
    readies m' T (release_rdy pr (due (Z.of_nat n) D) l) /\ frame (wake_frame (due (Z.of_nat n) D)) m m') m.
Proof.
  revert i m Q D l. induction n as [|n IH]; intros i m Q D l HL HR Htm; cbn [for_loop].
  - change (Z.of_nat 0) with 0. destruct (due_0 D) as [-> ->]; [by eapply l_pos|]. wp_run. split_and!; [done|done|apply frame_refl].
  - wp_step. wp_use lists_dec_dly; [done..|]. intros _ m1 (HL1 & HR1 & HF1).
    wp_use IH; [done|done| |].
    + eapply frame_eq; [done..|]. unfold wake_frame, links, dlinks. naive_solver.
    + replace (Z.of_nat (S n)) with (1 + Z.of_nat n) by lia.
      rewrite due_add, later_add, release_rdy_app, wakeups_app by lia.
      intros _ m2 (HL2 & HR2 & HF2). split_and!; [done|done|].
      eapply frame_mono; [by eapply frame_trans|]. unfold wake_frame. cbv beta. intros p f.
      rewrite elem_of_app. tauto.
Qed.

(** ** The tick *)

Lemma suspend_run_spec m T pr Q D l r :
  kernel m T pr Q D l r ->
  wp suspend_run (fun _ m' => lists m' T pr (<[os_rdy := r :: l]> Q) D (r :: l) /\ readies m' T (r :: l) /\
    frame (fun p f => links f \/ (p = r /\ f = state)) m m') m.
Proof.
  intros [[HL HR Hnew Hr Hst Htop] Hrun]. unfold suspend_run.
  assert (is_Some (m !! (r, state))) by eauto. wp_run.
  assert (HF : frame (fun p f => p = r /\ f = state) m (<[(r, state) := READY]> m)) by (by apply frame_store).
  wp_use lists_put_rdy_first; [|done|done|].
  - eapply lists_frame; [done..|]. unfold links, dlinks. naive_solver.
  - intros _ m1 [HL1 HF1]. split_and!; [done| |].
    + eapply readies_frame; [|exact HF1|unfold links; naive_solver].
      eapply readies_set; [exact HR|tauto| |].
      * intros x Hx. rewrite elem_of_cons. tauto.
      * rewrite elem_of_cons. tauto.
    + eapply frame_mono; [by eapply frame_trans|]. cbv beta. tauto.
Qed.

(** The time at which the first ready task [c] has to give way, and whether it
    has come. *)
Definition robin_time (t0 x n tm c : Z) : Z := if t0 =? c then x else u16 (u16 tm + n - 1).
Definition robin_over (t0 x n tm c : Z) : bool := robin_time t0 x n tm c =? u16 tm.

Record robin (m : mem) (t0 x n : Z) : Prop := {
  rb_task : m !! (os_robin, task) = Some t0;
  rb_time : m !! (os_robin, time) = Some x;
  rb_tout : m !! (os_robin, tout) = Some n
}.

Lemma readies_ext m T l l' : readies m T l -> (forall x, x ∈ l <-> x ∈ l') -> readies m T l'.
Proof. intros HR E t Ht. destruct (HR t Ht) as (st & Hs & Hiff). exists st. by rewrite Hiff. Qed.

Definition rotated (pr : Z -> Z) (over : bool) (c : Z) (l : list Z) : list Z :=
  if over then insert_prio pr c l else c :: l.

Lemma rotated_in pr over c l x : x ∈ rotated pr over c l <-> x ∈ c :: l.
Proof. unfold rotated. destruct over; [|done]. by rewrite insert_prio_in, elem_of_cons. Qed.

Definition robin_frame (p : Z) (f : field) : Prop := links f \/ (p = os_robin /\ (f = task \/ f = time)).

Lemma rt_chk_robin_spec m T pr Q D l c t0 x n tm (over := robin_over t0 x n tm c) :
  lists m T pr Q D (c :: l) -> readies m T (c :: l) -> robin m t0 x n -> m !! (os_time, value) = Some tm ->
  wp rt_chk_robin (fun _ m' =>
    lists m' T pr (<[os_rdy := rotated pr over c l]> Q) D (rotated pr over c l) /\
    readies m' T (rotated pr over c l) /\
    robin m' (if over then NULL else c) (robin_time t0 x n tm c) n /\
    frame robin_frame m m') m.
Proof.
  intros HL HR [H1 H2 H3] Htm. unfold rt_chk_robin.
  pose proof (q_queue _ _ _ (l_queues _ _ _ _ _ _ HL) _ _ (l_rdy _ _ _ _ _ _ HL)) as [Hhd _].
  apply seg_hd in Hhd. cbn [hdz] in Hhd. wp_run.
  eapply wp_mono with (Q' := fun _ m1 => robin m1 c (robin_time t0 x n tm c) n /\
    frame (fun p f => p = os_robin /\ (f = task \/ f = time)) m m1).
  { unfold robin_time. destruct (Z.eqb_spec t0 c) as [->|Hne]; cbn [negb]; [wp_run; done|].
    assert (is_Some (m !! (os_robin, task))) by eauto. assert (is_Some (m !! (os_robin, time))) by eauto.
    wp_run. split; [|frames]. constructor; by look. }
  intros _ m1 ([R1 R2 R3] & HF1).
  assert (HL1 : lists m1 T pr Q D (c :: l)).
  { eapply lists_frame; [done..|]. unfold links, dlinks. naive_solver. }
  assert (Htm1 : m1 !! (os_time, value) = Some tm) by (eapply frame_eq; [done..|]; intros [? _]; done).
  wp_run. unfold robin_over in over. fold over. destruct over.
  - assert (is_Some (m1 !! (os_robin, task))) by eauto.
    assert (HF2 : frame (fun p f => p = os_robin /\ f = task) m1 (<[(os_robin, task) := NULL]> m1)) by (by apply frame_store).
    wp_run. wp_use lists_get_rdy; [|done|].
    { eapply lists_frame; [exact HL1|exact HF2|]. unfold links, dlinks. naive_solver. }
    intros y m2 (-> & HL2 & Hc & _ & HF3).
    wp_use lists_put_rdy; [done..|]. intros _ m3 [HL3 HF4]. rewrite insert_insert_eq in HL3.
    assert (HF : frame robin_frame m m3).
    { eapply frame_mono; [eapply frame_trans; [exact HF1|eapply frame_trans; [exact HF2|
        eapply frame_trans; [exact HF3|exact HF4]]]|]. unfold robin_frame. cbv beta. unfold links. tauto. }
    unfold links in HF3, HF4. split_and!; [exact HL3| | |done].
    + apply readies_ext with (c :: l); [|intros y; by rewrite rotated_in].
      eapply readies_frame; [exact HR|exact HF|]. unfold robin_frame, links. naive_solver.
    + clear HF. constructor; flook.
  - wp_run. cbn [rotated]. rewrite insert_id by apply HL. split_and!; [done| |done|].
    + eapply readies_frame; [done..|]. naive_solver.
    + eapply frame_mono; [done|]. unfold robin_frame. tauto.
Qed.

Lemma switch_to_first_spec m T pr Q D l :
  lists m T pr Q D l -> readies m T l -> l <> [] -> is_Some (m !! (os_tsk, new_tsk)) ->
  wp switch_to_first (fun _ m' => exists c l', l = c :: l' /\
    sched m' T pr (<[os_rdy := l']> Q) D l' c /\ frame (sfr [c]) m m') m.
Proof.
  intros HL HR Hl Hn. destruct l as [|c l']; [done|]. unfold switch_to_first.
  wp_use select_first; [done..|]. intros _ m' [HS HF]. eauto.
Qed.

Lemma release_rdy_nonempty pr k l : l <> [] -> release_rdy pr k l <> [].
Proof.
  destruct l as [|x l]; [done|]. intros _ E. assert (Hx : x ∈ release_rdy pr k (x :: l)).
  { rewrite release_rdy_in. left. by left. }
  rewrite E in Hx. by apply elem_of_nil in Hx.
Qed.

(** The cells the tick of the kernel changes before it selects a task. *)
Definition tick_cells (r : Z) (k : list Z) (p : Z) (f : field) : Prop :=
  robin_frame p f \/ dlinks f \/ (f = state /\ (p = r \/ p ∈ k)) \/ (p = os_time /\ f = value).

(** The first part of the tick, up to the software timers. *)
Lemma tick_use {A} m T pr Q D l r tm t0 x n (c : M A) Post
    (over := robin_over t0 x n tm r) (l0 := rotated pr over r l) (k := due 1 D) :
  kernel m T pr Q D l r -> m !! (os_time, value) = Some tm -> robin m t0 x n ->
  (forall m', lists m' T pr (wakeups pr k (<[os_rdy := l0]> Q)) (later 1 D) (release_rdy pr k l0) ->
    readies m' T (release_rdy pr k l0) -> release_rdy pr k l0 <> [] ->
    m' !! (os_time, value) = Some (u32 (tm + 1)) ->
    robin m' (if over then NULL else r) (robin_time t0 x n tm r) n ->
    frame (tick_cells r k) m m' -> wp c Post m') ->
  wp (suspend_run;; rt_chk_robin;; t ← load os_time value; store os_time value (u32 (t + 1));; rt_dec_dly;; c) Post m.
Proof.
  intros HK Htm HRb Hc.
  wp_step. wp_use suspend_run_spec; [done|]. intros _ m1 (HL1 & HR1 & HF1). unfold links in HF1.
  wp_step. wp_use rt_chk_robin_spec; [exact HL1|exact HR1| |by flook|].
  { destruct HRb. constructor; flook. }
  rewrite insert_insert_eq. fold over l0. intros _ m2 (HL2 & HR2 & HRb2 & HF2). unfold robin_frame, links in HF2.
  assert (Htm2 : m2 !! (os_time, value) = Some tm) by flook.
  assert (is_Some (m2 !! (os_time, value))) by eauto. wp_run.
  set (m3 := <[_ := _]> m2).
  assert (HF3 : frame (fun p f => p = os_time /\ f = value) m2 m3) by (by apply frame_store).
  wp_use lists_dec_dly; [| |unfold m3; by look|].
  { eapply lists_frame; [exact HL2|exact HF3|]. unfold links, dlinks. naive_solver. }
  { eapply readies_frame; [exact HR2|exact HF3|]. naive_solver. }
  fold k. intros _ m4 (HL4 & HR4 & HF4). unfold wake_frame, links, dlinks in HF4.
  assert (Hne : l0 <> []).
  { intros E. assert (Hr : r ∈ l0) by (apply rotated_in; by left). rewrite E in Hr. by apply elem_of_nil in Hr. }
  apply Hc; [done|done|by apply release_rdy_nonempty| | |].
  - eapply (frame_eq _ _ _ _ _ _ HF4); [unfold m3; by look|]. naive_solver.
  - destruct HRb2. constructor; (eapply (frame_eq _ _ _ _ _ _ HF4); [unfold m3; by look|naive_solver]).
  - eapply frame_mono; [eapply frame_trans; [exact HF1|eapply frame_trans; [exact HF2|
      eapply frame_trans; [exact HF3|exact HF4]]]|]. unfold tick_cells, robin_frame, links, dlinks. cbv beta. tauto.
Qed.

(** C5: the tick ([rt_systick]): the running task goes to the front of the ready
    list, or behind the tasks of its priority if its round-robin time is over;
    the tasks whose time-out comes now are woken, in order; the software timers
    advance by one; and the first ready task is selected. *)
Theorem rt_systick_correct `{ICSR} m T pr Q D l r tm t0 x n per q pn L
    (over := robin_over t0 x n tm r) (l0 := rotated pr over r l) (k := due 1 D) :
  kernel m T pr Q D l r -> m !! (os_time, value) = Some tm -> robin m t0 x n ->
  timers m L -> (forall x t, (x, t) ∈ L -> 0 < t) ->
  (forall x, x ∈ expired L -> timer_block m per x /\ x ∉ T) -> timer_queue m q pn (length (expired L)) ->
  wp rt_systick (fun _ m' => exists c l', release_rdy pr k l0 = c :: l' /\
    sched m' T pr (<[os_rdy := l']> (wakeups pr k (<[os_rdy := l0]> Q))) (later 1 D) l' c /\
    m' !! (os_tsk, run) = Some r /\ m' !! (os_time, value) = Some (u32 (tm + 1)) /\
    robin m' (if over then NULL else r) (robin_time t0 x n tm r) n /\
    timers m' (tick_timers per L)) m.
Proof.
  intros HK Htm HRb HT Hpos Hblk HQ. pose proof (proj2 HK) as Hrun.
  pose proof (s_new _ _ _ _ _ _ _ (proj1 HK)) as Hnew. unfold rt_systick.
  eapply tick_use; [done..|]. fold over l0 k. intros m4 HL4 HR4 Hne Htm4 HRb4 HF.
  unfold tick_cells, robin_frame, links, dlinks in HF.
  wp_step. wp_use sysTimerTick_spec; [|done| | |].
  { eapply timers_frame; [exact HT|exact HF|]. unfold tlinks. naive_solver. }
  { intros y Hy. eapply timer_block_frame; [by apply Hblk|exact HF|]. naive_solver. }
  { eapply timer_queue_frame; [exact HQ|exact HF|]. naive_solver. }
  intros _ m5 (HT5 & _ & HF5). unfold tick_frame, tlinks, post_frame in HF5.
  wp_use switch_to_first_spec; [| |exact Hne| |].
  { eapply lists_frame; [exact HL4|exact HF5|]. unfold links, dlinks. naive_solver. }
  { intros t Ht. destruct (HR4 t Ht) as (st & Hs & Hiff). exists st. split; [|done].
    eapply frame_eq; [exact HF5|exact Hs|]. naive_solver. }
  { flook. }
  intros _ m6 (c & l' & E & HS & HF6). exists c, l'. unfold sfr, links, dlinks in HF6.
  split_and!; [done|done|by flook|by flook| |].
  - destruct HRb4. constructor; flook.
  - eapply timers_frame; [exact HT5|exact HF6|]. unfold tlinks. naive_solver.
Qed.

Lemma fst_unique (D : list (Z * Z)) t u d : NoDup D.*1 -> (t, u) ∈ D -> (t, d) ∈ D -> u = d.
Proof.
  induction D as [|[x c] D IH]; [by intros _ []%elem_of_nil|]. cbn. rewrite !elem_of_cons.
  assert (Hin : forall v, (x, v) ∈ D -> x ∈ D.*1) by (intros v Hv; apply list_elem_of_fmap; by exists (x, v)).
  intros [Hx Hnd]%NoDup_cons [[= -> ->]|Hu] [[= <-]|Hd]; [done|..|by apply IH].
  - by destruct Hx; eapply Hin.
  - subst. by destruct Hx; eapply Hin.
Qed.

(** C26: a time-out of [d] ticks is exact: until the tick before, the task waits
    and its remaining time goes down by one with each tick; with the [d]-th
    tick it is ready. *)
Theorem timeout_exact m T pr Q D l tm t d n :
  lists m T pr Q D l -> readies m T l -> m !! (os_time, value) = Some tm -> (t, d) ∈ D -> Z.of_nat n <= d ->
  wp (for_loop n 0 (fun _ => rt_dec_dly)) (fun _ m' =>
    exists Q' D' l', lists m' T pr Q' D' l' /\ readies m' T l' /\
      if Z.of_nat n <? d then (t, d - Z.of_nat n) ∈ D' /\ m' !! (t, state) = m !! (t, state)
      else t ∈ l' /\ t ∉ D'.*1 /\ m' !! (t, state) = Some READY) m.
Proof.
  intros HL HR Htm Ht Hn. wp_use lists_dec_dly_iter; [done..|]. intros _ m' (HL' & HR' & HF).
  pose proof (d_time _ _ _ (l_delays _ _ _ _ _ _ HL)) as Hd.
  pose proof (d_nodup _ _ _ (l_delays _ _ _ _ _ _ HL)) as Hnd.
  assert (Huniq : forall u, (t, u) ∈ D -> u = d).
  { intros u Hu. by eapply fst_unique. }
  eexists _, _, _. split_and!; [exact HL'|exact HR'|]. destruct (Z.ltb_spec (Z.of_nat n) d).
  - split.
    + apply (in_later _ _ _ _ _ _ _ _ Hd). replace (d - Z.of_nat n + Z.of_nat n) with d by lia. split; [done|lia].
    + apply (proj2 (HF t state)). unfold wake_frame, links, dlinks.
      intros [[|]|[[|[|]]|[Hx _]]]; [done..|]. apply (in_due _ _ _ _ _ _ _ Hd) in Hx as (u & Hu%Huniq & ?). lia.
  - assert (Hx : t ∈ due (Z.of_nat n) D) by (apply (in_due _ _ _ _ _ _ _ Hd); exists d; split; [done|lia]).
    assert (Hr : t ∈ release_rdy pr (due (Z.of_nat n) D) l) by (apply release_rdy_in; by right).
    split_and!; [done|by eapply (l_apart _ _ _ _ _ _ HL')|].
    destruct (HR' t) as (st & Hst & Hiff).
    { eapply d_tasks; [apply HL|]. apply list_elem_of_fmap. by exists (t, d). }
    rewrite Hst. f_equal. by apply Hiff.
Qed.

(** ** Tickless sleep *)


Lemma deltas_shift s m p t0 D :
  0 <= s -> deltas m p t0 D None -> deltas m p (t0 - s) ((fun x => (x.1, x.2 - s)) <$> D) None.
Proof.
  intros Hs. revert p t0. induction D as [|[q c] D IH]; intros p t0; cbn; [done|].
  intros (? & E & HD). split_and!; [lia|lia|rewrite E; f_equal; lia|by apply IH].
Qed.

Lemma later_cons s t d D : s < d -> later s ((t, d) :: D) = (fun x => (x.1, x.2 - s)) <$> (t, d) :: D.
Proof. intros Hs. unfold later. cbn. by rewrite (proj2 (Z.ltb_ge d (s + 1))) by lia. Qed.

(** Writing the time of the first time-out: less than all of it has passed. *)
Lemma lists_skip m T pr Q t d D l s :
  lists m T pr Q ((t, d) :: D) l -> 0 <= s < d ->
  lists (<[(os_dly, delta_time) := d - s]> m) T pr Q (later s ((t, d) :: D)) l /\
  m !! (os_dly, delta_time) = Some d /\ d < 65536.
Proof.
  intros HL Hs. pose proof HL as [HQ HT HD Hl Hso Ha Hp]. rewrite later_cons by lia.
  pose proof HD as [Hd1 Hd2 Hd3 Hd4 Hd5 Hd6]. destruct Hd3 as (Hd & Hdt & Hds). rewrite Z.sub_0_r in Hdt.
  set (m1 := <[_ := _]> m). split; [|split; [done|lia]].
  assert (HF : frame (fun p f => p = os_dly /\ f = delta_time) m m1) by (apply frame_store; eauto).
  assert (Hnd : NoDup (os_dly :: t :: D.*1)) by (by eapply (dlist_nodup m pr T _ HD)).
  assert (Hds1 : deltas m1 t d D None).
  { eapply deltas_ext; [exact Hds|]. intros q Hq. unfold m1. rewrite lookup_insert_ne; [done|].
    intros [= <-]. apply NoDup_cons in Hnd as [Hn _]. by rewrite elem_of_cons in Hn. }
  constructor; try done.
  - eapply frame_queues; [done..|]. unfold links. naive_solver.
  - eapply tcbs_frame; [done..|]. intros p f _. naive_solver.
  - constructor; rewrite ?fst_shift; try done.
    + eapply seg_ext; [done|]. intros. unfold m1. by mlook.
    + eapply backs_ext; [done|]. intros. unfold m1. by mlook.
    + cbn. split_and!; [lia|lia|unfold m1; mlook; f_equal; lia|].
      apply deltas_shift; [lia|done].
    + intros. unfold m1. mlook. auto.
  - intros x Hx. rewrite fst_shift. by apply Ha.
  - intros x (y & -> & Hy)%list_elem_of_fmap. cbn. apply elem_of_cons in Hy as [->|Hy]; [cbn; lia|].
    destruct y as [y c]. pose proof (deltas_sorted _ _ _ _ _ _ _ Hds Hy). cbn. lia.
Qed.

(** The ticks [resume_loop] counts: it stops counting when no time-out is
    left. *)
Definition slept (delta : Z) (D : list (Z * Z)) : Z := Z.min delta (dlast 0 D).

Lemma dlast_shift s t0 D : dlast (t0 - s) ((fun x => (x.1, x.2 - s)) <$> D) = dlast t0 D - s.
Proof. revert t0. induction D as [|[x c] D IH]; intros t0; cbn; [done|]. apply IH. Qed.

Lemma dlast_dafter d t0 D : dafter d D <> [] -> dlast t0 (dafter d D) = dlast t0 D.
Proof.
  revert t0. induction D as [|[x c] D IH]; intros t0; cbn; [done|]. destruct (c <? d); [|done].
  intros Hne. rewrite <- (IH c Hne). by destruct (dafter d D) as [|[y u] E].
Qed.

Lemma dlast_later m p t0 s D : deltas m p t0 D None -> later s D <> [] -> dlast 0 (later s D) = dlast 0 D - s.
Proof.
  intros _ Hne. unfold later in *. rewrite <- (dlast_dafter (s + 1) 0 D) by (intros E; by rewrite E in Hne).
  rewrite <- dlast_shift. destruct (dafter (s + 1) D) as [|[x c] E]; [done|]. done.
Qed.

Lemma dlast_due m p t0 s D : deltas m p t0 D None -> D <> [] -> later s D = [] -> dlast 0 D <= s.
Proof.
  intros HD Hne Hl. assert (Ha : dafter (s + 1) D = []) by (unfold later in Hl; by apply fmap_nil_inv in Hl).
  clear Hl. revert p t0 HD. destruct D as [|x D]; [done|]. clear Hne.
  change (dlast 0 (x :: D)) with (dlast x.2 D).
  revert x Ha. induction D as [|y D IH]; intros x Ha p t0 HD; cbn in *.
  - destruct (Z.ltb_spec x.2 (s + 1)); [|done]. lia.
  - destruct (x.2 <? s + 1); [|done]. destruct x as [x c], y as [y u]. destruct HD as (_ & _ & HD).
    by apply (IH (y, u) Ha x c).
Qed.

Lemma dlast_ge m p t0 D e : deltas m p t0 D e -> t0 <= dlast t0 D.
Proof. revert p t0. induction D as [|[x c] D IH]; intros p t0; cbn; [lia|]. intros (? & _ & HD%IH). lia. Qed.

Lemma resume_loop_spec fuel m T pr Q D l tm delta :
  lists m T pr Q D l -> readies m T l -> m !! (os_time, value) = Some tm ->
  0 <= delta < Z.of_nat fuel -> 0 <= tm < 2 ^ 32 ->
  wp (resume_loop fuel delta) (fun _ m' =>
    lists m' T pr (wakeups pr (due (delta + 1) D) Q) (later (delta + 1) D) (release_rdy pr (due (delta + 1) D) l) /\
    readies m' T (release_rdy pr (due (delta + 1) D) l) /\
    m' !! (os_time, value) = Some (u32 (tm + slept delta D)) /\
    frame (fun p f => wake_frame (due (delta + 1) D) p f \/ (p = os_time /\ f = value)) m m') m.
Proof.
  revert m Q D l tm delta. induction fuel as [|fuel IH]; intros m Q D l tm delta HL HR Htm Hde Htr; [lia|].
  cbn [resume_loop]. pose proof (l_delays _ _ _ _ _ _ HL) as HD. pose proof (d_time _ _ _ HD) as Hdt.
  pose proof (d_list _ _ _ HD) as Hhd. apply seg_hd in Hhd. wp_run.
  destruct D as [|[t d] D].
  - cbn [fmap list_fmap hdz]. cbn [Z.eqb NULL negb]. wp_run. unfold slept. cbn [dlast].
    rewrite Z.min_r by lia. rewrite Z.add_0_r, u32_id by lia. split_and!; [done|done|done|apply frame_refl].
  - cbn [fmap list_fmap hdz fst]. set (K := (t, d) :: D) in *.
    rewrite (proj2 (Z.eqb_neq _ _)) by (eapply dlist_nonnull; [exact HD|apply HL|by left]). cbn [negb].
    wp_step. wp_use lists_dec_dly; [done..|]. intros _ m1 (HL1 & HR1 & HF1).
    assert (Htm1 : m1 !! (os_time, value) = Some tm).
    { eapply frame_eq; [exact HF1|done|]. unfold wake_frame, links, dlinks. naive_solver. }
    assert (Hpos : 0 < d) by (apply (l_pos _ _ _ _ _ _ HL (t, d)); by left).
    assert (Hlast : 1 <= dlast 0 K).
    { destruct Hdt as (_ & _ & Hdt). apply dlast_ge in Hdt. unfold K. cbn. lia. }
    destruct (Z.eqb_spec delta 0) as [->|Hne].
    + wp_run. unfold slept. rewrite Z.min_l, Z.add_0_r, u32_id by lia. split_and!; [done|done|done|].
      eapply frame_mono; [exact HF1|]. tauto.
    + assert (is_Some (m1 !! (os_time, value))) by eauto. wp_run.
      set (m2 := <[_ := _]> m1).
      assert (HF2 : frame (fun p f => p = os_time /\ f = value) m1 m2) by (by apply frame_store).
      wp_use (IH m2 (wakeups pr (due 1 K) Q) (later 1 K) (release_rdy pr (due 1 K) l) (u32 (tm + 1)) (delta - 1)).
      * eapply lists_frame; [exact HL1|exact HF2|]. unfold links, dlinks. naive_solver.
      * eapply readies_frame; [exact HR1|exact HF2|]. naive_solver.
      * unfold m2. by look.
      * lia.
      * pose proof (u32_range (tm + 1)). lia.
      * replace (delta - 1 + 1) with delta by lia. intros _ m3 (HL3 & HR3 & Htm3 & HF3).
        replace (delta + 1) with (1 + delta) by lia.
        rewrite due_add, later_add, release_rdy_app, wakeups_app by lia. split_and!; [done|done| |].
        { rewrite Htm3. f_equal. unfold u32. rewrite Zplus_mod_idemp_l. f_equal. unfold slept.
          destruct (decide (later 1 K = [])) as [E|E].
          - rewrite E. cbn [dlast]. pose proof (dlast_due _ _ _ 1 K Hdt ltac:(done) E). lia.
          - rewrite (dlast_later _ _ _ _ _ Hdt E). lia. }
        { eapply frame_mono; [eapply frame_trans; [exact HF1|eapply frame_trans; [exact HF2|exact HF3]]|].
          unfold wake_frame. cbv beta. intros p f. rewrite elem_of_app. tauto. }
Qed.

(** How far [resume_delays] sets the clock. *)
Definition resume_time (s : Z) (D : list (Z * Z)) : Z :=
  match D with [] => s | _ => Z.min s (dlast 0 D + 1) end.

Lemma due_none s t d D : s < d -> due s ((t, d) :: D) = [].
Proof. intros Hs. unfold due. cbn. by rewrite (proj2 (Z.ltb_ge d (s + 1))) by lia. Qed.

Definition resume_frame (k : list Z) (p : Z) (f : field) : Prop :=
  wake_frame k p f \/ (p = os_time /\ f = value).

Lemma resume_delays_spec m T pr Q D l tm s :
  lists m T pr Q D l -> readies m T l -> m !! (os_time, value) = Some tm ->
  0 <= s < 2 ^ 32 -> 0 <= tm < 2 ^ 32 ->
  wp (resume_delays s) (fun _ m' =>
    lists m' T pr (wakeups pr (due s D) Q) (later s D) (release_rdy pr (due s D) l) /\
    readies m' T (release_rdy pr (due s D) l) /\
    m' !! (os_time, value) = Some (u32 (tm + resume_time s D)) /\ frame (resume_frame (due s D)) m m') m.
Proof.
  intros HL HR Htm Hs Htr. unfold resume_delays.
  pose proof (l_delays _ _ _ _ _ _ HL) as HD. pose proof (d_time _ _ _ HD) as Hdt.
  pose proof (d_list _ _ _ HD) as Hhd. apply seg_hd in Hhd. wp_run.
  assert (Hst : is_Some (m !! (os_time, value))) by eauto.
  destruct D as [|[t d] D].
  - cbn [fmap list_fmap hdz]. cbn [Z.eqb NULL negb]. wp_run.
    assert (HF1 : frame (fun p f => p = os_time /\ f = value) m (<[(os_time, value) := u32 (tm + s)]> m)) by (by apply frame_store).
    split_and!; [| |by look|].
    + eapply lists_frame; [exact HL|exact HF1|]. unfold links, dlinks. naive_solver.
    + eapply readies_frame; [exact HR|exact HF1|]. naive_solver.
    + eapply frame_mono; [exact HF1|]. unfold resume_frame. tauto.
  - cbn [fmap list_fmap hdz fst]. set (K := (t, d) :: D) in *.
    rewrite (proj2 (Z.eqb_neq _ _)) by (eapply dlist_nonnull; [exact HD|apply HL|by left]). cbn [negb].
    assert (Hpos : 0 < d) by (apply (l_pos _ _ _ _ _ _ HL (t, d)); by left).
    assert (Hd0 : m !! (os_dly, delta_time) = Some d) by (destruct Hdt as (_ & Hdt & _); by rewrite Z.sub_0_r in Hdt).
    assert (Hdl : d <= dlast 0 K).
    { destruct Hdt as (_ & _ & Hdt). by apply dlast_ge in Hdt. }
    assert (is_Some (m !! (os_dly, delta_time))) by eauto. wp_run.
    destruct (Z.leb_spec d s).
    + wp_run. set (m2 := <[(os_dly, delta_time) := 1]> _).
      destruct (lists_skip m T pr Q t d D l (d - 1) HL ltac:(lia)) as (HL1 & _ & Hdr).
      replace (d - (d - 1)) with 1 in HL1 by lia. fold K in HL1.
      assert (HF2 : frame (fun p f => p = os_time /\ f = value) (<[(os_dly, delta_time) := 1]> m) m2).
      { unfold m2. rewrite insert_insert_ne by done. apply frame_store. by somes. }
      assert (HF1 : frame (fun p f => p = os_dly /\ f = delta_time) m (<[(os_dly, delta_time) := 1]> m)) by (by apply frame_store).
      assert (Hdue : due (d - 1) K = []) by (apply due_none; lia).
      wp_use (resume_loop_spec (S (Z.to_nat (s - d))) m2 T pr Q (later (d - 1) K) l (u32 (tm + d)) (s - d)).
      * eapply lists_frame; [exact HL1|exact HF2|]. unfold links, dlinks. naive_solver.
      * eapply readies_frame; [eapply readies_frame; [exact HR|exact HF1|]|exact HF2|]; naive_solver.
      * unfold m2. by look.
      * lia.
      * pose proof (u32_range (tm + d)). lia.
      * intros _ m3 (HL3 & HR3 & Htm3 & HF3).
        replace (due s K) with (due (s - d + 1) (later (d - 1) K)).
        2: { replace s with (d - 1 + (s - d + 1)) at 2 by lia. rewrite (due_add (d - 1)) by lia. by rewrite Hdue. }
        replace (later s K) with (later (s - d + 1) (later (d - 1) K)).
        2: { replace s with (d - 1 + (s - d + 1)) at 2 by lia. by rewrite (later_add (d - 1)) by lia. }
        split_and!; [done|done| |].
        { rewrite Htm3. f_equal. unfold u32. rewrite Zplus_mod_idemp_l. f_equal.
          unfold slept, resume_time. rewrite (dlast_later _ _ _ _ _ Hdt).
          - unfold K at 2. lia.
          - unfold K. rewrite later_cons by lia. done. }
        { eapply frame_mono; [eapply frame_trans; [exact HF1|eapply frame_trans; [exact HF2|exact HF3]]|].
          unfold resume_frame, wake_frame, dlinks. cbv beta. naive_solver. }
    + wp_run. set (m2 := <[(os_dly, delta_time) := _]> _).
      destruct (lists_skip m T pr Q t d D l s HL ltac:(lia)) as (HL1 & _ & Hdr). fold K in HL1.
      assert (HF2 : frame (fun p f => p = os_time /\ f = value) (<[(os_dly, delta_time) := d - s]> m) m2).
      { unfold m2. rewrite u16_id by lia. rewrite insert_insert_ne by done. apply frame_store. by somes. }
      assert (HF1 : frame (fun p f => p = os_dly /\ f = delta_time) m (<[(os_dly, delta_time) := d - s]> m)) by (by apply frame_store).
      unfold K at 1 3 4. rewrite due_none by lia. split_and!.
      * eapply lists_frame; [exact HL1|exact HF2|]. unfold links, dlinks. naive_solver.
      * eapply readies_frame; [eapply readies_frame; [exact HR|exact HF1|]|exact HF2|]; naive_solver.
      * unfold m2, resume_time, K. fold K. look. f_equal. f_equal. lia.
      * eapply frame_mono; [eapply frame_trans; [exact HF1|exact HF2]|].
        unfold resume_frame, wake_frame, dlinks. cbv beta. naive_solver.
Qed.

(** C21: after a sleep of [s] ticks the lists of the kernel are those that [s]
    calls of [rt_dec_dly] leave: the same tasks are woken in the same order,
    and the others wait for the rest of their time.  The clock is not the
    same: it stops one tick after the last time-out (finding). *)
Theorem resume_as_ticks m T pr Q D l tm s :
  lists m T pr Q D l -> readies m T l -> m !! (os_time, value) = Some tm ->
  0 <= s < 2 ^ 32 -> 0 <= tm < 2 ^ 32 ->
  wp (resume_delays s) (fun _ m1 => wp (for_loop (Z.to_nat s) 0 (fun _ => rt_dec_dly)) (fun _ m2 =>
    exists Q' D' l', lists m1 T pr Q' D' l' /\ readies m1 T l' /\ lists m2 T pr Q' D' l' /\ readies m2 T l' /\
      m1 !! (os_time, value) = Some (u32 (tm + match D with [] => s | _ => Z.min s (dlast 0 D + 1) end))) m) m.
Proof.
  intros HL HR Htm Hs Htr. wp_use resume_delays_spec; [done..|]. intros _ m1 (HL1 & HR1 & Htm1 & _).
  wp_use lists_dec_dly_iter; [done..|]. rewrite Z2Nat.id by lia. intros _ m2 (HL2 & HR2 & _). eauto 10.
Qed.

(** ** Locking the scheduler *)

Record lock_cells (m : mem) : Prop := {
  lc_irq : m !! (os_tick_irqn, value) = Some (-1);
  lc_ctrl : is_Some (m !! (NVIC_ST_CTRL, value));
  lc_lock : is_Some (m !! (os_lock, value));
  lc_psh : is_Some (m !! (os_psh_flag, value));
  lc_pend : is_Some (m !! (pend_flags, value));
  lc_icsr : is_Some (m !! (NVIC_INT_CTRL, value))
}.

(** The variables of the lock. *)
Definition lock_frame (p : Z) (f : field) : Prop :=
  f = value /\ (p = os_lock \/ p = os_psh_flag \/ p = pend_flags \/ p = NVIC_ST_CTRL \/ p = NVIC_INT_CTRL).

Lemma lock_cells_frame m m' K : lock_cells m -> frame K m m' ->
  (forall p f, K p f -> ~ (p = os_tick_irqn /\ f = value)) -> lock_cells m'.
Proof.
  intros [] HF HK. constructor; [|by eapply frame_some..].
  eapply frame_eq; [done..|]. intros Hk%HK. by apply Hk.
Qed.


(** What the core does with writes to [NVIC_INT_CTRL]: bits 28 and 26 set the
    pending state of PendSV and SysTick, bits 27 and 25 clear it, and reading
    gives it back in bits 28 and 26 (a write with both bits is not defined). *)
Definition icsr_behaves `{ICSR} : Prop :=
  forall old v b, b = 28 \/ b = 26 -> ~ (Z.testbit v b = true /\ Z.testbit v (b - 1) = true) ->
    Z.testbit (icsr_write old v) b =
      if Z.testbit v b then true else if Z.testbit v (b - 1) then false else Z.testbit old b.

(** The two pending bits that [OS_PENDING] extracts. *)
Lemma pending_bits v i : 0 <= i -> Z.testbit (u8 (Z.land (Z.shiftr v 26) 5)) i =
  if (i =? 0) || (i =? 2) then Z.testbit v (26 + i) else false.
Proof.
  intros Hi. unfold u8. destruct (Z.lt_ge_cases i 8).
  - rewrite Z.mod_pow2_bits_low, Z.land_spec, Z.shiftr_spec by lia.
    replace (i + 26) with (26 + i) by lia.
    assert (i = 0 \/ i = 1 \/ i = 2 \/ i = 3 \/ i = 4 \/ i = 5 \/ i = 6 \/ i = 7) as Hc by lia.
    by repeat destruct Hc as [->|Hc]; subst; cbn; rewrite ?andb_true_r, ?andb_false_r.
  - rewrite Z.mod_pow2_bits_high by lia.
    by rewrite (proj2 (Z.eqb_neq i 0)), (proj2 (Z.eqb_neq i 2)) by lia.
Qed.

(** What [OS_UNPEND] writes. *)
Lemma unpend_bits v (w := Z.shiftl (u8 (Z.land (Z.shiftr v 26) 5)) 25) :
  Z.testbit w 28 = false /\ Z.testbit w 27 = Z.testbit v 28 /\ Z.testbit w 26 = false /\ Z.testbit w 25 = Z.testbit v 26.
Proof. unfold w. rewrite !Z.shiftl_spec, !pending_bits by lia. done. Qed.

(** What [OS_PEND] writes. *)
Lemma pend_bits v (req : bool)
    (w := u32 (Z.shiftl (Z.lor (u8 (Z.land (Z.shiftr v 26) 5)) (Z.shiftl (if req then 1 else 0) 2)) 26)) :
  Z.testbit w 28 = Z.testbit v 28 || req /\ Z.testbit w 27 = false /\ Z.testbit w 26 = Z.testbit v 26 /\
  Z.testbit w 25 = false.
Proof.
  unfold w, u32. rewrite !Z.mod_pow2_bits_low, !Z.shiftl_spec by lia.
  rewrite !Z.lor_spec, !pending_bits, !Z.shiftl_spec by lia.
  destruct req; split_and!; first [reflexivity|exact (orb_false_r _)].
Qed.

(** C31: locking the scheduler takes back a pending tick and a pending PendSV, and
    unlocking makes them pending again: neither is lost, none is invented; a
    request posted in between makes PendSV pending at the end.  In between no
    request interrupts and the timer is off. *)
Theorem lock_unlock `{ICSR} m icsr (req : bool) :
  icsr_behaves -> lock_cells m -> m !! (NVIC_INT_CTRL, value) = Some icsr ->
  m !! (os_psh_flag, value) = Some __FALSE ->
  wp rt_tsk_lock (fun _ m1 =>
    m1 !! (os_lock, value) = Some __TRUE /\ m1 !! (NVIC_ST_CTRL, value) = Some 5 /\
    (exists x, m1 !! (NVIC_INT_CTRL, value) = Some x /\ Z.testbit x 28 = false /\ Z.testbit x 26 = false) /\
    wp (when req rt_psh_req;; rt_tsk_unlock) (fun _ m2 =>
      m2 !! (os_lock, value) = Some __FALSE /\ m2 !! (NVIC_ST_CTRL, value) = Some 7 /\
      m2 !! (os_psh_flag, value) = Some __FALSE /\ frame lock_frame m m2 /\
      exists x, m2 !! (NVIC_INT_CTRL, value) = Some x /\
        Z.testbit x 28 = (Z.testbit icsr 28 || req) /\ Z.testbit x 26 = Z.testbit icsr 26) m1) m.
Proof.
  intros HI [H1 H2 H3 H4 H5 H6] Hi Hpsh. unfold rt_tsk_lock, OS_LOCK, OS_UNPEND, write_int_ctrl. wp_run.
  cbn [Z.ltb Z.compare]. wp_run.
  set (fl := u8 (Z.land (Z.shiftr icsr 26) 5)). set (x1 := icsr_write icsr _). set (m1 := <[_ := _]> _).
  destruct (unpend_bits icsr) as (U1 & U2 & U3 & U4).
  assert (Hb1 : Z.testbit x1 28 = false /\ Z.testbit x1 26 = false).
  { unfold x1. fold fl in U1, U2, U3, U4. split.
    - rewrite HI; [|tauto|rewrite U1; by intros [? _]]. change (28 - 1) with 27. rewrite U1, U2.
      by destruct (Z.testbit icsr 28).
    - rewrite HI; [|tauto|rewrite U3; by intros [? _]]. change (26 - 1) with 25. rewrite U3, U4.
      by destruct (Z.testbit icsr 26). }
  destruct Hb1 as [Hb1 Hb2].
  split_and!; [unfold m1; by look|unfold m1; by look|exists x1; split_and!; [unfold m1; by look|done..]|].
  wp_step. eapply wp_mono with (Q' := fun _ m2 => m2 = <[(os_psh_flag, value) := if req then 1 else 0]> m1).
  { destruct req; cbn [when]; unfold rt_psh_req.
    - assert (is_Some (m1 !! (os_psh_flag, value))) by (unfold m1; somes).
      assert (m1 !! (os_lock, value) = Some __TRUE) by (unfold m1; by look).
      wp_run. cbn [Z.eqb __TRUE __FALSE]. wp_run. done.
    - wp_run. rewrite insert_id; [done|]. unfold m1. by look. }
  intros _ m2 ->. unfold rt_tsk_unlock, OS_UNLOCK, OS_PEND, write_int_ctrl.
  assert (m1 !! (os_tick_irqn, value) = Some (-1)) by (unfold m1; by look).
  wp_run. cbn [Z.ltb Z.compare].
  assert (Hsome : forall p, is_Some (m !! (p, value)) -> is_Some (m1 !! (p, value))) by (intros; unfold m1; somes).
  pose proof (Hsome _ H2). pose proof (Hsome _ H3). pose proof (Hsome _ H4). pose proof (Hsome _ H6).
  assert (m1 !! (pend_flags, value) = Some fl) by (unfold m1; by look).
  assert (m1 !! (NVIC_INT_CTRL, value) = Some x1) by (unfold m1; by look).
  wp_run. split_and!; [by look|by look|by look| |].
  - unfold m1. unfold lock_frame. frames.
  - eexists. split; [by look|]. destruct (pend_bits icsr req) as (P1 & P2 & P3 & P4). fold fl in P1, P2, P3, P4.
    split.
    + rewrite HI; [|tauto|change (28 - 1) with 27; rewrite P2; by intros [_ ?]]. change (28 - 1) with 27. rewrite P1, P2, Hb1. by destruct (Z.testbit icsr 28), req.
    + rewrite HI; [|tauto|change (26 - 1) with 25; rewrite P4; by intros [_ ?]]. change (26 - 1) with 25. rewrite P3, P4, Hb2. by destruct (Z.testbit icsr 26).
Qed.

(** ** Examples *)

(** C sleeps for one tick and A for three; B runs. *)
Definition sleeping : mem :=
  mem_of ((rt_dly_wait 1;; store os_tsk run taskA;; rt_dly_wait 3;; store os_tsk run taskB) timers_running).

Lemma sleeping_kernel :
  kernel sleeping (list_to_set all_tasks) (prio_of sleeping) (list_to_map (mbx_queues [idle] []))
    [(taskC, 1); (taskA, 3)] [idle] taskB.
Proof. apply kernel_by_check. vm_compute. reflexivity. Qed.

(** The next tick wakes C, which takes over from B; two timers expire. *)
Lemma rt_systick_witness :
  wp (rt_systick (H := icsr_plain)) (fun _ m' => exists Q,
    sched m' (list_to_set all_tasks) (prio_of sleeping) Q [(taskA, 2)] [taskB; idle] taskC /\
    timers m' [(timer1, 2); (timer3, 3)]) sleeping.
Proof.
  wp_use (rt_systick_correct (H := icsr_plain) sleeping (list_to_set all_tasks) (prio_of sleeping)
    (list_to_map (mbx_queues [idle] [])) [(taskC, 1); (taskA, 3)] [idle] taskB 0 0 0 5 per1 mbx1 2
    [(timer1, 1); (timer2, 1); (timer3, 4)]).
  - exact sleeping_kernel.
  - vm_compute. reflexivity.
  - constructor; vm_compute; reflexivity.
  - timers_check.
  - intros x t. rewrite !elem_of_cons, elem_of_nil. intros [[=]|[[=]|[[=]|[]]]]; subst; lia.
  - change (expired _) with [timer1; timer2]. intros x. rewrite !elem_of_cons, elem_of_nil. intros [->|[->|[]]].
    + split; [|eapply bool_decide_eq_true_1; vm_compute; reflexivity]. split_and!; [done|eexists; vm_compute; reflexivity..|]. cbn.
      split_and!; [vm_compute; reflexivity..|lia|lia].
    + split; [|eapply bool_decide_eq_true_1; vm_compute; reflexivity]. split_and!; [done|eexists; vm_compute; reflexivity..|].
      exists osTimerOnce. split; [vm_compute; reflexivity|done].
  - constructor; [vm_compute; reflexivity..|eexists _, _; split; vm_compute; reflexivity|done| |].
    + exists 0, 0. split; [|change (length _) with 2%nat; lia]. constructor; [vm_compute; reflexivity..|lia|].
      intros i Hi. assert (i = 0 \/ i = 1) as [->| ->] by lia; split; eexists; vm_compute; reflexivity.
    + split_and!; eexists; vm_compute; reflexivity.
  - intros _ m' (c & l' & Hr & HS & _ & _ & _ & HT). eexists.
    replace (release_rdy _ _ _) with [taskC; taskB; idle] in Hr by (vm_compute; reflexivity).
    injection Hr as <- <-. split; [exact HS|exact HT].
Defined.

(** A is still asleep after two ticks, and ready after the third. *)
Lemma timeout_exact_witness :
  wp (for_loop 3 0 (fun _ => rt_dec_dly)) (fun _ m' => m' !! (taskA, state) = Some READY) sleeping.
Proof.
  wp_use (timeout_exact sleeping (list_to_set all_tasks) (prio_of sleeping) (list_to_map (mbx_queues [idle] []))
    [(taskC, 1); (taskA, 3)] [idle] 0 taskA 3 3).
  - apply s_lists with taskB, sleeping_kernel.
  - eapply s_readies, sleeping_kernel.
  - vm_compute. reflexivity.
  - set_solver.
  - lia.
  - intros _ m' (Q' & D' & l' & _ & _ & _ & _ & H). exact H.
Defined.

(** A sleep of five ticks wakes C and A, but the clock only advances by four. *)
Lemma resume_as_ticks_witness :
  wp (resume_delays 5) (fun _ m1 => wp (for_loop (Z.to_nat 5) 0 (fun _ => rt_dec_dly)) (fun _ m2 =>
    m1 !! (os_time, value) = Some 4) sleeping) sleeping.
Proof.
  wp_use (resume_as_ticks sleeping (list_to_set all_tasks) (prio_of sleeping) (list_to_map (mbx_queues [idle] []))
    [(taskC, 1); (taskA, 3)] [idle] 0 5).
  - apply s_lists with taskB, sleeping_kernel.
  - eapply s_readies, sleeping_kernel.
  - vm_compute. reflexivity.
  - lia.
  - lia.
  - intros _ m1 H. eapply wp_mono; [exact H|]. intros _ m2 (Q' & D' & l' & _ & _ & _ & _ & Ht). exact Ht.
Defined.

(** The pending bits of the register, as the architecture describes them. *)
Definition icsr_pending : ICSR := fun old v =>
  let bit b := if Z.testbit v b then true else if Z.testbit v (b - 1) then false else Z.testbit old b in
  Z.lor (Z.shiftl (Z.b2z (bit 28)) 28) (Z.shiftl (Z.b2z (bit 26)) 26).

Lemma icsr_pending_behaves : icsr_behaves (H := icsr_pending).
Proof.
  intros old v b [-> | ->] _; unfold icsr_write, icsr_pending; cbv zeta;
    generalize (if Z.testbit v 28 then true else if Z.testbit v (28 - 1) then false else Z.testbit old 28);
    generalize (if Z.testbit v 26 then true else if Z.testbit v (26 - 1) then false else Z.testbit old 26);
    intros [] []; reflexivity.
Qed.

(** A tick is pending when the scheduler is locked. *)
Definition lock_start : mem :=
  list_to_map [((os_tick_irqn, value), -1); ((NVIC_ST_CTRL, value), 7); ((os_lock, value), 0);
    ((os_psh_flag, value), 0); ((pend_flags, value), 0); ((NVIC_INT_CTRL, value), 2 ^ 26)].

Lemma lock_unlock_witness :
  wp (rt_tsk_lock (H := icsr_pending)) (fun _ m1 =>
    wp (when true (rt_psh_req (H := icsr_pending));; rt_tsk_unlock (H := icsr_pending)) (fun _ m2 =>
      exists x, m2 !! (NVIC_INT_CTRL, value) = Some x /\ Z.testbit x 28 = true /\ Z.testbit x 26 = true) m1) lock_start.
Proof.
  wp_use (lock_unlock (H := icsr_pending) lock_start (2 ^ 26) true).
  - exact icsr_pending_behaves.
  - constructor; [vm_compute; reflexivity|eexists; vm_compute; reflexivity..].
  - vm_compute. reflexivity.
  - vm_compute. reflexivity.
  - intros _ m1 (_ & _ & _ & H). eapply wp_mono; [exact H|]. intros _ m2 (_ & _ & _ & _ & x & ? & ? & ?). by exists x.
Defined.
