(* ===== verification/RtxPop.v ===== *)
(** * The service of the requests from interrupt handlers ([rt_pop_req])

    Interrupt handlers only put requests into the queue [os_psq]; PendSV serves
    them.  [serviced] is the state of the kernel while no task runs; each
    request for flags or a semaphore keeps it, so serving a queue of them in
    any mixture ends with an empty queue and the first ready task selected. *)

From S2P Require Export RtxSystem.

(** No task runs; a task that waits for flags waits in no queue. *)
Record serviced (m : mem) (T : gset Z) (pr : Z -> Z) (Q : gmap Z (list Z)) (D : list (Z * Z))
    (l : list Z) : Prop := {
  sv_lists : lists m T pr Q D l;
  sv_readies : readies m T l;
  sv_flags t : t ∈ T -> m !! (t, state) = Some WAIT_AND \/ m !! (t, state) = Some WAIT_OR -> free_of Q t
}.

(** A request for a task (flags) or for a semaphore. *)
Definition request_ok (m : mem) (T : gset Z) (Q : gmap Z (list Z)) (x : Z * Z) : Prop :=
  x.1 ∈ T \/
  (m !! (x.1, cb_type) = Some SCB /\ x.1 <> os_rdy /\ is_Some (Q !! x.1) /\ is_Some (m !! (x.1, tokens))).

(** The cells that serving a request may change. *)
Definition pop_frame (p : Z) (f : field) : Prop :=
  links f \/ dlinks f \/ f = state \/ f = word \/ f = events \/ f = waits \/ f = tokens.

Lemma free_of_insert Q h k t : free_of Q t -> t ∉ k -> free_of (<[h := k]> Q) t.
Proof. intros Hf Hk h' k' [[<- <-]|[_ E]]%lookup_insert_Some; [done|by eapply Hf]. Qed.

(** Waking a task keeps [serviced]. *)
Lemma serviced_wake m m' T pr Q Q' D D' l t :
  serviced m T pr Q D l -> lists m' T pr (<[os_rdy := insert_prio pr t l]> Q') D' (insert_prio pr t l) ->
  readies m' T (insert_prio pr t l) -> m' !! (t, state) = Some READY ->
  (forall x, x <> t -> m' !! (x, state) = m !! (x, state)) ->
  (forall x, free_of Q x -> free_of Q' x) ->
  serviced m' T pr (<[os_rdy := insert_prio pr t l]> Q') D' (insert_prio pr t l).
Proof.
  intros [HL HR Hf] HL' HR' Ht Hx HQ. constructor; [done|done|]. intros x HxT Hst.
  destruct (decide (x = t)) as [->|Hne].
  - rewrite Ht in Hst. destruct Hst as [[=]|[=]].
  - rewrite Hx in Hst by done. specialize (Hf x HxT Hst). apply free_of_insert; [by apply HQ|].
    intros [->|Hi]%insert_prio_in; [done|]. eapply Hf; [apply HL|done].
Qed.

Lemma free_of_shorter Q s t k x : Q !! s = Some (t :: k) -> free_of Q x -> free_of (<[s := k]> Q) x.
Proof. intros Hs Hf. apply free_of_insert; [done|]. intros Hk. apply (Hf _ _ Hs). by right. Qed.

(** What serving a request leaves: the kernel state, and no queue was lost. *)
Definition served (m' : mem) (T : gset Z) (pr : Z -> Z) (Q : gmap Z (list Z)) (l : list Z) : Prop :=
  exists Q' D' l', serviced m' T pr Q' D' l' /\ (forall s, is_Some (Q !! s) -> is_Some (Q' !! s)) /\
    forall x, x ∈ l -> x ∈ l'.

Lemma served_same m' T pr Q D l : serviced m' T pr Q D l -> served m' T pr Q l.
Proof. intros H. by exists Q, D, l. Qed.

Lemma insert_some (Q : gmap Z (list Z)) h k s : is_Some (Q !! s) -> is_Some (<[h := k]> Q !! s).
Proof. intros. apply lookup_insert_is_Some'. by right. Qed.


(** [rt_sem_psh] *)
Lemma rt_sem_psh_spec m T pr Q D l s k n :
  serviced m T pr Q D l -> s <> os_rdy -> Q !! s = Some k -> m !! (s, tokens) = Some n ->
  wp (rt_sem_psh s) (fun _ m' => served m' T pr Q l /\ frame pop_frame m m' /\
    match k with
    | t :: _ => m' !! (t, state) = Some READY /\ result_is m' t 1 /\ m' !! (s, tokens) = Some n
    | [] => m' !! (s, tokens) = Some (u16 (n + 1))
    end) m.
Proof.
  intros HS Hs Hk Hn. pose proof HS as [HL HR Hf]. unfold rt_sem_psh.
  pose proof (wait_head _ _ _ _ _ _ _ _ HL Hk) as Hh. wp_run. destruct k as [|t k]; cbn [hdz].
  - cbn [Z.eqb NULL negb]. assert (is_Some (m !! (s, tokens))) by eauto. wp_run.
    assert (HF : frame (fun p f => p = s /\ f = tokens) m (<[(s, tokens) := u16 (n + 1)]> m)) by (by apply frame_store).
    split_and!; [|by eapply frame_mono; [exact HF|]; unfold pop_frame; naive_solver|by look].
    apply served_same with D. constructor.
    + eapply lists_frame; [done..|]. unfold links, dlinks. naive_solver.
    + eapply readies_frame; [done..|]. naive_solver.
    + intros t Ht. rewrite !lookup_insert_ne by congruence. by apply Hf.
  - rewrite (proj2 (Z.eqb_neq _ _)) by (by eapply wait_nonnull). cbn [negb].
    assert (Htl : t ∉ l).
    { intros Hx. apply Hs. eapply (q_uniq _ _ _ (l_queues _ _ _ _ _ _ HL) _ _ _ _ t Hk); [apply HL|by left|done]. }
    wp_step. wp_use lists_get_wait; [done..|]. intros p m1 (-> & HL1 & Ht & Hfr & _ & HF1). unfold links in HF1.
    wp_step. wp_use lists_rmv_dly; [exact HL1|done|]. intros _ m2 [HL2 HF2]. unfold dlinks in HF2.
    pose proof (state_some _ _ _ _ _ _ _ HL2 Ht). wp_run. set (m3 := <[_ := _]> m2).
    assert (HF3 : frame (fun p f => p = t /\ f = state) m2 m3) by (by apply frame_store).
    assert (HL3 : lists m3 T pr (<[s := k]> Q) (remove_dly t D) l).
    { eapply lists_frame; [exact HL2|exact HF3|]. unfold links, dlinks. naive_solver. }
    wp_use ret_one; [exact HL3|done|]. intros _ m4 (HL4 & Hres & HF4).
    wp_use lists_put_rdy; [exact HL4|split_and!; [done|done|rewrite remove_dly_in; tauto]|].
    intros _ m5 [HL5 HF5]. unfold links in HF5.
    assert (Hst5 : m5 !! (t, state) = Some READY).
    { eapply (frame_eq _ _ _ _ _ _ HF5); [|naive_solver].
      eapply (frame_eq _ _ _ _ _ _ HF4); [unfold m3; by look|naive_solver]. }
    assert (HF : frame (fun p f => links f \/ dlinks f \/ f = word \/ (p = t /\ f = state)) m m5).
    { eapply frame_mono; [eapply frame_trans; [exact HF1|eapply frame_trans; [exact HF2|
        eapply frame_trans; [exact HF3|eapply frame_trans; [exact HF4|exact HF5]]]]|].
      unfold links, dlinks. cbv beta. tauto. }
    split_and!; [|by eapply frame_mono; [exact HF|]; unfold pop_frame; naive_solver|done| |].
    + eexists _, _, _. split_and!.
      * eapply serviced_wake; [exact HS|exact HL5| |done| |].
        { intros x Hx. destruct (decide (x = t)) as [->|Hne].
          - exists READY. rewrite insert_prio_in. split; [done|tauto].
          - destruct (HR x Hx) as (stx & Hsx & Hiff). exists stx. rewrite insert_prio_in. split; [|rewrite Hiff; tauto].
            eapply (frame_eq _ _ _ _ _ _ HF); [exact Hsx|]. unfold links, dlinks. naive_solver. }
        { intros x Hx. apply (proj2 (HF x state)). unfold links, dlinks. naive_solver. }
        { intros x. by apply free_of_shorter with t. }
      * intros h Hh'. by apply insert_some, insert_some.
      * intros x Hx. apply insert_prio_in. by right.
    + eapply result_frame; [exact Hres|exact HF5|]. naive_solver.
    + eapply (frame_eq _ _ _ _ _ _ HF); [exact Hn|]. unfold links, dlinks. naive_solver.
Qed.

(** [rt_evt_psh] *)
Lemma rt_evt_psh_served m T pr Q D l t flags :
  serviced m T pr Q D l -> t ∈ T ->
  wp (rt_evt_psh t flags) (fun _ m' => served m' T pr Q l /\ frame pop_frame m m') m.
Proof.
  intros HS Ht. pose proof HS as [HL HR Hf].
  assert (Hc : forall f, f ∈ [state; events; waits] -> is_Some (m !! (t, f))).
  { intros f Hff. eapply tcb_some; [apply HL|done|]. set_solver. }
  destruct (Hc state) as [st Hst]; [set_solver|]. destruct (Hc events) as [ev Hev]; [set_solver|].
  destruct (Hc waits) as [w Hw]; [set_solver|].
  wp_use rt_evt_psh_spec; [done..| |].
  { intros Hx. apply Hf; [done|]. rewrite Hst. destruct Hx as [->| ->]; tauto. }
  intros _ m'. destruct (evt_result st (Z.lor ev flags) w) as [[ev' w']|] eqn:E.
  - intros (HL' & HR' & _ & _ & _ & HF). unfold evt_frame, dlinks in HF. split.
    + eexists _, _, _. split_and!; [|intros s Hs; by apply insert_some|intros x Hx; apply insert_prio_in; by right].
      eapply serviced_wake; [exact HS|exact HL'|done| | |done].
      * destruct (HR' t Ht) as (st' & Hst' & Hiff). rewrite Hst'. f_equal. apply Hiff, insert_prio_in. by left.
      * intros x Hx. apply (proj2 (HF x state)). unfold links. naive_solver.
    + eapply frame_mono; [exact HF|]. unfold pop_frame, dlinks. naive_solver.
  - intros (HL' & HR' & ->).
    assert (HF : frame (fun p f => p = t /\ f = events) m (<[(t, events) := Z.lor ev flags]> m)) by (apply frame_store; eauto).
    split; [|by eapply frame_mono; [exact HF|]; unfold pop_frame; naive_solver].
    apply served_same with D. constructor; [done|done|]. intros x Hx. rewrite !lookup_insert_ne by congruence.
    by apply Hf.
Qed.

(** One request. *)
Lemma pop_one_spec m T pr Q D l idx x :
  serviced m T pr Q D l -> request_ok m T Q x ->
  m !! (os_psq, q_id idx) = Some x.1 -> m !! (os_psq, q_arg idx) = Some x.2 ->
  wp (pop_one idx) (fun _ m' => served m' T pr Q l /\ frame pop_frame m m') m.
Proof.
  intros HS Hx Hid Harg. unfold pop_one. wp_run. destruct Hx as [Ht|(Hty & Hne & [k Hk] & [n Hn])].
  - pose proof (l_tcbs _ _ _ _ _ _ (sv_lists _ _ _ _ _ _ HS) _ Ht) as (_ & Hty & _). wp_run.
    rewrite Z.eqb_refl. wp_run. by apply rt_evt_psh_served with D.
  - wp_run. cbn [Z.eqb SCB TCB MCB Pos.eqb]. eapply wp_mono; [by eapply rt_sem_psh_spec|].
    cbv beta. intros _ m' (? & ? & _). done.
Qed.

(** ** The queue *)

(** [R]: the requests, oldest first. *)
Record requests (m : mem) (n : Z) (R : list (Z * Z)) (last : Z) : Prop := {
  rq_size : m !! (os_psq, size_) = Some n;
  rq_range : 0 <= last < n /\ zlen R <= n < 256;
  rq_count : m !! (os_psq, count_) = Some (zlen R);
  rq_entry j x : R !! j = Some x ->
    m !! (os_psq, q_id ((last + Z.of_nat j) mod n)) = Some x.1 /\
    m !! (os_psq, q_arg ((last + Z.of_nat j) mod n)) = Some x.2
}.

Lemma requests_frame m m' n R last K :
  requests m n R last -> frame K m m' ->
  (forall f, K os_psq f -> f <> size_ /\ f <> count_ /\ forall i, f <> q_id i /\ f <> q_arg i) -> requests m' n R last.
Proof.
  intros [H1 H2 H3 H4] HF HK. constructor; [|done|..].
  - eapply frame_eq; [done..|]. intros ?%HK. tauto.
  - eapply frame_eq; [done..|]. intros ?%HK. tauto.
  - intros j x Hj. destruct (H4 j x Hj). split; (eapply frame_eq; [done..|]; intros Hk%HK; naive_solver).
Qed.

Lemma request_ok_frame m m' T Q Q' x :
  request_ok m T Q x -> frame pop_frame m m' -> (forall s, is_Some (Q !! s) -> is_Some (Q' !! s)) ->
  request_ok m' T Q' x.
Proof.
  intros [?|(H1 & H2 & H3 & H4)] HF HQ; [by left|right]. split_and!; [|done|auto|by eapply frame_some].
  eapply frame_eq; [done..|]. unfold pop_frame, links, dlinks. naive_solver.
Qed.

Lemma requests_next m n x R last (i := if u32 (last + 1) =? n then 0 else u32 (last + 1)) m' :
  requests m n (x :: R) last -> frame (fun p f => p = os_psq /\ f = count_) m m' ->
  m' !! (os_psq, count_) = Some (u8 (zlen (x :: R) - 1)) -> requests m' n R i.
Proof.
  intros [H1 H2 H3 H4] HF Hc. rewrite zlen_cons in *. pose proof (zlen_nonneg R).
  assert (Hi : i = (last + 1) mod n).
  { unfold i. rewrite u32_id by lia. apply mod_next. lia. }
  constructor.
  - by eapply frame_eq; [exact HF|exact H1|]; intros [_ ?].
  - rewrite Hi. pose proof (Z.mod_pos_bound (last + 1) n). lia.
  - rewrite Hc. f_equal. rewrite u8_id by lia. lia.
  - intros j y Hj. destruct (H4 (S j) y Hj) as [E1 E2]. rewrite Hi, Zplus_mod_idemp_l.
    replace (last + 1 + Z.of_nat j) with (last + Z.of_nat (S j)) by lia.
    split; (eapply frame_eq; [exact HF|done|]; by intros [_ ?]).
Qed.

Lemma request_ok_frame' m m1 m2 T Q Q' x :
  request_ok m T Q x -> frame pop_frame m m1 -> frame (fun p f => p = os_psq /\ f = count_) m1 m2 ->
  (forall s, is_Some (Q !! s) -> is_Some (Q' !! s)) -> request_ok m2 T Q' x.
Proof.
  intros Hx HF1 HF2 HQ. destruct (request_ok_frame _ _ _ _ _ _ Hx HF1 HQ) as [?|(H1 & H2 & H3 & H4)]; [by left|right].
  split_and!; [|done|done|by eapply frame_some]. eapply frame_eq; [exact HF2|done|]. by intros [_ ?].
Qed.

Lemma pop_loop_spec fuel m T pr Q D l n R last :
  serviced m T pr Q D l -> requests m n R last -> Forall (request_ok m T Q) R -> (length R < fuel)%nat ->
  wp (pop_loop fuel last) (fun i m' => served m' T pr Q l /\ requests m' n [] i /\
    i = (last + zlen R) mod n /\ frame (fun p f => pop_frame p f \/ (p = os_psq /\ f = count_)) m m') m.
Proof.
  revert m Q D l R last. induction fuel as [|fuel IH]; intros m Q D l R last HS HR HO Hf; [lia|].
  cbn [pop_loop]. pose proof HR as [H1 H2 H3 H4]. wp_run. destruct R as [|x R].
  - change (negb (zlen (@nil (Z * Z)) =? 0)) with false. cbv iota. wp_run. split_and!; [by apply served_same with D|done| |apply frame_refl].
    cbn. rewrite Z.add_0_r, Z.mod_small by lia. done.
  - rewrite zlen_cons in *. pose proof (zlen_nonneg R). rewrite (proj2 (Z.eqb_neq _ _)) by lia. cbn [negb].
    apply Forall_cons in HO as [Hx HO]. destruct (H4 0%nat x eq_refl) as [E1 E2].
    rewrite Z.add_0_r, Z.mod_small in E1, E2 by lia.
    wp_step. wp_use pop_one_spec; [done..|]. intros _ m1 [(Q1 & D1 & l1 & HS1 & HQ1 & Hl1) HF1].
    unfold pop_frame, links, dlinks in HF1.
    assert (HR1 : requests m1 n (x :: R) last) by (eapply requests_frame; [done|exact HF1|naive_solver]).
    assert (Hs : is_Some (m1 !! (os_psq, count_))) by (destruct HR1; eauto).
    pose proof (rq_size _ _ _ _ HR1). pose proof (rq_count _ _ _ _ HR1) as Hc1. rewrite zlen_cons in Hc1.
    wp_run. set (m2 := <[_ := _]> m1).
    assert (HF2 : frame (fun p f => p = os_psq /\ f = count_) m1 m2) by (by apply frame_store).
    assert (HR2 : requests m2 n R (if u32 (last + 1) =? n then 0 else u32 (last + 1))).
    { eapply requests_next; [exact HR1|exact HF2|]. unfold m2. rewrite zlen_cons. by look. }
    wp_use (IH m2 Q1 D1 l1 R); [|exact HR2| |cbn in Hf; lia|].
    + destruct HS1 as [HL HRd Hfl]. constructor.
      * eapply lists_frame; [exact HL|exact HF2|]. unfold links, dlinks. naive_solver.
      * eapply readies_frame; [exact HRd|exact HF2|]. naive_solver.
      * intros t Ht. unfold m2. rewrite !lookup_insert_ne by congruence. by apply Hfl.
    + eapply Forall_impl; [exact HO|]. intros y Hy.
      eapply request_ok_frame'; [exact Hy|exact HF1|exact HF2|exact HQ1].
    + intros i m3 ((Q3 & D3 & l3 & HS3 & HQ3 & Hl3) & HR3 & -> & HF3). split_and!; [|done| |].
      * exists Q3, D3, l3. split_and!; [done|auto|auto].
      * rewrite u32_id by lia. rewrite mod_next by lia. rewrite Zplus_mod_idemp_l. f_equal. lia.
      * eapply frame_mono; [eapply frame_trans; [exact HF1|eapply frame_trans; [exact HF2|exact HF3]]|].
        unfold pop_frame, links, dlinks. cbv beta. tauto.
Qed.

(** The cells [rt_pop_req] may change. *)
Definition pop_cells (p : Z) (f : field) : Prop :=
  pop_frame p f \/ (p = os_tsk /\ f = new_tsk) \/ (p = os_psq /\ (f = count_ \/ f = last_)).

(** [rt_pop_req], with the cells it changes and what holds of the queues. *)
Lemma rt_pop_req_spec m T pr Q D l r n R last :
  kernel m T pr Q D l r ->
  (forall t, t ∈ T -> m !! (t, state) = Some WAIT_AND \/ m !! (t, state) = Some WAIT_OR -> free_of Q t) ->
  requests m n R last -> m !! (os_psq, last_) = Some last -> Forall (request_ok m T Q) R ->
  wp rt_pop_req (fun _ m' => exists Q' D' l' c, sched m' T pr Q' D' l' c /\
    requests m' n [] ((last + zlen R) mod n) /\ m' !! (os_psq, last_) = Some ((last + zlen R) mod n) /\
    m' !! (os_tsk, run) = Some r /\ (forall x, x ∈ r :: l -> x = c \/ x ∈ l') /\
    (forall s, is_Some (Q !! s) -> is_Some (Q' !! s)) /\
    (forall t, t ∈ T -> m' !! (t, state) = Some WAIT_AND \/ m' !! (t, state) = Some WAIT_OR -> free_of Q' t) /\
    frame pop_cells m m') m.
Proof.
  intros HK Hfl HR Hlast HO. pose proof (proj2 HK) as Hrun.
  pose proof (s_new _ _ _ _ _ _ _ (proj1 HK)) as Hnew. pose proof (s_loose _ _ _ _ _ _ _ (proj1 HK)) as Hlo.
  pose proof (rq_range _ _ _ _ HR) as Hrg. pose proof (zlen_nonneg R).
  unfold rt_pop_req. wp_step. wp_use suspend_run_spec; [done|]. intros _ m1 (HL1 & HR1 & HF1). unfold links in HF1.
  assert (HRq1 : requests m1 n R last) by (eapply requests_frame; [done|exact HF1|]; naive_solver).
  assert (Hlast1 : m1 !! (os_psq, last_) = Some last) by flook.
  assert (HS1 : serviced m1 T pr (<[os_rdy := r :: l]> Q) D (r :: l)).
  { constructor; [done|done|]. intros t Ht Hst. destruct (HR1 t Ht) as (st & Hst1 & Hiff).
    assert (Htl : t ∉ r :: l).
    { intros Hx%Hiff. rewrite Hst1, Hx in Hst. destruct Hst as [[=]|[=]]. }
    apply free_of_insert; [|done]. apply Hfl; [done|].
    rewrite <- (proj2 (HF1 t state)); [done|]. intros [[|]|[-> _]]; [done..|]. apply Htl. by left. }
  assert (HO1 : Forall (request_ok m1 T (<[os_rdy := r :: l]> Q)) R).
  { eapply Forall_impl; [exact HO|]. intros y Hy. eapply request_ok_frame; [exact Hy| |intros s; apply insert_some].
    eapply frame_mono; [exact HF1|]. unfold pop_frame, links. naive_solver. }
  wp_run. wp_use pop_loop_spec; [exact HS1|exact HRq1|exact HO1|lia|].
  intros i m2 ((Q2 & D2 & l2 & HS2 & HQ2 & Hl2) & HRq2 & -> & HF2). unfold pop_frame, links, dlinks in HF2.
  assert (Hlast2 : m2 !! (os_psq, last_) = Some last) by (eapply frame_eq; [exact HF2|done|naive_solver]).
  assert (is_Some (m2 !! (os_psq, last_))) by eauto. wp_run.
  pose proof (Z.mod_pos_bound (last + zlen R) n). rewrite u8_id by lia. set (m3 := <[_ := _]> m2).
  assert (HF3 : frame (fun p f => p = os_psq /\ f = last_) m2 m3) by (by apply frame_store).
  assert (Hne : l2 <> []).
  { intros ->. specialize (Hl2 r). rewrite elem_of_nil in Hl2. apply Hl2. by left. }
  wp_use switch_to_first_spec; [| |exact Hne| |].
  - eapply lists_frame; [apply HS2|exact HF3|]. unfold links, dlinks. naive_solver.
  - eapply readies_frame; [apply HS2|exact HF3|]. naive_solver.
  - eapply frame_some; [exact HF3|]. eapply frame_some; [exact HF2|]. eapply frame_some; [exact HF1|]. eauto.
  - intros _ m4 (c & l' & -> & HS4 & HF4). unfold sfr, links, dlinks in HF4. exists (<[os_rdy := l']> Q2), D2, l', c. split_and!.
    + exact HS4.
    + eapply requests_frame; [eapply requests_frame; [exact HRq2|exact HF3|]|exact HF4|]; naive_solver.
    + eapply frame_eq; [exact HF4|unfold m3; by look|naive_solver].
    + eapply frame_eq; [exact HF4| |naive_solver]. eapply frame_eq; [exact HF3| |naive_solver].
      eapply frame_eq; [exact HF2| |naive_solver]. eapply frame_eq; [exact HF1|done|naive_solver].
    + intros x Hx%Hl2. by apply elem_of_cons in Hx.
    + intros s Hs. by apply insert_some, HQ2, insert_some.
    + intros t Ht Hst. assert (Hf2 : free_of Q2 t).
      { apply (sv_flags _ _ _ _ _ _ HS2 t Ht). assert (Htc : t <> c).
        { intros ->. rewrite (s_state _ _ _ _ _ _ _ HS4) in Hst. destruct Hst as [[=]|[=]]. }
        rewrite <- (proj2 (HF3 t state)), <- (proj2 (HF4 t state)); [done|set_solver|naive_solver]. }
      apply free_of_insert; [done|]. intros Hx. apply (Hf2 _ _ (l_rdy _ _ _ _ _ _ (sv_lists _ _ _ _ _ _ HS2))). by right.
    + eapply frame_mono; [eapply frame_trans; [exact HF1|eapply frame_trans; [exact HF2|eapply frame_trans; [exact HF3|exact HF4]]]|].
      unfold pop_cells, pop_frame, links, dlinks. cbv beta. tauto.
Qed.


(** ** Example *)

(** C waits for the semaphore, B for a flag, A runs; interrupt handlers have
    set the flag and sent a token. *)
Definition posted : mem :=
  mem_of ((rt_sem_wait sem1 0xffff;; store os_tsk run taskA;; rt_tsk_pass;; store os_tsk run taskB;;
    rt_evt_wait 4 0xffff __TRUE;; store os_tsk run taskA;;
    rt_psq_enq taskB 4;; rt_psq_enq sem1 0) mbx_start).

