(* ===== verification/RtxRun.v ===== *)
(** * Runs of the kernel

    The services of the kernel, the tick, PendSV and the interrupt handlers
    composed into runs: any sequence of them, with a context switch after each
    that leaves the kernel.  From a well-formed state no run ever reads or
    writes a cell that is not there, follows a broken list or loops for ever;
    it ends in a well-formed state, or in one of the two errors the kernel
    detects itself (a stack that overflowed, a full request queue). *)

From S2P Require Export RtxPop.

(** ** Events *)

Inductive event :=
  | Sem_send (s : Z) | Sem_wait (s timeout : Z)
  | Evt_set (flags id : Z) | Evt_wait (flags timeout and_wait : Z) | Evt_clr (flags id : Z)
  | Pass | Delay (ticks : Z)
  | Tick | Pend_SV
  | Isr_sem_send (s : Z) | Isr_evt_set (flags id : Z)
  | Stack_at (sp : Z).

Section Run.
Context `{ICSR}.

(** The exception handlers: a service, the tick and PendSV end with a context
    switch; interrupt handlers only post requests.  [Stack_at] is code of the
    running thread that moves its stack pointer. *)
Definition handle (e : event) : M unit :=
  match e with
  | Sem_send s => rt_sem_send s;; switch_context
  | Sem_wait s timeout => rt_sem_wait s timeout;; switch_context
  | Evt_set flags id => rt_evt_set flags id;; switch_context
  | Evt_wait flags timeout and_wait => rt_evt_wait flags timeout and_wait;; switch_context
  | Evt_clr flags id => rt_evt_clr flags id;; switch_context
  | Pass => rt_tsk_pass;; switch_context
  | Delay ticks => rt_dly_wait ticks;; switch_context
  | Tick => rt_systick;; switch_context
  | Pend_SV => rt_pop_req;; switch_context
  | Isr_sem_send s => isr_sem_send s
  | Isr_evt_set flags id => isr_evt_set flags id
  | Stack_at sp => store PSP value sp
  end.

(** The tasks, the semaphores, the number of entries of the task table and of
    the request queue, and the task that never blocks. *)
Context (T S : gset Z) (tasks psq_size idle : Z).

(** What a program may ask for: objects that exist, times of 16 bits, no
    blocking call of the idle task, stack pointers into memory. *)
Definition allowed (m : mem) (e : event) : bool :=
  let busy := bool_decide (m !! (os_tsk, run) <> Some idle) in
  match e with
  | Sem_send s | Isr_sem_send s => bool_decide (s ∈ S)
  | Sem_wait s timeout => bool_decide (s ∈ S) && busy && (0 <=? timeout) && (timeout <? 65536)
  | Evt_set _ id | Evt_clr _ id | Isr_evt_set _ id => (1 <=? id) && (id <=? tasks)
  | Evt_wait _ timeout _ => busy && (0 <=? timeout) && (timeout <? 65536)
  | Delay ticks => busy && (0 <=? ticks) && (ticks <? 65536)
  | Pass => busy
  | Tick | Pend_SV => true
  | Stack_at sp => bool_decide (is_Some (m !! (u32 (u32 (sp - 32) + 32), word)) /\
                                is_Some (m !! (u32 (u32 (sp - 32) + 36), word)))
  end.

(** A run; events that are not allowed do not happen. *)
Fixpoint run_events (es : list event) : M unit :=
  match es with
  | [] => mret tt
  | e :: es => (fun m => if allowed m e then handle e m else Ret tt m);; run_events es
  end.

(** ** The invariant *)

Definition waiting (m : mem) (t : Z) : Prop := m !! (t, state) = Some WAIT_AND \/ m !! (t, state) = Some WAIT_OR.

(** A task that waits for flags is in no queue. *)
Definition waits_free (m : mem) (Q : gmap Z (list Z)) : Prop := forall t, t ∈ T -> waiting m t -> free_of Q t.

(** The posted requests: [R], oldest first, in a ring whose next free entry
    follows them. *)
Definition posts (m : mem) (R : list (Z * Z)) : Prop :=
  exists last, requests m psq_size R last /\ m !! (os_psq, last_) = Some last /\
    psq m psq_size ((last + zlen R) mod psq_size) (zlen R) /\ Forall (fun x => x.1 ∈ T ∪ S) R.

(** What the system consists of, apart from the lists. *)
Record parts (m : mem) : Prop := {
  pt_sems s : s ∈ S -> m !! (s, cb_type) = Some SCB /\ s <> os_rdy /\ is_Some (m !! (s, tokens));
  pt_table i : 1 <= i <= tasks -> exists t, m !! (os_active_TCB, elem (i - 1)) = Some t /\ t ∈ T;
  pt_time : is_Some (m !! (os_time, value));
  pt_robin f : f ∈ [task; time; tout] -> is_Some (m !! (os_robin, f));
  pt_timers : m !! (os_timer_head, value) = Some NULL;
  pt_psh : psh_cells m;
  pt_stack t : t ∈ T -> exists base, m !! (t, stack) = Some base /\ is_Some (m !! (base, word))
}.

(** The stack pointer points into memory. *)
Definition psp_ok (m : mem) : Prop :=
  exists sp, m !! (PSP, value) = Some sp /\
    is_Some (m !! (u32 (u32 (sp - 32) + 32), word)) /\ is_Some (m !! (u32 (u32 (sp - 32) + 36), word)).

(** Everything but the lists. *)
Definition steady (m : mem) : Prop := parts m /\ psp_ok m /\ exists R, posts m R.

(** Task [c] is selected. *)
Definition selected (m : mem) (c : Z) : Prop :=
  exists pr Q D l, sched m T pr Q D l c /\ idle ∈ c :: l /\ waits_free m Q /\
    (forall s, s ∈ S -> is_Some (Q !! s)) /\ steady m.

(** A thread runs. *)
Definition well_formed (m : mem) : Prop := exists r, selected m r /\ m !! (os_tsk, run) = Some r.

(** Between a service and the context switch. *)
Definition switching (m : mem) : Prop :=
  exists c r, selected m c /\ m !! (os_tsk, run) = Some r /\ r ∈ T.

(** ** What keeps the invariant *)

Lemma parts_frame m m' K :
  parts m -> frame K m m' ->
  (forall p f, K p f -> f <> cb_type /\ f <> stack /\ (f = value -> p <> os_timer_head) /\ forall i, f <> elem i) -> parts m'.
Proof.
  intros [H1 H2 H3 H4 H5 H6 H7] HF HK. constructor.
  - intros s Hs. destruct (H1 s Hs) as (? & ? & ?). split_and!; [|done|by eapply frame_some].
    eapply frame_eq; [done..|]. intros ?%HK. tauto.
  - intros i Hi. destruct (H2 i Hi) as (t & Ht & ?). exists t. split; [|done].
    eapply frame_eq; [done..|]. intros ?%HK. naive_solver.
  - by eapply frame_some.
  - intros f Hf. eapply frame_some; [done|]. auto.
  - eapply frame_eq; [done..|]. intros ?%HK. tauto.
  - destruct H6 as (? & ? & ?). split_and!; by eapply frame_some.
  - intros t Ht. destruct (H7 t Ht) as (base & ? & ?). exists base. split; [|by eapply frame_some].
    eapply frame_eq; [done..|]. intros ?%HK. tauto.
Qed.

Lemma psp_frame m m' K : psp_ok m -> frame K m m' -> ~ K PSP value -> psp_ok m'.
Proof.
  intros (sp & H1 & H2 & H3) HF HK. exists sp. split_and!; [by eapply frame_eq|by eapply frame_some..].
Qed.

Lemma psq_frame' m m' n first count K :
  psq m n first count -> frame K m m' ->
  (forall f, K os_psq f -> f <> size_ /\ f <> first_ /\ f <> count_) -> psq m' n first count.
Proof.
  intros [H1 H2 H3 H4 H5] HF HK. constructor; [..|done|].
  1-3: eapply frame_eq; [done..|]; intros ?%HK; tauto.
  intros i Hi. destruct (H5 i Hi). split; by eapply frame_some.
Qed.

Lemma posts_frame m m' K R :
  posts m R -> frame K m m' ->
  (forall f, K os_psq f -> f <> size_ /\ f <> first_ /\ f <> count_ /\ f <> last_ /\ forall i, f <> q_id i /\ f <> q_arg i) ->
  posts m' R.
Proof.
  intros (last & H1 & H2 & H3 & H4) HF HK. exists last. split_and!; [| | |done].
  - eapply requests_frame; [done..|]. intros f ?%HK. naive_solver.
  - eapply frame_eq; [done..|]. intros ?%HK. tauto.
  - eapply psq_frame'; [done..|]. intros f ?%HK. tauto.
Qed.

(** The cells the services change. *)
Definition run_cells (p : Z) (f : field) : Prop := pop_frame p f \/ (p = os_tsk /\ f = new_tsk).

Lemma steady_frame m m' : steady m -> frame run_cells m m' -> steady m'.
Proof.
  intros (HP & HS & R & HR) HF. unfold run_cells, pop_frame, links, dlinks in HF. split_and!.
  - eapply parts_frame; [done..|]. naive_solver.
  - eapply psp_frame; [done..|]. naive_solver.
  - exists R. eapply posts_frame; [done..|]. naive_solver.
Qed.

(** A task that is ready or selected does not wait. *)
Lemma active_not_waiting m pr Q D l c x : sched m T pr Q D l c -> x ∈ c :: l -> ~ waiting m x.
Proof.
  intros HS [->|Hx]%elem_of_cons Hw; unfold waiting in Hw.
  - rewrite (s_state _ _ _ _ _ _ _ HS) in Hw. naive_solver.
  - pose proof (s_lists _ _ _ _ _ _ _ HS) as HL.
    destruct (s_readies _ _ _ _ _ _ _ HS x) as (st & Hst & Hiff).
    { by eapply (q_tasks _ _ _ (l_queues _ _ _ _ _ _ HL)); [apply HL|]. }
    rewrite Hst, (proj2 Hiff Hx) in Hw. naive_solver.
Qed.

(** The running task [r] may have blocked, and woken tasks do not wait: then
    the new queues hold no task that waits for flags. *)
Lemma waits_free_step m m' pr Q D l r pr' Q' D' l' c :
  sched m T pr Q D l r -> waits_free m Q -> sched m' T pr' Q' D' l' c ->
  (forall h k x, h <> os_rdy -> Q' !! h = Some k -> x ∈ k -> waiting m' x -> ~ free_of Q x) ->
  (forall x, x ∈ T -> waiting m' x -> x = r \/ m' !! (x, state) = m !! (x, state)) ->
  waits_free m' Q'.
Proof.
  intros HS HW HS' HQ Hst t Ht Hwt h k Hk Hx. destruct (decide (h = os_rdy)) as [->|Hne].
  - rewrite (l_rdy _ _ _ _ _ _ (s_lists _ _ _ _ _ _ _ HS')) in Hk. injection Hk as <-.
    eapply active_not_waiting; [exact HS'| |exact Hwt]. by right.
  - eapply HQ; [done..|]. destruct (Hst t Ht Hwt) as [->|E]; [apply (s_loose _ _ _ _ _ _ _ HS)|].
    apply HW; [done|]. unfold waiting in *. by rewrite <- E.
Qed.

(** How the steps below show [switching]. *)
Lemma switching_intro m m' pr Q D l r pr' Q' D' l' c :
  kernel m T pr Q D l r -> idle ∈ r :: l -> waits_free m Q -> (forall s, s ∈ S -> is_Some (Q !! s)) ->
  sched m' T pr' Q' D' l' c -> (idle ∈ r :: l -> idle ∈ c :: l') ->
  (forall h, is_Some (Q !! h) -> is_Some (Q' !! h)) ->
  (forall h k x, h <> os_rdy -> Q' !! h = Some k -> x ∈ k -> waiting m' x -> ~ free_of Q x) ->
  (forall x, x ∈ T -> waiting m' x -> x = r \/ m' !! (x, state) = m !! (x, state)) ->
  m' !! (os_tsk, run) = Some r -> steady m' -> switching m'.
Proof.
  intros [HS Hrun] Hi HW HQ HS' Hi' HQ' Hnw Hst Hrun' HD. exists c, r. split_and!; [|done|apply (s_loose _ _ _ _ _ _ _ HS)].
  exists pr', Q', D', l'. split_and!; [done|auto|eapply waits_free_step; [exact HS|exact HW|exact HS'|done..]|auto|done].
Qed.

(** The same when nothing is scheduled. *)
Lemma switching_same m m' pr Q D l r K :
  kernel m T pr Q D l r -> idle ∈ r :: l -> waits_free m Q -> (forall s, s ∈ S -> is_Some (Q !! s)) -> steady m ->
  frame K m m' -> (forall p f, K p f -> f = tokens \/ f = events \/ f = waits) -> switching m'.
Proof.
  intros HK Hi HW HQ HD HF Hk. assert (HK' : kernel m' T pr Q D l r).
  { eapply kernel_frame; [done..|]. unfold links, dlinks. intros p f ?%Hk. naive_solver. }
  eapply (switching_intro m m' pr Q D l r pr Q D l r); [done|done|done|done|apply HK'|done|done| | |apply HK'|].
  - intros h k x Hh Hx Hin Hw Hfr. by eapply Hfr.
  - intros x Hx _. right. apply (proj2 (HF x state)). intros ?%Hk. naive_solver.
  - eapply steady_frame; [done|]. eapply frame_mono; [done|]. unfold run_cells, pop_frame. intros p f ?%Hk. tauto.
Qed.

Lemma states_step m m' K r pr' Q' D' l' c :
  sched m' T pr' Q' D' l' c -> frame K m m' -> (forall x, K x state -> x = r \/ x ∈ c :: l') ->
  forall x, x ∈ T -> waiting m' x -> x = r \/ m' !! (x, state) = m !! (x, state).
Proof.
  intros HS HF HK x Hx Hw. destruct (decide (x = r)) as [|Hne]; [by left|right].
  apply (proj2 (HF x state)). intros [?|Hin]%HK; [done|]. by eapply active_not_waiting.
Qed.

(** The queues of objects only lose tasks. *)
Definition shrunk (Q Q' : gmap Z (list Z)) : Prop :=
  (forall h, is_Some (Q !! h) -> is_Some (Q' !! h)) /\
  forall h k x, h <> os_rdy -> Q' !! h = Some k -> x ∈ k -> exists k0, Q !! h = Some k0 /\ x ∈ k0.

Lemma shrunk_trans Q1 Q2 Q3 : shrunk Q1 Q2 -> shrunk Q2 Q3 -> shrunk Q1 Q3.
Proof.
  intros [H1 H2] [H3 H4]. split; [auto|]. intros h k x Hh Hk Hx.
  destruct (H4 h k x Hh Hk Hx) as (k0 & Hk0 & Hx0). eauto.
Qed.

Lemma shrunk_rdy Q l : shrunk Q (<[os_rdy := l]> Q).
Proof. split; [intros; by apply insert_some|]. intros h k x Hh [[? _]|[_ Hk]]%lookup_insert_Some Hx; [done|eauto]. Qed.

Lemma shrunk_tail Q s t k : Q !! s = Some (t :: k) -> shrunk Q (<[s := k]> Q).
Proof.
  intros Hs. split; [intros; by apply insert_some|].
  intros h k' x Hh [[<- <-]|[_ Hk]]%lookup_insert_Some Hx; [|eauto]. eexists. split; [exact Hs|by right].
Qed.

Lemma shrunk_wakeups pr k Q : shrunk Q (wakeups pr k Q).
Proof.
  revert Q. induction k as [|t k IH]; intros Q; [split; [done|eauto]|]. cbn.
  eapply shrunk_trans; [|apply IH]. unfold wake. eapply shrunk_trans; [|apply shrunk_rdy].
  unfold unqueue. split.
  - intros h [l Hl]. rewrite lookup_fmap, Hl. by eexists.
  - intros h l x _. rewrite lookup_fmap. intros (l0 & Hl0 & ->)%fmap_Some [_ Hx]%list_elem_of_filter. eauto.
Qed.

Lemma dispatch_in pr t r l x : x ∈ t :: r :: l -> x ∈ (dispatch pr t r l).2 :: (dispatch pr t r l).1.
Proof.
  unfold dispatch. destruct (pr r <? pr t); cbn; [done|].
  rewrite !elem_of_cons, insert_prio_in. tauto.
Qed.

(** A woken task was dispatched. *)
Lemma switching_dispatch m m' pr Q D l r Q' D' t :
  kernel m T pr Q D l r -> idle ∈ r :: l -> waits_free m Q -> (forall s, s ∈ S -> is_Some (Q !! s)) -> steady m ->
  sched m' T pr Q' D' (dispatch pr t r l).1 (dispatch pr t r l).2 -> shrunk Q Q' ->
  frame (fun p f => evt_frame t p f \/ sfr [t; r] p f) m m' -> switching m'.
Proof.
  intros HK Hi HW HQ HD HS' [Hdom Hsh] HF.
  eapply (switching_intro m m' pr Q D l r); [done|done|done|done|exact HS'| |done| | | |].
  - intros _. apply dispatch_in. by right.
  - intros h k x Hh Hk Hx _ Hf. destruct (Hsh h k x Hh Hk Hx) as (k0 & Hk0 & Hx0). by eapply Hf.
  - eapply states_step; [exact HS'|exact HF|]. unfold evt_frame, sfr, links, dlinks. intros x Hx.
    assert (Hxx : x = t \/ x = r) by set_solver. destruct Hxx as [->|]; [right; apply dispatch_in; by left|by left].
  - eapply frame_eq; [exact HF|apply HK|]. unfold evt_frame, sfr, links, dlinks. naive_solver.
  - eapply steady_frame; [done|]. eapply frame_mono; [exact HF|].
    unfold run_cells, pop_frame, evt_frame, sfr. cbv beta. tauto.
Qed.

(** The running task blocked in state [st]; it may have joined the queue [Q']. *)
Lemma switching_block m m' pr Q D t l r Q' D' K :
  kernel m T pr Q D (t :: l) r -> idle ∈ t :: l -> waits_free m Q -> (forall s, s ∈ S -> is_Some (Q !! s)) -> steady m ->
  sched m' T pr Q' D' l t ->
  (forall h, is_Some (Q !! h) -> is_Some (Q' !! h)) ->
  (forall h k x, h <> os_rdy -> Q' !! h = Some k -> x ∈ k -> waiting m' x -> ~ free_of Q x) ->
  frame K m m' -> (forall p f, K p f -> (p = r /\ (f = events \/ f = waits)) \/ sfr [r; t] p f) -> switching m'.
Proof.
  intros HK Hi HW HQ HD HS' Hdom Hnw HF Hk.
  assert (HF' : frame (fun p f => (p = r /\ (f = events \/ f = waits)) \/ sfr [r; t] p f) m m') by (by eapply frame_mono).
  eapply (switching_intro m m' pr Q D (t :: l) r); [done|by right|done|done|exact HS'|done|done|done| | |].
  - eapply states_step; [exact HS'|exact HF'|]. unfold sfr, links, dlinks. intros x Hx.
    assert (Hxx : x = t \/ x = r) by set_solver. destruct Hxx as [->|]; [right; by left|by left].
  - eapply frame_eq; [exact HF'|apply HK|]. unfold sfr, links, dlinks. naive_solver.
  - eapply steady_frame; [done|]. eapply frame_mono; [exact HF'|].
    unfold run_cells, pop_frame, sfr. cbv beta. tauto.
Qed.

(** ** The services *)

(** Unpacks the hypothesis that the state is well formed. *)
Ltac unpack H := destruct H as (r & (pr & Q & D & l & HSch & Hidle & HW & HQ & HD) & Hrun);
  pose proof (conj HSch Hrun : kernel _ _ _ _ _ _ _) as HK.

Lemma sem_send_run m s : well_formed m -> s ∈ S -> wp (rt_sem_send s) (fun _ m' => switching m') m.
Proof.
  intros Hwf Hs. unpack Hwf. destruct (pt_sems _ (proj1 HD) s Hs) as (_ & Hne & n & Hn). destruct (HQ s Hs) as [k Hk].
  wp_use rt_sem_send_spec; [done..|]. intros x m' (_ & Hpost). destruct k as [|t k].
  - destruct Hpost as (_ & _ & HF). eapply switching_same; [done..|]. naive_solver.
  - destruct Hpost as (HS' & _ & _ & HF). eapply switching_dispatch; [exact HK|done..|exact HS'| |].
    { eapply shrunk_trans; [by eapply shrunk_tail|apply shrunk_rdy]. }
    eapply frame_mono; [exact HF|]. unfold evt_frame. cbv beta. tauto.
Qed.

(** A task that is not the idle task runs: there is a next one. *)
Lemma busy_next r l : idle ∈ r :: l -> r <> idle -> exists t l', l = t :: l' /\ idle ∈ t :: l'.
Proof. intros [->|Hi]%elem_of_cons Hne; [done|]. destruct l as [|t l']; [by apply elem_of_nil in Hi|eauto]. Qed.

Lemma sem_wait_run m s timeout :
  well_formed m -> m !! (os_tsk, run) <> Some idle -> s ∈ S -> 0 <= timeout < 65536 ->
  wp (rt_sem_wait s timeout) (fun _ m' => switching m') m.
Proof.
  intros Hwf Hb Hs Hto. unpack Hwf. destruct (busy_next r l) as (t & l' & -> & Hi'); [done|congruence|].
  destruct (pt_sems _ (proj1 HD) s Hs) as (_ & Hne & n & Hn). destruct (HQ s Hs) as [k Hk].
  wp_use rt_sem_wait_spec; [done..|]. intros x m'. destruct (n =? 0).
  - intros (_ & Hpost). destruct (timeout =? 0).
    + subst m'. eapply switching_same; [done..|apply (frame_refl (fun _ _ => False))|done].
    + destruct Hpost as (HS' & Hst & _ & HF).
      eapply switching_block; [exact HK|done..|exact HS'| | |exact HF|tauto].
      * intros; by apply insert_some, insert_some.
      * intros h k' x' Hh [[? _]|[_ [[<- <-]|[_ Hk']]%lookup_insert_Some]]%lookup_insert_Some Hx Hw Hf; [done| |by eapply Hf].
        apply insert_prio_in in Hx as [->|Hx]; [|by eapply Hf].
        unfold waiting in Hw. rewrite Hst in Hw. by destruct Hw.
  - intros (_ & _ & _ & HF). eapply switching_same; [done..|]. naive_solver.
Qed.

(** The cells of a task. *)
Lemma task_cell m pr Q D l r t f : kernel m T pr Q D l r -> t ∈ T -> f ∈ tcb_fields -> is_Some (m !! (t, f)).
Proof. intros [HS _] Ht Hf. eapply tcb_some; [apply HS|done|done]. Qed.

Lemma evt_set_run m flags id :
  well_formed m -> 1 <= id <= tasks -> wp (rt_evt_set flags id) (fun _ m' => switching m') m.
Proof.
  intros Hwf Hid. unpack Hwf. destruct (pt_table _ (proj1 HD) id Hid) as (t & Ht & HtT).
  destruct (task_cell _ _ _ _ _ _ t state HK HtT) as [st Hst]; [set_solver|].
  destruct (task_cell _ _ _ _ _ _ t events HK HtT) as [ev Hev]; [set_solver|].
  destruct (task_cell _ _ _ _ _ _ t waits HK HtT) as [w Hw]; [set_solver|].
  wp_use rt_evt_set_spec; [done..| |].
  { intros Hx. apply HW; [done|]. unfold waiting. destruct Hx as [-> | ->]; tauto. }
  intros _ m'. destruct (evt_result _ _ _) as [[ev' w']|].
  - intros (HS' & _ & _ & _ & HF). eapply switching_dispatch; [exact HK|done..|exact HS'|apply shrunk_rdy|exact HF].
  - intros [_ ->]. eapply switching_same; [done..|apply frame_store; eauto|]. naive_solver.
Qed.

Lemma evt_clr_run m flags id :
  well_formed m -> 1 <= id <= tasks -> wp (rt_evt_clr flags id) (fun _ m' => switching m') m.
Proof.
  intros Hwf Hid. unpack Hwf. destruct (pt_table _ (proj1 HD) id Hid) as (t & Ht & HtT).
  destruct (task_cell _ _ _ _ _ _ t events HK HtT) as [ev Hev]; [set_solver|].
  unfold rt_evt_clr. wp_run. rewrite (proj2 (Z.eqb_neq _ _)) by (eapply tcb_nonnull; [apply HSch|done]).
  assert (is_Some (m !! (t, events))) by eauto. wp_run.
  eapply switching_same; [done..|by apply frame_store|]. naive_solver.
Qed.

Lemma evt_wait_run m flags timeout and_wait :
  well_formed m -> m !! (os_tsk, run) <> Some idle -> 0 <= timeout < 65536 ->
  wp (rt_evt_wait flags timeout and_wait) (fun _ m' => switching m') m.
Proof.
  intros Hwf Hb Hto. unpack Hwf. destruct (busy_next r l) as (t & l' & -> & Hi'); [done|congruence|].
  destruct (task_cell _ _ _ _ _ _ r events HK) as [ev Hev]; [apply (s_loose _ _ _ _ _ _ _ HSch)|set_solver|].
  wp_use rt_evt_wait_spec; [done..|]. intros x m' (HF & Hpost). unfold wait_frame in HF.
  assert (Hsame : kernel m' T pr Q D (t :: l') r -> switching m').
  { intros HK'. eapply (switching_intro m m' pr Q D (t :: l') r pr Q D (t :: l') r);
      [done|done|done|done|apply HK'|done|done| | |apply HK'|].
    - intros h k y Hh Hk Hx _ Hf. by eapply Hf.
    - intros y Hy Hwy. eapply states_step; [apply HK'|exact HF| |done|done]. unfold sfr, links, dlinks.
      intros z Hz. set_solver.
    - eapply steady_frame; [done|]. eapply frame_mono; [exact HF|].
      unfold run_cells, pop_frame, sfr. cbv beta. tauto. }
  destruct (if and_wait =? 0 then _ else _).
  - apply Hsame, Hpost.
  - destruct Hpost as (_ & _ & Hpost). destruct (timeout =? 0); [by apply Hsame|]. destruct Hpost as [HS' _].
    destruct (shrunk_rdy Q l') as [Hdom Hsh].
    eapply switching_block; [exact HK|done..|exact HS'|done| |exact HF|tauto].
    intros h k y Hh Hk Hx _ Hf. destruct (Hsh h k y Hh Hk Hx) as (k0 & Hk0 & Hx0). by eapply Hf.
Qed.

Lemma pass_run m :
  well_formed m -> m !! (os_tsk, run) <> Some idle -> wp rt_tsk_pass (fun _ m' => switching m') m.
Proof.
  intros Hwf Hb. unpack Hwf. destruct (busy_next r l) as (t & l' & -> & Hi'); [done|congruence|].
  wp_use rt_tsk_pass_correct; [done|]. intros _ m'. destruct (pr t =? pr r).
  - intros [HS' HF]. destruct (shrunk_rdy Q (insert_prio pr r l')) as [Hdom Hsh].
    eapply (switching_intro m m' pr Q D (t :: l') r); [done|done|done|done|exact HS'| |done| | | |].
    + rewrite !elem_of_cons, insert_prio_in. tauto.
    + intros h k y Hh Hk Hx _ Hf. destruct (Hsh h k y Hh Hk Hx) as (k0 & Hk0 & Hx0). by eapply Hf.
    + eapply states_step; [exact HS'|exact HF|]. unfold sfr, links, dlinks. intros x Hx.
      assert (Hxx : x = t \/ x = r) by set_solver. destruct Hxx as [->|]; [right; by left|by left].
    + eapply frame_eq; [exact HF|done|]. unfold sfr, links, dlinks. naive_solver.
    + eapply steady_frame; [done|]. eapply frame_mono; [exact HF|]. unfold run_cells, pop_frame, sfr. tauto.
  - intros ->. eapply switching_same; [done..|apply (frame_refl (fun _ _ => False))|done].
Qed.

Lemma delay_run m d :
  well_formed m -> m !! (os_tsk, run) <> Some idle -> 0 <= d < 65536 ->
  wp (rt_dly_wait d) (fun _ m' => switching m') m.
Proof.
  intros Hwf Hb Hd. unpack Hwf. destruct (busy_next r l) as (t & l' & -> & Hi'); [done|congruence|].
  unfold rt_dly_wait. destruct (decide (d = 0)) as [->|Hd0].
  - unfold rt_block. wp_run. eapply switching_same; [done..|apply (frame_refl (fun _ _ => False))|done].
  - pose proof HSch as [HL HR Hnew Hr Hst Htop]. destruct (shrunk_rdy Q l') as [Hdom Hsh].
    wp_use rt_block_spec; [exact HL| |apply Hr| |apply Hr|done|by eauto|lia|done|].
    + by apply readies_without.
    + eapply (proj1 (proj2 Hr)), HL.
    + intros _ m' (HS' & _ & HF). eapply switching_block; [exact HK|done..|exact HS'|done| |exact HF|tauto].
      intros h k y Hh Hk Hx _ Hf. destruct (Hsh h k y Hh Hk Hx) as (k0 & Hk0 & Hx0). by eapply Hf.
Qed.

(** ** The tick and PendSV *)

Lemma tick_run m : well_formed m -> wp rt_systick (fun _ m' => switching m') m.
Proof.
  intros Hwf. unpack Hwf. destruct HD as (HP & Hpsp & R & HR).
  destruct (pt_time _ HP) as [tm Htm]. destruct (pt_robin _ HP task) as [t0 Ht0]; [set_solver|].
  destruct (pt_robin _ HP time) as [x Hx]; [set_solver|]. destruct (pt_robin _ HP tout) as [n Hn]; [set_solver|].
  unfold rt_systick. eapply (tick_use m T pr Q D l r tm t0 x n); [done|done|by constructor|].
  set (l0 := rotated pr _ r l). set (k := due 1 D). intros m1 HL1 HR1 Hne _ _ HF1.
  assert (Htimer : m1 !! (os_timer_head, value) = Some NULL).
  { eapply frame_eq; [exact HF1|apply HP|]. unfold tick_cells, robin_frame, links, dlinks. naive_solver. }
  unfold sysTimerTick. wp_run. cbn [Z.eqb NULL]. wp_run.
  wp_use switch_to_first_spec; [exact HL1|exact HR1|exact Hne| |].
  { eapply frame_some; [exact HF1|]. exists r. apply HSch. }
  intros _ m2 (c & l' & E & HS' & HF2).
  assert (HF : frame (fun p f => tick_cells r k p f \/ sfr [c] p f) m m2) by (by eapply frame_trans).
  assert (Hin : forall y, y ∈ r :: l \/ y ∈ k -> y ∈ c :: l').
  { intros y Hy. rewrite <- E. apply release_rdy_in. unfold l0. rewrite rotated_in. tauto. }
  destruct (shrunk_trans Q (<[os_rdy := l0]> Q) (<[os_rdy := l']> (wakeups pr k (<[os_rdy := l0]> Q)))) as [Hdom Hsh].
  { apply shrunk_rdy. } { eapply shrunk_trans; [apply shrunk_wakeups|apply shrunk_rdy]. }
  eapply (switching_intro m m2 pr Q D l r); [done|done|done|done|exact HS'| |done| | | |].
  - intros Hi. auto.
  - intros h kk y Hh Hk Hy _ Hf. destruct (Hsh h kk y Hh Hk Hy) as (k0 & Hk0 & Hx0). by eapply Hf.
  - eapply states_step; [exact HS'|exact HF|]. unfold tick_cells, robin_frame, sfr, links, dlinks. intros y Hy.
    assert (Hyy : y = r \/ y ∈ k \/ y = c) by set_solver. destruct Hyy as [?|[?| ->]]; [by left|right; auto|right; by left].
  - eapply frame_eq; [exact HF|done|]. unfold tick_cells, robin_frame, sfr, links, dlinks. naive_solver.
  - unfold tick_cells, robin_frame, sfr, links, dlinks in HF. split_and!.
    + eapply parts_frame; [exact HP|exact HF|]. naive_solver.
    + eapply psp_frame; [exact Hpsp|exact HF|]. naive_solver.
    + exists R. eapply posts_frame; [exact HR|exact HF|]. naive_solver.
Qed.

Lemma pop_run m : well_formed m -> wp rt_pop_req (fun _ m' => switching m') m.
Proof.
  intros Hwf. unpack Hwf. destruct HD as (HP & Hpsp & R & last & HR & Hlast & Hpsq & HRT).
  wp_use (rt_pop_req_spec m T pr Q D l r psq_size R last); [done|done|done|done| |].
  { eapply Forall_impl; [exact HRT|]. intros x [Hx|Hx]%elem_of_union; [by left|right].
    destruct (pt_sems _ HP _ Hx) as (? & ? & ?). auto. }
  intros _ m' (Q' & D' & l' & c & HS' & HR' & Hlast' & Hrun' & Hin & Hdom & HW' & HF).
  exists c, r. split_and!; [|done|apply (s_loose _ _ _ _ _ _ _ HSch)].
  exists pr, Q', D', l'. split_and!; [done| |done|auto|split_and!].
  - apply elem_of_cons, Hin. done.
  - unfold pop_cells, pop_frame, links, dlinks in HF. eapply parts_frame; [exact HP|exact HF|]. naive_solver.
  - unfold pop_cells, pop_frame, links, dlinks in HF. eapply psp_frame; [exact Hpsp|exact HF|]. naive_solver.
  - exists [], ((last + zlen R) mod psq_size). split_and!; [done|done| |constructor].
    pose proof (rq_range _ _ _ _ HR). pose proof (Z.mod_pos_bound (last + zlen R) psq_size ltac:(lia)).
    change (zlen []) with 0. rewrite Z.add_0_r, Z.mod_small by lia.
    destruct Hpsq as [P1 P2 P3 P4 P5]. unfold pop_cells, pop_frame, links, dlinks in HF. constructor.
    + eapply frame_eq; [exact HF|done|naive_solver].
    + eapply frame_eq; [exact HF|done|naive_solver].
    + apply (rq_count _ _ _ _ HR').
    + lia.
    + intros i Hi. destruct (P5 i Hi). split; by eapply frame_some.
Qed.

(** ** Errors the kernel detects *)

(** [c] ends with [P], or in one of the two errors a run can end in. *)
Definition safe {A} (c : M A) (P : A -> mem -> Prop) (m : mem) : Prop :=
  match c m with
  | Ret a m' => P a m'
  | Halt e => e = OS_ERR_STK_OVF \/ e = OS_ERR_FIFO_OVF
  | Stuck => False
  end.

Lemma safe_wp {A} (c : M A) P m : wp c P m -> safe c P m.
Proof. intros (a & m' & E & HP)%wp_out. unfold safe. by rewrite E. Qed.

Lemma safe_bind {A B} (c : M A) (k : A -> M B) P R m :
  safe c R m -> (forall a m', R a m' -> safe (k a) P m') -> safe (c ≫= k) P m.
Proof. unfold safe, mbind, M_bind. intros H1 H2. destruct (c m); [by apply H2|done..]. Qed.

Lemma safe_halt {A} (c : M A) P m e : c m = Halt e -> e = OS_ERR_STK_OVF \/ e = OS_ERR_FIFO_OVF -> safe c P m.
Proof. unfold safe. by intros ->. Qed.

Lemma safe_ret {A} (c : M A) (P : A -> mem -> Prop) m a m' : c m = Ret a m' -> P a m' -> safe c P m.
Proof. unfold safe. by intros ->. Qed.

(** A failed stack check stops the system. *)
Lemma switch_context_fails m r c id sp base w :
  m !! (os_tsk, run) = Some r -> m !! (os_tsk, new_tsk) = Some c -> r <> c -> r <> NULL ->
  m !! (r, task_id) = Some id -> id <> 1 -> is_Some (m !! (r, tsk_stack)) -> m !! (PSP, value) = Some sp ->
  m !! (r, stack) = Some base -> m !! (base, word) = Some w -> ~ (base <= u32 (sp - 32) /\ w = MAGIC_WORD) ->
  switch_context m = Halt OS_ERR_STK_OVF.
Proof.
  intros Hrun Hnew Hne Hr0 Hid Hid1 [old Hold] Hsp Hbase Hw Hbad.
  set (m1 := <[(r, tsk_stack) := u32 (sp - 32)]> m).
  assert (E : store r tsk_stack (u32 (sp - 32)) m = Ret tt m1) by (unfold store; by rewrite Hold).
  unfold switch_context, rt_get_PSP, rt_stk_check, when, mbind, M_bind, load. rewrite Hrun, Hnew.
  rewrite (proj2 (Z.eqb_neq r c)), (proj2 (Z.eqb_neq r NULL)) by done. cbn [negb]. rewrite Hsp, E.
  assert (m1 !! (os_tsk, run) = Some r) as -> by (unfold m1; by look).
  assert (m1 !! (r, task_id) = Some id) as -> by (unfold m1; by look).
  rewrite (proj2 (Z.eqb_neq id 1)) by done.
  assert (m1 !! (r, tsk_stack) = Some (u32 (sp - 32))) as -> by (unfold m1; by look).
  assert (m1 !! (r, stack) = Some base) as -> by (unfold m1; by look).
  assert (m1 !! (base, word) = Some w) as -> by (unfold m1; by look).
  destruct (Z.ltb_spec (u32 (sp - 32)) base); [done|]. destruct (Z.eqb_spec w MAGIC_WORD); [|done].
  destruct Hbad. split; [lia|done].
Qed.

(** The check of the stack finds every state in which the switch would not be
    possible. *)
Lemma switch_run m : switching m -> safe switch_context (fun _ m' => well_formed m') m.
Proof.
  intros (c & r & (pr & Q & D & l & HS & Hidle & HW & HQ & HP & Hpsp & R & HR) & Hrun & HrT).
  pose proof Hpsp as (sp & Hsp & Hw1 & Hw2). destruct (pt_stack _ HP r HrT) as (base & Hbase & w & Hw).
  pose proof (s_lists _ _ _ _ _ _ _ HS) as HL. pose proof (s_new _ _ _ _ _ _ _ HS) as Hnew.
  destruct (tcb_some _ _ _ r task_id (l_tcbs _ _ _ _ _ _ HL) HrT) as [id Hid]; [set_solver|].
  destruct (decide (r = c)) as [->|Hne].
  { eapply safe_ret.
    - unfold switch_context, mbind, M_bind, load. rewrite Hrun, Hnew, Z.eqb_refl. done.
    - exists c. split; [|done]. exists pr, Q, D, l. split_and!; [done..|split_and!; [done..|by exists R]]. }
  destruct (decide (id = 1 \/ (base <= u32 (sp - 32) /\ w = MAGIC_WORD))) as [Hok|Hbad].
  - assert (HK : stack_ok m r).
    { constructor. exists id, sp. split_and!; [done..|]. destruct Hok as [|[? ->]]; [by left|right; eauto]. }
    apply safe_wp. wp_use switch_context_spec; [done..|]. intros _ m' (HK' & HF & Hpsp'). exists c.
    split; [|apply HK']. unfold switch_frame in HF. exists pr, Q, D, l. split_and!; [apply HK'|done| |done|split_and!].
    + intros t Ht Hw'. apply HW; [done|]. unfold waiting in *. rewrite (proj2 (HF t state)) in Hw'; naive_solver.
    + eapply parts_frame; [exact HP|exact HF|]. naive_solver.
    + destruct (Hpsp' Hne) as (spc & Hspc & Hp').
      destruct (l_tcbs _ _ _ _ _ _ HL c (proj1 (s_loose _ _ _ _ _ _ _ HS))) as (_ & _ & _ & _ & spc' & Hspc' & Hc1 & Hc2).
      assert (spc' = spc) as -> by congruence. exists (u32 (spc + 32)).
      replace (u32 (u32 (spc + 32) - 32)) with (u32 spc) by (unfold u32; rewrite Zminus_mod_idemp_l; f_equal; lia).
      unfold u32 in Hc1, Hc2 |- *. rewrite !Zplus_mod_idemp_l. split_and!; [done|by eapply frame_some..].
    + exists R. eapply posts_frame; [exact HR|exact HF|]. naive_solver.
  - eapply safe_halt; [|by left].
    apply (switch_context_fails m r c id sp base w); [done|done|done| |done|tauto| |done|done|done|tauto].
    + eapply tcb_nonnull; [apply HL|done].
    + eapply tcb_some; [apply HL|done|set_solver].
Qed.

(** ** Interrupt handlers *)

Definition enq_cells (p : Z) (f : field) : Prop :=
  p = os_psq /\ (f = count_ \/ f = first_ \/ exists i, f = q_id i \/ f = q_arg i).

(** A request is posted behind the others, or the queue is full. *)
Lemma enq_run m R entry arg :
  posts m R -> entry ∈ T ∪ S ->
  safe (rt_psq_enq entry arg) (fun _ m' => posts m' (R ++ [(entry, arg)]) /\ frame enq_cells m m') m.
Proof.
  intros (last & HR & Hlast & Hpsq & HRT) He. pose proof (rt_psq_enq_spec m _ _ _ entry arg Hpsq) as Hspec.
  pose proof (rq_range _ _ _ _ HR) as Hrg. destruct HR as [R1 R2 R3 R4]. set (n := psq_size) in *.
  set (fst := (last + zlen R) mod n) in *. assert (Hf : 0 <= fst < n) by (apply Z.mod_pos_bound; lia).
  destruct (Z.ltb_spec (zlen R) n); [|by eapply safe_halt; [exact Hspec|right]].
  apply safe_wp. eapply wp_mono; [exact Hspec|]. intros _ m' (Hpsq' & Hid & Harg & HF).
  assert (HF' : frame enq_cells m m').
  { eapply frame_mono; [exact HF|]. unfold enq_cells. naive_solver. }
  assert (Hlen : zlen (R ++ [(entry, arg)]) = zlen R + 1) by (rewrite length_app; cbn; lia).
  split; [|done]. exists last. rewrite Hlen. split_and!.
  - constructor.
    + eapply frame_eq; [exact HF|exact R1|naive_solver].
    + lia.
    + rewrite Hlen. apply Hpsq'.
    + intros k x Hk. apply lookup_app_Some in Hk as [Hk|[Hge Hk]].
      * pose proof (lookup_lt_Some _ _ _ Hk). destruct (R4 k x Hk) as [E1 E2].
        assert ((last + Z.of_nat k) mod n <> fst).
        { intros E. apply mod_add_inj in E; lia. }
        split; (eapply frame_eq; [exact HF|done|naive_solver]).
      * apply list_lookup_singleton_Some in Hk as [Hk <-]. cbn.
        replace (Z.of_nat k) with (zlen R) by lia. by fold fst.
  - eapply frame_eq; [exact HF|exact Hlast|naive_solver].
  - rewrite mod_next in Hpsq' by done. unfold fst in Hpsq'. rewrite Zplus_mod_idemp_l in Hpsq'.
    by replace (last + (zlen R + 1)) with (last + zlen R + 1) by lia.
  - apply Forall_app. split; [done|]. by constructor.
Qed.

(** A request leaves the lists alone. *)
Lemma isr_run m entry arg :
  well_formed m -> entry ∈ T ∪ S -> safe (rt_psq_enq entry arg;; rt_psh_req) (fun _ m' => well_formed m') m.
Proof.
  intros Hwf He. unpack Hwf. destruct HD as (HP & Hpsp & R & HR).
  eapply safe_bind; [by apply enq_run|]. intros _ m1 [HR1 HF1]. cbv beta. apply safe_wp.
  wp_use rt_psh_req_spec; [destruct (pt_psh _ HP) as (? & ? & ?); split_and!; by eapply frame_some|].
  intros _ m2 HF2.
  assert (HF : frame (fun p f => enq_cells p f \/ (f = value /\ (p = os_psh_flag \/ p = NVIC_INT_CTRL))) m m2)
    by (by eapply frame_trans). unfold enq_cells in HF.
  assert (HK2 : kernel m2 T pr Q D l r).
  { eapply kernel_frame; [exact HK|exact HF|]. unfold links, dlinks. naive_solver. }
  exists r. split; [|apply HK2]. exists pr, Q, D, l. split_and!; [apply HK2|done| |done|split_and!].
  - intros t Ht Hw'. apply HW; [done|]. unfold waiting in *. rewrite (proj2 (HF t state)) in Hw'; naive_solver.
  - eapply parts_frame; [exact HP|exact HF|]. naive_solver.
  - eapply psp_frame; [exact Hpsp|exact HF|]. naive_solver.
  - exists (R ++ [(entry, arg)]). eapply posts_frame; [exact HR1|exact HF2|]. naive_solver.
Qed.

(** ** Runs *)

(** A service, then the context switch. *)
Lemma service_run {A} (c : M A) m :
  wp c (fun _ m' => switching m') m -> safe (_ ← c; switch_context) (fun _ m' => well_formed m') m.
Proof. intros Hc. eapply safe_bind; [by apply safe_wp|]. intros a m' Hm. by apply switch_run. Qed.

Lemma event_run m e : well_formed m -> allowed m e = true -> safe (handle e) (fun _ m' => well_formed m') m.
Proof.
  intros Hwf Ha. destruct e; cbn [allowed handle] in *; cbv zeta in Ha;
    repeat rewrite ?andb_true_iff, ?bool_decide_eq_true in Ha;
    repeat rewrite ?Z.leb_le, ?Z.ltb_lt in Ha.
  - by apply service_run, sem_send_run.
  - apply service_run, sem_wait_run; tauto.
  - by apply service_run, evt_set_run.
  - apply service_run, evt_wait_run; tauto.
  - by apply service_run, evt_clr_run.
  - by apply service_run, pass_run.
  - apply service_run, delay_run; tauto.
  - by apply service_run, tick_run.
  - by apply service_run, pop_run.
  - apply isr_run; [done|]. by apply elem_of_union_r.
  - unfold isr_evt_set. pose proof Hwf as (r & (pr & Q & D & l & HSch & _ & _ & _ & HD) & _).
    destruct (pt_table _ (proj1 HD) id Ha) as (t & Ht & HtT).
    assert (E : load os_active_TCB (elem (id - 1)) m = Ret t m) by (unfold load; by rewrite Ht).
    unfold safe, mbind at 1, M_bind at 1. rewrite E.
    rewrite (proj2 (Z.eqb_neq _ _)) by (eapply tcb_nonnull; [apply HSch|done]).
    apply isr_run; [done|]. by apply elem_of_union_l.
  - destruct Hwf as (r & (pr & Q & D & l & HSch & Hi & HW & HQ & HP & (sp0 & Hsp & _) & R & HR) & Hrun).
    assert (HF : frame (fun p f => p = PSP /\ f = value) m (<[(PSP, value) := sp]> m)) by (apply frame_store; eauto).
    assert (HK : kernel (<[(PSP, value) := sp]> m) T pr Q D l r).
    { eapply kernel_frame; [by split|exact HF|]. unfold links, dlinks. naive_solver. }
    eapply safe_ret; [unfold store; by rewrite Hsp|]. exists r. split; [|apply HK].
    exists pr, Q, D, l. split_and!; [apply HK|done| |done|split_and!].
    + intros t Ht Hw'. apply HW; [done|]. unfold waiting in *. rewrite (proj2 (HF t state)) in Hw'; naive_solver.
    + eapply parts_frame; [exact HP|exact HF|]. naive_solver.
    + exists sp. split_and!; [by look|eapply frame_some; [exact HF|tauto]..].
    + exists R. eapply posts_frame; [exact HR|exact HF|]. naive_solver.
Qed.


End Run.

(** ** Example *)

(** The system of [start] with an empty request queue and no timers. *)
Definition run_start : mem := <[(os_timer_head, value) := NULL]> mbx_start.

Lemma all_tasks_ind (P : Z -> Prop) :
  P idle -> P taskA -> P taskB -> P taskC -> forall t, t ∈ (list_to_set all_tasks : gset Z) -> P t.
Proof.
  intros ? ? ? ? t. rewrite elem_of_list_to_set. unfold all_tasks. rewrite !elem_of_cons, elem_of_nil.
  intros [->|[->|[->|[->|[]]]]]; done.
Qed.

Lemma run_start_parts : parts (list_to_set all_tasks) {[sem1]} 3 run_start.
Proof.
  constructor.
  - intros s ->%elem_of_singleton. split_and!; [vm_compute; reflexivity|done|eexists; vm_compute; reflexivity].
  - intros i Hi. assert (i = 1 \/ i = 2 \/ i = 3) as [->|[->| ->]] by lia;
      eexists; (split; [vm_compute; reflexivity|set_solver]).
  - eexists. vm_compute. reflexivity.
  - intros f Hf. rewrite !elem_of_cons, elem_of_nil in Hf. destruct Hf as [->|[->|[->|[]]]]; eexists; vm_compute; reflexivity.
  - vm_compute. reflexivity.
  - split_and!; eexists; vm_compute; reflexivity.
  - apply all_tasks_ind; eexists; (split; [vm_compute; reflexivity|eexists; vm_compute; reflexivity]).
Qed.

Lemma run_start_well_formed :
  well_formed (list_to_set all_tasks) {[sem1]} 3 2 idle run_start.
Proof.
  exists taskC. split; [|vm_compute; reflexivity].
  exists (prio_of run_start), (list_to_map (mbx_queues [taskA; taskB; idle] [])), [], [taskA; taskB; idle].
  split_and!.
  - apply (sched_by_check _ all_tasks). vm_compute. reflexivity.
  - eapply bool_decide_eq_true_1. vm_compute. reflexivity.
  - intros t Ht Hw. exfalso. revert t Ht Hw.
    apply (all_tasks_ind (fun t => waiting run_start t -> False)); intros Hw; vm_compute in Hw; by destruct Hw.
  - intros s ->%elem_of_singleton. eexists. vm_compute. reflexivity.
  - split_and!; [exact run_start_parts|eexists; split; [vm_compute; reflexivity|]; split; eexists; vm_compute; reflexivity|].
    exists [], 0. split_and!; [|vm_compute; reflexivity| |constructor].
    + constructor; [vm_compute; reflexivity|vm_compute; naive_solver|vm_compute; reflexivity|done].
    + constructor; [vm_compute; reflexivity..|vm_compute; naive_solver|].
      intros i Hi. assert (i = 0 \/ i = 1) as [->| ->] by lia; split; eexists; vm_compute; reflexivity.
Qed.

(** C waits for the semaphore, A for a flag that an interrupt handler sets;
    B sends the token after two ticks. *)
Definition example_run : list event :=
  [Sem_wait sem1 10; Evt_wait 4 0xffff 1; Tick; Isr_evt_set 4 1; Pend_SV; Pass; Tick; Sem_send sem1; Delay 5].


(** The run does end, in a state in which A runs. *)
Example example_run_ends :
  bool_decide (mem_of (run_events (H := icsr_plain) {[sem1]} 3 idle example_run run_start) !! (os_tsk, run) = Some taskA) = true.
Proof. vm_compute. reflexivity. Qed.
