(* ===== verification/RtxCmsis.v ===== *)
(** * The CMSIS-RTOS interface of the kernel ([rt_CMSIS.c])

    The services [svc...] check their arguments, call the kernel and translate
    its results; the functions [os...] are what an application calls.  They
    refuse calls from interrupt handlers, or use the [isr...] variants, and
    otherwise enter the service through the SVC exception ([svc]) or, in
    privileged mode, directly.

    The timer services are in [RtxTimer]. *)

From S2P Require Export RtxSystem RtxMutex.

(** ** Constants and helpers *)

Definition osPriorityIdle : Z := -3.
Definition osPriorityNormal : Z := 0.
Definition osPriorityRealtime : Z := 3.
Definition osPriorityError : Z := 0x84.
Definition osFeature_Signals : Z := 16.
Definition osFeature_Semaphore : Z := 65535.

(** Addresses of objects of the configuration and of code. *)
Class Code := {
  os_thread_def_osTimerThread : Z;
  os_messageQ_def_osTimerMessageQ : Z;
  osThreadExit_addr : Z;
  os_flags : Z
}.

(** [&thread_def->tcb]: behind the four words of the definition. *)
Definition tcb_of (thread_def : Z) : Z := thread_def + 16.

(** [struct osEvent]: the status, and the value if one was stored. *)
Record osEvent := mk_osEvent { ev_status : Z; ev_value : option Z }.

(** [signals & (0xFFFFFFFF << osFeature_Signals)] *)
Definition bad_signals (signals : Z) : bool :=
  negb (Z.land signals (u32 (Z.shiftl 0xFFFFFFFF osFeature_Signals)) =? 0).

(** ** Threads *)

Section Threads.
Context `{Code}.

Definition svcThreadCreate (thread_def argument : Z) : M Z :=
  bad ← (if thread_def =? NULL then mret true
         else
           f ← load thread_def pthread;
           p ← load thread_def tpriority;
           s ← load thread_def stacksize;
           k ← load thread_def stack_pointer;
           mret ((f =? NULL) || (p <? osPriorityIdle) || (osPriorityRealtime <? p) || (s =? 0) || (k =? NULL)));
  if bad : bool then create_error osErrorParameter
  else
    p ← load thread_def tpriority;
    let priority := u8 (p - osPriorityIdle + 1) in
    let task_context := tcb_of thread_def in
    k ← load thread_def stack_pointer;
    store task_context stack k;;
    s ← load thread_def stacksize;
    store task_context priv_stack s;;
    tsk ← rt_get_TID;
    store os_active_TCB (elem (tsk - 1)) task_context;;
    store task_context task_id (u8 tsk);;
    store task_context msg argument;;
    f ← load thread_def pthread;
    rt_init_context task_context priority f;;
    rt_dispatch task_context;;
    ptcb ← load os_active_TCB (elem (tsk - 1));
    sp ← load ptcb tsk_stack;
    store (sp + 4 * 13) word osThreadExit_addr;;
    mret ptcb.

Definition svcThreadGetId : M Z :=
  tsk ← rt_tsk_self;
  if tsk =? 0 then mret NULL else load os_active_TCB (elem (tsk - 1)).

Definition svcThreadTerminate (thread_id : Z) : M Z :=
  ptcb ← rt_tid2ptcb thread_id;
  if ptcb =? NULL then mret osErrorParameter
  else
    id ← load ptcb task_id;
    res ← rt_tsk_delete id;
    if res =? OS_R_NOK then mret osErrorResource else mret osOK.

Definition svcThreadYield : M Z :=
  rt_tsk_pass;;
  mret osOK.

Definition svcThreadSetPriority (thread_id priority : Z) : M Z :=
  ptcb ← rt_tid2ptcb thread_id;
  if ptcb =? NULL then mret osErrorParameter
  else if (priority <? osPriorityIdle) || (osPriorityRealtime <? priority) then mret osErrorValue
  else
    id ← load ptcb task_id;
    res ← rt_tsk_prio id (u8 (priority - osPriorityIdle + 1));
    if res =? OS_R_NOK then mret osErrorResource else mret osOK.

Definition svcThreadGetPriority (thread_id : Z) : M Z :=
  ptcb ← rt_tid2ptcb thread_id;
  if ptcb =? NULL then mret osPriorityError
  else
    p ← load ptcb prio;
    mret (p - 1 + osPriorityIdle).

End Threads.

(** ** Waiting and signals *)

Definition svcDelay (millisec : Z) : M Z :=
  if millisec =? 0 then mret osOK
  else
    t ← rt_ms2tick millisec;
    rt_dly_wait (u16 t);;
    mret osEventTimeout.

Definition svcSignalSet (thread_id signals : Z) : M Z :=
  ptcb ← rt_tid2ptcb thread_id;
  if ptcb =? NULL then mret 0x80000000
  else if bad_signals signals then mret 0x80000000
  else
    sig ← load ptcb events;
    id ← load ptcb task_id;
    rt_evt_set (u16 signals) id;;
    mret sig.

Definition svcSignalClear (thread_id signals : Z) : M Z :=
  ptcb ← rt_tid2ptcb thread_id;
  if ptcb =? NULL then mret 0x80000000
  else if bad_signals signals then mret 0x80000000
  else
    sig ← load ptcb events;
    id ← load ptcb task_id;
    rt_evt_clr (u16 signals) id;;
    mret sig.

Definition svcSignalGet (thread_id : Z) : M Z :=
  ptcb ← rt_tid2ptcb thread_id;
  if ptcb =? NULL then mret 0x80000000 else load ptcb events.

Definition svcSignalWait (signals millisec : Z) : M osEvent :=
  if bad_signals signals then mret (mk_osEvent osErrorValue (Some 0))
  else
    t ← rt_ms2tick millisec;
    res ← (if negb (signals =? 0) then rt_evt_wait (u16 signals) (u16 t) __TRUE
           else rt_evt_wait 0xFFFF (u16 t) __FALSE);
    if res =? OS_R_EVT then
      v ← (if negb (signals =? 0) then mret signals else r ← load os_tsk run; load r waits);
      mret (mk_osEvent osEventSignal (Some v))
    else mret (mk_osEvent (if negb (millisec =? 0) then osEventTimeout else osOK) (Some 0)).

Definition isrSignalSet `{ICSR} (thread_id signals : Z) : M Z :=
  ptcb ← rt_tid2ptcb thread_id;
  if ptcb =? NULL then mret 0x80000000
  else if bad_signals signals then mret 0x80000000
  else
    sig ← load ptcb events;
    id ← load ptcb task_id;
    isr_evt_set (u16 signals) id;;
    mret sig.

(** The callback that [osTimerThread] makes for a message it received. *)
Definition timer_callback (evt : osEvent) : M (option (Z * Z)) :=
  match evt with
  | mk_osEvent st (Some p) =>
      if st =? osEventMessage then
        '(fp, arg) ← svcTimerCall p;
        mret (if negb (fp =? NULL) then Some (fp, arg) else None)
      else mret None
  | _ => mret None
  end.

(** ** Mutexes *)

Definition svcMutexCreate (mutex_def : Z) : M Z :=
  if mutex_def =? NULL then create_error osErrorParameter
  else
    mut ← load mutex_def mutex_;
    if mut =? NULL then create_error osErrorParameter
    else
      ty ← load mut cb_type;
      if negb (ty =? 0) then create_error osErrorParameter
      else
        rt_mut_init mut;;
        mret mut.

Definition svcMutexWait (mutex_id millisec : Z) : M Z :=
  let mut := rt_id2obj mutex_id in
  if mut =? NULL then mret osErrorParameter
  else
    ty ← load mut cb_type;
    if negb (ty =? MUCB) then mret osErrorParameter
    else
      t ← rt_ms2tick millisec;
      res ← rt_mut_wait mut (u16 t);
      if res =? OS_R_TMO then
        mret (if negb (millisec =? 0) then osErrorTimeoutResource else osErrorResource)
      else mret osOK.

Definition svcMutexRelease (mutex_id : Z) : M Z :=
  let mut := rt_id2obj mutex_id in
  if mut =? NULL then mret osErrorParameter
  else
    ty ← load mut cb_type;
    if negb (ty =? MUCB) then mret osErrorParameter
    else
      res ← rt_mut_release mut;
      if res =? OS_R_NOK then mret osErrorResource else mret osOK.

Definition svcMutexDelete (mutex_id : Z) : M Z :=
  let mut := rt_id2obj mutex_id in
  if mut =? NULL then mret osErrorParameter
  else
    ty ← load mut cb_type;
    if negb (ty =? MUCB) then mret osErrorParameter
    else
      rt_mut_delete mut;;
      mret osOK.

(** ** Semaphores *)

Definition svcSemaphoreCreate (semaphore_def count : Z) : M Z :=
  if semaphore_def =? NULL then create_error osErrorParameter
  else
    sem ← load semaphore_def semaphore_;
    if sem =? NULL then create_error osErrorParameter
    else
      ty ← load sem cb_type;
      if negb (ty =? 0) then create_error osErrorParameter
      else if osFeature_Semaphore <? count then create_error osErrorValue
      else
        rt_sem_init sem (u16 count);;
        mret sem.

Definition svcSemaphoreWait (semaphore_id millisec : Z) : M Z :=
  let sem := rt_id2obj semaphore_id in
  if sem =? NULL then mret (-1)
  else
    ty ← load sem cb_type;
    if negb (ty =? SCB) then mret (-1)
    else
      t ← rt_ms2tick millisec;
      res ← rt_sem_wait sem (u16 t);
      if res =? OS_R_TMO then mret 0
      else
        n ← load sem tokens;
        mret (n + 1).

Definition svcSemaphoreRelease (semaphore_id : Z) : M Z :=
  let sem := rt_id2obj semaphore_id in
  if sem =? NULL then mret osErrorParameter
  else
    ty ← load sem cb_type;
    if negb (ty =? SCB) then mret osErrorParameter
    else
      n ← load sem tokens;
      if n =? osFeature_Semaphore then mret osErrorResource
      else
        rt_sem_send sem;;
        mret osOK.

Definition svcSemaphoreDelete (semaphore_id : Z) : M Z :=
  let sem := rt_id2obj semaphore_id in
  if sem =? NULL then mret osErrorParameter
  else
    ty ← load sem cb_type;
    if negb (ty =? SCB) then mret osErrorParameter
    else
      rt_sem_delete sem;;
      mret osOK.

Definition isrSemaphoreRelease `{ICSR} (semaphore_id : Z) : M Z :=
  let sem := rt_id2obj semaphore_id in
  if sem =? NULL then mret osErrorParameter
  else
    ty ← load sem cb_type;
    if negb (ty =? SCB) then mret osErrorParameter
    else
      n ← load sem tokens;
      if n =? osFeature_Semaphore then mret osErrorResource
      else
        isr_sem_send sem;;
        mret osOK.

(** ** Memory pools *)

(** [for (n = blk_size; n; n -= 4)] *)
Definition rt_clr_box (box_mem box : Z) : M unit :=
  when (negb (box =? NULL)) (
    n ← load box_mem blk_size;
    calloc_loop (S (Z.to_nat n)) box n).

Definition svcPoolCreate (pool_def : Z) : M Z :=
  bad ← (if pool_def =? NULL then mret true
         else
           n ← load pool_def pool_sz;
           s ← load pool_def item_sz;
           p ← load pool_def pool_;
           mret ((n =? 0) || (s =? 0) || (p =? NULL)));
  if bad : bool then create_error osErrorParameter
  else
    s ← load pool_def item_sz;
    let blk_sz := Z.land (u32 (s + 3)) (u32 (Z.lnot 3)) in
    p ← load pool_def pool_;
    n ← load pool_def pool_sz;
    _init_box p (u32 (sizeof_OS_BM + n * blk_sz)) blk_sz;;
    load pool_def pool_.

Definition sysPoolAlloc (pool_id clr : Z) : M Z :=
  if pool_id =? NULL then mret NULL
  else
    ptr ← rt_alloc_box pool_id;
    when (negb (clr =? 0)) (rt_clr_box pool_id ptr);;
    mret ptr.

Definition sysPoolFree (pool_id block : Z) : M Z :=
  if pool_id =? NULL then mret osErrorParameter
  else
    res ← rt_free_box pool_id block;
    if negb (res =? 0) then mret osErrorValue else mret osOK.

(** ** Message queues *)

(** [thread_id] is not used. *)
Definition svcMessageCreate (queue_def thread_id : Z) : M Z :=
  bad ← (if queue_def =? NULL then mret true
         else
           n ← load queue_def queue_sz;
           p ← load queue_def pool_;
           mret ((n =? 0) || (p =? NULL)));
  if bad : bool then create_error osErrorParameter
  else
    p ← load queue_def pool_;
    ty ← load p cb_type;
    if negb (ty =? 0) then create_error osErrorParameter
    else
      p ← load queue_def pool_;
      n ← load queue_def queue_sz;
      rt_mbx_init p (u16 (4 * (n + 4)));;
      load queue_def pool_.

Definition svcMessagePut (queue_id info millisec : Z) : M Z :=
  if queue_id =? NULL then mret osErrorParameter
  else
    ty ← load queue_id cb_type;
    if negb (ty =? MCB) then mret osErrorParameter
    else
      t ← rt_ms2tick millisec;
      res ← rt_mbx_send queue_id info (u16 t);
      if res =? OS_R_TMO then
        mret (if negb (millisec =? 0) then osErrorTimeoutResource else osErrorResource)
      else mret osOK.

Definition svcMessageGet (queue_id millisec : Z) : M osEvent :=
  if queue_id =? NULL then mret (mk_osEvent osErrorParameter (Some 0))
  else
    ty ← load queue_id cb_type;
    if negb (ty =? MCB) then mret (mk_osEvent osErrorParameter (Some 0))
    else
      t ← rt_ms2tick millisec;
      res ← rt_mbx_wait queue_id ret_value (u16 t);
      if res =? OS_R_TMO then
        mret (mk_osEvent (if negb (millisec =? 0) then osEventTimeout else osOK) None)
      else
        v ← load ret_value value;
        mret (mk_osEvent osEventMessage (Some v)).

Definition isrMessageGet `{ICSR} (queue_id millisec : Z) : M osEvent :=
  if (queue_id =? NULL) || negb (millisec =? 0) then mret (mk_osEvent osErrorParameter None)
  else
    ty ← load queue_id cb_type;
    if negb (ty =? MCB) then mret (mk_osEvent osErrorParameter None)
    else
      res ← isr_mbx_receive queue_id ret_value;
      if negb (res =? OS_R_MBX) then mret (mk_osEvent osOK None)
      else
        v ← load ret_value value;
        mret (mk_osEvent osEventMessage (Some v)).

(** ** Mail queues

    The memory of a mail queue begins with two pointers: the mailbox and the
    pool of the blocks. *)

Definition svcMailCreate (queue_def thread_id : Z) : M Z :=
  bad ← (if queue_def =? NULL then mret true
         else
           n ← load queue_def queue_sz;
           s ← load queue_def item_sz;
           p ← load queue_def pool_;
           mret ((n =? 0) || (s =? 0) || (p =? NULL)));
  if bad : bool then create_error osErrorParameter
  else
    q ← load queue_def pool_;
    pmcb ← load q word;
    pool ← load (q + 4) word;
    bad ← (if (pool =? NULL) || (pmcb =? NULL) then mret true else ty ← load pmcb cb_type; mret (negb (ty =? 0)));
    if bad : bool then create_error osErrorParameter
    else
      s ← load queue_def item_sz;
      let blk_sz := Z.land (u32 (s + 3)) (u32 (Z.lnot 3)) in
      n ← load queue_def queue_sz;
      _init_box pool (u32 (sizeof_OS_BM + n * blk_sz)) blk_sz;;
      rt_mbx_init pmcb (u16 (4 * (n + 4)));;
      load queue_def pool_.

Definition sysMailAlloc (queue_id millisec isr clr : Z) : M Z :=
  if queue_id =? NULL then mret NULL
  else
    pmcb ← load queue_id word;
    pool ← load (queue_id + 4) word;
    if (pool =? NULL) || (pmcb =? NULL) then mret NULL
    else if negb (isr =? 0) && negb (millisec =? 0) then mret NULL
    else
      mem ← rt_alloc_box pool;
      when (negb (clr =? 0)) (rt_clr_box pool mem);;
      when ((mem =? NULL) && negb (millisec =? 0)) (
        join_mailbox pmcb 3;;
        t ← rt_ms2tick millisec;
        rt_block (u16 t) WAIT_MBX);;
      mret mem.

Definition sysMailFree `{ICSR} (queue_id mail isr : Z) : M Z :=
  if queue_id =? NULL then mret osErrorParameter
  else
    pmcb ← load queue_id word;
    pool ← load (queue_id + 4) word;
    if (pmcb =? NULL) || (pool =? NULL) then mret osErrorParameter
    else
      res ← rt_free_box pool mail;
      if negb (res =? 0) then mret osErrorValue
      else
        st ← load pmcb state;
        when (st =? 3) (
          if negb (isr =? 0) then
            rt_psq_enq pmcb pool;;
            rt_psh_req
          else
            mem ← rt_alloc_box pool;
            when (negb (mem =? NULL)) (
              ptcb ← rt_get_first pmcb;
              p ← load pmcb p_lnk;
              when (p =? NULL) (store pmcb state 0);;
              rt_ret_val ptcb mem;;
              rt_rmv_dly ptcb;;
              rt_dispatch ptcb));;
        mret osOK.

(** ** Kernel control *)

Section Kernel.
Context `{Config} `{Code} `{ICSR}.

Definition svcKernelInitialize : M Z :=
  i ← load os_initialized value;
  if negb (i =? 0) then mret osOK
  else
    rt_sys_init;;
    r ← load os_tsk run;
    store r prio 255;;
    sysThreadError osOK;;
    store os_initialized value 1;;
    mret osOK.

Definition svcKernelStart : M Z :=
  i ← load os_running value;
  if negb (i =? 0) then mret osOK
  else
    q ← svcMessageCreate os_messageQ_def_osTimerMessageQ NULL;
    store osMessageQId_osTimerMessageQ value q;;
    t ← svcThreadCreate os_thread_def_osTimerThread NULL;
    store osThreadId_osTimerThread value t;;
    rt_tsk_prio 0 0;;
    r ← load os_tsk run;
    sp ← load r tsk_stack;
    store PSP value (u32 (sp + 8 * 4));;
    store os_tsk run NULL;;
    rt_sys_start;;
    store os_running value 1;;
    mret osOK.

Definition svcKernelRunning : M Z := load os_running value.

(** ** The functions applications call

    [SVC_Handler] calls the service, stores its result into the saved
    registers of the caller and switches tasks.  A caller finds its result
    there when it continues: what the service returned, or what the task that
    woke it up stored ([rt_ret_val]).  An [os...] function returns [Some] result
    that it computed itself, or [None]: the result is in the saved registers. *)

Definition svc (c : M Z) : M (option Z) :=
  x ← c;
  sp ← load PSP value;
  store sp word x;;
  switch_context;;
  mret None.

Definition svc_event (c : M osEvent) : M (option osEvent) :=
  e ← c;
  sp ← load PSP value;
  store sp word (ev_status e);;
  (match ev_value e with Some v => store (u32 (sp + 4)) word v | None => mret tt end);;
  switch_context;;
  mret None.

Definition direct (c : M Z) : M (option Z) := x ← c; mret (Some x).

(** [if (__get_IPSR() != 0) return x; return __svc...] *)
Definition not_in_isr (x : Z) (c : M Z) : M (option Z) :=
  i ← load IPSR value;
  if negb (i =? 0) then mret (Some x) else svc c.

(** [if (__get_IPSR() != 0) return NULL;], then directly if privileged and not
    running, else through SVC. *)
Definition create_call (c : M Z) : M (option Z) :=
  i ← load IPSR value;
  if negb (i =? 0) then mret (Some NULL)
  else
    k ← load CONTROL value;
    direct_ok ← (if Z.land k 1 =? 0 then r ← load os_running value; mret (r =? 0) else mret false);
    if direct_ok : bool then direct c else svc c.

(** In a handler [c1], in a thread [c2] through SVC. *)
Definition isr_or_svc (c1 c2 : M Z) : M (option Z) :=
  i ← load IPSR value;
  if negb (i =? 0) then direct c1 else svc c2.

(** In a handler or privileged directly, else through SVC. *)
Definition privileged_or_svc (c : M Z) : M (option Z) :=
  i ← load IPSR value;
  d ← (if negb (i =? 0) then mret true else k ← load CONTROL value; mret (Z.land k 1 =? 0));
  if d : bool then direct c else svc c.

Definition osKernelInitialize : M (option Z) :=
  i ← load IPSR value;
  if negb (i =? 0) then mret (Some osErrorISR)
  else
    k ← load CONTROL value;
    if Z.land k 1 =? 0 then direct svcKernelInitialize else svc svcKernelInitialize.

(** [stack] is the address of the local array. *)
Definition osKernelStart (stack : Z) : M (option Z) :=
  i ← load IPSR value;
  if negb (i =? 0) then mret (Some osErrorISR)
  else
    k ← load CONTROL value;
    let mode := Z.land k 3 in
    let privileged := negb (Z.land os_flags 1 =? 0) in
    if mode =? 0 then
      store PSP value (stack + 4 * 8);;
      store CONTROL value (if privileged then 2 else 3);;
      svc svcKernelStart
    else if mode =? 1 then mret (Some osErrorOS)
    else if mode =? 2 then
      when (negb privileged) (store CONTROL value 3);;
      svc svcKernelStart
    else if privileged then mret (Some osErrorOS)
    else svc svcKernelStart.

Definition osKernelRunning : M (option Z) := privileged_or_svc svcKernelRunning.

Definition osThreadCreate (thread_def argument : Z) := create_call (svcThreadCreate thread_def argument).
Definition osThreadGetId : M (option Z) := not_in_isr NULL svcThreadGetId.
Definition osThreadTerminate (thread_id : Z) := not_in_isr osErrorISR (svcThreadTerminate thread_id).
Definition osThreadYield : M (option Z) := not_in_isr osErrorISR svcThreadYield.
Definition osThreadSetPriority (thread_id priority : Z) :=
  not_in_isr osErrorISR (svcThreadSetPriority thread_id priority).
Definition osThreadGetPriority (thread_id : Z) := not_in_isr osPriorityError (svcThreadGetPriority thread_id).

Definition osDelay (millisec : Z) := not_in_isr osErrorISR (svcDelay millisec).
(** [osFeature_Wait] is 0. *)
Definition osWait (millisec : Z) : M osEvent := mret (mk_osEvent osErrorOS None).

Definition osTimerCreate (timer_def type argument : Z) := create_call (svcTimerCreate timer_def type argument).
Definition osTimerStart (timer_id millisec : Z) := not_in_isr osErrorISR (svcTimerStart timer_id millisec).
Definition osTimerStop (timer_id : Z) := not_in_isr osErrorISR (svcTimerStop timer_id).
Definition osTimerDelete (timer_id : Z) := not_in_isr osErrorISR (svcTimerDelete timer_id).

Definition osSignalSet (thread_id signals : Z) :=
  isr_or_svc (isrSignalSet thread_id signals) (svcSignalSet thread_id signals).
Definition osSignalClear (thread_id signals : Z) := not_in_isr osErrorISR (svcSignalClear thread_id signals).
Definition osSignalGet (thread_id : Z) := not_in_isr osErrorISR (svcSignalGet thread_id).
Definition osSignalWait (signals millisec : Z) : M (option osEvent) :=
  i ← load IPSR value;
  if negb (i =? 0) then mret (Some (mk_osEvent osErrorISR None)) else svc_event (svcSignalWait signals millisec).

Definition osMutexCreate (mutex_def : Z) := create_call (svcMutexCreate mutex_def).
Definition osMutexWait (mutex_id millisec : Z) := not_in_isr osErrorISR (svcMutexWait mutex_id millisec).
Definition osMutexRelease (mutex_id : Z) := not_in_isr osErrorISR (svcMutexRelease mutex_id).
Definition osMutexDelete (mutex_id : Z) := not_in_isr osErrorISR (svcMutexDelete mutex_id).

Definition osSemaphoreCreate (semaphore_def count : Z) := create_call (svcSemaphoreCreate semaphore_def count).
Definition osSemaphoreWait (semaphore_id millisec : Z) := not_in_isr (-1) (svcSemaphoreWait semaphore_id millisec).
Definition osSemaphoreRelease (semaphore_id : Z) :=
  isr_or_svc (isrSemaphoreRelease semaphore_id) (svcSemaphoreRelease semaphore_id).
Definition osSemaphoreDelete (semaphore_id : Z) := not_in_isr osErrorISR (svcSemaphoreDelete semaphore_id).

Definition osPoolCreate (pool_def : Z) := create_call (svcPoolCreate pool_def).
Definition osPoolAlloc (pool_id : Z) := privileged_or_svc (sysPoolAlloc pool_id 0).
Definition osPoolCAlloc (pool_id : Z) := privileged_or_svc (sysPoolAlloc pool_id 1).
Definition osPoolFree (pool_id block : Z) := privileged_or_svc (sysPoolFree pool_id block).

Definition osMessageCreate (queue_def thread_id : Z) := create_call (svcMessageCreate queue_def thread_id).
Definition osMessagePut (queue_id info millisec : Z) :=
  isr_or_svc (isrMessagePut queue_id info millisec) (svcMessagePut queue_id info millisec).
Definition osMessageGet (queue_id millisec : Z) : M (option osEvent) :=
  i ← load IPSR value;
  if negb (i =? 0) then e ← isrMessageGet queue_id millisec; mret (Some e)
  else svc_event (svcMessageGet queue_id millisec).

Definition osMailCreate (queue_def thread_id : Z) := create_call (svcMailCreate queue_def thread_id).
Definition osMailAlloc (queue_id millisec : Z) :=
  isr_or_svc (sysMailAlloc queue_id millisec 1 0) (sysMailAlloc queue_id millisec 0 0).
Definition osMailCAlloc (queue_id millisec : Z) :=
  isr_or_svc (sysMailAlloc queue_id millisec 1 1) (sysMailAlloc queue_id millisec 0 1).
Definition osMailFree (queue_id mail : Z) :=
  isr_or_svc (sysMailFree queue_id mail 1) (sysMailFree queue_id mail 0).
Definition osMailPut (queue_id mail : Z) : M (option Z) :=
  if queue_id =? NULL then mret (Some osErrorParameter)
  else if mail =? NULL then mret (Some osErrorValue)
  else
    q ← load queue_id word;
    osMessagePut q mail 0.

(** The status of a message becomes the status of a mail; after an SVC the
    caller does this to the status it finds in its registers. *)
Definition mail_event (e : osEvent) : osEvent :=
  if ev_status e =? osEventMessage then mk_osEvent osEventMail (ev_value e) else e.

Definition osMailGet (queue_id millisec : Z) : M (option osEvent) :=
  if queue_id =? NULL then mret (Some (mk_osEvent osErrorParameter None))
  else
    q ← load queue_id word;
    e ← osMessageGet q millisec;
    mret (mail_event <$> e).

End Kernel.
