(* ===== verification/RtxThread.v ===== *)
(** * Starting the kernel and creating threads

    [rt_init_context] prepares a control block and the stack of a new task;
    [rt_sys_init] and [svcThreadCreate] are proved to establish and to extend
    the well-formed kernel states. *)

From S2P Require Export RtxCmsis RtxPop.

(** Membership in a concrete list. *)
Ltac in_list := eapply bool_decide_eq_true_1; vm_compute; reflexivity.

(** ** A new context *)

(** Where the initial stack frame is put: 64 bytes below the aligned end. *)
Definition initial_sp (base size : Z) : Z :=
  let stk := base + 4 * Z.shiftr size 2 in
  (if negb (Z.land stk 4 =? 0) then stk - 4 else stk) - 64.

(** A stack of [size] bytes at [base] that can hold an initial frame. *)
Record stack_mem (m : mem) (base size : Z) : Prop := {
  sm_range : base < initial_sp base size /\ 0 <= initial_sp base size /\ initial_sp base size + 64 < 2 ^ 32;
  sm_frame i : 0 <= i < 16 -> is_Some (m !! (initial_sp base size + 4 * i, word));
  sm_base : is_Some (m !! (base, word))
}.

(** The cells of a control block, with any contents. *)
Definition tcb_cells (m : mem) (t : Z) : Prop :=
  is_Some (m !! (t, cb_type)) /\ is_Some (m !! (t, prio)) /\ forall f, f ∈ tcb_fields -> is_Some (m !! (t, f)).

(** What [rt_init_context] may change. *)
Definition init_frame (t p : Z) (f : field) : Prop :=
  (p = t /\ f <> task_id /\ f <> msg /\ f <> stack /\ f <> priv_stack) \/ f = word.

Lemma words_loop n i m stk v :
  (forall j, i <= j < i + Z.of_nat n -> is_Some (m !! (stk + 4 * j, word))) ->
  wp (for_loop n i (fun j => store (stk + 4 * j) word v)) (fun _ m' =>
    frame (fun p f => f = word /\ stk + 4 * i <= p < stk + 4 * (i + Z.of_nat n)) m m') m.
Proof.
  revert i m. induction n as [|n IH]; intros i m Hc; cbn [for_loop].
  - wp_run. apply frame_refl.
  - assert (Hi : is_Some (m !! (stk + 4 * i, word))) by (apply Hc; lia). wp_run. set (m1 := <[_ := _]> m).
    assert (HF1 : frame (fun p f => p = stk + 4 * i /\ f = word) m m1) by (by apply frame_store).
    wp_use IH.
    + intros j Hj. eapply frame_some; [exact HF1|]. apply Hc. lia.
    + intros _ m2 HF2. eapply frame_mono; [eapply frame_trans; [exact HF1|exact HF2]|]. cbv beta.
      intros p f [[-> ->]|[-> ?]]; (split; [done|lia]).
Qed.

(** The frame a task starts from: its argument in R0, [osThreadExit] or
    nothing in LR, its entry point in PC. *)
Record start_frame (m : mem) (sp arg body : Z) : Prop := {
  sf_arg : m !! (sp + 4 * 8, word) = Some arg;
  sf_pc : m !! (sp + 4 * 14, word) = Some body;
  sf_psr : m !! (sp + 4 * 15, word) = Some INITIAL_xPSR
}.

Definition stack_frame_of (t : Z) (p : Z) (f : field) : Prop := f = word \/ (p = t /\ (f = tsk_stack \/ f = ptask)).

Lemma rt_init_stack_spec m t body base size id arg (stk := initial_sp base size) :
  m !! (t, priv_stack) = Some size -> m !! (t, stack) = Some base -> m !! (t, msg) = Some arg ->
  m !! (t, task_id) = Some id -> is_Some (m !! (t, tsk_stack)) -> is_Some (m !! (t, ptask)) ->
  stack_mem m base size ->
  wp (rt_init_stack t body) (fun _ m' => m' !! (t, tsk_stack) = Some stk /\ start_frame m' stk arg body /\
    frame (stack_frame_of t) m m') m.
Proof.
  intros H1 H2 H3 H4 H5 H6 [Hr Hw Hb]. unfold rt_init_stack. wp_run.
  change ((if negb (Z.land (base + 4 * Z.shiftr size 2) 4 =? 0) then _ else _) - 64) with (initial_sp base size).
  fold stk in Hr, Hw |- *.
  assert (is_Some (m !! (stk + 4 * 15, word))) by (apply Hw; lia).
  assert (is_Some (m !! (stk + 4 * 14, word))) by (apply Hw; lia). wp_run.
  set (m1 := <[_ := _]> _). assert (HF1 : frame (fun p f => f = word) m m1) by (unfold m1; frames).
  wp_use (words_loop 14 0 m1 stk).
  { intros j Hj. eapply frame_some; [exact HF1|]. apply Hw. lia. }
  intros _ m2 HF2.
  assert (HF12 : frame (fun _ f => f = word) m m2) by (eapply frame_mono; [by eapply frame_trans|]; cbv beta; tauto).
  assert (m2 !! (stk + 4 * 14, word) = Some body).
  { eapply frame_eq; [exact HF2|unfold m1; by look|]. cbv beta. lia. }
  assert (m2 !! (stk + 4 * 15, word) = Some INITIAL_xPSR).
  { eapply frame_eq; [exact HF2| |cbv beta; lia]. unfold m1. rewrite lookup_insert_ne; [by look|]. intros [= ?]; lia. }
  assert (m2 !! (t, msg) = Some arg) by (clear HF2; flook). assert (m2 !! (t, task_id) = Some id) by (clear HF2; flook).
  assert (is_Some (m2 !! (t, tsk_stack))) by (by eapply frame_some).
  assert (is_Some (m2 !! (t, ptask))) by (by eapply frame_some).
  assert (is_Some (m2 !! (stk + 4 * 8, word))) by (eapply frame_some; [exact HF12|]; apply Hw; lia).
  assert (is_Some (m2 !! (base, word))) by (by eapply frame_some).
  wp_run. rewrite u32_id by lia. set (m3 := <[(t, ptask) := body]> _).
  assert (HF3 : frame (stack_frame_of t) m m3).
  { eapply frame_mono; [eapply frame_trans; [exact HF12|]|].
    - unfold m3. repeat (apply (frame_insert (stack_frame_of t)); [|unfold stack_frame_of; tauto|by somes]). apply frame_refl.
    - unfold stack_frame_of. tauto. }
  assert (HS : start_frame m3 stk arg body).
  { constructor; unfold m3; [by look|..]; (rewrite !lookup_insert_ne; [done|intros [= ?]; lia|done|done]). }
  destruct (id =? 1); cbn [negb]; wp_run.
  - split_and!; [unfold m3; by look|done|done].
  - split_and!; [unfold m3; by look| |].
    + destruct HS. constructor; (rewrite lookup_insert_ne; [done|intros [= ?]; lia]).
    + apply frame_insert; [exact HF3|unfold stack_frame_of; tauto|done].
Qed.

(** A fresh control block, as [rt_init_context] leaves it. *)
Record fresh_tcb (m : mem) (t p sp : Z) : Prop := {
  ft_type : m !! (t, cb_type) = Some TCB;
  ft_state : m !! (t, state) = Some READY;
  ft_prio : m !! (t, prio) = Some p;
  ft_links f : f ∈ [p_lnk; p_rlnk; p_dlnk; p_blnk] -> m !! (t, f) = Some NULL;
  ft_zero f : f ∈ [delta_time; interval_time; events; waits] -> m !! (t, f) = Some 0;
  ft_sp : m !! (t, tsk_stack) = Some sp
}.

Lemma fresh_frame m m' t p sp K :
  fresh_tcb m t p sp -> frame K m m' ->
  (forall f, K t f -> f ∉ [cb_type; state; prio; p_lnk; p_rlnk; p_dlnk; p_blnk; delta_time; interval_time; events; waits; tsk_stack]) ->
  fresh_tcb m' t p sp.
Proof.
  intros [] HF HK.
  constructor; try (intros f Hf); (eapply frame_eq; [exact HF|auto|]; intros Hk%HK; set_solver).
Qed.

Lemma rt_init_context_spec m t p body base size id arg :
  tcb_cells m t ->
  m !! (t, priv_stack) = Some size -> m !! (t, stack) = Some base -> m !! (t, msg) = Some arg ->
  m !! (t, task_id) = Some id -> stack_mem m base size ->
  wp (rt_init_context t p body) (fun _ m' => fresh_tcb m' t p (initial_sp base size) /\
    start_frame m' (initial_sp base size) arg body /\ frame (init_frame t) m m') m.
Proof.
  intros (Hc1 & Hc2 & Hc) H1 H2 H3 H4 HS. unfold rt_init_context.
  assert (Hcs : forall f, f ∈ [state; p_lnk; p_rlnk; p_dlnk; p_blnk; delta_time; interval_time; events; waits; stack_frame; tsk_stack; ptask] ->
    is_Some (m !! (t, f))) by (intros f Hf; apply Hc; set_solver).
  pose proof (Hcs state ltac:(in_list)). pose proof (Hcs p_lnk ltac:(in_list)).
  pose proof (Hcs p_rlnk ltac:(in_list)). pose proof (Hcs p_dlnk ltac:(in_list)).
  pose proof (Hcs p_blnk ltac:(in_list)). pose proof (Hcs delta_time ltac:(in_list)).
  pose proof (Hcs interval_time ltac:(in_list)). pose proof (Hcs events ltac:(in_list)).
  pose proof (Hcs waits ltac:(in_list)). pose proof (Hcs stack_frame ltac:(in_list)).
  wp_run. set (m1 := <[_ := _]> _).
  assert (HF1 : frame (fun q f => q = t /\ f ∈ [cb_type; state; prio; p_lnk; p_rlnk; p_dlnk; p_blnk; delta_time; interval_time; events; waits; stack_frame]) m m1).
  { unfold m1. repeat (apply frame_insert; [|split; [done|in_list]|by somes]). apply frame_refl. }
  assert (Hft : forall sp, fresh_tcb (<[(t, tsk_stack) := sp]> m1) t p sp).
  { intros sp. constructor; [unfold m1; by look..| | |by look].
    - intros f Hf. rewrite !elem_of_cons, elem_of_nil in Hf. destruct Hf as [->|[->|[->|[->|[]]]]]; unfold m1; by look.
    - intros f Hf. rewrite !elem_of_cons, elem_of_nil in Hf. destruct Hf as [->|[->|[->|[->|[]]]]]; unfold m1; by look. }
  wp_use rt_init_stack_spec.
  - eapply frame_eq; [exact HF1|exact H1|set_solver].
  - eapply frame_eq; [exact HF1|exact H2|set_solver].
  - eapply frame_eq; [exact HF1|exact H3|set_solver].
  - eapply frame_eq; [exact HF1|exact H4|set_solver].
  - eapply frame_some; [exact HF1|]. apply Hcs. in_list.
  - eapply frame_some; [exact HF1|]. apply Hcs. in_list.
  - destruct HS as [Hr Hw Hb]. constructor; [done|intros i Hi|]; (eapply frame_some; [exact HF1|auto]).
  - intros _ m2 (Hsp & Hsf & HF2). unfold stack_frame_of in HF2. split_and!; [|done|].
    + assert (HF2' : frame (fun q f => f = word \/ (q = t /\ f = ptask)) (<[(t, tsk_stack) := initial_sp base size]> m1) m2).
      { intros q f. destruct (HF2 q f) as [Hs He]. destruct (decide ((q, f) = (t, tsk_stack))) as [[= -> ->]|Hne].
        - rewrite lookup_insert_eq, Hsp. split; [done|]. done.
        - rewrite lookup_insert_ne by congruence. split; [done|]. intros Hk. apply He. naive_solver. }
      eapply fresh_frame; [apply Hft|exact HF2'|]. set_solver.
    + eapply frame_mono; [eapply frame_trans; [exact HF1|exact HF2]|]. unfold init_frame. cbv beta.
      intros q f [[-> Hf]|[->|[-> [->| ->]]]]; [left|by right|left|left]; split_and!; set_solver.
Qed.

(** A new block joins the tasks: it is in no list yet. *)
Lemma lists_add m m' T pr Q D l t p sp K (pr' := set_prio t p pr) :
  lists m T pr Q D l -> t ∉ T -> Q !! t = None -> kernel_end < t -> frame K m m' ->
  (forall q f, K q f -> q = t \/ (~ links f /\ ~ dlinks f /\ f <> cb_type /\ f <> prio /\ f <> tsk_stack)) ->
  fresh_tcb m' t p sp -> (forall f, f ∈ tcb_fields -> is_Some (m' !! (t, f))) ->
  is_Some (m' !! (u32 (sp + 32), word)) -> is_Some (m' !! (u32 (sp + 36), word)) ->
  lists m' (T ∪ {[t]}) pr' Q D l /\ loose (T ∪ {[t]}) Q D t.
Proof.
  intros HL HtT HtQ Hk HF HK HFr Hcells Hw1 Hw2. pose proof HL as [HQ HT HD Hl Hs Ha Hp].
  assert (E : forall q f, q <> t -> f = cb_type \/ links f \/ dlinks f \/ f = prio \/ f = tsk_stack -> m' !! (q, f) = m !! (q, f)).
  { intros q f Hq Hf. apply (proj2 (HF q f)). intros [?|?]%HK; [done|]. naive_solver. }
  assert (Hnq : forall h k x, Q !! h = Some k -> x = h \/ x ∈ k -> x <> t).
  { intros h k x Hh [->|Hx] ->; [congruence|]. apply HtT. by eapply (q_tasks _ _ _ HQ). }
  assert (Hnd : forall x, x ∈ D.*1 -> x <> t) by (intros x Hx ->; apply HtT; by eapply d_tasks).
  assert (Hdly : os_dly <> t) by (unfold os_dly, kernel_end in *; lia).
  assert (Hpr : forall x, x ∈ T -> pr' x = pr x) by (intros x Hx; apply fn_lookup_insert_ne; set_solver).
  split; [constructor|].
  - constructor.
    + intros h k Hh. destruct (q_head _ _ _ HQ _ _ Hh). split; [done|]. rewrite elem_of_union, elem_of_singleton.
      intros [?| ->]; [done|congruence].
    + intros h k Hh. eapply queue_ext; [by eapply q_queue|]. intros q f Hf Hq. apply E; [by eapply Hnq|tauto].
    + apply HQ.
    + intros h k x Hh Hx. apply elem_of_union_l. by eapply (q_tasks _ _ _ HQ).
    + apply HQ.
    + intros x. rewrite elem_of_union, elem_of_singleton. intros [Hx| ->] Hfree.
      * destruct (decide (x = t)) as [->|Hne]; [done|]. rewrite E by (unfold links; tauto). by apply (q_free _ _ _ HQ).
      * apply (ft_links _ _ _ _ HFr). in_list.
  - intros x. rewrite elem_of_union, elem_of_singleton. intros [Hx| ->].
    + destruct (HT x Hx) as (H1 & H2 & H3 & H4 & spx & H5 & H6 & H7). assert (x <> t) by congruence.
      split_and!; [done|rewrite E by tauto; done|rewrite E by tauto; by rewrite Hpr|intros f Hf; by eapply frame_some; [exact HF|auto]|].
      exists spx. split_and!; [rewrite E by tauto; done|by eapply frame_some..].
    + destruct HFr as [F1 F2 F3 F4 F5 F6]. split_and!; [done|done| |done|exists sp; done].
      unfold pr', set_prio. by rewrite F3, fn_lookup_insert.
  - destruct HD as [D1 D2 D3 D4 D5 D6]. constructor.
    + eapply seg_ext; [done|]. intros q Hq. apply E; [destruct Hq as [->|Hq]; auto|unfold dlinks; tauto].
    + eapply backs_ext; [done|]. intros q Hq. apply E; [auto|unfold dlinks; tauto].
    + eapply deltas_ext; [exact D3|]. intros q Hq. apply E; [destruct Hq as [->|Hq]; auto|unfold dlinks; tauto].
    + done.
    + intros x Hx. apply elem_of_union_l. auto.
    + intros x. rewrite elem_of_union, elem_of_singleton. intros [Hx| ->] Hfree.
      * destruct (decide (x = t)) as [->|Hne]; [done|]. rewrite E by (unfold dlinks; tauto). auto.
      * apply (ft_links _ _ _ _ HFr). in_list.
  - done.
  - intros h k Hh. eapply by_prio_ext; [by eapply Hs|]. intros x Hx. symmetry. apply Hpr. by eapply (q_tasks _ _ _ HQ).
  - done.
  - done.
  - split_and!; [set_solver| |].
    + intros h k Hh Hx. apply (Hnq _ _ _ Hh (or_intror Hx)). done.
    + intros Hx. by apply (Hnd _ Hx).
Qed.

(** ** Creating a thread *)

(** The first free entry of the task table. *)
Record free_entry (m : mem) (n tid : Z) : Prop := {
  fe_count : m !! (os_maxtaskrun, value) = Some n /\ 0 <= n < 255;
  fe_range : 1 <= tid <= n;
  fe_used i : 0 <= i < tid - 1 -> exists x, m !! (os_active_TCB, elem i) = Some x /\ x <> NULL;
  fe_free : m !! (os_active_TCB, elem (tid - 1)) = Some NULL
}.

Lemma get_TID_loop_free m k i tid :
  (forall j, i - 1 <= j < tid - 1 -> exists x, m !! (os_active_TCB, elem j) = Some x /\ x <> NULL) ->
  m !! (os_active_TCB, elem (tid - 1)) = Some NULL -> i <= tid < i + Z.of_nat k ->
  wp (get_TID_loop k i) (fun x m' => x = tid /\ m' = m) m.
Proof.
  intros Hu Hf. revert i Hu. induction k as [|k IH]; intros i Hu Hi; [lia|]. cbn [get_TID_loop].
  destruct (decide (i = tid)) as [->|Hne].
  - wp_run. cbn [Z.eqb NULL]. by wp_run.
  - destruct (Hu (i - 1)) as (x & Hx & Hx0); [lia|]. wp_run. rewrite (proj2 (Z.eqb_neq _ _)) by done.
    apply IH; [|lia]. intros j Hj. apply Hu. lia.
Qed.

(** When the table is full, the result is 0. *)
Lemma get_TID_loop_full m k i :
  (forall j, i - 1 <= j < i - 1 + Z.of_nat k -> exists x, m !! (os_active_TCB, elem j) = Some x /\ x <> NULL) ->
  get_TID_loop k i m = Ret 0 m.
Proof.
  revert i. induction k as [|k IH]; intros i Hu; [done|]. cbn [get_TID_loop].
  destruct (Hu (i - 1)) as (x & Hx & Hx0); [lia|].
  unfold mbind, M_bind, load. rewrite Hx. rewrite (proj2 (Z.eqb_neq _ _)) by done.
  apply IH. intros j Hj. apply Hu. lia.
Qed.

(** The definition of a thread that can be created. *)
Record thread_def_ok (m : mem) (td f p size base : Z) : Prop := {
  td_null : td <> NULL;
  td_thread : m !! (td, pthread) = Some f /\ f <> NULL;
  td_prio : m !! (td, tpriority) = Some p /\ osPriorityIdle <= p <= osPriorityRealtime;
  td_size : m !! (td, stacksize) = Some size /\ size <> 0;
  td_stack : m !! (td, stack_pointer) = Some base /\ base <> NULL
}.

Lemma sched_frame m m' T pr Q D l c K :
  sched m T pr Q D l c -> frame K m m' ->
  (forall p f, K p f -> ~ links f /\ ~ dlinks f /\ f <> cb_type /\ (f = prio -> p ∉ T) /\ f <> tsk_stack /\
     f <> state /\ f <> new_tsk) -> sched m' T pr Q D l c.
Proof.
  intros [HL HR Hnew Hr Hst Htop] HF HK. constructor; try done.
  - eapply lists_frame; [done..|]. intros p f ?%HK. tauto.
  - eapply readies_frame; [done..|]. intros p f ?%HK. tauto.
  - eapply frame_eq; [done..|]. intros ?%HK. tauto.
  - eapply frame_eq; [done..|]. intros ?%HK. tauto.
Qed.

(** The new thread, in the lists already, and the caller: the scheduler selects
    between them. *)
Lemma thread_selected m m3 T pr Q D l r t p i (pr' := set_prio t p pr) :
  kernel m T pr Q D l r -> t ∉ T -> kernel_end < t ->
  frame (fun q g => q = t \/ g = word \/ (q = os_active_TCB /\ g = elem i)) m m3 ->
  lists m3 (T ∪ {[t]}) pr' Q D l -> loose (T ∪ {[t]}) Q D t ->
  wp (rt_dispatch t) (fun _ m' =>
    sched m' (T ∪ {[t]}) pr' (<[os_rdy := (dispatch pr' t r l).1]> Q) D (dispatch pr' t r l).1 (dispatch pr' t r l).2 /\
    frame (sfr [t; r]) m3 m') m3.
Proof.
  intros HK HtT Hkt HF HL3 Hlo3. pose proof HK as [[HL HR Hnew Hr HstR Htop] Hrun].
  assert (Hrt : r <> t) by (intros ->; by apply HtT, Hr).
  assert (Htt : forall x, x ∈ T -> pr' x = pr x) by (intros x Hx; apply fn_lookup_insert_ne; set_solver).
  pose proof (l_queues _ _ _ _ _ _ HL) as HQ. pose proof (l_rdy _ _ _ _ _ _ HL) as Hl.
  assert (Htos : t <> os_tsk) by (unfold os_tsk, kernel_end in *; lia).
  apply (rt_dispatch_spec m3 (T ∪ {[t]}) pr' Q D l t r); [done|done| |done| | | | |].
  - destruct Hr as (Hr1 & Hr2 & Hr3). split_and!; [set_solver|done|done].
  - intros x Hx. assert (Hxt : x ∈ T) by set_solver. destruct (HR x Hxt) as (st & Hst1 & Hiff). exists st.
    split; [|done]. eapply frame_eq; [exact HF|done|]. intros [->|[|[_ ?]]]; [by apply HtT|done|done].
  - intros x Hx. rewrite !Htt; [by apply Htop|apply Hr|]. by apply (q_tasks _ _ _ HQ _ _ _ Hl).
  - eapply frame_eq; [exact HF|done|]. intros [?|[|[? _]]]; [congruence|done|done].
  - eapply frame_eq; [exact HF|done|]. intros [?|[|[? _]]]; [congruence|done|done].
  - eapply frame_eq; [exact HF|done|]. intros [?|[|[_ ?]]]; [congruence|done|done].
Qed.

(** C27: [svcThreadCreate] with a free entry in the task table: the block gets
    the entry and a stack from which the thread starts with its argument in R0
    and [osThreadExit] as its return address; it joins the tasks of the kernel
    with its priority, and whichever of it and the caller has the higher
    priority is selected. *)
Theorem svcThreadCreate_correct `{Code} m T pr Q D l r td arg f p size base n tid
    (t := tcb_of td) (pr' := set_prio t (p + 4) pr) (sp := initial_sp base size) :
  kernel m T pr Q D l r -> thread_def_ok m td f p size base -> free_entry m n tid ->
  t ∉ T -> Q !! t = None -> kernel_end < t -> tcb_cells m t -> stack_mem m base size ->

  wp (svcThreadCreate td arg) (fun x m' => x = t /\
    sched m' (T ∪ {[t]}) pr' (<[os_rdy := (dispatch pr' t r l).1]> Q) D (dispatch pr' t r l).1 (dispatch pr' t r l).2 /\
    m' !! (t, task_id) = Some tid /\ m' !! (os_active_TCB, elem (tid - 1)) = Some t /\
    m' !! (t, tsk_stack) = Some sp /\ start_frame m' sp arg f /\
    m' !! (sp + 4 * 13, word) = Some osThreadExit_addr) m.
Proof.
  intros HK [Htd [Hf Hf0] [Hp Hpr] [Hsz Hsz0] [Hb Hb0]] [[Hn Hnr] Hid Hused Hfree] HtT HtQ Hkt Hcells Hst.
  pose proof HK as [[HL HR Hnew Hr HstR Htop] Hrun]. unfold osPriorityIdle, osPriorityRealtime in *.
  unfold svcThreadCreate. rewrite (proj2 (Z.eqb_neq td NULL)) by done. wp_run.
  rewrite (proj2 (Z.eqb_neq f NULL)), (proj2 (Z.eqb_neq size 0)), (proj2 (Z.eqb_neq base NULL)) by done.
  unfold osPriorityIdle, osPriorityRealtime. rewrite (proj2 (Z.ltb_ge p (-3))), (proj2 (Z.ltb_ge 3 p)) by lia.
  cbn [orb]. fold t. destruct Hcells as (Hc1 & Hc2 & Hc).
  assert (is_Some (m !! (t, stack))) by (apply Hc; in_list).
  assert (is_Some (m !! (t, priv_stack))) by (apply Hc; in_list). wp_run. set (m1 := <[(t, priv_stack) := size]> _).
  assert (HF1 : frame (fun q g => q = t /\ (g = stack \/ g = priv_stack)) m m1) by (unfold m1; frames).
  unfold rt_get_TID. assert (m1 !! (os_maxtaskrun, value) = Some n) by flook. wp_run.
  wp_use (get_TID_loop_free m1 (Z.to_nat n) 1 tid); [| |lia|].
  { intros j Hj. destruct (Hused j) as (x & Hx & Hx0); [lia|]. exists x. split; [flook|done]. }
  { flook. }
  intros x m1' [-> ->].
  assert (is_Some (m !! (os_active_TCB, elem (tid - 1)))) by eauto.
  assert (is_Some (m !! (t, task_id))) by (apply Hc; in_list).
  assert (is_Some (m !! (t, msg))) by (apply Hc; in_list).
  assert (m1 !! (td, pthread) = Some f) by flook. wp_run. rewrite (u8_id tid) by lia.
  replace (u8 (p - -3 + 1)) with (p + 4) by (rewrite u8_id; lia). set (m2 := <[(t, msg) := arg]> _).
  assert (HF2 : frame (fun q g => (q = t /\ (g = stack \/ g = priv_stack \/ g = task_id \/ g = msg)) \/
    (q = os_active_TCB /\ g = elem (tid - 1))) m m2).
  { eapply frame_mono; [eapply frame_trans; [exact HF1|]|].
    - unfold m2. repeat (apply (frame_insert (fun q g => (q = t /\ (g = task_id \/ g = msg)) \/ (q = os_active_TCB /\ g = elem (tid - 1)))); [|tauto|by somes]).
      apply frame_refl.
    - cbv beta. tauto. }
  assert (Hta : t <> os_active_TCB) by (unfold os_active_TCB, kernel_end in *; lia).
  wp_use rt_init_context_spec.
  { split_and!; [by eapply frame_some..|]. intros g Hg. eapply frame_some; [exact HF2|]. auto. }
  { unfold m2, m1. by look. } { unfold m2, m1. by look. } { unfold m2, m1. by look. } { unfold m2, m1. by look. }
  { destruct Hst as [S1 S2 S3]. constructor; [done|intros i Hi|]; (eapply frame_some; [exact HF2|auto]). }
  fold sp. intros _ m3 (Hft & Hsf & HF3). unfold init_frame in HF3.
  assert (HF : frame (fun q g => q = t \/ g = word \/ (q = os_active_TCB /\ g = elem (tid - 1))) m m3).
  { eapply frame_mono; [eapply frame_trans; [exact HF2|exact HF3]|]. cbv beta. tauto. }
  destruct (lists_add m m3 T pr Q D l t (p + 4) sp _ HL HtT HtQ Hkt HF) as [HL3 Hlo3].
  { unfold links, dlinks. naive_solver. } { exact Hft. }
  { intros g Hg. eapply frame_some; [exact HF|]. auto. }
  { rewrite u32_id by (destruct Hst; lia). exists arg. replace (sp + 32) with (sp + 4 * 8) by lia. apply Hsf. }
  { rewrite u32_id by (destruct Hst; lia). eapply frame_some; [exact HF|].
    replace (sp + 36) with (sp + 4 * 9) by lia. apply Hst. lia. }
  assert (Htos : t <> os_tsk) by (unfold os_tsk, kernel_end in *; lia).
  wp_step. wp_use (thread_selected m m3 T pr Q D l r t (p + 4) (tid - 1)); [done..|].
  intros _ m4 [HS4 HF4]. unfold sfr, links, dlinks in HF4.
  assert (Hnf : forall q g v, m3 !! (q, g) = Some v -> g <> p_lnk -> g <> p_rlnk -> g <> p_dlnk -> g <> p_blnk ->
    g <> delta_time -> g <> new_tsk -> g <> state -> m4 !! (q, g) = Some v).
  { intros q g v Hv. intros. eapply frame_eq; [exact HF4|exact Hv|]. tauto. }
  assert (H4a : m4 !! (os_active_TCB, elem (tid - 1)) = Some t).
  { apply Hnf; [|done..]. eapply frame_eq; [exact HF3| |]; [unfold m2; by look|].
    intros [[? _]|?]; [congruence|done]. }
  assert (H4b : m4 !! (t, tsk_stack) = Some sp) by (apply Hnf; [apply Hft|done..]).
  assert (H4c : m4 !! (t, task_id) = Some tid).
  { apply Hnf; [|done..]. eapply frame_eq; [exact HF3| |]; [unfold m2; by look|]. intros [(_ & ? & _)|?]; done. }
  assert (H4d : is_Some (m4 !! (sp + 4 * 13, word))).
  { eapply frame_some; [exact HF4|]. eapply frame_some; [exact HF|]. apply Hst. lia. }
  wp_run. set (m5 := <[_ := _]> m4).
  assert (HF5 : frame (fun q g => q = sp + 4 * 13 /\ g = word) m4 m5) by (by apply frame_store).
  split_and!; [done| |unfold m5; by look..| |unfold m5; by look].
  - eapply sched_frame; [exact HS4|exact HF5|]. unfold links, dlinks. naive_solver.
  - destruct Hsf as [F1 F2 F3]. constructor; unfold m5; (rewrite lookup_insert_ne by (intros [= ?]; lia)); by apply Hnf.
Qed.

(** with a full task table [svcThreadCreate] does not fail: [rt_get_TID]
    returns 0, which is not checked, and the block's address is written in
    front of the table, outside of it. *)
Theorem svcThreadCreate_full `{Code} m td arg f p size base n (t := tcb_of td) :
  thread_def_ok m td f p size base -> m !! (os_maxtaskrun, value) = Some n ->
  (forall i, 0 <= i < n -> exists x, m !! (os_active_TCB, elem i) = Some x /\ x <> NULL) ->
  is_Some (m !! (t, stack)) -> is_Some (m !! (t, priv_stack)) ->
  m !! (os_active_TCB, elem (-1)) = None -> 0 <= n ->
  svcThreadCreate td arg m = Stuck.
Proof.
  intros [Htd [Hf Hf0] [Hp Hpr] [Hsz Hsz0] [Hb Hb0]] Hn Hu Hs1 Hs2 Hno Hn0. unfold osPriorityIdle, osPriorityRealtime in *.
  unfold svcThreadCreate, rt_get_TID, osPriorityIdle, osPriorityRealtime. rewrite (proj2 (Z.eqb_neq td NULL)) by done.
  unfold mbind, M_bind, load at 1 2 3 4. rewrite Hf, Hp, Hsz, Hb. unfold mret, M_ret.
  rewrite (proj2 (Z.eqb_neq f NULL)), (proj2 (Z.eqb_neq size 0)), (proj2 (Z.eqb_neq base NULL)) by done.
  rewrite (proj2 (Z.ltb_ge p (-3))), (proj2 (Z.ltb_ge 3 p)) by lia. cbn [orb]. fold t.
  unfold load at 1 2. rewrite Hp, Hb. unfold store at 1. destruct Hs1 as [v1 ->].
  set (m1 := <[_ := base]> m). unfold load at 1. assert (m1 !! (td, stacksize) = Some size) as -> by (unfold m1; by mlook).
  unfold store at 1. assert (is_Some (m1 !! (t, priv_stack))) as [v2 ->] by (unfold m1; by mlook).
  set (m2 := <[_ := size]> m1). unfold load at 1.
  assert (m2 !! (os_maxtaskrun, value) = Some n) as -> by (unfold m2, m1; by mlook).
  rewrite get_TID_loop_full.
  - unfold store at 1. assert (m2 !! (os_active_TCB, elem (0 - 1)) = None) as -> by (unfold m2, m1; by mlook). done.
  - intros j Hj. destruct (Hu j) as (x & Hx & Hx0); [lia|]. exists x. split; [unfold m2, m1; by mlook|done].
Qed.

(** ** Initialisation *)

(** The variables [rt_sys_init] works on. *)
Record init_cells (m : mem) (n : Z) : Prop := {
  ic_count : m !! (os_maxtaskrun, value) = Some n /\ 0 <= n;
  ic_table i : 0 <= i < n -> is_Some (m !! (os_active_TCB, elem i));
  ic_idle : tcb_cells m os_idle_TCB;
  ic_vars x : x ∈ [(os_rdy, cb_type); (os_rdy, p_lnk); (os_dly, cb_type); (os_dly, p_dlnk); (os_dly, p_blnk);
    (os_dly, delta_time); (os_tsk, run); (os_psq, first_); (os_psq, last_); (os_psq, size_); (os_fifo_size, value);
    (os_robin, task); (os_robin, tout); (os_rrobin, value); (NVIC_SYS_PRI3, value); (NVIC_SYS_PRI2, value);
    (NVIC_AIR_CTRL, value); (os_initialized, value)] -> is_Some (m !! x)
}.

Lemma table_loop n i m v :
  (forall j, i <= j < i + Z.of_nat n -> is_Some (m !! (os_active_TCB, elem j))) ->
  wp (for_loop n i (fun j => store os_active_TCB (elem j) v)) (fun _ m' =>
    (forall j, i <= j < i + Z.of_nat n -> m' !! (os_active_TCB, elem j) = Some v) /\
    frame (fun p f => p = os_active_TCB /\ exists j, f = elem j /\ i <= j < i + Z.of_nat n) m m') m.
Proof.
  revert i m. induction n as [|n IH]; intros i m Hc; cbn [for_loop].
  - wp_run. split; [lia|apply frame_refl].
  - assert (Hi : is_Some (m !! (os_active_TCB, elem i))) by (apply Hc; lia). wp_run. set (m1 := <[_ := _]> m).
    assert (HF1 : frame (fun p f => p = os_active_TCB /\ f = elem i) m m1) by (by apply frame_store).
    wp_use IH.
    + intros j Hj. eapply frame_some; [exact HF1|]. apply Hc. lia.
    + intros _ m2 [H2 HF2]. split.
      * intros j Hj. destruct (decide (j = i)) as [->|]; [|apply H2; lia].
        eapply frame_eq; [exact HF2|unfold m1; by look|]. intros (_ & j & [= <-] & ?). lia.
      * eapply frame_mono; [eapply frame_trans; [exact HF1|exact HF2]|]. cbv beta.
        intros p f [[-> ->]|(-> & j & -> & ?)]; (split; [done|]); [exists i|exists j]; (split; [done|lia]).
Qed.
(** The state before any wait: one empty queue. *)
Lemma singleton_queues m T h :
  h <> NULL /\ h ∉ T -> queue m h [] -> (forall x, x ∈ T -> m !! (x, p_rlnk) = Some NULL) ->
  queues m T {[h := []]}.
Proof.
  intros Hh Hq Hf. constructor.
  - by intros h' l [<- <-]%lookup_singleton_Some.
  - by intros h' l [<- <-]%lookup_singleton_Some.
  - intros h' l [<- <-]%lookup_singleton_Some. constructor.
  - intros h' l t [<- <-]%lookup_singleton_Some. set_solver.
  - intros h1 l1 h2 l2 t [<- <-]%lookup_singleton_Some. set_solver.
  - auto.
Qed.

(** One task, no list. *)
Lemma empty_lists m t p sp :
  kernel_end < t ->
  m !! (os_rdy, cb_type) = Some HCB -> m !! (os_rdy, p_lnk) = Some NULL ->
  m !! (os_dly, p_dlnk) = Some NULL -> m !! (os_dly, p_blnk) = Some NULL -> m !! (os_dly, delta_time) = Some 0 ->
  m !! (t, cb_type) = Some TCB -> m !! (t, prio) = Some p -> m !! (t, p_rlnk) = Some NULL ->
  m !! (t, p_blnk) = Some NULL -> (forall f, f ∈ tcb_fields -> is_Some (m !! (t, f))) ->
  m !! (t, tsk_stack) = Some sp -> is_Some (m !! (u32 (sp + 32), word)) -> is_Some (m !! (u32 (sp + 36), word)) ->
  lists m {[t]} (fun _ => p) {[os_rdy := []]} [] [].
Proof.
  intros Ht R1 R2 D1 D2 D3 T1 T2 T3 T4 T5 T6 T7 T8. constructor.
  - apply singleton_queues.
    + unfold os_rdy, kernel_end in *. split; [done|]. rewrite elem_of_singleton. lia.
    + split; [done|]. rewrite decide_True by done. split; [done|constructor].
    + by intros x ->%elem_of_singleton.
  - intros x ->%elem_of_singleton. split_and!; [done..|exists sp; done].
  - constructor; [done..|constructor|by intros x ?%elem_of_nil|by intros x ->%elem_of_singleton].
  - apply lookup_singleton_eq.
  - intros h k [<- <-]%lookup_singleton_Some. constructor.
  - by intros x ?%elem_of_nil.
  - by intros x ?%elem_of_nil.
Qed.

(** C3: [svcKernelInitialize] on zeroed variables makes the first well-formed
    state: the idle task is the only one, it runs, all lists and the task table
    are empty, and the scheduler will not preempt it until [svcKernelStart]
    lowers its priority. *)
Theorem svcKernelInitialize_correct `{Config} m n id arg :
  init_cells m n -> m !! (os_initialized, value) = Some 0 ->
  m !! (os_idle_TCB, task_id) = Some id -> m !! (os_idle_TCB, msg) = Some arg ->
  stack_mem m idle_task_stack (u16 idle_task_stack_size) ->
  wp svcKernelInitialize (fun x m' => x = osOK /\
    lists m' {[os_idle_TCB]} (fun _ => 255) {[os_rdy := []]} [] [] /\
    m' !! (os_tsk, run) = Some os_idle_TCB /\ m' !! (os_idle_TCB, state) = Some RUNNING /\
    (forall i, 0 <= i < n -> m' !! (os_active_TCB, elem i) = Some NULL) /\
    m' !! (os_psq, first_) = Some 0 /\ m' !! (os_psq, last_) = Some 0 /\
    m' !! (os_robin, task) = Some NULL /\ m' !! (os_initialized, value) = Some 1) m.
Proof.
  set (sp := initial_sp idle_task_stack (u16 idle_task_stack_size)). intros [[Hn Hn0] Htab Hidle Hv] Hini Hid Harg Hst. unfold svcKernelInitialize. wp_run. cbn [Z.eqb negb].
  unfold rt_sys_init. wp_run. wp_use table_loop; [intros; apply Htab; lia|]. intros _ m1 [Ht1 HF1].
  rewrite Z2Nat.id in Ht1, HF1 by lia.
  assert (HF1' : forall p f, p <> os_active_TCB -> m1 !! (p, f) = m !! (p, f)).
  { intros p f Hp. apply (proj2 (HF1 p f)). tauto. }
  destruct Hidle as (Hc1 & Hc2 & Hc).
  assert (is_Some (m1 !! (os_idle_TCB, task_id))) by (rewrite HF1' by done; apply Hc; set_solver).
  assert (is_Some (m1 !! (os_idle_TCB, priv_stack))) by (rewrite HF1' by done; apply Hc; set_solver).
  assert (is_Some (m1 !! (os_idle_TCB, stack))) by (rewrite HF1' by done; apply Hc; set_solver).
  wp_run. set (m2 := <[(os_idle_TCB, stack) := idle_task_stack]> _).
  assert (HF2 : frame (fun p f => p = os_idle_TCB /\ (f = task_id \/ f = priv_stack \/ f = stack)) m1 m2) by (unfold m2; frames).
  wp_use rt_init_context_spec.
  { split_and!; [eapply frame_some; [exact HF2|]; by rewrite HF1'..|]. intros g Hg.
    eapply frame_some; [exact HF2|]. rewrite HF1' by done. auto. }
  { unfold m2. by look. } { unfold m2. by look. }
  { eapply frame_eq; [exact HF2|rewrite HF1' by done; exact Harg|naive_solver]. }
  { unfold m2. by look. }
  { destruct Hst as [S1 S2 S3]. constructor; [done|intros i Hi|]; (eapply frame_some; [exact HF2|eapply frame_some; [exact HF1|auto]]). }
  intros _ m3 (Hft & _ & HF3). unfold init_frame in HF3.
  assert (HF : frame (fun p f => p = os_active_TCB \/ p = os_idle_TCB \/ f = word) m m3).
  { eapply frame_mono; [eapply frame_trans; [exact HF1|eapply frame_trans; [exact HF2|exact HF3]]|].
    cbv beta. naive_solver. }
  assert (Hv3 : forall p f, (p, f) ∈ [(os_rdy, cb_type); (os_rdy, p_lnk); (os_dly, cb_type); (os_dly, p_dlnk); (os_dly, p_blnk);
    (os_dly, delta_time); (os_tsk, run); (os_psq, first_); (os_psq, last_); (os_psq, size_); (os_fifo_size, value);
    (os_robin, task); (os_robin, tout); (os_rrobin, value); (NVIC_SYS_PRI3, value); (NVIC_SYS_PRI2, value);
    (NVIC_AIR_CTRL, value); (os_initialized, value)] -> is_Some (m3 !! (p, f))).
  { intros p f Hx. eapply frame_some; [exact HF|]. by apply Hv. }
  pose proof (Hv3 os_rdy cb_type ltac:(in_list)). pose proof (Hv3 os_rdy p_lnk ltac:(in_list)).
  pose proof (Hv3 os_dly cb_type ltac:(in_list)). pose proof (Hv3 os_dly p_dlnk ltac:(in_list)).
  pose proof (Hv3 os_dly p_blnk ltac:(in_list)). pose proof (Hv3 os_dly delta_time ltac:(in_list)).
  pose proof (Hv3 os_tsk run ltac:(in_list)). pose proof (Hv3 os_psq first_ ltac:(in_list)).
  pose proof (Hv3 os_psq last_ ltac:(in_list)). pose proof (Hv3 os_psq size_ ltac:(in_list)).
  destruct (Hv3 os_fifo_size value ltac:(in_list)) as [vf Hvf]. pose proof (Hv3 os_robin task ltac:(in_list)).
  pose proof (Hv3 os_robin tout ltac:(in_list)). destruct (Hv3 os_rrobin value ltac:(in_list)) as [vr Hvr].
  destruct (Hv3 NVIC_SYS_PRI3 value ltac:(in_list)) as [v3 Hv3']. destruct (Hv3 NVIC_SYS_PRI2 value ltac:(in_list)) as [v2 Hv2'].
  destruct (Hv3 NVIC_AIR_CTRL value ltac:(in_list)) as [va Hva]. pose proof (Hv3 os_initialized value ltac:(in_list)).
  assert (is_Some (m3 !! (NVIC_SYS_PRI3, value))) by eauto. assert (is_Some (m3 !! (NVIC_SYS_PRI2, value))) by eauto.
  destruct Hft as [F1 F2 F3 F4 F5 F6]. assert (is_Some (m3 !! (os_idle_TCB, state))) by eauto.
  assert (is_Some (m3 !! (os_idle_TCB, prio))) by eauto.
  unfold rt_init_robin, rt_svc_init, sysThreadError. wp_run. cbn [Z.eqb osOK negb]. wp_run.
  set (m4 := <[(os_initialized, value) := 1]> _).
  assert (HF4 : frame (fun p f => p <> os_active_TCB /\ (p = os_idle_TCB -> f = state \/ f = prio) /\ f <> word) m3 m4).
  { unfold m4. repeat (apply frame_insert; [|split_and!; [done|intros [=]; tauto|done]|by somes]). apply frame_refl. }
  assert (Hk : forall p f v, m3 !! (p, f) = Some v -> (p = os_active_TCB \/ f = word \/ (p = os_idle_TCB /\ f <> state /\ f <> prio)) -> m4 !! (p, f) = Some v).
  { intros p f v Hx Hor. eapply frame_eq; [exact HF4|exact Hx|]. intros (? & Hy & ?). destruct Hor as [?|[?|(? & ? & ?)]]; [done|done|].
    destruct Hy; done. }
  assert (HFF : frame (fun p f => p = os_active_TCB \/ p = os_idle_TCB \/ f = word \/ p <> os_active_TCB) m m4).
  { eapply frame_mono; [eapply frame_trans; [exact HF|exact HF4]|]. cbv beta. tauto. }
  split_and!; [done| |unfold m4; by look|unfold m4; by look| |unfold m4; by look..].
  - destruct Hst as [S1 S2 S3].
    assert (Hw : forall i, 0 <= i < 16 -> is_Some (m4 !! (u32 (sp + 4 * i), word))).
    { intros i Hi. rewrite u32_id by (unfold sp; lia). eapply frame_some; [exact HFF|]. by apply S2. }
    apply empty_lists with sp; [done|unfold m4; by look..| |unfold m4; by look| | | | |apply (Hw 8); lia|apply (Hw 9); lia].
    + apply Hk; [done|right; right; done].
    + apply Hk; [apply F4; in_list|right; right; done].
    + apply Hk; [apply F4; in_list|right; right; done].
    + intros f Hf. eapply frame_some; [exact HFF|]. auto.
    + apply Hk; [done|right; right; done].
  - intros i Hi. apply Hk; [|by left]. eapply frame_eq; [exact HF3| |].
    + eapply frame_eq; [exact HF2|apply Ht1; lia|]. naive_solver.
    + naive_solver.
Qed.

(** ** Examples *)

Definition thread1 : Z := 2000.
Definition entry1 : Z := 0x4001.

#[local] Instance code1 : Code := {|
  os_thread_def_osTimerThread := 3000; os_messageQ_def_osTimerMessageQ := 3100;
  osThreadExit_addr := 0x5001; os_flags := 1
|}.

#[local] Instance config1 : Config := {|
  os_trv := 95999; idle_task_stack_size := 512; idle_task_stack := 100000; os_idle_demon := 0x6001
|}.

Definition frame_words (base size : Z) : list (Z * field * Z) :=
  ((base, word), 0) :: ((fun i : nat => (initial_sp base size + 4 * Z.of_nat i, word, 0)) <$> seq 0 16).

(** A thread of priority "above normal" with a stack of 400 bytes, whose
    control block is not in use. *)
Definition thread_cells : list (Z * field * Z) :=
  [((thread1, pthread), entry1); ((thread1, tpriority), 1); ((thread1, stacksize), 400);
   ((thread1, stack_pointer), 50000); ((tcb_of thread1, cb_type), 0); ((tcb_of thread1, prio), 0)] ++
  ((fun f => (tcb_of thread1, f, 0)) <$> tcb_fields) ++ frame_words 50000 400.

(** One entry of the task table is free. *)
Definition one_free : mem :=
  list_to_map ([((os_maxtaskrun, value), 4); ((os_active_TCB, elem 3), NULL)] ++ thread_cells) ∪ start.

Lemma one_free_kernel :
  kernel one_free (list_to_set all_tasks) (prio_of one_free) start_queues [] [taskA; taskB; idle] taskC.
Proof. apply kernel_by_check. vm_compute. reflexivity. Qed.

Lemma frame_words_ok m base size :
  bool_decide (base < initial_sp base size /\ 0 <= initial_sp base size /\ initial_sp base size + 64 < 2 ^ 32) = true ->
  bool_decide (Forall (fun x => is_Some (m !! x)) ((base, word) :: ((fun i : nat => (initial_sp base size + 4 * Z.of_nat i, word)) <$> seq 0 16))) = true ->
  stack_mem m base size.
Proof.
  intros H1%bool_decide_eq_true_1 H2%bool_decide_eq_true_1. rewrite Forall_cons, Forall_fmap, Forall_seq in H2.
  constructor; [done| |apply H2]. intros i Hi. replace i with (Z.of_nat (Z.to_nat i)) by lia. apply H2. lia.
Qed.

Lemma cells_by_check m t :
  bool_decide (Forall (fun f => is_Some (m !! (t, f))) (cb_type :: prio :: tcb_fields)) = true -> tcb_cells m t.
Proof.
  intros H%bool_decide_eq_true_1. rewrite !Forall_cons, Forall_forall in H. by destruct H as (? & ? & ?).
Qed.

(** The new thread has a higher priority than C and is selected. *)
Lemma svcThreadCreate_witness :
  wp (svcThreadCreate thread1 9) (fun x m' => x = tcb_of thread1 /\ exists T pr Q,
    sched m' T pr Q [] [taskC; taskA; taskB; idle] (tcb_of thread1) /\ m' !! (tcb_of thread1, task_id) = Some 4) one_free.
Proof.
  wp_use (svcThreadCreate_correct one_free (list_to_set all_tasks) (prio_of one_free) start_queues []
    [taskA; taskB; idle] taskC thread1 9 entry1 1 400 50000 4 4).
  - exact one_free_kernel.
  - constructor; try (split; [vm_compute; reflexivity|]); vm_compute; try done.
  - constructor; [split; [vm_compute; reflexivity|lia]|lia| |vm_compute; reflexivity].
    intros i Hi. assert (i = 0 \/ i = 1 \/ i = 2) as [->|[->| ->]] by lia; (eexists; split; [vm_compute; reflexivity|done]).
  - eapply bool_decide_eq_true_1; vm_compute; reflexivity.
  - vm_compute. reflexivity.
  - vm_compute. reflexivity.
  - apply cells_by_check. vm_compute. reflexivity.
  - apply frame_words_ok; vm_compute; reflexivity.
  - intros x m' (-> & HS & Hid & _). split; [done|]. do 3 eexists. split; [|exact Hid].
    replace (dispatch _ _ _ _) with ([taskC; taskA; taskB; idle], tcb_of thread1) in HS by (vm_compute; reflexivity).
    exact HS.
Defined.

(** All three entries are taken. *)
Lemma svcThreadCreate_full_witness : svcThreadCreate thread1 9 (list_to_map thread_cells ∪ start) = Stuck.
Proof.
  apply (svcThreadCreate_full (list_to_map thread_cells ∪ start) thread1 9 entry1 1 400 50000 3).
  - constructor; try (split; [vm_compute; reflexivity|]); vm_compute; try done.
  - vm_compute. reflexivity.
  - intros i Hi. assert (i = 0 \/ i = 1 \/ i = 2) as [->|[->| ->]] by lia; (eexists; split; [vm_compute; reflexivity|done]).
  - eexists. vm_compute. reflexivity.
  - eexists. vm_compute. reflexivity.
  - vm_compute. reflexivity.
  - lia.
Defined.

(** Memory after reset: every variable is zero, two entries in the task table. *)
Definition reset : mem :=
  list_to_map ([((os_maxtaskrun, value), 2); ((os_active_TCB, elem 0), 0); ((os_active_TCB, elem 1), 0);
    ((os_idle_TCB, cb_type), 0); ((os_idle_TCB, prio), 0)] ++ ((fun f => (os_idle_TCB, f, 0)) <$> tcb_fields) ++
    frame_words idle_task_stack (u16 idle_task_stack_size) ++
    ((fun x => (x, 0)) <$> [(os_rdy, cb_type); (os_rdy, p_lnk); (os_dly, cb_type); (os_dly, p_dlnk); (os_dly, p_blnk);
    (os_dly, delta_time); (os_tsk, run); (os_psq, first_); (os_psq, last_); (os_psq, size_); (os_fifo_size, value);
    (os_robin, task); (os_robin, tout); (os_rrobin, value); (NVIC_SYS_PRI3, value); (NVIC_SYS_PRI2, value);
    (NVIC_AIR_CTRL, value); (os_initialized, value)])).

Lemma svcKernelInitialize_witness :
  wp svcKernelInitialize (fun x m' => x = osOK /\ m' !! (os_tsk, run) = Some os_idle_TCB /\
    lists m' {[os_idle_TCB]} (fun _ => 255) {[os_rdy := []]} [] []) reset.
Proof.
  wp_use (svcKernelInitialize_correct reset 2 0 0).
  - constructor; [split; [vm_compute; reflexivity|lia]| |apply cells_by_check; vm_compute; reflexivity|].
    + intros i Hi. assert (i = 0 \/ i = 1) as [->| ->] by lia; eexists; vm_compute; reflexivity.
    + apply Forall_forall. eapply bool_decide_eq_true_1; vm_compute; reflexivity.
  - vm_compute. reflexivity.
  - vm_compute. reflexivity.
  - vm_compute. reflexivity.
  - apply frame_words_ok; vm_compute; reflexivity.
  - intros x m' (-> & HL & Hr & _). done.
Defined.
