(* ===== verification/LwipBase.v ===== *)
(** * Byte order and 16-bit sums for lwIP

    The byte-swapping functions of [def.c], and arithmetic modulo 65535, in
    which the Internet checksum and all its implementations are the same. *)

From S2P Require Export Prelude.

(** ** Byte swapping ([def.c]) *)

Definition lwip_htons (n : Z) : Z :=
  u16 (Z.lor (Z.shiftl (Z.land n 0xff) 8) (Z.shiftr (Z.land n 0xff00) 8)).

Definition lwip_ntohs (n : Z) : Z := lwip_htons n.

Definition lwip_htonl (n : Z) : Z :=
  u32 (Z.lor (Z.lor (Z.lor (Z.shiftl (Z.land n 0xff) 24) (Z.shiftl (Z.land n 0xff00) 8))
    (Z.shiftr (Z.land n 0xff0000) 8)) (Z.shiftr (Z.land n 0xff000000) 24)).

Definition lwip_ntohl (n : Z) : Z := lwip_htonl n.

(** A value below [2 ^ k] under a multiple of [2 ^ k]. *)
Lemma lor_add a b k : 0 <= k -> 0 <= b < 2 ^ k -> Z.lor (a * 2 ^ k) b = a * 2 ^ k + b.
Proof.
  intros Hk Hb. assert (Hland : Z.land (a * 2 ^ k) b = 0).
  { apply Z.bits_inj'. intros i Hi. rewrite Z.land_spec, Z.bits_0, <- Z.shiftl_mul_pow2, Z.shiftl_spec by lia.
    destruct (Z.lt_ge_cases i k).
    - by rewrite Z.testbit_neg_r by lia.
    - rewrite (testbit_high b k) by lia. by rewrite andb_false_r. }
  rewrite Z.add_nocarry_lxor by done. by rewrite Z.lxor_lor.
Qed.

(** One byte of a word. *)
Lemma land_byte n lo : 0 <= lo -> 0 <= n -> Z.land n (0xff * 2 ^ lo) = ((n / 2 ^ lo) mod 256) * 2 ^ lo.
Proof.
  intros Hlo Hn. apply Z.bits_inj'. intros i Hi.
  change 0xff with (Z.ones 8). change 256 with (2 ^ 8).
  rewrite Z.land_spec, <- !Z.shiftl_mul_pow2, <- Z.shiftr_div_pow2, !Z.shiftl_spec by lia.
  destruct (Z.lt_ge_cases i lo).
  - rewrite !(Z.testbit_neg_r _ (i - lo)) by lia. by rewrite andb_false_r.
  - rewrite <- Z.land_ones, Z.land_spec, Z.shiftr_spec by lia. do 2 f_equal. lia.
Qed.

Lemma lwip_htons_bytes n : 0 <= n -> lwip_htons n = (n mod 256) * 256 + (n / 256) mod 256.
Proof.
  intros Hn. unfold lwip_htons. change 0xff with (Z.ones 8) at 1. rewrite Z.land_ones by lia. change (2 ^ 8) with 256.
  change 0xff00 with (0xff * 2 ^ 8). rewrite (land_byte n 8), Z.shiftl_mul_pow2, Z.shiftr_div_pow2, Z.div_mul by lia.
  change (2 ^ 8) with 256. pose proof (Z.mod_pos_bound n 256). pose proof (Z.mod_pos_bound (n / 256) 256).
  rewrite (lor_add _ _ 8) by lia. apply u16_id. lia.
Qed.

Lemma lwip_htons_range n : 0 <= lwip_htons n < 65536.
Proof. apply u16_range. Qed.

Lemma lwip_htons_invol n : 0 <= n < 65536 -> lwip_htons (lwip_htons n) = n.
Proof.
  intros Hn. rewrite (lwip_htons_bytes (lwip_htons n)) by apply lwip_htons_range. rewrite lwip_htons_bytes by lia.
  pose proof (Z.mod_pos_bound n 256). pose proof (Z.div_lt_upper_bound n 256 256). pose proof (Z.div_pos n 256).
  pose proof (Z.div_mod n 256). set (q := n / 256) in *. set (r := n mod 256) in *. rewrite (Z.mod_small q) by lia.
  rewrite <- (Z.mod_unique_pos (r * 256 + q) 256 r q), <- (Z.div_unique_pos (r * 256 + q) 256 r q) by lia.
  rewrite (Z.mod_small r) by lia. lia.
Qed.

(** ** Sums modulo 65535 *)

(** The value the ones' complement sum of non-negative words adds up to:
    their sum modulo 65535, where only an empty sum is 0. *)
Definition oc (s : Z) : Z := if s =? 0 then 0 else (s - 1) mod 65535 + 1.

Lemma oc_range s : 0 <= oc s < 65536.
Proof. unfold oc. destruct (s =? 0); [lia|]. pose proof (Z.mod_pos_bound (s - 1) 65535). lia. Qed.

Lemma oc_zero s : oc s = 0 <-> s = 0.
Proof.
  unfold oc. destruct (Z.eqb_spec s 0); [done|]. pose proof (Z.mod_pos_bound (s - 1) 65535). lia.
Qed.

Lemma oc_mod s : oc s mod 65535 = s mod 65535.
Proof.
  unfold oc. destruct (Z.eqb_spec s 0) as [->|]; [done|]. rewrite Zplus_mod_idemp_l. f_equal. lia.
Qed.

(** It is determined by the residue and by being 0. *)
Lemma oc_unique s t : 0 <= t < 65536 -> s mod 65535 = t mod 65535 -> (s = 0 <-> t = 0) -> oc s = t.
Proof.
  intros Ht Hm Hz. unfold oc. destruct (Z.eqb_spec s 0); [lia|].
  assert (t = 65535 \/ 0 < t < 65535) as [->|Hr] by lia.
  - replace ((s - 1) mod 65535) with 65534; [done|]. rewrite Zminus_mod, Hm. done.
  - replace ((s - 1) mod 65535) with (t - 1); [lia|]. rewrite Zminus_mod, Hm, (Z.mod_small t) by lia.
    rewrite (Z.mod_small 1), Z.mod_small by lia. done.
Qed.

Lemma oc_ext s t : s mod 65535 = t mod 65535 -> (s = 0 <-> t = 0) -> oc s = oc t.
Proof.
  intros Hm Hz. apply oc_unique; [apply oc_range|by rewrite oc_mod|]. by rewrite oc_zero.
Qed.

Lemma oc_id s : 0 <= s < 65536 -> oc s = s.
Proof. intros. by apply oc_unique. Qed.

Lemma oc_oc s : oc (oc s) = oc s.
Proof. apply oc_id, oc_range. Qed.

(** Partial sums may be reduced. *)
Lemma oc_add s t : 0 <= s -> 0 <= t -> oc (oc s + t) = oc (s + t).
Proof.
  intros Hs Ht. apply oc_ext.
  - by rewrite <- Zplus_mod_idemp_l, oc_mod, Zplus_mod_idemp_l.
  - pose proof (oc_range s). pose proof (oc_zero s). lia.
Qed.

Lemma oc_add_r s t : 0 <= s -> 0 <= t -> oc (s + oc t) = oc (s + t).
Proof. intros. rewrite !(Z.add_comm s). by apply oc_add. Qed.

Lemma oc_mul c s : 0 < c -> 0 <= s -> oc (c * oc s) = oc (c * s).
Proof.
  intros Hc Hs. apply oc_ext.
  - by rewrite <- Zmult_mod_idemp_r, oc_mod, Zmult_mod_idemp_r.
  - pose proof (oc_zero s). pose proof (oc_range s). nia.
Qed.

(** [FOLD_U32T] *)
Definition FOLD_U32T (u : Z) : Z := u32 (Z.shiftr u 16 + Z.land u 0xffff).

Lemma FOLD_U32T_sum u : 0 <= u < 2 ^ 32 -> FOLD_U32T u = u / 65536 + u mod 65536.
Proof.
  intros Hu. unfold FOLD_U32T. rewrite Z.shiftr_div_pow2 by lia. change 0xffff with (Z.ones 16).
  rewrite Z.land_ones by lia. change (2 ^ 16) with 65536. apply u32_id.
  pose proof (Z.mod_pos_bound u 65536). pose proof (Z.div_lt_upper_bound u 65536 65536). pose proof (Z.div_pos u 65536). lia.
Qed.

Lemma FOLD_U32T_range u : 0 <= u < 2 ^ 32 -> 0 <= FOLD_U32T u < 131072.
Proof.
  intros Hu. rewrite FOLD_U32T_sum by done.
  pose proof (Z.mod_pos_bound u 65536). pose proof (Z.div_lt_upper_bound u 65536 65536). pose proof (Z.div_pos u 65536). lia.
Qed.

Lemma FOLD_U32T_oc u : 0 <= u < 2 ^ 32 -> oc (FOLD_U32T u) = oc u.
Proof.
  intros Hu. rewrite FOLD_U32T_sum by done. pose proof (Z.div_mod u 65536).
  pose proof (Z.mod_pos_bound u 65536). pose proof (Z.div_pos u 65536). apply oc_ext; [|lia].
  replace u with (u / 65536 + u mod 65536 + (u / 65536) * 65535) at 3 by lia. by rewrite Z.mod_add by lia.
Qed.

(** Two folds reduce any 32-bit sum, one fold a 17-bit sum below its largest. *)
Lemma FOLD_U32T_small u : 0 <= u <= 131070 -> FOLD_U32T u = oc u.
Proof.
  intros Hu. rewrite <- (FOLD_U32T_oc u) by lia. symmetry. apply oc_id. rewrite FOLD_U32T_sum by lia.
  destruct (Z.lt_ge_cases u 65536).
  - rewrite Z.div_small, Z.mod_small by lia. lia.
  - replace (u / 65536) with 1; [|by apply (Z.div_unique_pos u 65536 1 (u - 65536)); lia].
    rewrite <- (Z.mod_unique_pos u 65536 1 (u - 65536)) by lia. lia.
Qed.

Lemma FOLD_U32T_twice u : 0 <= u < 2 ^ 32 -> FOLD_U32T (FOLD_U32T u) = oc u.
Proof.
  intros Hu. rewrite <- (FOLD_U32T_oc u) by done. apply FOLD_U32T_small.
  rewrite FOLD_U32T_sum by done. pose proof (Z.mod_pos_bound u 65536).
  pose proof (Z.div_lt_upper_bound u 65536 65536). pose proof (Z.div_pos u 65536). lia.
Qed.

(** Swapping the bytes multiplies by 256. *)
Lemma lwip_htons_oc s : 0 <= s -> lwip_htons (oc s) = oc (256 * s).
Proof.
  intros Hs. rewrite <- oc_mul by lia. symmetry. pose proof (oc_range s). set (x := oc s) in *.
  apply oc_unique; [apply lwip_htons_range|..]; rewrite lwip_htons_bytes by lia;
    pose proof (Z.div_mod x 256); pose proof (Z.mod_pos_bound x 256);
    pose proof (Z.div_lt_upper_bound x 256 256); pose proof (Z.div_pos x 256);
    rewrite (Z.mod_small (x / 256)) by lia; [|lia].
  replace (256 * x) with (x mod 256 * 256 + x / 256 + (x / 256) * 65535) by lia. by rewrite Z.mod_add by lia.
Qed.

(** ** Bytes *)

(** The number whose little-endian digits are [bs]. *)
Fixpoint le_num (bs : list Z) : Z :=
  match bs with [] => 0 | b :: bs => b + 256 * le_num bs end.

Lemma le_num_nonneg bs : Forall is_byte bs -> 0 <= le_num bs.
Proof. induction 1 as [|b bs Hb _ IH]; cbn; [lia|]. unfold is_byte in Hb. lia. Qed.

Lemma le_num_app a b : le_num (a ++ b) = le_num a + 256 ^ zlen a * le_num b.
Proof.
  induction a as [|x a IH]; cbn [le_num app length]; [change (256 ^ Z.of_nat 0) with 1; lia|].
  rewrite IH, Nat2Z.inj_succ, Z.pow_succ_r by lia. lia.
Qed.

(** Modulo 65535 only the parity of a position counts. *)
Lemma pow256 n : 256 ^ Z.of_nat n mod 65535 = if Nat.even n then 1 else 256.
Proof.
  induction n as [|n IH]; [done|]. rewrite Nat2Z.inj_succ, Z.pow_succ_r, <- Zmult_mod_idemp_r, IH by lia.
  rewrite Nat.even_succ, <- Nat.negb_even. by destruct (Nat.even n).
Qed.

(** Swapping once for every byte: what a shift by [n] bytes does to a sum. *)
Lemma oc_pow n s : 0 <= s -> oc (256 ^ Z.of_nat n * s) = if Nat.even n then oc s else oc (256 * s).
Proof.
  intros Hs. assert (0 < 256 ^ Z.of_nat n) by (apply Z.pow_pos_nonneg; lia).
  transitivity (oc ((if Nat.even n then 1 else 256) * s)); [|destruct (Nat.even n); [by rewrite Z.mul_1_l|done]].
  apply oc_ext; [by rewrite <- Zmult_mod_idemp_l, pow256|]. destruct (Nat.even n); nia.
Qed.
