(* ===== verification/LwipChksum.v ===== *)
(** * The Internet checksum ([inet_chksum.c])

    The three portable implementations of [lwip_standard_chksum], which differ
    in how they walk over the data and when they add carries, are shown to be
    the ones' complement sum of the 16-bit words.  The checksums of packets
    that are scattered over a chain of buffers are proved against that
    interface, whichever implementation is chosen. *)

From S2P Require Export LwipBase.

(** ** The reference: ones' complement addition of words *)

(** Addition of 16-bit words with end-around carry. *)
Definition oc_plus (x y : Z) : Z := if 65535 <? x + y then x + y - 65535 else x + y.

(** The words of a block in the byte order of the machine; a last single byte
    is padded with 0. *)
Fixpoint words (bs : list Z) : list Z :=
  match bs with
  | b0 :: b1 :: bs => (b0 + 256 * b1) :: words bs
  | [b0] => [b0]
  | [] => []
  end.

Definition inet_sum (bs : list Z) : Z := foldr oc_plus 0 (words bs).

(** ** [lwip_standard_chksum], version 1 *)

Fixpoint chksum_octets (acc : Z) (octetptr : list Z) : Z * list Z :=
  match octetptr with
  | b0 :: b1 :: octetptr =>
      let src := u16 (Z.shiftl b0 8) in
      let src := u16 (Z.lor src b1) in
      chksum_octets (u32 (acc + src)) octetptr
  | _ => (acc, octetptr)
  end.

Definition lwip_standard_chksum_1 (data : list Z) : Z :=
  let '(acc, rest) := chksum_octets 0 data in
  let acc := match rest with b0 :: _ => u32 (acc + u16 (Z.shiftl b0 8)) | [] => acc end in
  let acc := FOLD_U32T acc in
  let acc := if negb (Z.land acc 0xffff0000 =? 0) then FOLD_U32T acc else acc in
  lwip_htons (u16 acc).

(** ** Version 2 *)

(** The [u16_t] and [u32_t] at the head of a block, little-endian. *)
Definition word16 (b0 b1 : Z) : Z := b0 + 256 * b1.
Definition word32 (b0 b1 b2 b3 : Z) : Z := word16 b0 b1 + 65536 * word16 b2 b3.

Definition SWAP_BYTES_IN_WORD (w : Z) : Z :=
  Z.lor (Z.shiftl (Z.land w 0xff) 8) (Z.shiftr (Z.land w 0xff00) 8).

(** [while (len > 1) { sum += *ps++; len -= 2; }] *)
Fixpoint chksum_words (sum : Z) (ps : list Z) : Z * list Z :=
  match ps with
  | b0 :: b1 :: ps => chksum_words (u32 (sum + word16 b0 b1)) ps
  | _ => (sum, ps)
  end.

(** [pb] is the address of the data. *)
Definition lwip_standard_chksum_2 (pb : Z) (data : list Z) : Z :=
  let odd := negb (Z.land pb 1 =? 0) in
  let '(t1, ps) := match data with b :: ps => if odd then (b, ps) else (0, data) | [] => (0, data) end in
  let '(sum, rest) := chksum_words 0 ps in
  let t0 := match rest with b :: _ => b | [] => 0 end in
  let sum := u32 (sum + word16 t0 t1) in
  let sum := FOLD_U32T sum in
  let sum := FOLD_U32T sum in
  let sum := if odd then SWAP_BYTES_IN_WORD sum else sum in
  u16 sum.

(** ** Version 3 *)

(** Adding with the carry added back. *)
Definition add_back (sum w : Z) : Z :=
  let tmp := u32 (sum + w) in
  if tmp <? sum then u32 (tmp + 1) else tmp.

(** [while (len > 7)] *)
Fixpoint chksum_longs (sum : Z) (pl : list Z) : Z * list Z :=
  match pl with
  | b0 :: b1 :: b2 :: b3 :: b4 :: b5 :: b6 :: b7 :: pl =>
      chksum_longs (add_back (add_back sum (word32 b0 b1 b2 b3)) (word32 b4 b5 b6 b7)) pl
  | _ => (sum, pl)
  end.

Definition lwip_standard_chksum_3 (pb : Z) (data : list Z) : Z :=
  let odd := negb (Z.land pb 1 =? 0) in
  let '(t1, ps, a) :=
    match data with
    | b :: ps => if odd then (b, ps, pb + 1) else (0, data, pb)
    | [] => (0, data, pb)
    end in
  let '(sum, pl) :=
    match ps with
    | b0 :: b1 :: pl => if negb (Z.land a 3 =? 0) then (word16 b0 b1, pl) else (0, ps)
    | _ => (0, ps)
    end in
  let '(sum, ps) := chksum_longs sum pl in
  let sum := FOLD_U32T sum in
  let '(sum, rest) := chksum_words sum ps in
  let t0 := match rest with b :: _ => b | [] => 0 end in
  let sum := u32 (sum + word16 t0 t1) in
  let sum := FOLD_U32T sum in
  let sum := FOLD_U32T sum in
  let sum := if odd then SWAP_BYTES_IN_WORD sum else sum in
  u16 sum.

(** ** The interface to the other functions

    [LWIP_CHKSUM] is one of the implementations: given the address and the
    bytes of a block of at most 65535 bytes, it returns their sum. *)

Class Chksum := {
  LWIP_CHKSUM : Z -> list Z -> Z;
  LWIP_CHKSUM_sum p bs : Forall is_byte bs -> zlen bs < 65536 -> LWIP_CHKSUM p bs = inet_sum bs
}.

(** A [struct pbuf] of a chain: its payload and the address of it. *)
Record pbuf := { payload_at : Z; payload : list Z }.

Section Checksums.
Context `{Chksum}.

Definition inet_chksum (dataptr : Z) (data : list Z) : Z := u16 (Z.lnot (LWIP_CHKSUM dataptr data)).

(** One turn of the loop over a chain: [acc] and [swapped]. *)
Definition chksum_step (acc : Z) (swapped : bool) (p : Z) (data : list Z) (len : Z) : Z * bool :=
  let acc := u32 (acc + LWIP_CHKSUM p data) in
  let acc := FOLD_U32T acc in
  if negb (len mod 2 =? 0) then (SWAP_BYTES_IN_WORD acc, negb swapped) else (acc, swapped).

Fixpoint chksum_chain (acc : Z) (swapped : bool) (p : list pbuf) : Z * bool :=
  match p with
  | [] => (acc, swapped)
  | q :: p =>
      let '(acc, swapped) := chksum_step acc swapped (payload_at q) (payload q) (zlen (payload q)) in
      chksum_chain acc swapped p
  end.

Definition inet_chksum_pbuf (p : list pbuf) : Z :=
  let '(acc, swapped) := chksum_chain 0 false p in
  let acc := if swapped : bool then SWAP_BYTES_IN_WORD acc else acc in
  u16 (Z.lnot (Z.land acc 0xffff)).

(** The addresses, the protocol and the length, added to the sum of the data. *)
Definition chksum_pseudo (acc : Z) (swapped : bool) (src dest proto proto_len : Z) : Z :=
  let acc := if swapped then SWAP_BYTES_IN_WORD acc else acc in
  let acc := u32 (acc + Z.land src 0xffff) in
  let acc := u32 (acc + Z.land (Z.shiftr src 16) 0xffff) in
  let acc := u32 (acc + Z.land dest 0xffff) in
  let acc := u32 (acc + Z.land (Z.shiftr dest 16) 0xffff) in
  let acc := u32 (acc + lwip_htons (u16 proto)) in
  let acc := u32 (acc + lwip_htons proto_len) in
  let acc := FOLD_U32T acc in
  let acc := FOLD_U32T acc in
  u16 (Z.lnot (Z.land acc 0xffff)).

Definition inet_chksum_pseudo (p : list pbuf) (src dest proto proto_len : Z) : Z :=
  let '(acc, swapped) := chksum_chain 0 false p in
  chksum_pseudo acc swapped src dest proto proto_len.

(** The loop that stops after [chksum_len] bytes. *)
Fixpoint chksum_chain_partial (acc : Z) (swapped : bool) (p : list pbuf) (chksum_len : Z) : Z * bool :=
  match p with
  | [] => (acc, swapped)
  | q :: p =>
      if 0 <? chksum_len then
        let chklen := zlen (payload q) in
        let chklen := if chksum_len <? chklen then chksum_len else chklen in
        let '(acc, swapped) :=
          chksum_step acc swapped (payload_at q) (take (Z.to_nat chklen) (payload q)) (zlen (payload q)) in
        chksum_chain_partial acc swapped p (u16 (chksum_len - chklen))
      else (acc, swapped)
  end.

Definition inet_chksum_pseudo_partial (p : list pbuf) (src dest proto proto_len chksum_len : Z) : Z :=
  let '(acc, swapped) := chksum_chain_partial 0 false p chksum_len in
  chksum_pseudo acc swapped src dest proto proto_len.

(** [MEMCPY (dst, src, len)], and the sum of the copy. *)
Definition lwip_chksum_copy (dst : Z) (src : list Z) : list Z * Z := (src, LWIP_CHKSUM dst src).

End Checksums.

(** ** The reference as a number *)

Lemma pair_ind (P : list Z -> Prop) :
  P [] -> (forall a, P [a]) -> (forall a b l, P l -> P (a :: b :: l)) -> forall l, P l.
Proof.
  intros H0 H1 H2 l. cut (P l /\ forall a, P (a :: l)); [tauto|].
  induction l as [|b l [IH1 IH2]]; split; auto.
Qed.

Lemma oc_65536 x y : 0 <= x -> 0 <= y -> oc (x + 65536 * y) = oc (x + y).
Proof.
  intros. apply oc_ext; [|lia]. replace (x + 65536 * y) with (x + y + y * 65535) by lia. by rewrite Z.mod_add by lia.
Qed.

Lemma oc_plus_oc x y : 0 <= x < 65536 -> 0 <= y < 65536 -> oc_plus x y = oc (x + y).
Proof.
  intros. unfold oc_plus. symmetry. destruct (Z.ltb_spec 65535 (x + y)); [|apply oc_id; lia].
  apply oc_unique; [lia| |lia]. replace (x + y) with (x + y - 65535 + 1 * 65535) at 1 by lia. by rewrite Z.mod_add by lia.
Qed.

Lemma inet_sum_oc bs : Forall is_byte bs -> inet_sum bs = oc (le_num bs).
Proof.
  unfold inet_sum. induction bs as [|a|a b bs IH] using pair_ind; intros Hb; cbn [words foldr le_num]; [done|..].
  - rewrite Forall_singleton in Hb. unfold is_byte in Hb. rewrite oc_plus_oc by lia. f_equal; lia.
  - rewrite !Forall_cons_iff in Hb. destruct Hb as (Ha & Hb & Hbs).
    pose proof (le_num_nonneg bs Hbs). rewrite IH by done. pose proof (oc_range (le_num bs)).
    unfold is_byte in Ha, Hb.
    rewrite oc_plus_oc, oc_add_r, <- (oc_65536 (a + 256 * b)) by lia. f_equal. lia.
Qed.

(** Blocks one behind the other. *)
Lemma inet_sum_app a b : Forall is_byte a -> Forall is_byte b ->
  inet_sum (a ++ b) = oc (inet_sum a + if Nat.even (length a) then inet_sum b else 256 * inet_sum b).
Proof.
  intros Ha Hb. pose proof (le_num_nonneg a Ha). pose proof (le_num_nonneg b Hb).
  assert (0 < 256 ^ zlen a) by (apply Z.pow_pos_nonneg; lia).
  rewrite !inet_sum_oc, le_num_app by (try apply Forall_app; done).
  assert (0 <= 256 ^ zlen a * le_num b) by nia. pose proof (oc_range (le_num b)). pose proof (oc_range (le_num a)).
  rewrite <- (oc_add (le_num a)), <- (oc_add_r (oc (le_num a))), oc_pow by lia.
  destruct (Nat.even (length a)); [by rewrite oc_add_r by lia|]. by rewrite <- oc_mul, oc_add_r by lia.
Qed.

(** ** The loops *)

Lemma word16_range b0 b1 : is_byte b0 -> is_byte b1 -> 0 <= word16 b0 b1 < 65536.
Proof. unfold is_byte, word16. lia. Qed.

Lemma SWAP_htons w : 0 <= w < 65536 -> SWAP_BYTES_IN_WORD w = lwip_htons w.
Proof.
  intros Hw. rewrite lwip_htons_bytes by lia. unfold SWAP_BYTES_IN_WORD. change 0xff with (Z.ones 8) at 1.
  rewrite Z.land_ones by lia. change 0xff00 with (0xff * 2 ^ 8).
  rewrite (land_byte w 8), Z.shiftl_mul_pow2, Z.shiftr_div_pow2, Z.div_mul by lia. change (2 ^ 8) with 256.
  pose proof (Z.mod_pos_bound (w / 256) 256). apply (lor_add _ _ 8); lia.
Qed.

(** What is left when no full word is. *)
Definition last_byte (rest : list Z) : Prop := rest = [] \/ exists b, rest = [b] /\ is_byte b.

Lemma chksum_words_spec ps sum :
  Forall is_byte ps -> 0 <= sum -> 2 * sum + 65535 * zlen ps < 2 ^ 33 ->
  exists sum' rest, chksum_words sum ps = (sum', rest) /\ last_byte rest /\
    oc (sum' + le_num rest) = oc (sum + le_num ps) /\
    0 <= sum' /\ 2 * sum' <= 2 * sum + 65535 * (zlen ps - zlen rest).
Proof.
  revert sum. induction ps as [|a|a b ps IH] using pair_ind; intros sum Hb Hs Hlen; cbn [chksum_words].
  - exists sum, []. split_and!; [done|by left|done|done|cbn; lia].
  - rewrite Forall_singleton in Hb. exists sum, [a]. split_and!; [done|right; eauto|done|done|cbn; lia].
  - rewrite !Forall_cons_iff in Hb. destruct Hb as (Ha & Hb & Hbs).
    pose proof (word16_range a b Ha Hb). pose proof (le_num_nonneg ps Hbs). cbn [length] in Hlen.
    rewrite u32_id by lia. destruct (IH (sum + word16 a b)) as (sum' & rest & E & Hr & Hoc & H1 & H2); [done|lia..|].
    exists sum', rest. split_and!; [done|done| |done|cbn [length]; lia].
    rewrite Hoc, <- (oc_65536 (sum + word16 a b)) by lia. f_equal. cbn [le_num]. unfold word16. lia.
Qed.

Lemma lor_octets a b : is_byte a -> is_byte b -> u16 (Z.lor (u16 (Z.shiftl a 8)) b) = 256 * a + b.
Proof.
  unfold is_byte. intros. rewrite Z.shiftl_mul_pow2, (u16_id (a * 2 ^ 8)) by lia.
  rewrite lor_add by lia. rewrite u16_id by lia. lia.
Qed.

(** The sum of version 1, the left-over byte included. *)
Lemma chksum_octets_spec bs acc :
  Forall is_byte bs -> 0 <= acc -> acc + 65535 * zlen bs < 2 ^ 32 ->
  let '(acc', rest) := chksum_octets acc bs in
  let acc2 := match rest with b0 :: _ => u32 (acc' + u16 (Z.shiftl b0 8)) | [] => acc' end in
  oc acc2 = oc (acc + 256 * le_num bs) /\ 0 <= acc2 <= acc + 65535 * zlen bs.
Proof.
  revert acc. induction bs as [|a|a b bs IH] using pair_ind; intros acc Hb Ha Hlen; cbn [chksum_octets].
  - cbn. split; [f_equal; lia|lia].
  - rewrite Forall_singleton in Hb. unfold is_byte in Hb. cbn [length le_num] in *.
    rewrite Z.shiftl_mul_pow2, u16_id, u32_id by lia. split; [f_equal; lia|lia].
  - rewrite !Forall_cons_iff in Hb. destruct Hb as (Ha' & Hb & Hbs).
    rewrite lor_octets by done. unfold is_byte in *. cbn [length] in Hlen. rewrite u32_id by lia.
    pose proof (le_num_nonneg bs Hbs).
    specialize (IH (acc + (256 * a + b)) Hbs ltac:(lia) ltac:(lia)). destruct (chksum_octets _ bs) as [acc' rest].
    destruct IH as [IH1 IH2]. split; [|cbn [length]; lia].
    rewrite IH1. cbn [le_num]. replace (acc + 256 * (a + 256 * (b + 256 * le_num bs)))
      with (acc + 256 * a + 65536 * (b + 256 * le_num bs)) by lia.
    rewrite oc_65536 by lia. f_equal. lia.
Qed.

Lemma add_back_spec sum w : 0 <= sum < 2 ^ 32 -> 0 <= w < 2 ^ 32 ->
  0 <= add_back sum w < 2 ^ 32 /\ oc (add_back sum w) = oc (sum + w).
Proof.
  intros Hs Hw. unfold add_back. destruct (Z.lt_ge_cases (sum + w) (2 ^ 32)).
  - rewrite u32_id by lia. rewrite (proj2 (Z.ltb_ge (sum + w) sum)) by lia. lia.
  - replace (u32 (sum + w)) with (sum + w - 2 ^ 32).
    2: { unfold u32. rewrite (Z.mod_unique_pos (sum + w) (2 ^ 32) 1 (sum + w - 2 ^ 32)); lia. }
    rewrite (proj2 (Z.ltb_lt _ _)), u32_id by lia. split; [lia|]. apply oc_ext; [|lia].
    replace (sum + w) with (sum + w - 2 ^ 32 + 1 + 65537 * 65535) at 2 by lia. by rewrite Z.mod_add by lia.
Qed.

Lemma chksum_longs_spec n pl sum :
  (length pl < n)%nat -> Forall is_byte pl -> 0 <= sum < 2 ^ 32 ->
  exists sum' rest, chksum_longs sum pl = (sum', rest) /\ Forall is_byte rest /\ zlen rest < 8 /\
    0 <= sum' < 2 ^ 32 /\ oc (sum' + le_num rest) = oc (sum + le_num pl).
Proof.
  revert pl sum. induction n as [|n IH]; intros pl sum Hn Hb Hs; [lia|].
  destruct pl as [|b0 [|b1 [|b2 [|b3 [|b4 [|b5 [|b6 [|b7 pl]]]]]]]];
    [exists sum; eexists; split; [reflexivity|]; split_and!; [done|cbn; lia|lia|lia|done]..|].
  cbn [chksum_longs]. rewrite !Forall_cons_iff in Hb. unfold is_byte in Hb at 1 2 3 4 5 6 7 8.
  destruct Hb as (H0 & H1 & H2 & H3 & H4 & H5 & H6 & H7 & Hb). pose proof (le_num_nonneg pl Hb).
  set (w1 := word32 b0 b1 b2 b3). set (w2 := word32 b4 b5 b6 b7).
  assert (Hw1 : 0 <= w1 < 2 ^ 32) by (unfold w1, word32, word16; lia).
  assert (Hw2 : 0 <= w2 < 2 ^ 32) by (unfold w2, word32, word16; lia).
  destruct (add_back_spec sum w1) as [R1 E1]; [done|done|]. set (s1 := add_back sum w1) in *.
  destruct (add_back_spec s1 w2) as [R2 E2]; [done|done|]. set (s2 := add_back s1 w2) in *.
  destruct (IH pl s2) as (sum' & rest & E & Hr & Hl & Hsum & Hoc); [cbn [length] in Hn; lia|done|done|].
  exists sum', rest. split_and!; [done|done|done|lia|lia|].
  assert (Hoc2 : oc (sum' + le_num rest) = oc (sum + w1 + w2 + le_num pl)).
  { pose proof (oc_range (sum + w1)). rewrite Hoc, <- (oc_add s2), E2, <- (oc_add s1), E1, (oc_add (sum + w1)), oc_add by lia. done. }
  rewrite Hoc2. cbn [le_num]. symmetry.
  replace (sum + (b0 + 256 * (b1 + 256 * (b2 + 256 * (b3 + 256 * (b4 + 256 * (b5 + 256 * (b6 + 256 * (b7 + 256 * le_num pl)))))))))
    with (sum + w1 + 65536 * (65536 * (w2 + 65536 * (65536 * le_num pl)))) by (unfold w1, w2, word32, word16; lia).
  rewrite !oc_65536, Z.add_assoc, !oc_65536 by lia. done.
Qed.

(** ** The three versions *)

Lemma chksum_1_sum data : Forall is_byte data -> zlen data <= 0x10000 -> lwip_standard_chksum_1 data = inet_sum data.
Proof.
  intros Hb Hl. pose proof (le_num_nonneg data Hb). unfold lwip_standard_chksum_1.
  pose proof (chksum_octets_spec data 0 Hb ltac:(lia) ltac:(lia)) as H1. destruct (chksum_octets 0 data) as [acc rest].
  set (acc2 := match rest with [] => acc | b0 :: _ => _ end) in *. destruct H1 as [H1 H2].
  assert (Hf : (if negb (Z.land (FOLD_U32T acc2) 0xffff0000 =? 0) then FOLD_U32T (FOLD_U32T acc2) else FOLD_U32T acc2) = oc acc2).
  { assert (Hr : 0 <= acc2 < 2 ^ 32) by lia. pose proof (FOLD_U32T_range acc2 Hr).
    destruct (Z.eqb_spec (Z.land (FOLD_U32T acc2) 0xffff0000) 0) as [E|E]; cbn [negb]; [|by apply FOLD_U32T_twice].
    rewrite <- FOLD_U32T_oc by done. symmetry. apply oc_id. split; [lia|].
    change 0xffff0000 with (0xffff * 2 ^ 16) in E. set (x := FOLD_U32T acc2) in *.
    assert (Z.testbit x 16 = false) as Ht.
    { pose proof (Z.land_spec x (0xffff * 2 ^ 16) 16) as Hs. rewrite E, Z.bits_0 in Hs.
      change (Z.testbit (0xffff * 2 ^ 16) 16) with true in Hs. by rewrite andb_true_r in Hs. }
    pose proof (Z.testbit_spec' x 16 ltac:(lia)) as Hx. rewrite Ht in Hx. change (2 ^ 16) with 65536 in Hx.
    destruct (Z.lt_ge_cases x 65536); [done|].
    rewrite <- (Z.div_unique_pos x 65536 1 (x - 65536)) in Hx by lia. discriminate. }
  rewrite Hf, u16_id by apply oc_range. rewrite H1, lwip_htons_oc, inet_sum_oc by (done || lia).
  rewrite Z.add_0_l, Z.mul_assoc. by apply (oc_65536 0).
Qed.

(** The end of versions 2 and 3: the left-over bytes, two folds, and a swap if
    the data began at an odd address. *)
Lemma chksum_end sum rest t1 odd (data ps : list Z) :
  Forall is_byte data -> last_byte rest -> is_byte t1 -> 0 <= sum -> sum + 65535 < 2 ^ 32 ->
  oc (sum + le_num rest) = oc (le_num ps) -> 0 <= le_num ps ->
  data = (if odd : bool then t1 :: ps else ps) -> (odd = false -> t1 = 0) ->
  u16 (let s := FOLD_U32T (FOLD_U32T (u32 (sum + word16 (match rest with b :: _ => b | [] => 0 end) t1))) in
    if odd then SWAP_BYTES_IN_WORD s else s) = inet_sum data.
Proof.
  intros Hb Hr Ht Hs Hlt Hoc Hps -> H0.
  assert (Ht0 : (match rest with b :: _ => b | [] => 0 end) = le_num rest /\ 0 <= le_num rest < 256).
  { destruct Hr as [->|(b & -> & Hb')]; [done|]. unfold is_byte in Hb'. cbn. lia. }
  destruct Ht0 as [-> Hle]. unfold is_byte in Ht. unfold word16. rewrite (u32_id (sum + _)) by lia.
  rewrite FOLD_U32T_twice by lia. cbv zeta. rewrite inet_sum_oc by done.
  replace (sum + (le_num rest + 256 * t1)) with (sum + le_num rest + 256 * t1) by lia.
  rewrite <- oc_add, Hoc, oc_add by lia. destruct odd.
  - rewrite SWAP_htons, lwip_htons_oc by (lia || apply oc_range). rewrite u16_id by apply oc_range.
    replace (256 * (le_num ps + 256 * t1)) with (256 * le_num ps + 65536 * t1) by lia.
    rewrite oc_65536 by lia. cbn [le_num]. f_equal. lia.
  - rewrite H0, u16_id by (done || apply oc_range). f_equal. lia.
Qed.

(** The first byte of data at an odd address is kept apart. *)
Lemma odd_split (odd : bool) data :
  Forall is_byte data -> data <> [] ->
  exists t1 ps, (match data with b :: ps => if odd then (b, ps) else (0, data) | [] => (0, data) end) = (t1, ps) /\
    data = (if odd then t1 :: ps else ps) /\ (odd = false -> t1 = 0) /\ Forall is_byte ps /\ is_byte t1.
Proof.
  intros Hb Hne. destruct data as [|b ps]; [done|]. pose proof Hb as Hb0. apply Forall_cons_iff in Hb as [Hb Hps]. destruct odd.
  - by exists b, ps.
  - exists 0, (b :: ps). split_and!; [done..|unfold is_byte; lia].
Qed.

Lemma chksum_2_sum pb data :
  Forall is_byte data -> zlen data <= 0x20000 -> lwip_standard_chksum_2 pb data = inet_sum data.
Proof.
  intros Hb Hl. unfold lwip_standard_chksum_2. set (odd := negb (Z.land pb 1 =? 0)).
  destruct (decide (data = [])) as [->|Hne]; [by destruct odd|].
  destruct (odd_split odd data Hb Hne) as (t1 & ps & -> & Hd & H0 & Hps & Ht1).
  assert (zlen ps <= zlen data) by (rewrite Hd; destruct odd; cbn [length]; lia).
  destruct (chksum_words_spec ps 0) as (sum & rest & -> & Hr & Hoc & H1 & H2); [done|lia..|].
  pose proof (le_num_nonneg ps Hps).
  apply (chksum_end sum rest t1 odd data ps); [done..|lia|lia|done|done|done|done].
Qed.

(** A word before the block keeps the sum of the rest. *)
Lemma chksum_3_sum pb data : Forall is_byte data -> lwip_standard_chksum_3 pb data = inet_sum data.
Proof.
  intros Hb. unfold lwip_standard_chksum_3. set (odd := negb (Z.land pb 1 =? 0)).
  destruct (decide (data = [])) as [->|Hne]; [by destruct odd|].
  destruct (odd_split odd data Hb Hne) as (t1 & ps & Hm & Hd & H0 & Hps & Ht1).
  assert (exists a, (match data with b :: ps => if odd then (b, ps, pb + 1) else (0, data, pb) | [] => (0, data, pb) end)
    = (t1, ps, a)) as [a ->].
  { destruct data; [done|]. by destruct odd; injection Hm as -> ->; eexists. }
  pose proof (le_num_nonneg ps Hps).
  assert (exists s pl, (match ps with
    | b0 :: b1 :: pl => if negb (Z.land a 3 =? 0) then (word16 b0 b1, pl) else (0, ps)
    | _ => (0, ps) end) = (s, pl) /\ Forall is_byte pl /\ 0 <= s < 65536 /\ oc (s + le_num pl) = oc (le_num ps))
    as (s & pl & -> & Hpl & Hs & Hsoc).
  { assert (Hkeep : exists s pl, (0, ps) = (s, pl) /\ Forall is_byte pl /\ 0 <= s < 65536 /\ oc (s + le_num pl) = oc (le_num ps))
      by (exists 0, ps; split_and!; [done|done|lia|lia|done]).
    destruct ps as [|b0 [|b1 pl]]; [done..|]. destruct (negb (Z.land a 3 =? 0)); [clear Hkeep|done].
    rewrite !Forall_cons_iff in Hps. destruct Hps as (Hb0 & Hb1 & Hpl). exists (word16 b0 b1), pl.
    pose proof (word16_range b0 b1 Hb0 Hb1). pose proof (le_num_nonneg pl Hpl).
    split_and!; [done..|lia|lia|]. rewrite <- oc_65536 by lia. unfold word16. cbn [le_num]. f_equal. lia. }
  pose proof (le_num_nonneg pl Hpl).
  destruct (chksum_longs_spec (S (length pl)) pl s) as (sum & rest & -> & Hr & Hlr & Hsum & Hoc); [lia|done|lia|].
  pose proof (le_num_nonneg rest Hr). pose proof (FOLD_U32T_range sum Hsum).
  destruct (chksum_words_spec rest (FOLD_U32T sum)) as (sum2 & rest2 & -> & Hr2 & Hoc2 & Hg1 & Hg2); [done|lia..|].
  apply (chksum_end sum2 rest2 t1 odd data ps); [done..|lia|lia| |done|done|done].
  rewrite Hoc2, <- (oc_add (FOLD_U32T sum)), FOLD_U32T_oc, oc_add by lia. by rewrite Hoc.
Qed.

(** ** Chains *)

(** The sum of [s] with its bytes swapped [n] times, as the loop over a chain
    holds it behind [n] bytes. *)
Definition swapped_sum (n : nat) (s : Z) : Z := oc (256 ^ Z.of_nat n * s).

Lemma pow256_pos n : 0 < 256 ^ Z.of_nat n.
Proof. apply Z.pow_pos_nonneg; lia. Qed.

Lemma swapped_even n s : 0 <= s -> swapped_sum n s = if Nat.even n then oc s else oc (256 * s).
Proof. apply oc_pow. Qed.

Lemma swapped_parity n m s : 0 <= s -> Nat.even n = Nat.even m -> swapped_sum n s = swapped_sum m s.
Proof. intros Hs E. by rewrite !swapped_even, E by done. Qed.

Lemma SWAP_swapped n s : 0 <= s -> SWAP_BYTES_IN_WORD (swapped_sum n s) = swapped_sum (S n) s.
Proof.
  intros Hs. pose proof (pow256_pos n). unfold swapped_sum. rewrite SWAP_htons, lwip_htons_oc by (apply oc_range || nia).
  rewrite Nat2Z.inj_succ, Z.pow_succ_r by lia. f_equal. lia.
Qed.

Lemma unswap n s : 0 <= s ->
  (if Nat.odd n then SWAP_BYTES_IN_WORD (swapped_sum n s) else swapped_sum n s) = oc s.
Proof.
  intros Hs. rewrite SWAP_swapped, <- Nat.negb_even by done. destruct (Nat.even n) eqn:E; cbn [negb].
  - by rewrite swapped_even, E by done.
  - by rewrite swapped_even, Nat.even_succ, <- Nat.negb_even, E by done.
Qed.

Lemma mod2_odd n : negb (Z.of_nat n mod 2 =? 0) = Nat.odd n.
Proof.
  rewrite Zmod_odd. rewrite <- Nat.negb_even. destruct (Nat.even n) eqn:E.
  - apply Nat.even_spec in E as [k ->]. rewrite Nat2Z.inj_mul, Z.odd_mul. done.
  - assert (Nat.odd n = true) as [k ->]%Nat.odd_spec by (by rewrite <- Nat.negb_even, E).
    rewrite Nat2Z.inj_add, Nat2Z.inj_mul, Z.odd_add, Z.odd_mul. done.
Qed.

(** A block that begins behind [n] bytes adds its own sum. *)
Lemma swapped_sum_add n s t : 0 <= s -> 0 <= t ->
  swapped_sum n (s + 256 ^ Z.of_nat n * t) = oc (swapped_sum n s + t).
Proof.
  intros Hs Ht. pose proof (pow256_pos n). unfold swapped_sum. rewrite oc_add, Z.mul_add_distr_l, Z.mul_assoc by nia.
  rewrite <- Z.pow_add_r, <- Nat2Z.inj_add by lia. pose proof (pow256_pos (n + n)).
  rewrite <- (oc_add_r (256 ^ Z.of_nat n * s)), oc_pow, Nat.even_add by nia.
  rewrite Bool.eqb_reflx. by rewrite oc_add_r by nia.
Qed.

Section Chains.
Context `{Chksum}.

(** One buffer: the sum of [data] is added behind [n] bytes, and the position
    moves on by [m]. *)
Lemma chksum_step_spec n m s p data :
  0 <= s -> Forall is_byte data -> zlen data < 65536 ->
  chksum_step (swapped_sum n s) (Nat.odd n) p data (Z.of_nat m) =
  (swapped_sum (n + m) (s + 256 ^ Z.of_nat n * le_num data), Nat.odd (n + m)).
Proof.
  intros Hs Hb Hl. pose proof (le_num_nonneg data Hb). pose proof (pow256_pos n). unfold chksum_step.
  rewrite LWIP_CHKSUM_sum, inet_sum_oc by done.
  pose proof (oc_range (256 ^ Z.of_nat n * s)). fold (swapped_sum n s) in *. pose proof (oc_range (le_num data)).
  rewrite u32_id, FOLD_U32T_small, oc_add_r, <- swapped_sum_add by lia.
  assert (0 <= s + 256 ^ Z.of_nat n * le_num data) by nia.
  rewrite SWAP_swapped, mod2_odd, Nat.odd_add by done.
  destruct (Nat.odd m) eqn:Em; rewrite <- Nat.negb_even in Em.
  - rewrite xorb_true_r. f_equal. apply swapped_parity; [done|].
    rewrite Nat.even_succ, <- Nat.negb_even, Nat.even_add. by destruct (Nat.even m), (Nat.even n).
  - rewrite xorb_false_r. f_equal. apply swapped_parity; [done|].
    rewrite Nat.even_add. by destruct (Nat.even m), (Nat.even n).
Qed.

(** Every buffer holds fewer than 65536 bytes: [len] is a [u16_t]. *)
Definition pbuf_ok (q : pbuf) : Prop := Forall is_byte (payload q) /\ zlen (payload q) < 65536.

(** What the chain holds. *)
Definition pbuf_data (p : list pbuf) : list Z := concat (map payload p).

Lemma pbuf_data_bytes p : Forall pbuf_ok p -> Forall is_byte (pbuf_data p).
Proof.
  induction 1 as [|q p [Hq _] _ IH]; [by constructor|]. unfold pbuf_data in *. cbn. apply Forall_app; done.
Qed.

Lemma chksum_chain_spec p n s :
  Forall pbuf_ok p -> 0 <= s ->
  chksum_chain (swapped_sum n s) (Nat.odd n) p =
  (swapped_sum (n + length (pbuf_data p)) (s + 256 ^ Z.of_nat n * le_num (pbuf_data p)), Nat.odd (n + length (pbuf_data p))).
Proof.
  revert n s. induction p as [|q p IH]; intros n s Hp Hs.
  - cbn [chksum_chain pbuf_data map concat le_num length]. by rewrite Z.mul_0_r, Z.add_0_r, Nat.add_0_r.
  - apply Forall_cons_iff in Hp as [[Hq Hl] Hp]. pose proof (le_num_nonneg _ Hq). pose proof (pow256_pos n).
    cbn [chksum_chain]. rewrite chksum_step_spec, IH by (done || nia).
    unfold pbuf_data. cbn [map concat]. rewrite length_app, le_num_app, <- !Nat.add_assoc.
    rewrite Nat2Z.inj_add, Z.pow_add_r by lia. do 2 f_equal. lia.
Qed.

Lemma chksum_partial_done acc swapped p : chksum_chain_partial acc swapped p 0 = (acc, swapped).
Proof. by destruct p. Qed.

Lemma chksum_partial_spec p n s k :
  Forall pbuf_ok p -> 0 <= s -> Z.of_nat k < 65536 ->
  exists n', chksum_chain_partial (swapped_sum n s) (Nat.odd n) p (Z.of_nat k) =
    (swapped_sum n' (s + 256 ^ Z.of_nat n * le_num (take k (pbuf_data p))), Nat.odd n').
Proof.
  revert n s k. induction p as [|q p IH]; intros n s k Hp Hs Hk.
  - exists n. cbn [chksum_chain_partial pbuf_data map concat]. rewrite take_nil. cbn [le_num]. by rewrite Z.mul_0_r, Z.add_0_r.
  - apply Forall_cons_iff in Hp as [[Hq Hl] Hp]. pose proof (le_num_nonneg _ Hq). pose proof (pow256_pos n).
    cbn [chksum_chain_partial]. destruct (Z.ltb_spec 0 (Z.of_nat k)).
    2: { exists n. replace k with 0%nat by lia. cbn [take le_num]. by rewrite Z.mul_0_r, Z.add_0_r. }
    unfold pbuf_data. cbn [map concat]. fold (pbuf_data p). cbv zeta.
    destruct (Z.ltb_spec (Z.of_nat k) (zlen (payload q))).
    + rewrite Nat2Z.id, chksum_step_spec by (try apply Forall_take; try rewrite length_take; done || lia).
      rewrite Z.sub_diag, chksum_partial_done. rewrite take_app_le by lia. eauto.
    + rewrite Nat2Z.id, take_ge, chksum_step_spec by (done || lia).
      rewrite take_app_ge, u16_id, <- Nat2Z.inj_sub by lia.
      destruct (IH (n + length (payload q))%nat (s + 256 ^ Z.of_nat n * le_num (payload q)) (k - length (payload q))%nat)
        as [n' E]; [done|nia|lia|]. exists n'. rewrite E, le_num_app, Nat2Z.inj_add, Z.pow_add_r by lia. do 2 f_equal. lia.
Qed.

(** The complement of a 16-bit sum. *)
Lemma lnot16 x : 0 <= x < 65536 -> u16 (Z.lnot x) = 65535 - x.
Proof. intros Hx. unfold Z.lnot, u16. symmetry. apply (Z.mod_unique_pos _ _ (-1)); lia. Qed.

Lemma land16 x : 0 <= x < 65536 -> Z.land x 0xffff = x.
Proof. intros Hx. change 0xffff with (Z.ones 16). rewrite Z.land_ones by lia. apply Z.mod_small. lia. Qed.

(** The pseudo header: the addresses as they are in memory, a zero, the
    protocol and the length in network order. *)
Definition pseudo_header (src dest proto proto_len : Z) : list Z :=
  [src mod 256; src / 256 mod 256; src / 65536 mod 256; src / 16777216;
   dest mod 256; dest / 256 mod 256; dest / 65536 mod 256; dest / 16777216;
   0; proto; proto_len / 256; proto_len mod 256].

Lemma pseudo_header_bytes src dest proto proto_len :
  0 <= src < 2 ^ 32 -> 0 <= dest < 2 ^ 32 -> is_byte proto -> 0 <= proto_len < 65536 ->
  Forall is_byte (pseudo_header src dest proto proto_len).
Proof.
  intros Hs Hd Hp Hl. unfold pseudo_header.
  repeat apply Forall_cons; try done; unfold is_byte; try (apply Z.mod_pos_bound; lia); try lia;
    (split; [apply Z.div_pos|apply Z.div_lt_upper_bound]; lia).
Qed.

Lemma halves a : 0 <= a < 2 ^ 32 ->
  Z.land a 0xffff = word16 (a mod 256) (a / 256 mod 256) /\
  Z.land (Z.shiftr a 16) 0xffff = word16 (a / 65536 mod 256) (a / 16777216).
Proof.
  intros Ha. change 0xffff with (Z.ones 16). rewrite !Z.land_ones, Z.shiftr_div_pow2 by lia. change (2 ^ 16) with (256 * 256).
  unfold word16. rewrite !Z.rem_mul_r by lia. split; [done|]. f_equal. rewrite Z.div_div by lia. f_equal.
  apply Z.mod_small. split; [apply Z.div_pos|apply Z.div_lt_upper_bound]; lia.
Qed.

Lemma chksum_pseudo_spec n s src dest proto proto_len :
  0 <= s -> 0 <= src < 2 ^ 32 -> 0 <= dest < 2 ^ 32 -> is_byte proto -> 0 <= proto_len < 65536 ->
  chksum_pseudo (swapped_sum n s) (Nat.odd n) src dest proto proto_len =
  65535 - oc (le_num (pseudo_header src dest proto proto_len) + s).
Proof.
  intros Hs Hsrc Hdest Hp Hl. pose proof (pseudo_header_bytes src dest proto proto_len Hsrc Hdest Hp Hl) as Hb.
  pose proof (le_num_nonneg _ Hb). unfold chksum_pseudo. rewrite unswap by done.
  destruct (halves src Hsrc) as [-> ->], (halves dest Hdest) as [-> ->].
  unfold pseudo_header in Hb. rewrite !Forall_cons_iff in Hb.
  destruct Hb as (B0 & B1 & B2 & B3 & B4 & B5 & B6 & B7 & B8 & B9 & B10 & B11 & _).
  pose proof (word16_range _ _ B0 B1). pose proof (word16_range _ _ B2 B3).
  pose proof (word16_range _ _ B4 B5). pose proof (word16_range _ _ B6 B7).
  unfold is_byte in Hp. rewrite (u16_id proto), (lwip_htons_bytes proto), (lwip_htons_bytes proto_len) by lia.
  rewrite (Z.mod_small proto), (Z.div_small proto), (Z.mod_small (proto_len / 256)) by (unfold is_byte in *; lia).
  change (0 mod 256) with 0.
  pose proof (word16_range _ _ B8 B9). pose proof (word16_range _ _ B10 B11). pose proof (oc_range s).
  replace (proto * 256 + 0) with (word16 0 proto) by (unfold word16; lia).
  replace (proto_len mod 256 * 256 + proto_len / 256) with (word16 (proto_len / 256) (proto_len mod 256)) by (unfold word16; lia).
  assert (Hnum : forall a b l, le_num (a :: b :: l) = word16 a b + 65536 * le_num l) by (intros; cbn [le_num]; unfold word16; lia).
  unfold pseudo_header in *. rewrite !Hnum in *. change (le_num []) with 0 in *.
  generalize dependent (word16 0 proto). generalize dependent (word16 (proto_len / 256) (proto_len mod 256)).
  set (w0 := word16 (src mod 256) _) in *. set (w1 := word16 (src / 65536 mod 256) _) in *.
  set (w2 := word16 (dest mod 256) _) in *. set (w3 := word16 (dest / 65536 mod 256) _) in *.
  intros w5 ? w4 ? ?. rewrite (u32_id (oc s + w0)), (u32_id (oc s + w0 + w1)), (u32_id (oc s + w0 + w1 + w2)) by lia.
  rewrite (u32_id (oc s + w0 + w1 + w2 + w3)), (u32_id (oc s + w0 + w1 + w2 + w3 + w4)) by lia.
  rewrite u32_id, FOLD_U32T_twice, land16, lnot16 by (apply oc_range || lia). f_equal.
  rewrite <- !(Z.add_assoc (oc s)), oc_add, (Z.add_comm _ s) by lia. rewrite (Z.add_assoc s w0).
  symmetry. do 4 (rewrite oc_65536 by lia; rewrite Z.add_assoc). rewrite !oc_65536 by lia. f_equal. lia.
Qed.

(** What [inet_chksum_pbuf] returns. *)
Lemma inet_chksum_pbuf_spec p : Forall pbuf_ok p -> inet_chksum_pbuf p = 65535 - inet_sum (pbuf_data p).
Proof.
  intros Hp. pose proof (pbuf_data_bytes p Hp) as Hb. pose proof (le_num_nonneg _ Hb). unfold inet_chksum_pbuf.
  change 0 with (swapped_sum 0 0) at 1. change false with (Nat.odd 0). rewrite chksum_chain_spec, unswap by (done || lia).
  rewrite land16, lnot16, inet_sum_oc by (done || apply oc_range). do 2 f_equal. cbn [Z.of_nat]. change (256 ^ 0) with 1. lia.
Qed.

Lemma inet_chksum_sum dataptr data :
  Forall is_byte data -> zlen data < 65536 -> inet_chksum dataptr data = 65535 - inet_sum data.
Proof.
  intros Hb Hl. unfold inet_chksum. rewrite LWIP_CHKSUM_sum by done. apply lnot16. rewrite inet_sum_oc by done. apply oc_range.
Qed.

(** Addresses, protocol and length as they are in a packet. *)
Definition pseudo_ok (src dest proto proto_len : Z) : Prop :=
  0 <= src < 2 ^ 32 /\ 0 <= dest < 2 ^ 32 /\ is_byte proto /\ 0 <= proto_len < 65536.

(** A pseudo header in front of data. *)
Lemma pseudo_sum src dest proto proto_len data :
  pseudo_ok src dest proto proto_len -> Forall is_byte data ->
  inet_sum (pseudo_header src dest proto proto_len ++ data) = oc (le_num (pseudo_header src dest proto proto_len) + le_num data).
Proof.
  intros (Hs & Hd & Hp & Hl) Hb. pose proof (pseudo_header_bytes src dest proto proto_len Hs Hd Hp Hl) as Hh.
  pose proof (le_num_nonneg _ Hb). pose proof (le_num_nonneg _ Hh).
  rewrite inet_sum_oc, le_num_app by (apply Forall_app; done).
  rewrite <- (oc_add_r _ (256 ^ _ * _)), oc_pow by (try apply Z.mul_nonneg_nonneg; done).
  change (Nat.even (length (pseudo_header _ _ _ _))) with true. cbv match. by apply oc_add_r.
Qed.

Lemma inet_chksum_partial_spec p src dest proto proto_len k :
  Forall pbuf_ok p -> pseudo_ok src dest proto proto_len -> Z.of_nat k < 65536 ->
  inet_chksum_pseudo_partial p src dest proto proto_len (Z.of_nat k) =
  65535 - inet_sum (pseudo_header src dest proto proto_len ++ take k (pbuf_data p)).
Proof.
  intros Hp Hok Hk. pose proof (Forall_take is_byte k _ (pbuf_data_bytes p Hp)) as Hb. pose proof (le_num_nonneg _ Hb).
  rewrite pseudo_sum by done. unfold inet_chksum_pseudo_partial.
  change 0 with (swapped_sum 0 0) at 1. change false with (Nat.odd 0).
  destruct (chksum_partial_spec p 0 0 k) as [n' ->]; [done|lia|done|]. destruct Hok as (Hs & Hd & Hpr & Hl).
  change (256 ^ Z.of_nat 0) with 1. rewrite chksum_pseudo_spec by (done || lia). do 2 f_equal. lia.
Qed.

Lemma inet_chksum_pseudo_spec p src dest proto proto_len :
  Forall pbuf_ok p -> pseudo_ok src dest proto proto_len ->
  inet_chksum_pseudo p src dest proto proto_len =
  65535 - inet_sum (pseudo_header src dest proto proto_len ++ pbuf_data p).
Proof.
  intros Hp Hok. pose proof (pbuf_data_bytes p Hp) as Hb. pose proof (le_num_nonneg _ Hb).
  rewrite pseudo_sum by done. unfold inet_chksum_pseudo.
  change 0 with (swapped_sum 0 0) at 1. change false with (Nat.odd 0). rewrite chksum_chain_spec by (done || lia).
  destruct Hok as (Hs & Hd & Hpr & Hl).
  change (256 ^ Z.of_nat 0) with 1. rewrite chksum_pseudo_spec by (done || lia). do 2 f_equal. lia.
Qed.

(** A word stored at an even offset, in the place of zeros, adds itself. *)
Lemma inet_sum_store pre c post :
  Forall is_byte pre -> Forall is_byte post -> Nat.even (length pre) = true -> 0 <= c < 65536 ->
  inet_sum (pre ++ [c mod 256; c / 256] ++ post) = oc (inet_sum (pre ++ [0; 0] ++ post) + c).
Proof.
  intros Hpre Hpost He Hc. pose proof (le_num_nonneg _ Hpre). pose proof (le_num_nonneg _ Hpost). pose proof (pow256_pos (length pre)).
  assert (Forall is_byte [c mod 256; c / 256]).
  { repeat apply Forall_cons; [apply Z.mod_pos_bound; lia|split; [apply Z.div_pos|apply Z.div_lt_upper_bound]; lia|done]. }
  rewrite !inet_sum_oc by (repeat (apply Forall_app; split); try done; repeat constructor; unfold is_byte; lia).
  rewrite oc_add by (lia || (rewrite !le_num_app; cbn [le_num length]; nia)).
  rewrite !(le_num_app pre). cbn [app le_num]. set (P := 256 ^ zlen pre) in *. set (L := le_num post) in *.
  replace (c mod 256 + 256 * (c / 256 + 256 * L)) with (c + 65536 * L) by (pose proof (Z.div_mod c 256); lia).
  replace (le_num pre + P * (c + 65536 * L)) with (le_num pre + P * (65536 * L) + P * c) by lia.
  replace (0 + 256 * (0 + 256 * L)) with (65536 * L) by lia.
  rewrite <- (oc_add_r _ (P * c)) by nia. unfold P at 2. rewrite oc_pow, He, oc_add_r by nia. done.
Qed.
End Chains.

(** ** What the checksums are *)

(** C22: the three portable versions of [lwip_standard_chksum] agree, at every
    address of the data: each is the ones' complement sum of the words, versions
    1 and 2 up to the lengths their 32-bit accumulators carry (0x10000 and the
    0x20000 the comment of version 2 gives), version 3 at any length. *)
Theorem chksum_versions_agree p data :
  Forall is_byte data ->
  (zlen data <= 0x10000 -> lwip_standard_chksum_1 data = inet_sum data) /\
  (zlen data <= 0x20000 -> lwip_standard_chksum_2 p data = inet_sum data) /\
  lwip_standard_chksum_3 p data = inet_sum data.
Proof.
  intros Hb. split_and!; [intros; by apply chksum_1_sum|intros; by apply chksum_2_sum|by apply chksum_3_sum].
Qed.

(** The header of RFC 1071's example, at an odd address and with a byte more. *)
Lemma versions_witness :
  let data := [0x00; 0x01; 0xf2; 0x03; 0xf4; 0xf5; 0xf6; 0xf7; 0x11] in
  Forall is_byte data /\ inet_sum data = 0xf2ee /\ lwip_standard_chksum_1 data = 0xf2ee /\
  lwip_standard_chksum_2 0x10000001 data = 0xf2ee /\ lwip_standard_chksum_3 0x10000001 data = 0xf2ee.
Proof.
  intros data. assert (Hb : Forall is_byte data) by (repeat constructor; unfold is_byte; lia).
  assert (Hs : inet_sum data = 0xf2ee) by reflexivity.
  destruct (chksum_versions_agree 0x10000001 data Hb) as (H1 & H2 & H3).
  split_and!; [done|done|rewrite H1|rewrite H2|rewrite H3]; try done; cbn; lia.
Defined.

(** Each of them can serve. *)
Definition Chksum_1 : Chksum :=
  {| LWIP_CHKSUM _ bs := lwip_standard_chksum_1 bs;
     LWIP_CHKSUM_sum _ bs Hb Hl := chksum_1_sum bs Hb (Z.lt_le_incl _ _ Hl) |}.


(** Three buffers, two of odd length. *)
Definition chain_example : list pbuf :=
  [{| payload_at := 0x20000001; payload := [0x12; 0x34; 0x56] |};
   {| payload_at := 0x20000100; payload := [0xff] |};
   {| payload_at := 0x20000204; payload := [0x9a; 0xbc; 0xde; 0xf0] |}].


(** C33: the checksum protects what it is stored in: a block whose checksum was
    computed over zeros at an even offset and stored there has the checksum 0,
    which is what the receivers test, and with any other word there, 0 for
    0xffff aside, it has not. *)
Theorem inet_chksum_protects `{Chksum} p p' pre post :
  Forall is_byte pre -> Forall is_byte post -> Nat.even (length pre) = true ->
  zlen pre + zlen post < 65534 ->
  let c := inet_chksum p (pre ++ [0; 0] ++ post) in
  0 <= c < 65536 /\
  inet_chksum p' (pre ++ [c mod 256; c / 256] ++ post) = 0 /\
  forall w, 0 <= w < 65536 -> w mod 65535 <> c mod 65535 ->
    inet_chksum p' (pre ++ [w mod 256; w / 256] ++ post) <> 0.
Proof.
  intros Hpre Hpost He Hl c. assert (H0 : Forall is_byte (pre ++ [0; 0] ++ post)).
  { repeat (apply Forall_app; split); try done. repeat constructor; unfold is_byte; lia. }
  pose proof (oc_range (le_num (pre ++ [0; 0] ++ post))) as Hs. rewrite <- inet_sum_oc in Hs by done.
  assert (Hc : c = 65535 - inet_sum (pre ++ [0; 0] ++ post)).
  { apply inet_chksum_sum; [done|]. rewrite !length_app. cbn [length]. lia. }
  set (s := inet_sum (pre ++ [0; 0] ++ post)) in *.
  assert (Hw : forall w, 0 <= w < 65536 -> inet_chksum p' (pre ++ [w mod 256; w / 256] ++ post) = 65535 - oc (s + w)).
  { intros w Hw. rewrite inet_chksum_sum, inet_sum_store; [done|done|done|done|done| |rewrite !length_app; cbn [length]; lia].
    apply Forall_app; split; [done|]. repeat apply Forall_cons; [apply Z.mod_pos_bound; lia| |done].
    split; [apply Z.div_pos|apply Z.div_lt_upper_bound]; lia. }
  split_and!; [lia|lia|rewrite Hw by lia; replace (s + c) with 65535 by lia; done|].
  intros w Hw1 Hne. rewrite Hw by done. intros E. apply Hne. assert (Ho : oc (s + w) = 65535) by lia.
  pose proof (oc_mod (s + w)) as Hm. rewrite Ho in Hm. change (65535 mod 65535) with 0 in Hm. subst c.
  replace w with (65535 - s + (s + w + (-1) * 65535)) at 1 by lia. rewrite Hc.
  rewrite <- Zplus_mod_idemp_r, Z.mod_add, <- Hm, Z.add_0_r by lia. done.
Qed.

(** The IP header of a ping: the checksum field is at offset 10. *)
Lemma inet_chksum_protects_witness :
  @inet_chksum Chksum_1 0
    ([0x45; 0; 0; 0x54; 0; 0; 0x40; 0; 0x40; 1] ++ [0xb7; 0x55] ++ [0xc0; 0xa8; 1; 1; 0xc0; 0xa8; 1; 2]) = 0.
Proof.
  apply (@inet_chksum_protects Chksum_1 0 0 [0x45; 0; 0; 0x54; 0; 0; 0x40; 0; 0x40; 1] [0xc0; 0xa8; 1; 1; 0xc0; 0xa8; 1; 2]).
  all: try (repeat constructor; unfold is_byte; lia); cbn; lia.
Defined.
