(* ===== verification/LwipMem.v ===== *)
(** * The heap ([mem.c])

    The heap of lwIP is an array [ram] with a [struct mem] in front of every
    block.  The model keeps the structs by their offsets in the array; where no
    struct has been written, or another one has been written over it, reading
    is stuck ([None]).  Pointers are offsets from [ram], and [NULL] is [None].
    Every function runs alone: it holds [mem_mutex]. *)

From stdpp Require Import gmap.
From S2P Require Export Prelude.

(** ** Sizes *)

Definition MEM_ALIGNMENT : Z := 4.
Definition LWIP_MEM_ALIGN_SIZE (size : Z) : Z := Z.land (size + MEM_ALIGNMENT - 1) (Z.lnot (MEM_ALIGNMENT - 1)).
Definition MEM_SIZE : Z := 1600.
Definition MIN_SIZE : Z := 12.
Definition MIN_SIZE_ALIGNED : Z := LWIP_MEM_ALIGN_SIZE MIN_SIZE.

(** [sizeof(struct mem)]: two [u16_t] and a [u8_t], padded. *)
Definition sizeof_mem : Z := 6.
Definition SIZEOF_STRUCT_MEM : Z := LWIP_MEM_ALIGN_SIZE sizeof_mem.
Definition MEM_SIZE_ALIGNED : Z := LWIP_MEM_ALIGN_SIZE MEM_SIZE.

(** ** State *)

Record mem := Mem { next : Z; prev : Z; used : Z }.

Record heap := Heap { ram : gmap Z mem; lfree : Z }.

(** [ram_end], as an offset. *)
Definition ram_end : Z := MEM_SIZE_ALIGNED.

Definition set_next (v : Z) (m : mem) : mem := Mem v (prev m) (used m).
Definition set_prev (v : Z) (m : mem) : mem := Mem (next m) v (used m).
Definition set_used (v : Z) (m : mem) : mem := Mem (next m) (prev m) v.
Definition set_lfree (o : Z) (h : heap) : heap := Heap (ram h) o.

(** A change of one field of the struct at [o]. *)
Definition upd (o : Z) (f : mem -> mem) (h : heap) : option heap :=
  m ← ram h !! o; Some (Heap (<[o := f m]> (ram h)) (lfree h)).

(** A new struct at [o]: those it overlaps are lost. *)
Definition new_mem (o : Z) (m : mem) (h : heap) : heap :=
  Heap (<[o := m]> (filter (fun km => sizeof_mem <= Z.abs (km.1 - o)) (ram h))) (lfree h).

(** ** Operations *)

Definition mem_init (h : heap) : heap :=
  let h := new_mem 0 (Mem MEM_SIZE_ALIGNED 0 0) h in
  let h := new_mem MEM_SIZE_ALIGNED (Mem MEM_SIZE_ALIGNED MEM_SIZE_ALIGNED 1) h in
  set_lfree 0 h.

(** [plug_holes]: first the hole behind [mem], *)
Definition plug_forward (mem : Z) (h : heap) : option heap :=
  m ← ram h !! mem;
  let nmem := next m in
  n ← ram h !! nmem;
  if negb (mem =? nmem) && (used n =? 0) && negb (nmem =? ram_end) then
    let h := if lfree h =? nmem then set_lfree mem h else h in
    h ← upd mem (set_next (next n)) h;
    upd (next n) (set_prev (u16 mem)) h
  else Some h.

(** then the one in front of it. *)
Definition plug_backward (mem : Z) (h : heap) : option heap :=
  m ← ram h !! mem;
  let pmem := prev m in
  p ← ram h !! pmem;
  if negb (pmem =? mem) && (used p =? 0) then
    let h := if lfree h =? mem then set_lfree pmem h else h in
    h ← upd pmem (set_next (next m)) h;
    upd (next m) (set_prev (u16 pmem)) h
  else Some h.

Definition plug_holes (mem : Z) (h : heap) : option heap :=
  h ← plug_forward mem h;
  plug_backward mem h.

Definition mem_free (rmem : option Z) (h : heap) : option heap :=
  match rmem with
  | None => Some h
  | Some rmem =>
      if (rmem <? 0) || (ram_end <=? rmem) then Some h
      else
        let mem := rmem - SIZEOF_STRUCT_MEM in
        h ← upd mem (set_used 0) h;
        let h := if mem <? lfree h then set_lfree mem h else h in
        plug_holes mem h
  end.

(** The requested size, rounded up in a [mem_size_t]. *)
Definition block_size (size : Z) : Z :=
  let size := u16 (LWIP_MEM_ALIGN_SIZE size) in
  if size <? MIN_SIZE_ALIGNED then MIN_SIZE_ALIGNED else size.

(** A free block [mem2] between the block at [ptr], which [f] changes too, and
    the one at [next]. *)
Definition insert_free (ptr ptr2 next : Z) (f : mem -> mem) (h : heap) : option heap :=
  let h := new_mem ptr2 (Mem next ptr 0) h in
  h ← upd ptr (fun m => f (set_next ptr2 m)) h;
  if negb (next =? MEM_SIZE_ALIGNED) then upd next (set_prev ptr2) h else Some h.

Definition mem_trim (rmem newsize : Z) (h : heap) : option (option Z * heap) :=
  let newsize := block_size newsize in
  if MEM_SIZE_ALIGNED <? newsize then Some (None, h)
  else if (rmem <? 0) || (ram_end <=? rmem) then Some (Some rmem, h)
  else
    let mem := rmem - SIZEOF_STRUCT_MEM in
    let ptr := u16 mem in
    m ← ram h !! mem;
    let size := u16 (next m - ptr - SIZEOF_STRUCT_MEM) in
    if size <? newsize then Some (None, h)
    else if newsize =? size then Some (Some rmem, h)
    else
      mem2 ← ram h !! next m;
      let ptr2 := u16 (ptr + SIZEOF_STRUCT_MEM + newsize) in
      if used mem2 =? 0 then
        let h := if lfree h =? next m then set_lfree ptr2 h else h in
        h ← insert_free ptr ptr2 (next mem2) id h;
        Some (Some rmem, h)
      else if newsize + SIZEOF_STRUCT_MEM + MIN_SIZE_ALIGNED <=? size then
        let h := if ptr2 <? lfree h then set_lfree ptr2 h else h in
        h ← insert_free ptr ptr2 (next m) id h;
        Some (Some rmem, h)
      else Some (Some rmem, h).

(** [while (lfree->used && lfree != ram_end)] *)
Fixpoint lfree_loop (fuel : nat) (h : heap) : option heap :=
  match fuel with
  | O => None
  | S fuel =>
      m ← ram h !! lfree h;
      if negb (used m =? 0) && negb (lfree h =? ram_end) then lfree_loop fuel (set_lfree (next m) h) else Some h
  end.

(** The block at [ptr] is taken: it is split when the rest can hold a block. *)
Definition malloc_take (ptr size : Z) (m : mem) (h : heap) : option heap :=
  if size + SIZEOF_STRUCT_MEM + MIN_SIZE_ALIGNED <=? u32 (next m - (ptr + SIZEOF_STRUCT_MEM)) then
    insert_free ptr (u16 (ptr + SIZEOF_STRUCT_MEM + size)) (next m) (set_used 1) h
  else upd ptr (set_used 1) h.

(** [for (ptr = lfree - ram; ptr < MEM_SIZE_ALIGNED - size; ptr = ram[ptr].next)] *)
Fixpoint malloc_loop (fuel : nat) (ptr size : Z) (h : heap) : option (option Z * heap) :=
  match fuel with
  | O => None
  | S fuel' =>
      if ptr <? MEM_SIZE_ALIGNED - size then
        m ← ram h !! ptr;
        if (used m =? 0) && (size <=? u32 (next m - (ptr + SIZEOF_STRUCT_MEM))) then
          h ← malloc_take ptr size m h;
          h ← (if ptr =? lfree h then lfree_loop fuel h else Some h);
          Some (Some (ptr + SIZEOF_STRUCT_MEM), h)
        else malloc_loop fuel' (next m) size h
      else Some (None, h)
  end.

(** Every turn of a loop moves past a block of at least 20 bytes. *)
Definition heap_fuel : nat := 100.

Definition mem_malloc (size : Z) (h : heap) : option (option Z * heap) :=
  if size =? 0 then Some (None, h)
  else
    let size := block_size size in
    if MEM_SIZE_ALIGNED <? size then Some (None, h)
    else malloc_loop heap_fuel (u16 (lfree h)) size h.

(** [memset(p, 0, n)]: whatever structs were there are lost. *)
Definition mem_clear (p n : Z) (h : heap) : heap :=
  Heap (filter (fun km => km.1 + sizeof_mem <= p \/ p + n <= km.1) (ram h)) (lfree h).

Definition mem_calloc (count size : Z) (h : heap) : option (option Z * heap) :=
  '(p, h) ← mem_malloc (u16 (count * size)) h;
  match p with
  | Some p => Some (Some p, mem_clear p (count * size) h)
  | None => Some (None, h)
  end.

(** ** Blocks

    The abstract heap: the blocks in the order of their addresses, each with
    the size of its data and whether it is in use. *)

Record block := Block { bsize : Z; bused : bool }.

Definition span (b : block) : Z := SIZEOF_STRUCT_MEM + bsize b.

(** Where blocks that begin at [o] end, and where the last of them begins. *)
Fixpoint fin (o : Z) (bs : list block) : Z :=
  match bs with [] => o | b :: bs => fin (o + span b) bs end.

Fixpoint lst (o p : Z) (bs : list block) : Z :=
  match bs with [] => p | b :: bs => lst (o + span b) o bs end.

(** The structs of blocks that begin at [o]; the block before begins at [p]. *)
Fixpoint seg (r : gmap Z mem) (o p : Z) (bs : list block) : Prop :=
  match bs with
  | [] => True
  | b :: bs => r !! o = Some (Mem (o + span b) p (if bused b then 1 else 0)) /\ seg r (o + span b) o bs
  end.

(** The blocks up to the end of the heap, and the struct there. *)
Definition tail (r : gmap Z mem) (o p : Z) (bs : list block) : Prop :=
  seg r o p bs /\ fin o bs = ram_end /\ exists e, r !! ram_end = Some (Mem ram_end e 1).

(** Sizes are aligned and never smaller than [MIN_SIZE]. *)
Definition size_ok (b : block) : Prop := 12 <= bsize b /\ bsize b mod 4 = 0.

(** No two free blocks are neighbours; [u] says whether the block before is in use. *)
Fixpoint no_holes (u : bool) (bs : list block) : Prop :=
  match bs with [] => True | b :: bs => (u || bused b = true) /\ no_holes (bused b) bs end.

Fixpoint last_used (u : bool) (bs : list block) : bool :=
  match bs with [] => u | b :: bs => last_used (bused b) bs end.

(** The lowest free block, or the end. *)
Fixpoint first_free (o : Z) (bs : list block) : Z :=
  match bs with [] => o | b :: bs => if bused b then first_free (o + span b) bs else o end.

Record heap_ok (h : heap) (bs : list block) : Prop := {
  heap_tail : tail (ram h) 0 0 bs;
  heap_sizes : Forall size_ok bs;
  heap_holes : no_holes true bs;
  heap_lfree : lfree h = first_free 0 bs
}.

Lemma constants : SIZEOF_STRUCT_MEM = 8 /\ MEM_SIZE_ALIGNED = 1600 /\ MIN_SIZE_ALIGNED = 12.
Proof. done. Qed.

Ltac sizes := change SIZEOF_STRUCT_MEM with 8 in *; change ram_end with 1600 in *;
  change MEM_SIZE_ALIGNED with 1600 in *; change MIN_SIZE_ALIGNED with 12 in *.

Lemma span_pos b : size_ok b -> 20 <= span b.
Proof. unfold size_ok, span. sizes. lia. Qed.

Lemma fin_app o a b : fin o (a ++ b) = fin (fin o a) b.
Proof. revert o. induction a as [|x a IH]; intros o; [done|]. apply IH. Qed.

Lemma fin_ge o bs : Forall size_ok bs -> o + 20 * Z.of_nat (length bs) <= fin o bs.
Proof.
  intros H. revert o. induction H as [|b bs Hb _ IH]; intros o; cbn [fin length]; [lia|].
  pose proof (span_pos b Hb). specialize (IH (o + span b)). lia.
Qed.

Lemma lst_blocks_app o p a b : lst o p (a ++ b) = lst (fin o a) (lst o p a) b.
Proof. revert o p. induction a as [|x a IH]; intros o p; [done|]. apply IH. Qed.

Lemma seg_blocks_app r o p a b : seg r o p (a ++ b) <-> seg r o p a /\ seg r (fin o a) (lst o p a) b.
Proof. revert o p. induction a as [|x a IH]; intros o p; cbn [seg app fin lst]; [tauto|]. rewrite IH. tauto. Qed.

Lemma tail_app r o p a b : tail r o p (a ++ b) <-> seg r o p a /\ tail r (fin o a) (lst o p a) b.
Proof. unfold tail. rewrite seg_blocks_app, fin_app. tauto. Qed.

Lemma tail_cons r o p b bs :
  tail r o p (b :: bs) <->
  r !! o = Some (Mem (o + span b) p (if bused b then 1 else 0)) /\ tail r (o + span b) o bs.
Proof. unfold tail. cbn [seg fin]. tauto. Qed.

Lemma no_holes_app u a b : no_holes u (a ++ b) <-> no_holes u a /\ no_holes (last_used u a) b.
Proof. revert u. induction a as [|x a IH]; intros u; cbn [no_holes app last_used]; [tauto|]. rewrite IH. tauto. Qed.

Lemma no_holes_weaken u bs : no_holes u bs -> no_holes true bs.
Proof. destruct bs; [done|]. cbn. tauto. Qed.

(** Structs are found only from their own offset: changes elsewhere keep a segment. *)
Lemma seg_frame r r' o p bs :
  Forall size_ok bs -> (forall k, o <= k < fin o bs -> r' !! k = r !! k) -> seg r o p bs -> seg r' o p bs.
Proof.
  intros H. revert o p. induction H as [|b bs Hb Hbs IH]; intros o p Hr; cbn [seg fin] in *; [done|].
  pose proof (span_pos b Hb). pose proof (fin_ge (o + span b) bs Hbs). intros [H1 H2]. split.
  - rewrite Hr by lia. done.
  - apply IH; [|done]. intros k Hk. apply Hr. lia.
Qed.

Lemma tail_end r o p bs : Forall size_ok bs -> tail r o p bs -> o + 20 * Z.of_nat (length bs) <= 1600.
Proof. intros Hs (_ & Hf & _). pose proof (fin_ge o bs Hs). sizes. lia. Qed.

Lemma tail_frame r r' o p bs :
  Forall size_ok bs -> (forall k, o <= k -> r' !! k = r !! k) -> tail r o p bs -> tail r' o p bs.
Proof.
  intros Hs Hr Ht. pose proof (tail_end r o p bs Hs Ht). destruct Ht as (H1 & H2 & e & H3).
  split_and!; [|done|].
  - apply (seg_frame r); [done| |done]. intros k Hk. apply Hr. lia.
  - exists e. rewrite Hr; [done|]. sizes. lia.
Qed.

(** The struct where a tail begins gets another predecessor. *)
Lemma tail_prev r o p p' bs :
  Forall size_ok bs -> tail r o p bs ->
  exists m, r !! o = Some m /\ next m = match bs with [] => ram_end | b :: _ => o + span b end /\
    used m = (match bs with [] => 1 | b :: _ => if bused b then 1 else 0 end) /\
    tail (<[o := set_prev p' m]> r) o p' bs.
Proof.
  intros Hs Ht. destruct bs as [|b bs].
  - destruct Ht as (_ & Hf & e & He). cbn [fin] in Hf. subst o. exists (Mem ram_end e 1).
    split_and!; [done..|]. unfold tail. cbn [seg fin]. rewrite lookup_insert_eq. split_and!; [done..|]. by exists p'.
  - rewrite tail_cons in Ht. destruct Ht as [H1 H2]. exists (Mem (o + span b) p (if bused b then 1 else 0)).
    split_and!; [done..|]. rewrite tail_cons, lookup_insert_eq. split; [done|].
    apply Forall_cons_iff in Hs as [Hb Hs]. pose proof (span_pos b Hb).
    apply (tail_frame r); [done| |done]. intros k Hk. apply lookup_insert_ne. lia.
Qed.

Lemma first_free_app o a b :
  first_free o (a ++ b) = if forallb bused a then first_free (fin o a) b else first_free o a.
Proof.
  revert o. induction a as [|x a IH]; intros o; [done|]. cbn [first_free app forallb fin].
  destruct (bused x); cbn [andb]; [apply IH|done].
Qed.

Lemma first_free_ge o bs : Forall size_ok bs -> o <= first_free o bs <= fin o bs.
Proof.
  intros H. revert o. induction H as [|b bs Hb Hbs IH]; intros o; cbn [first_free fin]; [lia|].
  pose proof (span_pos b Hb). pose proof (fin_ge (o + span b) bs Hbs). specialize (IH (o + span b)).
  destruct (bused b); lia.
Qed.

(** A free block of [bs] begins before its end. *)
Lemma first_free_lt o bs : Forall size_ok bs -> forallb bused bs = false -> first_free o bs + 20 <= fin o bs.
Proof.
  intros H. revert o. induction H as [|b bs Hb Hbs IH]; intros o; cbn [first_free fin forallb]; [done|].
  pose proof (span_pos b Hb). pose proof (fin_ge (o + span b) bs Hbs). specialize (IH (o + span b)).
  destruct (bused b); cbn [andb]; [done|lia].
Qed.

Lemma first_free_used o bs : forallb bused bs = true -> first_free o bs = fin o bs.
Proof.
  revert o. induction bs as [|b bs IH]; intros o; [done|]. cbn [forallb first_free fin].
  destruct (bused b); [apply IH|done].
Qed.

Lemma last_used_snoc u l b : last_used u (l ++ [b]) = bused b.
Proof. revert u. induction l as [|x l IH]; intros u; [done|]. apply IH. Qed.

Lemma tail_fits r o p bs : Forall size_ok bs -> tail r o p bs -> Forall (fun b => o + 8 + bsize b <= 1600) bs.
Proof.
  intros Hs. revert o p. induction Hs as [|b bs Hb Hs IH]; intros o p Ht; [done|]. apply tail_cons in Ht as [_ Ht].
  pose proof (tail_end _ _ _ _ Hs Ht). pose proof (span_pos b Hb). constructor; [unfold span in *; sizes; lia|].
  eapply Forall_impl; [|by eapply IH]. cbn. lia.
Qed.

(** ** One block of a heap *)

(** [o] is the offset of the block between [l] and [r]. *)
Record block_at (h : heap) (l : list block) (b : block) (r : list block) (o : Z) : Prop := {
  at_fin : o = fin 0 l;
  at_mem : ram h !! o = Some (Mem (o + span b) (lst 0 0 l) (if bused b then 1 else 0));
  at_before : seg (ram h) 0 0 l;
  at_after : tail (ram h) (o + span b) o r;
  at_sizes : Forall size_ok l /\ size_ok b /\ Forall size_ok r;
  at_range : 0 <= o /\ o + span b <= 1600;
  at_lfree : lfree h = first_free 0 (l ++ b :: r)
}.

Lemma heap_at h l b r : heap_ok h (l ++ b :: r) -> block_at h l b r (fin 0 l).
Proof.
  intros [Ht Hs _ Hf]. rewrite tail_app, tail_cons in Ht. destruct Ht as (Hl & Hm & Hr).
  apply Forall_app in Hs as [Hsl Hs]. apply Forall_cons_iff in Hs as [Hb Hsr].
  pose proof (fin_ge 0 l Hsl). pose proof (tail_end _ _ _ _ Hsr Hr). pose proof (span_pos b Hb).
  split; try done. lia.
Qed.

(** A heap is put together again around new blocks [bs] from [o] on. *)
Lemma heap_rebuild h h' l (bs : list block) :
  Forall size_ok l -> Forall size_ok bs -> seg (ram h) 0 0 l -> (forall k, k < fin 0 l -> ram h' !! k = ram h !! k) ->
  tail (ram h') (fin 0 l) (lst 0 0 l) bs -> no_holes true (l ++ bs) -> lfree h' = first_free 0 (l ++ bs) ->
  heap_ok h' (l ++ bs).
Proof.
  intros Hl Hbs Hseg Hk Ht Hn Hf. split; [|by apply Forall_app|done|done].
  rewrite tail_app. split; [|done]. apply (seg_frame (ram h)); [done| |done]. intros k Hk'. apply Hk. lia.
Qed.

Lemma lookup_new_mem o m h k : sizeof_mem <= Z.abs (k - o) -> ram (new_mem o m h) !! k = ram h !! k.
Proof.
  intros Hk. cbn. unfold sizeof_mem in *. rewrite lookup_insert_ne by lia. rewrite map_lookup_filter.
  destruct (ram h !! k) as [x|]; [|done]. cbn. by rewrite option_guard_True.
Qed.

Lemma upd_some o f h m : ram h !! o = Some m -> upd o f h = Some (Heap (<[o := f m]> (ram h)) (lfree h)).
Proof. intros E. unfold upd. by rewrite E. Qed.

(** The struct for a free block at [o2], between [o] and the blocks [rest] at [n]. *)
Lemma insert_free_spec o o2 n f h m q rest :
  ram h !! o = Some m -> tail (ram h) n q rest -> Forall size_ok rest ->
  o + 20 <= o2 -> o2 + 20 <= n ->
  exists h', insert_free o o2 n f h = Some h' /\ lfree h' = lfree h /\
    (forall k, k < o -> ram h' !! k = ram h !! k) /\
    ram h' !! o = Some (f (set_next o2 m)) /\ ram h' !! o2 = Some (Mem n o 0) /\ tail (ram h') n o2 rest.
Proof.
  intros Hm Ht Hs H1 H2. unfold insert_free.
  set (h1 := new_mem o2 (Mem n o 0) h).
  assert (Hk : forall k, k <= o \/ n <= k -> ram h1 !! k = ram h !! k).
  { intros k Hk. apply lookup_new_mem. unfold sizeof_mem. lia. }
  rewrite (upd_some o _ h1 m) by (rewrite Hk by lia; done). cbn [mbind option_bind ram lfree].
  set (r2 := <[o := _]> (ram h1)).
  assert (Ht2 : tail r2 n q rest).
  { apply (tail_frame (ram h)); [done| |done]. intros k Hk'. unfold r2. rewrite lookup_insert_ne by lia. apply Hk. lia. }
  assert (Ho : r2 !! o = Some (f (set_next o2 m))) by apply lookup_insert_eq.
  assert (Ho2 : r2 !! o2 = Some (Mem n o 0)).
  { unfold r2. rewrite lookup_insert_ne by lia. apply lookup_insert_eq. }
  assert (Hlow : forall k, k < o -> r2 !! k = ram h !! k).
  { intros k Hk'. unfold r2. rewrite lookup_insert_ne by lia. apply Hk. lia. }
  destruct (tail_prev r2 n q o2 rest Hs Ht2) as (m2 & Hm2 & _ & _ & Ht3).
  destruct (Z.eqb_spec n MEM_SIZE_ALIGNED) as [E|E]; cbn [negb].
  - eexists. split; [reflexivity|]. cbn [ram lfree]. split_and!; try done.
    destruct Ht2 as (_ & Hf & He). destruct rest as [|b rest]; [by split_and!|].
    apply Forall_cons_iff in Hs as [Hb Hs]. pose proof (span_pos b Hb). pose proof (fin_ge (n + span b) rest Hs).
    cbn [fin] in Hf. sizes. lia.
  - rewrite (upd_some n _ _ m2) by done. eexists. split; [reflexivity|]. cbn [ram lfree].
    split_and!; [done|..]; try (intros k Hk'); rewrite ?lookup_insert_ne by lia; try done. by apply Hlow.
Qed.

(** ** Allocating *)

(** What becomes of a free block of size [s]. *)
Definition split_block (size s : Z) : list block :=
  if size + 20 <=? s then [Block size true; Block (s - size - 8) false] else [Block s true].

(** A size as the loop gets it. *)
Definition request_ok (size : Z) : Prop := 12 <= size <= 1600 /\ size mod 4 = 0.

Lemma mod4_sub s size : size mod 4 = 0 -> s mod 4 = 0 -> (s - size - 8) mod 4 = 0.
Proof.
  intros H1 H2. rewrite <- Z.sub_add_distr, Zminus_mod, H2, <- Zplus_mod_idemp_l, H1. done.
Qed.

Lemma split_sizes size s : request_ok size -> size_ok (Block s false) -> size <= s -> Forall size_ok (split_block size s).
Proof.
  intros [H1 H2] [H3 H4] Hle. cbn [bsize] in *. unfold split_block. destruct (Z.leb_spec (size + 20) s).
  - repeat apply Forall_cons; [split; cbn [bsize]; [lia|done]| |done]. split; cbn [bsize]; [lia|by apply mod4_sub].
  - by repeat apply Forall_cons.
Qed.

Lemma malloc_take_spec h l s r o size :
  block_at h l (Block s false) r o -> request_ok size -> size <= s ->
  exists m h', ram h !! o = Some m /\ used m = 0 /\ next m = o + 8 + s /\
    malloc_take o size m h = Some h' /\ lfree h' = lfree h /\
    (forall k, k < o -> ram h' !! k = ram h !! k) /\ tail (ram h') o (lst 0 0 l) (split_block size s ++ r).
Proof.
  intros [Ho Hm Hseg Ht (Hsl & Hb & Hsr) Hrange _] Hq Hle.
  pose proof (split_sizes size s Hq Hb Hle) as Hss. destruct Hq as [H1 H2], Hb as [H3 H4]. cbn [bsize bused] in *.
  unfold span in *. sizes. cbn [bsize bused] in *.
  eexists. unfold malloc_take, split_block in *. sizes.
  assert (Hu : u32 (o + (8 + s) - (o + 8)) = s) by (rewrite u32_id by lia; lia).
  destruct (Z.leb_spec (size + 20) s) as [Hlt|Hge].
  - destruct (insert_free_spec o (o + 8 + size) (o + (8 + s)) (set_used 1) h _ _ r Hm Ht Hsr)
      as (h' & E & Hlf & Hlow & Hmo & Hm2 & Ht2); [lia..|].
    exists h'. split; [exact Hm|]. cbn [used next]. rewrite Hu, u16_id by lia.
    split_and!; [done|lia| |done|done|].
    + rewrite (proj2 (Z.leb_le _ _)) by lia. exact E.
    + cbn [app]. rewrite !tail_cons. unfold span. sizes. cbn [bsize bused].
      replace (o + (8 + size)) with (o + 8 + size) by lia.
      replace (o + 8 + size + (8 + (s - size - 8))) with (o + (8 + s)) by lia.
      split_and!; [exact Hmo|exact Hm2|done].
  - exists (Heap (<[o := Mem (o + (8 + s)) (lst 0 0 l) 1]> (ram h)) (lfree h)).
    split; [exact Hm|]. cbn [used next]. rewrite Hu. split_and!; [done|lia| |done|..].
    + rewrite (proj2 (Z.leb_gt _ _)) by lia. by rewrite (upd_some o _ h _ Hm).
    + intros k Hk. cbn [ram]. apply lookup_insert_ne. lia.
    + cbn [app ram]. rewrite !tail_cons. unfold span. sizes. cbn [bsize bused]. rewrite lookup_insert_eq. split; [done|].
      apply (tail_frame (ram h)); [done| |done]. intros k Hk. apply lookup_insert_ne. lia.
Qed.

Lemma lfree_loop_spec fuel h o p bs :
  tail (ram h) o p bs -> lfree h = o -> (length bs < fuel)%nat -> Forall size_ok bs ->
  lfree_loop fuel h = Some (set_lfree (first_free o bs) h).
Proof.
  revert fuel h o p. induction bs as [|b bs IH]; intros [|fuel] h o p Ht Hf Hfuel Hs; cbn [length] in Hfuel; try lia;
    cbn [lfree_loop first_free]; rewrite Hf.
  - destruct Ht as (_ & He & e & Hm). cbn [fin] in He. subst o. rewrite Hm. cbn [mbind option_bind used].
    rewrite Z.eqb_refl, andb_false_r. unfold set_lfree. rewrite <- Hf. by destruct h.
  - pose proof (tail_end _ _ _ _ Hs Ht) as He. rewrite tail_cons in Ht. destruct Ht as [Hm Ht].
    rewrite Hm. cbn [mbind option_bind used next]. apply Forall_cons_iff in Hs as [Hb Hs]. pose proof (span_pos b Hb).
    destruct (bused b); cbn [Z.eqb negb andb].
    + rewrite (proj2 (Z.eqb_neq o ram_end)) by (sizes; cbn [length] in He; lia). cbn [negb].
      by rewrite (IH fuel (set_lfree (o + span b) h) (o + span b) o) by (done || lia).
    + subst o. by destruct h.
Qed.

(** The blocks the search passes. *)
Definition unfit (size : Z) (b : block) : Prop := bused b = true \/ bsize b < size.

Lemma split_holes l s r size :
  no_holes true (l ++ Block s false :: r) -> no_holes true (l ++ split_block size s ++ r).
Proof.
  rewrite !no_holes_app. intros [Hl Hr]. split; [done|]. cbn [no_holes bused] in Hr. destruct Hr as [_ Hr].
  unfold split_block. destruct (size + 20 <=? s); cbn [app no_holes bused]; rewrite orb_true_r; [done|].
  split; [done|by eapply no_holes_weaken].
Qed.

(** Taking a block, and moving [lfree] on when it was the lowest. *)
Lemma malloc_found h l s r size fuel :
  heap_ok h (l ++ Block s false :: r) -> request_ok size -> size <= s -> (S (S (length r)) < fuel)%nat ->
  exists m h1 h', ram h !! fin 0 l = Some m /\ used m = 0 /\ next m = fin 0 l + 8 + s /\
    malloc_take (fin 0 l) size m h = Some h1 /\
    (if fin 0 l =? lfree h1 then lfree_loop fuel h1 else Some h1) = Some h' /\
    heap_ok h' (l ++ split_block size s ++ r).
Proof.
  intros Hok Hq Hle Hfuel. pose proof (heap_at h l _ r Hok) as Hat.
  destruct (malloc_take_spec h l s r _ size Hat Hq Hle) as (m & h1 & Hm & Hu & Hn & E & Hlf & Hlow & Ht).
  destruct Hat as [_ _ Hseg _ (Hsl & Hb & Hsr) _ Hf].
  pose proof (split_sizes size s Hq Hb Hle) as Hss. assert (Hs2 : Forall size_ok (split_block size s ++ r)) by by apply Forall_app.
  exists m, h1. rewrite Hlf.
  assert (Hcase : (fin 0 l =? lfree h) = forallb bused l).
  { rewrite Hf, first_free_app. cbn [first_free bused]. destruct (forallb bused l) eqn:Eu; [apply Z.eqb_refl|].
    apply Z.eqb_neq. pose proof (first_free_lt 0 l Hsl Eu). lia. }
  rewrite Hcase. destruct (forallb bused l) eqn:Eu.
  - rewrite (lfree_loop_spec fuel h1 (fin 0 l) (lst 0 0 l) (split_block size s ++ r)); [|done| |rewrite length_app|done].
    2: { rewrite Hlf. symmetry. apply Z.eqb_eq. by rewrite Hcase. }
    2: { unfold split_block. destruct (_ <=? _); cbn [length]; lia. }
    eexists. split_and!; [done..|]. eapply heap_rebuild; try done; [by apply split_holes, Hok|].
    cbn [lfree set_lfree]. by rewrite (first_free_app 0 l), Eu.
  - exists h1. split_and!; [done..|]. eapply heap_rebuild; try done; [by apply split_holes, Hok|].
    by rewrite Hlf, Hf, !(first_free_app 0 l), Eu.
Qed.

Lemma malloc_loop_spec fuel h l r size :
  heap_ok h (l ++ r) -> request_ok size -> Forall (unfit size) l -> (S (length r) < fuel)%nat ->
  (exists l2 s r2 h', l ++ r = l2 ++ Block s false :: r2 /\ size <= s /\ Forall (unfit size) l2 /\
     malloc_loop fuel (fin 0 l) size h = Some (Some (fin 0 l2 + 8), h') /\ heap_ok h' (l2 ++ split_block size s ++ r2)) \/
  (Forall (unfit size) (l ++ r) /\ malloc_loop fuel (fin 0 l) size h = Some (None, h)).
Proof.
  revert l r. induction fuel as [|fuel IH]; intros l r Hok Hq Hl Hfuel; [lia|]. cbn [malloc_loop]. sizes.
  destruct (Z.ltb_spec (fin 0 l) (1600 - size)) as [Hlt|Hge].
  - destruct r as [|b r].
    { destruct Hok as [(_ & Hf & _) _ _ _]. rewrite app_nil_r in Hf. sizes. destruct Hq. lia. }
    pose proof (heap_at h l b r Hok) as Hat. destruct Hat as [_ Hm _ _ (_ & Hb & _) Hrange _].
    rewrite Hm. cbn [mbind option_bind used next].
    assert (Hu : u32 (fin 0 l + span b - (fin 0 l + 8)) = bsize b).
    { unfold span, size_ok in *. sizes. rewrite u32_id by lia. lia. }
    rewrite Hu. destruct (((if bused b then 1 else 0) =? 0) && (size <=? bsize b)) eqn:Efit.
    + apply andb_true_iff in Efit as [Eu Ele]. apply Z.leb_le in Ele. destruct b as [s [|]]; [done|]. cbn [bsize] in *.
      destruct (malloc_found h l s r size (S fuel) Hok Hq Ele) as (m & h1 & h' & Hm' & _ & _ & E1 & E2 & Hok');
        [cbn [length] in Hfuel; lia|].
      left. exists l, s, r, h'. split_and!; [done..| |done].
      rewrite Hm in Hm'. injection Hm' as <-. cbn [bused]. rewrite E1. cbn [mbind option_bind]. by rewrite E2.
    + replace (fin 0 l + span b) with (fin 0 (l ++ [b])) by (by rewrite fin_app).
      pose proof (IH (l ++ [b]) r) as IH'. rewrite <- app_assoc in IH'. cbn [app] in IH'.
      apply IH'; [done|done| |cbn [length] in Hfuel; lia].
      apply Forall_app. split; [done|]. apply Forall_singleton. unfold unfit.
      destruct (bused b); [by left|right]. cbn [Z.eqb andb] in Efit. by apply Z.leb_gt.
  - right. split; [|done]. apply Forall_app. split; [done|].
    destruct Hok as [Ht Hs _ _]. rewrite tail_app in Ht. destruct Ht as [_ Ht]. apply Forall_app in Hs as [_ Hs].
    eapply Forall_impl; [|by eapply tail_fits]. intros b Hb. right. cbn in Hb. lia.
Qed.

(** Rounding up to a multiple of 4. *)
Lemma align_spec size : 0 <= size -> LWIP_MEM_ALIGN_SIZE size mod 4 = 0 /\ size <= LWIP_MEM_ALIGN_SIZE size <= size + 3.
Proof.
  intros Hs. unfold LWIP_MEM_ALIGN_SIZE, MEM_ALIGNMENT. change (4 - 1) with (Z.ones 2).
  rewrite <- Z.ldiff_land, Z.ldiff_ones_r, Z.shiftl_mul_pow2, Z.shiftr_div_pow2 by lia. change (2 ^ 2) with 4.
  split; [apply Z.mod_mul; lia|]. pose proof (Z.div_mod (size + 4 - 1) 4). pose proof (Z.mod_pos_bound (size + 4 - 1) 4). lia.
Qed.

Lemma block_size_spec size : 0 <= size <= 65532 ->
  block_size size = Z.max 12 (LWIP_MEM_ALIGN_SIZE size) /\ 12 <= block_size size /\ size <= block_size size <= size + 15 /\
  block_size size mod 4 = 0.
Proof.
  intros Hs. destruct (align_spec size) as [H1 H2]; [lia|]. unfold block_size.
  assert (Hu : u16 (LWIP_MEM_ALIGN_SIZE size) = LWIP_MEM_ALIGN_SIZE size).
  { apply u16_id. split; [lia|]. assert (LWIP_MEM_ALIGN_SIZE size <> 65536); [|lia]. intros E.
    assert (65533 <= size) by lia. lia. }
  rewrite Hu. sizes. destruct (Z.ltb_spec (LWIP_MEM_ALIGN_SIZE size) 12); split_and!; try lia; done.
Qed.

(** ** Freeing *)

(** Neighbouring free blocks become one. *)
Fixpoint merge (bs : list block) : list block :=
  match bs with
  | [] => []
  | b :: bs =>
      match merge bs with
      | c :: r => if negb (bused b) && negb (bused c) then Block (bsize b + 8 + bsize c) false :: r else b :: c :: r
      | [] => [b]
      end
  end.

Lemma merge_id u bs : no_holes u bs -> merge bs = bs.
Proof.
  revert u. induction bs as [|b bs IH]; intros u; [done|]. cbn [no_holes merge]. intros [_ H]. rewrite (IH _ H).
  destruct bs as [|c bs]; [done|]. destruct H as [H _]. by destruct (bused b), (bused c).
Qed.

(** Blocks that end with one in use are not merged with what follows. *)
Lemma merge_app u l x : no_holes u l -> last_used u l = true -> merge (l ++ x) = l ++ merge x.
Proof.
  revert u. induction l as [|b l IH]; intros u; [done|]. cbn [no_holes last_used app merge]. intros [_ H] Hl.
  rewrite (IH _ H Hl). destruct l as [|c l]; cbn [app].
  - cbn in Hl. rewrite Hl. by destruct (merge x).
  - destruct H as [H _]. by destruct (bused b), (bused c).
Qed.

Lemma merge_no_holes bs : no_holes true (merge bs).
Proof.
  induction bs as [|b bs IH]; [done|]. cbn [merge]. destruct (merge bs) as [|c r]; [done|].
  destruct IH as [_ Hr]. destruct (bused b) eqn:Eb, (bused c) eqn:Ec; cbn [negb andb no_holes bused orb]; by rewrite ?Eb, ?Ec.
Qed.

Lemma merge_merge l x : merge (l ++ merge x) = merge (l ++ x).
Proof. induction l as [|b l IH]; cbn [app merge]; [by eapply merge_id, merge_no_holes|by rewrite IH]. Qed.

Lemma plug_forward_spec h o p s r :
  ram h !! o = Some (Mem (o + 8 + s) p 0) -> tail (ram h) (o + 8 + s) o r -> size_ok (Block s false) ->
  Forall size_ok r -> no_holes true r -> 0 <= o -> lfree h <= o ->
  exists h' s' r', plug_forward o h = Some h' /\ merge (Block s false :: r) = Block s' false :: r' /\
    no_holes true (Block s' false :: r') /\ size_ok (Block s' false) /\ Forall size_ok r' /\
    lfree h' = lfree h /\ (forall k, k < o -> ram h' !! k = ram h !! k) /\
    ram h' !! o = Some (Mem (o + 8 + s') p 0) /\ tail (ram h') (o + 8 + s') o r'.
Proof.
  intros Hm Ht Hs Hsr Hn Ho Hlf. pose proof (tail_end _ _ _ _ Hsr Ht) as Hend.
  destruct Hs as [Hs1 Hs2]. cbn [bsize] in *. unfold plug_forward. rewrite Hm. cbn [mbind option_bind next].
  destruct (tail_prev _ _ _ o r Hsr Ht) as (mn & Hmn & Hnn & Hun & _). rewrite Hmn. cbn [mbind option_bind].
  assert (Hkeep : forall r, no_holes false r -> no_holes true (Block s false :: r)) by done.
  assert (Hst : size_ok (Block s false)) by done.
  rewrite (proj2 (Z.eqb_neq o (o + 8 + s))), Hun by lia. cbn [negb andb].
  destruct r as [|[s2 [|]] r2]; cbn [bused] in *.
  - exists h, s, []. cbn [Z.eqb andb]. split_and!; done.
  - exists h, s, (Block s2 true :: r2). cbn [Z.eqb andb].
    split_and!; try done. by apply (merge_id true).
  - rewrite Z.eqb_refl. cbn [length] in Hend. sizes. rewrite (proj2 (Z.eqb_neq (o + 8 + s) 1600)) by lia.
    cbn [negb andb]. rewrite (proj2 (Z.eqb_neq (lfree h) (o + 8 + s))), Hnn by lia.
    unfold span. sizes. cbn [bsize]. apply Forall_cons_iff in Hsr as [[Hs3 Hs4] Hsr]. cbn [bsize] in *.
    rewrite (upd_some o _ h _ Hm). cbn [mbind option_bind]. set (r1 := <[o := _]> (ram h)).
    apply tail_cons in Ht as [_ Ht]. unfold span in Ht. sizes. cbn [bsize] in Ht.
    assert (Ht1 : tail r1 (o + 8 + s + (8 + s2)) (o + 8 + s) r2).
    { apply (tail_frame (ram h)); [done| |done]. intros k Hk. apply lookup_insert_ne. lia. }
    destruct (tail_prev _ _ _ (u16 o) r2 Hsr Ht1) as (m2 & Hm2 & _ & _ & Ht2). rewrite u16_id in * by lia.
    rewrite (upd_some _ _ (Heap r1 (lfree h)) _ Hm2). eexists (Heap _ _), (s + 8 + s2), r2. cbn [ram lfree].
    destruct Hn as [_ Hn]. cbn [bused] in Hn. split_and!; [reflexivity|..]; try done.
    + cbn [merge]. rewrite (merge_id _ _ Hn). destruct r2 as [|c r2]; [done|].
      destruct Hn as [Hn _]. cbn [orb] in Hn. cbn [bused negb andb]. by rewrite Hn.
    + split; cbn [bsize]; [lia|]. by rewrite Zplus_mod, (Zplus_mod s 8), Hs2, Hs4.
    + intros k Hk. unfold r1. by rewrite !lookup_insert_ne by lia.
    + rewrite lookup_insert_ne by lia. unfold r1. rewrite lookup_insert_eq. unfold set_next. cbn [prev used]. do 2 f_equal. lia.
    + replace (o + 8 + (s + 8 + s2)) with (o + 8 + s + (8 + s2)) by lia. done.
Qed.

(** The hole in front: [r] is what follows the freed block, [s] its size. *)
Lemma plug_backward_spec h l s r :
  seg (ram h) 0 0 l -> Forall size_ok l -> no_holes true l ->
  ram h !! fin 0 l = Some (Mem (fin 0 l + 8 + s) (lst 0 0 l) 0) ->
  tail (ram h) (fin 0 l + 8 + s) (fin 0 l) r -> size_ok (Block s false) -> Forall size_ok r ->
  no_holes true (Block s false :: r) -> lfree h = first_free 0 l ->
  exists h', plug_backward (fin 0 l) h = Some h' /\ heap_ok h' (merge (l ++ Block s false :: r)).
Proof.
  intros Hseg Hsl Hnl Hm Ht Hs Hsr Hn Hlf. pose proof (tail_end _ _ _ _ Hsr Ht) as Hend.
  pose proof (fin_ge 0 l Hsl). destruct Hs as [Hs1 Hs2]. cbn [bsize] in Hs1, Hs2.
  unfold plug_backward. rewrite Hm. cbn [mbind option_bind prev next].
  (* The result when nothing is in front. *)
  assert (Hkeep : last_used true l = true -> heap_ok h (merge (l ++ Block s false :: r))).
  { intros Hu. rewrite (merge_app true), (merge_id true (_ :: r)) by done.
    apply (heap_rebuild h); try done; [by constructor| | |].
    - rewrite tail_cons. unfold span. sizes. cbn [bsize bused]. by rewrite Z.add_assoc.
    - apply no_holes_app. by rewrite Hu.
    - rewrite Hlf, (first_free_app 0 l). destruct (forallb bused l) eqn:E; [by apply first_free_used|done]. }
  destruct l as [|c l _] using rev_ind.
  - cbn [lst fin] in *. rewrite Hm. cbn [mbind option_bind]. cbn [Z.eqb negb andb]. eauto.
  - apply seg_blocks_app in Hseg as [Hseg [Hc _]]. apply Forall_app in Hsl as [Hsl Hc2]. rewrite Forall_singleton in Hc2.
    rewrite last_used_snoc in Hkeep. rewrite <- app_assoc. cbn [app].
    apply no_holes_app in Hnl as [Hnl Hnc]. pose proof (span_pos c Hc2). pose proof (fin_ge 0 l Hsl).
    rewrite fin_app, lst_blocks_app in *. cbn [fin lst] in *. set (pm := fin 0 l) in *. set (o := pm + span c) in *.
    rewrite Hc. cbn [mbind option_bind used]. rewrite (proj2 (Z.eqb_neq pm o)) by lia.
    destruct c as [s0 [|]]; cbn [bused Z.eqb negb andb] in *.
    { eexists. split; [reflexivity|]. rewrite <- app_assoc in Hkeep. by apply Hkeep. }
    assert (Hlf2 : lfree h = first_free 0 l).
    { rewrite Hlf, first_free_app. destruct (forallb bused l) eqn:E; [by rewrite (first_free_used 0 l)|done]. }
    pose proof (first_free_ge 0 l Hsl) as Hle. fold pm in Hle.
    rewrite (proj2 (Z.eqb_neq (lfree h) o)) by lia. rewrite (upd_some pm _ h _ Hc). cbn [mbind option_bind].
    set (r1 := <[pm := _]> (ram h)).
    assert (Ht1 : tail r1 (o + 8 + s) o r).
    { apply (tail_frame (ram h)); [done| |done]. intros k Hk. apply lookup_insert_ne. lia. }
    destruct (tail_prev _ _ _ (u16 pm) r Hsr Ht1) as (m2 & Hm2 & _ & _ & Ht2).
    rewrite (upd_some _ _ (Heap r1 (lfree h)) _ Hm2). eexists. split; [reflexivity|]. cbn [ram lfree].
    rewrite u16_id in * by lia. unfold span in *. sizes. cbn [bsize] in *.
    assert (Hmg : merge (l ++ Block s0 false :: Block s false :: r) = l ++ Block (s0 + 8 + s) false :: r).
    { destruct Hnc as [Hu _]. rewrite orb_false_r in Hu. rewrite (merge_app true) by done. f_equal.
      destruct Hn as [_ Hn]. cbn [merge]. rewrite (merge_id _ _ Hn). destruct r as [|b r]; [done|].
      destruct Hn as [Hn _]. cbn [orb bused] in Hn. cbn [bused negb andb]. rewrite Hn. done. }
    rewrite Hmg. destruct Hc2 as [Hc3 Hc4]. cbn [bsize] in *.
    apply (heap_rebuild h); cbn [ram lfree]; try done.
    + constructor; [|done]. split; cbn [bsize]; [lia|]. by rewrite Zplus_mod, (Zplus_mod s0 8), Hs2, Hc4.
    + intros k Hk. unfold r1. fold pm in Hk. by rewrite !lookup_insert_ne by lia.
    + rewrite tail_cons. unfold span. sizes. cbn [bsize bused]. fold pm.
      replace (pm + (8 + (s0 + 8 + s))) with (o + 8 + s) by lia. split; [|done].
      rewrite lookup_insert_ne by lia. apply lookup_insert_eq.
    + apply no_holes_app. split; [done|]. by destruct Hnc as [Hu _], Hn as [_ Hn].
    + rewrite Hlf2, (first_free_app 0 l). destruct (forallb bused l) eqn:E; [by apply first_free_used|done].
Qed.

Lemma mem_free_spec h l s r :
  heap_ok h (l ++ Block s true :: r) ->
  exists h', mem_free (Some (fin 0 l + 8)) h = Some h' /\ heap_ok h' (merge (l ++ Block s false :: r)).
Proof.
  intros Hok. pose proof (heap_at h l _ r Hok) as [_ Hm Hseg Ht (Hsl & Hs & Hsr) Hrange Hlf].
  destruct Hok as [_ _ Hn _]. apply no_holes_app in Hn as [Hnl Hn]. destruct Hn as [_ Hn]. cbn [bused] in *.
  destruct Hs as [Hs1 Hs2]. unfold span in *. sizes. cbn [bsize] in *. set (o := fin 0 l) in *.
  unfold mem_free. sizes. rewrite (proj2 (Z.ltb_ge (o + 8) 0)), (proj2 (Z.leb_gt 1600 (o + 8))) by lia. cbn [orb].
  replace (o + 8 - 8) with o by lia. rewrite (upd_some o _ h _ Hm). cbn [mbind option_bind].
  unfold set_used. cbn [next prev]. set (r1 := <[o := _]> (ram h)). cbn [lfree].
  assert (Hlf1 : (if o <? lfree h then set_lfree o (Heap r1 (lfree h)) else Heap r1 (lfree h)) = Heap r1 (first_free 0 l)).
  { rewrite Hlf, (first_free_app 0 l). cbn [first_free bused]. destruct (forallb bused l) eqn:E.
    - rewrite (first_free_used 0 l) by done. fold o. unfold span. sizes. cbn [bsize].
      pose proof (first_free_ge (o + (8 + s)) r Hsr). by rewrite (proj2 (Z.ltb_lt _ _)) by lia.
    - pose proof (first_free_lt 0 l Hsl E). fold o in H. by rewrite (proj2 (Z.ltb_ge _ _)) by lia. }
  rewrite Hlf1. unfold plug_holes.
  assert (Hm1 : r1 !! o = Some (Mem (o + 8 + s) (lst 0 0 l) 0)).
  { unfold r1. rewrite lookup_insert_eq. f_equal. f_equal. lia. }
  assert (Ht1 : tail r1 (o + 8 + s) o r).
  { apply (tail_frame (ram h)); [done| |by rewrite <- Z.add_assoc]. intros k Hk. apply lookup_insert_ne. lia. }
  destruct (plug_forward_spec (Heap r1 (first_free 0 l)) o (lst 0 0 l) s r)
    as (h' & s' & r' & E & Hmg & Hn' & Hs' & Hsr' & Hlf' & Hlow & Hmo & Ht'); try done; [lia|by apply (first_free_ge 0)|].
  rewrite E. cbn [mbind option_bind].
  destruct (plug_backward_spec h' l s' r') as (h2 & E2 & Hok2); try done.
  { apply (seg_frame (ram h)); [done| |done]. intros k Hk. rewrite Hlow by lia. apply lookup_insert_ne. lia. }
  exists h2. split; [done|]. by rewrite <- Hmg, merge_merge in Hok2.
Qed.

(** ** Shrinking, clearing, starting *)

(** What becomes of a used block of size [s] with [r] behind it. *)
Definition trim_blocks (size s : Z) (r : list block) : list block :=
  if size =? s then Block s true :: r
  else
    match r with
    | Block s2 false :: r2 => Block size true :: Block (s2 + (s - size)) false :: r2
    | _ => if size + 20 <=? s then Block size true :: Block (s - size - 8) false :: r else Block s true :: r
    end.

(** The struct for the rest of a shrunk block. *)
Lemma trim_insert h l s r o size n q rest f :
  heap_ok h (l ++ Block s true :: r) -> o = fin 0 l -> tail (ram h) n q rest -> Forall size_ok rest ->
  12 <= size -> size mod 4 = 0 -> o + 8 + size + 20 <= n -> (n - (o + 8 + size + 8)) mod 4 = 0 ->
  no_holes false rest -> f = first_free 0 (l ++ Block size true :: Block (n - (o + 8 + size + 8)) false :: rest) ->
  exists h', insert_free o (o + 8 + size) n id (set_lfree f h) = Some h' /\
    heap_ok h' (l ++ Block size true :: Block (n - (o + 8 + size + 8)) false :: rest).
Proof.
  intros Hok Ho Ht Hsr H12 Hmod Hn Hmod2 Hnr Hf. pose proof (heap_at h l _ r Hok) as [_ Hm Hseg _ (Hsl & _ & _) Hrange _].
  destruct Hok as [_ _ Hnh _]. apply no_holes_app in Hnh as [Hnl _]. rewrite <- Ho in *.
  destruct (insert_free_spec o (o + 8 + size) n id (set_lfree f h) _ q rest Hm Ht Hsr) as (h' & E & Hlf & Hlow & Hmo & Hm2 & Ht2);
    [lia..|]. exists h'. split; [exact E|]. cbn [ram set_lfree lfree] in *.
  apply (heap_rebuild h); try done.
  - repeat apply Forall_cons; try done; split; cbn [bsize]; (lia || done).
  - intros k Hk. apply Hlow. lia.
  - rewrite <- Ho, !tail_cons. unfold span. sizes. cbn [bsize bused].
    replace (o + (8 + size)) with (o + 8 + size) by lia.
    replace (o + 8 + size + (8 + (n - (o + 8 + size + 8)))) with n by lia. by split_and!.
  - apply no_holes_app. split; [done|]. cbn [no_holes bused orb]. by rewrite orb_true_r.
  - by rewrite Hlf.
Qed.

Lemma set_lfree_id h f : f = lfree h -> set_lfree f h = h.
Proof. intros ->. by destruct h. Qed.

(** [lfree] when a free block appears at [o2], inside a used block or in front
    of the free block behind it. *)
Lemma trim_lfree h l s r size x rest :
  heap_ok h (l ++ Block s true :: r) -> 12 <= size < s ->
  let o2 := fin 0 l + 8 + size in
  let h' := set_lfree (first_free 0 (l ++ Block size true :: Block x false :: rest)) h in
  (if o2 <? lfree h then set_lfree o2 h else h) = h' /\
  (forall s2 r2, r = Block s2 false :: r2 -> (if lfree h =? fin 0 l + (8 + s) then set_lfree o2 h else h) = h').
Proof.
  intros Hok Hs o2 h'. pose proof (heap_at h l _ r Hok) as [_ _ _ _ (Hsl & _ & Hsr) _ Hlf].
  unfold h'. rewrite (first_free_app 0 l) in *. cbn [first_free bused] in *. unfold span in *. sizes. cbn [bsize] in *.
  replace (fin 0 l + (8 + size)) with o2 by (unfold o2; lia). destruct (forallb bused l) eqn:E.
  - pose proof (first_free_ge (fin 0 l + (8 + s)) r Hsr). split; [by rewrite (proj2 (Z.ltb_lt _ _)) by (unfold o2; lia)|].
    intros s2 r2 ->. cbn [first_free bused] in Hlf. by rewrite (proj2 (Z.eqb_eq _ _)).
  - pose proof (first_free_lt 0 l Hsl E). rewrite (set_lfree_id h (first_free 0 l)) by done.
    split; [by rewrite (proj2 (Z.ltb_ge _ _)) by (unfold o2; lia)|].
    intros s2 r2 _. by rewrite (proj2 (Z.eqb_neq _ _)) by lia.
Qed.

Lemma mem_trim_spec h l s r newsize :
  heap_ok h (l ++ Block s true :: r) -> 0 <= newsize <= 65532 ->
  exists h', mem_trim (fin 0 l + 8) newsize h =
      Some (if s <? block_size newsize then None else Some (fin 0 l + 8), h') /\
    heap_ok h' (l ++ if s <? block_size newsize then Block s true :: r else trim_blocks (block_size newsize) s r).
Proof.
  intros Hok Hn. pose proof (heap_at h l _ r Hok) as [_ Hm _ Ht (_ & [Hs1 Hs2] & Hsr) Hrange _].
  destruct (block_size_spec newsize Hn) as (_ & Hb1 & _ & Hb3). set (size := block_size newsize) in *.
  unfold mem_trim. fold size. unfold span in *. cbn [bsize bused] in *. sizes. set (o := fin 0 l) in *.
  destruct (Z.ltb_spec 1600 size) as [Hbig|Hsmall].
  { exists h. by rewrite (proj2 (Z.ltb_lt s size)) by lia. }
  rewrite (proj2 (Z.ltb_ge (o + 8) 0)), (proj2 (Z.leb_gt 1600 (o + 8))) by lia. cbn [orb].
  replace (o + 8 - 8) with o by lia. rewrite Hm. cbn [mbind option_bind next].
  rewrite (u16_id o) by lia. replace (o + (8 + s) - o - 8) with s by lia. rewrite (u16_id s) by lia.
  destruct (Z.ltb_spec s size); [by exists h|]. unfold trim_blocks.
  destruct (Z.eqb_spec size s); [by exists h|].
  destruct (tail_prev _ _ _ 0 r Hsr Ht) as (mn & Hmn & Hnn & Hun & _). rewrite Hmn. cbn [mbind option_bind].
  rewrite (u16_id (o + 8 + size)), Hun by lia. assert (Hnr : no_holes true r).
  { destruct Hok as [_ _ Hnh _]. apply no_holes_app in Hnh as [_ [_ Hnr]]. done. }
  assert (Hused : match r with Block _ false :: _ => False | _ => True end -> exists h',
    (if size + 8 + 12 <=? s then
       h0 ← insert_free o (o + 8 + size) (o + (8 + s)) id (if o + 8 + size <? lfree h then set_lfree (o + 8 + size) h else h);
       Some (Some (o + 8), h0) else Some (Some (o + 8), h)) = Some (Some (o + 8), h') /\
    heap_ok h' (l ++ if size + 20 <=? s then Block size true :: Block (s - size - 8) false :: r else Block s true :: r)).
  { intros Hr. replace (size + 8 + 12) with (size + 20) by lia. destruct (Z.leb_spec (size + 20) s); [|by exists h].
    destruct (trim_lfree h l s r size (s - size - 8) r Hok) as [Hset _]; [lia|]. fold o in Hset. rewrite Hset.
    replace (s - size - 8) with (o + (8 + s) - (o + 8 + size + 8)) by lia.
    edestruct (trim_insert h l s r o size (o + (8 + s)) o r) as (h' & E & Hok'); try done; [lia|..].
    - replace (o + (8 + s) - (o + 8 + size + 8)) with (s - size - 8) by lia. by apply mod4_sub.
    - by destruct r as [|[? [|]] r].
    - exists h'. rewrite E. done. }
  destruct r as [|[s2 [|]] r2]; cbn [bused Z.eqb] in *; [by apply Hused..|].
  destruct (trim_lfree h l s (Block s2 false :: r2) size (s2 + (s - size)) r2 Hok) as [_ Hset]; [lia|]. fold o in Hset.
  rewrite (Hset s2 r2 eq_refl), Hnn.
  apply Forall_cons_iff in Hsr as [[Hs3 Hs4] Hsr]. apply tail_cons in Ht as [_ Ht]. unfold span in *. cbn [bsize] in *. sizes.
  replace (s2 + (s - size)) with (o + (8 + s) + (8 + s2) - (o + 8 + size + 8)) by lia.
  edestruct (trim_insert h l s (Block s2 false :: r2) o size (o + (8 + s) + (8 + s2)) (o + (8 + s)) r2) as (h' & E & Hok'); try done.
  - assert ((s - size) mod 4 = 0) by (by rewrite Zminus_mod, Hs2, Hb3). assert (0 < s - size) by lia.
    pose proof (Z.div_mod (s - size) 4). lia.
  - replace (o + (8 + s) + (8 + s2) - (o + 8 + size + 8)) with (s2 + (s - size)) by lia.
    by rewrite Zplus_mod, (Zminus_mod s), Hs2, Hb3, Hs4.
  - by destruct Hnr.
  - exists h'. rewrite E. done.
Qed.

(** Writing over the data of a block in use leaves the heap as it is. *)
Lemma mem_clear_ok h l s r p n :
  heap_ok h (l ++ Block s true :: r) -> fin 0 l + 8 <= p -> 0 <= n -> p + n <= fin 0 l + 8 + s ->
  heap_ok (mem_clear p n h) (l ++ Block s true :: r).
Proof.
  intros Hok H1 H2 H3. pose proof (heap_at h l _ r Hok) as [_ Hm Hseg Ht (Hsl & Hs & Hsr) Hrange Hlf].
  destruct Hok as [_ Hsz Hn _]. unfold span in *. sizes. cbn [bsize] in *. apply Forall_app in Hsz as [_ Hsz].
  assert (Hk : forall k, k + 8 <= fin 0 l + 8 \/ fin 0 l + 8 + s <= k -> ram (mem_clear p n h) !! k = ram h !! k).
  { intros k Hk. cbn. rewrite map_lookup_filter. destruct (ram h !! k) as [m|]; [|done]. cbn.
    rewrite option_guard_True; [done|]. cbn. unfold sizeof_mem. lia. }
  apply (heap_rebuild h); try done.
  - intros k Hk'. apply Hk. lia.
  - rewrite tail_cons. unfold span. sizes. cbn [bsize]. rewrite Hk by lia. split; [done|].
    apply (tail_frame (ram h)); [done| |done]. intros k Hk'. apply Hk. lia.
Qed.

Lemma mem_init_ok h : heap_ok (mem_init h) [Block 1592 false].
Proof.
  split; [|repeat constructor; done|done|done]. unfold tail. cbn [seg fin]. split_and!; [|done|done|].
  - unfold mem_init, set_lfree. cbn [ram]. rewrite lookup_new_mem by done. apply lookup_insert_eq.
  - exists 1600. unfold mem_init, set_lfree. cbn [ram]. apply lookup_insert_eq.
Qed.

(** Allocating from a heap: first fit, or nothing fits. *)
Lemma mem_malloc_spec h bs n :
  heap_ok h bs -> 0 < n <= 65532 ->
  (exists l s r h', bs = l ++ Block s false :: r /\ block_size n <= s /\ Forall (unfit (block_size n)) l /\
     mem_malloc n h = Some (Some (fin 0 l + 8), h') /\ heap_ok h' (l ++ split_block (block_size n) s ++ r)) \/
  (Forall (unfit (block_size n)) bs /\ mem_malloc n h = Some (None, h)).
Proof.
  intros Hok Hn. destruct (block_size_spec n) as (_ & H1 & H2 & H3); [lia|]. unfold mem_malloc.
  rewrite (proj2 (Z.eqb_neq n 0)) by lia. set (size := block_size n) in *. sizes.
  pose proof Hok as [Ht Hs _ Hf]. pose proof (tail_end _ _ _ _ Hs Ht) as Hlen.
  destruct (Z.ltb_spec 1600 size) as [Hbig|Hsmall].
  { right. split; [|done]. eapply Forall_impl; [|by eapply tail_fits]. intros b Hb. right. cbn in Hb. lia. }
  assert (Hsplit : exists l r, bs = l ++ r /\ lfree h = fin 0 l /\ Forall (unfit size) l).
  { rewrite Hf. clear. generalize 0. induction bs as [|b bs IH]; intros o; [by exists [], []|]. cbn [first_free].
    destruct (bused b) eqn:Eb; [|by exists [], (b :: bs)]. destruct (IH (o + span b)) as (l & r & -> & -> & Hl).
    exists (b :: l), r. split_and!; [done..|]. constructor; [by left|done]. }
  destruct Hsplit as (l & r & -> & Hl & Hu). rewrite length_app in Hlen. apply Forall_app in Hs as [Hsl Hsr].
  pose proof (fin_ge 0 l Hsl). assert (fin 0 l <= 1600).
  { apply tail_app in Ht as [_ Ht]. pose proof (tail_end _ _ _ _ Hsr Ht). lia. }
  rewrite Hl, u16_id by lia.
  destruct (malloc_loop_spec heap_fuel h l r size Hok) as [(l2 & s & r2 & h' & E & Hle & Hu2 & Em & Hok')|[Hall Em]];
    [by split|done|unfold heap_fuel; lia|left|by right].
  exists l2, s, r2, h'. by rewrite <- E.
Qed.

(** ** Clients

    A run of allocations, releases, shrinkings and writes; [own] has the blocks
    the clients hold, with the size they asked for. *)

Inductive event :=
  | Malloc (size : Z)
  | Calloc (count size : Z)
  | Free (p : Z)
  | Trim (p newsize : Z)
  | Write (p i n : Z).

Notation owns := (gmap Z Z).

Definition gets (size : Z) (r : option Z * heap) (own : owns) : heap * owns :=
  (r.2, match r.1 with Some p => <[p := size]> own | None => own end).

Definition exec (e : event) (st : heap * owns) : option (heap * owns) :=
  let '(h, own) := st in
  match e with
  | Malloc size => r ← mem_malloc size h; Some (gets size r own)
  | Calloc count size => r ← mem_calloc count size h; Some (gets (count * size) r own)
  | Free p => h ← mem_free (Some p) h; Some (h, delete p own)
  | Trim p newsize => r ← mem_trim p newsize h; Some (gets newsize r own)
  | Write p i n => Some (mem_clear (p + i) n h, own)
  end.

(** A client uses its own blocks, inside the size it asked for, and asks for
    sizes that can be rounded up. *)
Definition allowed (e : event) (own : owns) : Prop :=
  match e with
  | Malloc size => 0 <= size <= 65532
  | Calloc count size => 0 <= count /\ 0 <= size /\ count * size <= 65532
  | Free p => is_Some (own !! p)
  | Trim p newsize => is_Some (own !! p) /\ 0 <= newsize <= 65532
  | Write p i n => match own !! p with Some sz => 0 <= i /\ 0 <= n /\ i + n <= sz | None => False end
  end.

Fixpoint run (es : list event) (st : heap * owns) : option (heap * owns) :=
  match es with
  | [] => Some st
  | e :: es => st ← exec e st; run es st
  end.

(** Every event of a run is allowed when its turn comes. *)
Fixpoint legal (es : list event) (st : heap * owns) : Prop :=
  match es with
  | [] => True
  | e :: es => allowed e st.2 /\ match exec e st with Some st' => legal es st' | None => True end
  end.

#[export] Instance allowed_dec e own : Decision (allowed e own).
Proof. destruct e; cbn [allowed]; try apply _. destruct (own !! p); apply _. Defined.

#[export] Instance legal_dec es : forall st, Decision (legal es st).
Proof.
  induction es as [|e es IH]; intros st; cbn [legal]; [apply _|].
  apply and_dec; [apply _|]. destruct (exec e st); [apply IH|apply _].
Defined.

(** The blocks in use: where their data is, and its size. *)
Fixpoint users (o : Z) (bs : list block) : list (Z * Z) :=
  match bs with
  | [] => []
  | b :: bs => (if bused b then [(o + 8, bsize b)] else []) ++ users (o + span b) bs
  end.

(** The clients hold exactly the blocks in use. *)
Definition owned (own : owns) (bs : list block) : Prop :=
  (forall p sz, own !! p = Some sz -> exists s, (p, s) ∈ users 0 bs /\ sz <= s) /\
  (forall p s, (p, s) ∈ users 0 bs -> is_Some (own !! p)).

Lemma users_app o a b : users o (a ++ b) = users o a ++ users (fin o a) b.
Proof. revert o. induction a as [|x a IH]; intros o; [done|]. cbn [users app fin]. by rewrite IH, app_assoc. Qed.

Lemma users_merge o bs : users o (merge bs) = users o bs.
Proof.
  revert o. induction bs as [|b bs IH]; intros o; [done|]. cbn [merge users]. rewrite <- IH.
  destruct (merge bs) as [|c r]; [done|]. destruct (bused b) eqn:Eb, (bused c) eqn:Ec;
    cbn [negb andb users bused bsize]; rewrite ?Eb, ?Ec; try done.
  cbn [app]. f_equal. unfold span. sizes. cbn [bsize]. lia.
Qed.

Lemma users_range o bs p s : Forall size_ok bs -> (p, s) ∈ users o bs -> o + 8 <= p /\ 12 <= s /\ p + s <= fin o bs.
Proof.
  intros H. revert o. induction H as [|b bs Hb Hbs IH]; intros o; cbn [users fin]; [by intros ?%not_elem_of_nil|].
  pose proof (span_pos b Hb). pose proof (fin_ge (o + span b) bs Hbs).
  intros [Hin|Hin]%elem_of_app.
  - destruct (bused b); [|by apply not_elem_of_nil in Hin]. apply list_elem_of_singleton in Hin. injection Hin as -> ->.
    destruct Hb. unfold span in *. sizes. lia.
  - apply IH in Hin. lia.
Qed.

(** A block in use is found in the list. *)
Lemma users_split o bs p s : (p, s) ∈ users o bs -> exists l r, bs = l ++ Block s true :: r /\ p = fin o l + 8.
Proof.
  revert o. induction bs as [|[s' u] bs IH]; intros o; cbn [users]; [by intros ?%not_elem_of_nil|].
  intros [Hin|Hin]%elem_of_app.
  - destruct u; cbn [bused] in Hin; [|by apply not_elem_of_nil in Hin]. apply list_elem_of_singleton in Hin. injection Hin as -> ->.
    by exists [], bs.
  - destruct (IH _ Hin) as (l & r & -> & ->). by exists (Block s' u :: l), r.
Qed.

(** Around one block. *)
Lemma users_at l b r :
  users 0 (l ++ b :: r) = users 0 l ++ (if bused b then [(fin 0 l + 8, bsize b)] else []) ++ users (fin 0 l + span b) r.
Proof. by rewrite users_app. Qed.

Lemma users_fresh l b r q s :
  Forall size_ok l -> size_ok b -> Forall size_ok r ->
  (q, s) ∈ users 0 l ++ users (fin 0 l + span b) r -> q <> fin 0 l + 8.
Proof.
  intros Hl Hb Hr [Hin|Hin]%elem_of_app; pose proof (span_pos b Hb); apply users_range in Hin; (done || lia).
Qed.

Lemma users_split_block o size s r :
  exists s', users o (split_block size s ++ r) = (o + 8, s') :: users (o + span (Block s false)) r /\ (size <= s -> size <= s').
Proof.
  unfold split_block. destruct (size + 20 <=? s); cbn [app users bused bsize].
  - exists size. split; [|done]. cbn [app]. do 2 f_equal. unfold span. sizes. cbn [bsize]. lia.
  - by exists s.
Qed.

Lemma users_trim o size s r :
  exists s', users o (trim_blocks size s r) = (o + 8, s') :: users (o + span (Block s true)) r /\ (size <= s -> size <= s').
Proof.
  assert (Hsame : users o (Block s true :: r) = (o + 8, s) :: users (o + span (Block s true)) r) by done.
  unfold trim_blocks. destruct (Z.eqb_spec size s) as [->|]; [by exists s|].
  assert (Hsplit : users o (Block size true :: Block (s - size - 8) false :: r) = (o + 8, size) :: users (o + span (Block s true)) r).
  { cbn [users bused app bsize]. do 2 f_equal. unfold span. sizes. cbn [bsize]. lia. }
  destruct r as [|[s2 [|]] r2]; try (destruct (size + 20 <=? s); [by exists size|by exists s]).
  exists size. split; [|done]. cbn [users bused app bsize]. do 2 f_equal. unfold span. sizes. cbn [bsize]. lia.
Qed.

(** One block is taken or changed, *)
Lemma owned_insert own bs bs' A Y Z p s' sz :
  users 0 bs = A ++ Y ++ Z -> users 0 bs' = A ++ (p, s') :: Z -> (forall q s, (q, s) ∈ A ++ Z -> q <> p) ->
  (forall q s, (q, s) ∈ Y -> q = p) -> sz <= s' -> owned own bs -> owned (<[p := sz]> own) bs'.
Proof.
  intros E E' Hf HY Hle [H1 H2]. unfold owned. rewrite E, E' in *. split.
  - intros q sz' Hq. destruct (decide (q = p)) as [->|Hne].
    + rewrite lookup_insert_eq in Hq. injection Hq as <-. exists s'. set_solver.
    + rewrite lookup_insert_ne in Hq by done. destruct (H1 q sz' Hq) as (s & Hin & Hs). exists s. split; [|done].
      apply elem_of_app in Hin as [Hin|[Hin|Hin]%elem_of_app]; [set_solver|by apply HY in Hin|set_solver].
  - intros q s Hin. destruct (decide (q = p)) as [->|Hne]; [by rewrite lookup_insert_eq|].
    rewrite lookup_insert_ne by done. apply (H2 q s). set_solver.
Qed.

(** or given back. *)
Lemma owned_delete own bs bs' A Y Z p :
  users 0 bs = A ++ Y ++ Z -> users 0 bs' = A ++ Z -> (forall q s, (q, s) ∈ A ++ Z -> q <> p) ->
  (forall q s, (q, s) ∈ Y -> q = p) -> owned own bs -> owned (delete p own) bs'.
Proof.
  intros E E' Hf HY [H1 H2]. unfold owned. rewrite E, E' in *. split.
  - intros q sz [Hne Hq]%lookup_delete_Some. destruct (H1 q sz Hq) as (s & Hin & Hs). exists s. split; [|done].
    apply elem_of_app in Hin as [Hin|[Hin|Hin]%elem_of_app]; [set_solver|apply HY in Hin; congruence|set_solver].
  - intros q s Hin. rewrite lookup_delete_ne by (symmetry; by eapply Hf). apply (H2 q s). set_solver.
Qed.

Definition good (st : heap * owns) : Prop := exists bs, heap_ok st.1 bs /\ owned st.2 bs.

(** A block a client holds. *)
Lemma owned_block h own bs p : heap_ok h bs -> owned own bs -> is_Some (own !! p) ->
  exists l s r, bs = l ++ Block s true :: r /\ p = fin 0 l + 8 /\ (forall sz, own !! p = Some sz -> sz <= s).
Proof.
  intros Hok Ho [sz Hp]. destruct Ho as [H1 _]. destruct (H1 p sz Hp) as (s & Hin & Hle).
  destruct (users_split 0 bs p s Hin) as (l & r & -> & E). exists l, s, r. split_and!; [done..|].
  intros sz' Hp'. rewrite Hp in Hp'. by injection Hp' as <-.
Qed.

Lemma malloc_good h own n :
  good (h, own) -> 0 <= n <= 65532 ->
  exists r bs, mem_malloc n h = Some r /\ heap_ok r.2 bs /\ owned (gets n r own).2 bs /\
    (forall p, r.1 = Some p -> exists l s t, bs = l ++ Block s true :: t /\ p = fin 0 l + 8 /\ n <= s).
Proof.
  intros (bs & Hok & Ho) Hn. cbn [fst snd] in *.
  destruct (Z.eqb_spec n 0) as [->|]; [by exists (None, h), bs|].
  destruct (block_size_spec n) as (_ & _ & Hle & _); [lia|].
  destruct (mem_malloc_spec h bs n Hok) as [(l & s & r & h' & -> & Hs & _ & Em & Hok')|[_ Em]]; [lia| |by exists (None, h), bs].
  eexists (Some (fin 0 l + 8), h'), _. cbn [fst snd gets]. split_and!; [done|done|..].
  - destruct (users_split_block (fin 0 l) (block_size n) s r) as (s' & E & Hs').
    destruct (heap_at _ _ _ _ Hok) as [_ _ _ _ (Hsl & Hb & Hsr) _ _].
    eapply (owned_insert _ _ _ (users 0 l) [] (users (fin 0 l + span (Block s false)) r) _ s'); try done.
    + by rewrite users_at.
    + by rewrite users_app, E.
    + intros q s2. by apply users_fresh.
    + by intros q s2 ?%not_elem_of_nil.
    + lia.
  - intros p [= <-]. unfold split_block. destruct (block_size n + 20 <=? s).
    + exists l, (block_size n), (Block (s - block_size n - 8) false :: r). split_and!; [done..|lia].
    + exists l, s, r. split_and!; [done..|lia].
Qed.

Lemma calloc_good h own count size :
  good (h, own) -> 0 <= count -> 0 <= size -> count * size <= 65532 ->
  exists r, mem_calloc count size h = Some r /\ good (gets (count * size) r own).
Proof.
  intros Hg Hc Hs Hn. assert (H0 : 0 <= count * size) by lia. unfold mem_calloc. rewrite u16_id by lia.
  destruct (malloc_good h own (count * size) Hg) as ([[p|] h'] & bs & -> & Hok & Ho & Hp); [lia|..]; cbn [mbind option_bind].
  - destruct (Hp p eq_refl) as (l & s & t & -> & -> & Hle). eexists. split; [reflexivity|].
    eexists. split; [|exact Ho]. apply mem_clear_ok; cbn [fst snd gets] in *; (done || lia).
  - eexists. split; [reflexivity|]. by exists bs.
Qed.

Lemma free_good h own p :
  good (h, own) -> is_Some (own !! p) -> exists h', mem_free (Some p) h = Some h' /\ good (h', delete p own).
Proof.
  intros (bs & Hok & Ho) Hp. cbn [fst snd] in *. destruct (owned_block _ _ _ _ Hok Ho Hp) as (l & s & r & -> & -> & _).
  destruct (mem_free_spec h l s r Hok) as (h' & -> & Hok'). exists h'. split; [done|]. eexists. split; [exact Hok'|]. cbn [snd].
  destruct (heap_at _ _ _ _ Hok) as [_ _ _ _ (Hsl & Hb & Hsr) _ _].
  eapply (owned_delete _ _ _ (users 0 l) [(fin 0 l + 8, s)] (users (fin 0 l + span (Block s true)) r)); try done.
  - by rewrite users_at.
  - by rewrite users_merge, users_at.
  - intros q s2. by apply users_fresh.
  - intros q s2 Hin%list_elem_of_singleton. by injection Hin.
Qed.

Lemma trim_good h own p n :
  good (h, own) -> is_Some (own !! p) -> 0 <= n <= 65532 ->
  exists r, mem_trim p n h = Some r /\ good (gets n r own).
Proof.
  intros (bs & Hok & Ho) Hp Hn. cbn [fst snd] in *. destruct (owned_block _ _ _ _ Hok Ho Hp) as (l & s & r & -> & -> & Hle).
  destruct (mem_trim_spec h l s r n Hok Hn) as (h' & -> & Hok'). eexists. split; [reflexivity|]. eexists. split; [exact Hok'|].
  cbn [fst snd gets]. destruct (block_size_spec n Hn) as (_ & _ & Hbs & _). destruct (Z.ltb_spec s (block_size n)); [done|].
  destruct (heap_at _ _ _ _ Hok) as [_ _ _ _ (Hsl & Hb & Hsr) _ _].
  destruct (users_trim (fin 0 l) (block_size n) s r) as (s' & E & Hs').
  eapply (owned_insert _ _ _ (users 0 l) [(fin 0 l + 8, s)] (users (fin 0 l + span (Block s true)) r) _ s'); try done.
  - by rewrite users_at.
  - by rewrite users_app, E.
  - intros q s2. by apply users_fresh.
  - intros q s2 Hin%list_elem_of_singleton. by injection Hin.
  - lia.
Qed.

Lemma write_good h own p i n sz :
  good (h, own) -> own !! p = Some sz -> 0 <= i -> 0 <= n -> i + n <= sz -> good (mem_clear (p + i) n h, own).
Proof.
  intros (bs & Hok & Ho) Hp Hi Hn Hle. cbn [fst snd] in *.
  destruct (owned_block _ _ _ p Hok Ho) as (l & s & r & -> & -> & Hs); [done|]. specialize (Hs sz Hp).
  eexists. split; [|exact Ho]. apply mem_clear_ok; (done || lia).
Qed.

Lemma exec_good e st : good st -> allowed e st.2 -> exists st', exec e st = Some st' /\ good st'.
Proof.
  destruct st as [h own]. intros Hg Ha. destruct e; cbn [exec allowed snd] in *.
  - destruct (malloc_good h own size Hg Ha) as (r & bs & -> & Hok & Ho & _). eexists. split; [reflexivity|by exists bs].
  - destruct Ha as (Hc & Hs & Ha). destruct (calloc_good h own count size Hg Hc Hs Ha) as (r & -> & Hg'). by eexists.
  - destruct (free_good h own p Hg Ha) as (h' & -> & Hg'). by eexists.
  - destruct Ha as [Hp Hn]. destruct (trim_good h own p newsize Hg Hp Hn) as (r & -> & Hg'). by eexists.
  - destruct (own !! p) as [sz|] eqn:Hp; [|done]. destruct Ha as (Hi & Hn & Hle). eexists. split; [reflexivity|]. by eapply write_good.
Qed.

Lemma run_good es st : good st -> legal es st -> exists st', run es st = Some st' /\ good st'.
Proof.
  revert st. induction es as [|e es IH]; intros st Hg Hl; [by exists st|]. destruct Hl as [Ha Hl]. cbn [run].
  destruct (exec_good e st Hg Ha) as (st' & E & Hg'). rewrite E in *. by apply IH.
Qed.

Lemma fin_mod o bs : Forall size_ok bs -> fin o bs mod 4 = o mod 4.
Proof.
  intros H. revert o. induction H as [|b bs [_ Hb] _ IH]; intros o; [done|]. cbn [fin]. rewrite IH. unfold span. sizes.
  rewrite Zplus_mod, (Zplus_mod 8), Hb. change ((8 mod 4 + 0) mod 4) with 0. by rewrite Z.add_0_r, Zmod_mod.
Qed.

Lemma users_apart o bs p s q s' :
  Forall size_ok bs -> (p, s) ∈ users o bs -> (q, s') ∈ users o bs -> p < q -> p + s + 8 <= q.
Proof.
  intros H. revert o. induction H as [|b bs Hb Hbs IH]; intros o; cbn [users]; [by intros ?%not_elem_of_nil|].
  pose proof (span_pos b Hb). intros Hp Hq Hlt. destruct (bused b); [|by eapply IH].
  cbn [app] in *. apply elem_of_cons in Hp as [Hp|Hp], Hq as [Hq|Hq].
  - injection Hp as -> ->. injection Hq as -> ->. lia.
  - injection Hp as -> ->. apply users_range in Hq; [|done]. unfold span in *. sizes. lia.
  - injection Hq as -> ->. apply users_range in Hp; [|done]. lia.
  - by eapply IH.
Qed.

(** What the clients hold lies in the heap, aligned, and apart. *)
Lemma good_owns h own p sz :
  good (h, own) -> own !! p = Some sz -> 8 <= p /\ p + sz <= 1600 /\ p mod 4 = 0.
Proof.
  intros (bs & Hok & Ho) Hp. cbn [fst snd] in *. destruct (owned_block _ _ _ p Hok Ho) as (l & s & r & -> & -> & Hs); [done|].
  specialize (Hs sz Hp). destruct (heap_at _ _ _ _ Hok) as [_ _ _ _ (Hsl & _ & _) Hr _]. unfold span in Hr. sizes.
  cbn [bsize] in Hr. split_and!; [lia|lia|]. by rewrite Zplus_mod, fin_mod.
Qed.

Lemma good_apart h own p sz q sz' :
  good (h, own) -> own !! p = Some sz -> own !! q = Some sz' -> p < q -> p + sz + 8 <= q.
Proof.
  intros (bs & [_ Hs _ _] & H1 & _) Hp Hq Hlt. cbn [fst snd] in *. destruct (H1 p sz Hp) as (s & Hin & Hle).
  destruct (H1 q sz' Hq) as (s' & Hin' & _). pose proof (users_apart 0 bs p s q s' Hs Hin Hin' Hlt). lia.
Qed.

Lemma good_empty h : good (h, ∅) -> heap_ok h [Block 1592 false].
Proof.
  intros (bs & Hok & _ & H2). cbn [fst snd] in *. assert (Hu : users 0 bs = []).
  { destruct (users 0 bs) as [|[p s] us]; [done|]. destruct (H2 p s) as [x Hx]; [set_solver|]. by rewrite lookup_empty in Hx. }
  destruct bs as [|[s [|]] bs]; cbn [users bused app] in Hu; [|done|].
  - destruct Hok as [(_ & Hf & _) _ _ _]. done.
  - destruct bs as [|[s2 [|]] bs]; cbn [users bused app] in Hu; [|done|].
    + pose proof Hok as [(_ & Hf & _) _ _ _]. unfold fin, span in Hf. sizes. cbn [bsize] in Hf.
      by replace 1592 with s by lia.
    + destruct Hok as [_ _ Hn _]. destruct Hn as [_ [Hn _]]. done.
Qed.

(** ** What the heap promises *)

(** C2: from [mem_init] on, whatever clients do with their own blocks, no
    operation is stuck; the blocks they hold are aligned, lie inside the heap and
    are apart, with room for a [struct mem] between them; and when they have given
    everything back, the heap is one free block again. *)
Theorem heap_runs h es :
  legal es (mem_init h, ∅) ->
  exists h' own, run es (mem_init h, ∅) = Some (h', own) /\
    (forall p sz, own !! p = Some sz -> 8 <= p /\ p + sz <= 1600 /\ p mod 4 = 0) /\
    (forall p q sz sz', own !! p = Some sz -> own !! q = Some sz' -> p < q -> p + sz + 8 <= q) /\
    (own = ∅ -> heap_ok h' [Block 1592 false]).
Proof.
  intros Hl. destruct (run_good es (mem_init h, ∅)) as ([h' own] & E & Hg); [|done|].
  - exists [Block 1592 false]. split; [apply mem_init_ok|]. split; [by intros p sz|]. cbn. set_solver.
  - exists h', own. split_and!; [done| | |].
    + intros p sz. by apply (good_owns h').
    + intros p q sz sz'. by apply (good_apart h').
    + intros ->. by apply good_empty.
Qed.

Definition heap_example : list event :=
  [Malloc 100; Malloc 50; Calloc 3 40; Write 8 0 100; Free 116; Malloc 20; Trim 8 30; Malloc 1400; Free 8; Free 176; Free 116].

Lemma heap_runs_witness :
  exists h', run heap_example (mem_init (Heap ∅ 0), ∅) = Some (h', ∅) /\ heap_ok h' [Block 1592 false].
Proof.
  destruct (heap_runs (Heap ∅ 0) heap_example) as (h' & own & E & _ & _ & He).
  - eapply bool_decide_eq_true_1. vm_compute. reflexivity.
  - assert (own = ∅) as ->; [|exists h'; auto]. apply (f_equal (fmap snd)) in E. vm_compute in E. by injection E as <-.
Defined.

(** C19: [mem_malloc] takes the first free block that is large enough, splits off
    what another block can use, and fails only if no free block is large enough. *)
Theorem mem_malloc_correct h bs n :
  heap_ok h bs -> 0 < n <= 65532 ->
  let size := Z.max 12 (LWIP_MEM_ALIGN_SIZE n) in
  (exists l s r h', bs = l ++ Block s false :: r /\ size <= s /\ Forall (unfit size) l /\
     mem_malloc n h = Some (Some (fin 0 l + 8), h') /\ heap_ok h' (l ++ split_block size s ++ r)) \/
  (Forall (unfit size) bs /\ mem_malloc n h = Some (None, h)).
Proof.
  intros Hok Hn. destruct (block_size_spec n) as [<- _]; [lia|]. by apply mem_malloc_spec.
Qed.

Lemma mem_malloc_witness :
  exists h', mem_malloc 100 (mem_init (Heap ∅ 0)) = Some (Some 8, h') /\ heap_ok h' [Block 100 true; Block 1484 false].
Proof.
  destruct (mem_malloc_correct (mem_init (Heap ∅ 0)) [Block 1592 false] 100) as [(l & s & r & h' & E & _ & _ & Em & Hok)|[Hu _]].
  - apply mem_init_ok.
  - lia.
  - exists h'. destruct l as [|b [|c l]]; [|discriminate E..]. injection E as <- <-. split; [exact Em|exact Hok].
  - apply Forall_singleton in Hu as [Hu|Hu]; [discriminate Hu|]. exfalso. vm_compute in Hu. discriminate Hu.
Defined.

(** [mem_free] gives a block back and joins it with the free blocks around
    it; [mem_trim] gives back the end of one, refuses to enlarge it, and leaves it
    alone when what is left could not hold a block. *)
Theorem mem_free_correct h l s r n :
  heap_ok h (l ++ Block s true :: r) -> 0 <= n <= 65532 ->
  (exists h', mem_free (Some (fin 0 l + 8)) h = Some h' /\ heap_ok h' (merge (l ++ Block s false :: r))) /\
  let size := Z.max 12 (LWIP_MEM_ALIGN_SIZE n) in
  exists h', mem_trim (fin 0 l + 8) n h = Some (if s <? size then None else Some (fin 0 l + 8), h') /\
    heap_ok h' (l ++ if s <? size then Block s true :: r else trim_blocks size s r).
Proof.
  intros Hok Hn. split; [by apply mem_free_spec|]. cbv zeta. destruct (block_size_spec n Hn) as [<- _]. by apply mem_trim_spec.
Qed.

(** A heap with one block of 100 bytes. *)
Lemma one_block : exists h, heap_ok h [Block 100 true; Block 1484 false].
Proof.
  destruct (mem_malloc_spec (mem_init (Heap ∅ 0)) [Block 1592 false] 100 (mem_init_ok _))
    as [(l & s & r & h & E & _ & _ & _ & Hok)|[Hu _]]; [lia| |].
  - exists h. destruct l as [|b [|c l]]; [|discriminate E..]. injection E as <- <-. exact Hok.
  - apply Forall_singleton in Hu as [Hu|Hu]; [discriminate Hu|]. vm_compute in Hu. discriminate Hu.
Qed.

Lemma mem_free_witness :
  exists h, heap_ok h [Block 100 true; Block 1484 false] /\
    (exists h', mem_free (Some 8) h = Some h' /\ heap_ok h' [Block 1592 false]) /\
    exists h', mem_trim 8 30 h = Some (Some 8, h') /\ heap_ok h' [Block 32 true; Block 1552 false].
Proof.
  destruct one_block as [h Hok]. exists h. split; [exact Hok|].
  apply (mem_free_correct h [] 100 [Block 1484 false] 30); [exact Hok|lia].
Defined.

(** C37: sizes that do not fit a [mem_size_t] after rounding wrap around: for the
    three largest sizes [mem_malloc] reports success with 12 bytes, and
    [mem_calloc] clears the size before it wrapped, past the end of the heap. *)
Theorem sizes_wrap h n count size :
  (65533 <= n <= 65535 -> mem_malloc n h = mem_malloc 12 h) /\
  (65536 < count * size <= 65536 + 1592 ->
   exists h', mem_calloc count size (mem_init h) = Some (Some 8, h') /\ ram h' !! ram_end = None).
Proof.
  split.
  - intros Hn. assert (n = 65533 \/ n = 65534 \/ n = 65535) as [->|[->| ->]] by lia; reflexivity.
  - intros Hc. unfold mem_calloc. set (k := count * size - 65536).
    assert (Hk : u16 (count * size) = k).
    { unfold u16. change (2 ^ 16) with 65536. symmetry. apply (Z.mod_unique_pos _ _ 1); lia. }
    rewrite Hk. destruct (block_size_spec k) as (_ & _ & Hb & Hm); [lia|].
    destruct (align_spec k) as [Ha Hb2]; [lia|].
    destruct (mem_malloc_spec (mem_init h) [Block 1592 false] k (mem_init_ok h)) as [(l & s & r & h' & E & _ & _ & -> & _)|[Hu _]]; [lia| |].
    + destruct l as [|b [|c l]]; [|discriminate E..]. cbn [mbind option_bind fin]. eexists. split; [reflexivity|].
      cbn. apply map_lookup_filter_None. right. intros m _ [H|H]; cbn in H; unfold sizeof_mem in H; sizes; lia.
    + exfalso. rewrite Forall_singleton in Hu. destruct Hu as [Hu|Hu]; [done|]. cbn [bsize] in Hu.
      destruct (block_size_spec k) as (E & _); [lia|]. rewrite E in Hu.
      assert (k <= 1592) by lia. pose proof (Z.div_mod (LWIP_MEM_ALIGN_SIZE k) 4). lia.
Qed.

Lemma sizes_wrap_witness :
  mem_malloc 65535 (mem_init (Heap ∅ 0)) = mem_malloc 12 (mem_init (Heap ∅ 0)) /\
  exists h', mem_calloc 257 256 (mem_init (Heap ∅ 0)) = Some (Some 8, h') /\ ram h' !! ram_end = None.
Proof.
  split; [apply (sizes_wrap (Heap ∅ 0) 65535 0 0); lia|apply (sizes_wrap (Heap ∅ 0) 0 257 256); lia].
Defined.
