(* ===== verification/LwipAddr.v ===== *)
(** * Addresses as text, masks and broadcast ([ip_addr.c])

    A C string is the list of its characters without the terminating 0, which
    is what [*cp] is behind the last of them; the code never goes further.  An
    [ip_addr_t] is its [u32_t] in network order, so on the little-endian target
    its first byte is the lowest. *)

From S2P Require Export LwipBase.

Definition IPADDR_NONE : Z := 0xffffffff.
Definition IPADDR_ANY : Z := 0x00000000.
Definition IPADDR_BROADCAST : Z := 0xffffffff.

(** ** Characters *)

Definition in_range (c lo up : Z) : bool := (lo <=? u8 c) && (u8 c <=? up).
Definition isdigit (c : Z) : bool := in_range c 48 57.
Definition isxdigit (c : Z) : bool := isdigit c || in_range c 97 102 || in_range c 65 70.
Definition islower (c : Z) : bool := in_range c 97 122.
Definition isspace (c : Z) : bool :=
  (c =? 32) || (c =? 12) || (c =? 10) || (c =? 13) || (c =? 9) || (c =? 11).

(** [*cp] and [++cp] *)
Definition cur (cp : list Z) : Z := match cp with c :: _ => c | [] => 0 end.
Definition step (cp : list Z) : list Z := match cp with _ :: cp => cp | [] => [] end.

(** ** Text to address *)

(** The inner loop: digits, with the case of hexadecimal ones. *)
Fixpoint aton_digits (base val : Z) (cp : list Z) : Z * list Z :=
  match cp with
  | [] => (val, [])
  | c :: cp' =>
      if isdigit c then aton_digits base (u32 (val * base + (c - 48))) cp'
      else if (base =? 16) && isxdigit c then
        aton_digits base (Z.lor (u32 (Z.shiftl val 4)) (c + 10 - (if islower c then 97 else 65))) cp'
      else (val, cp)
  end.

(** One number; [None] is [return (0)]. *)
Definition aton_part (cp : list Z) : option (Z * list Z) :=
  if negb (isdigit (cur cp)) then None
  else if cur cp =? 48 then
    let cp := step cp in
    if (cur cp =? 120) || (cur cp =? 88) then Some (aton_digits 16 0 (step cp))
    else Some (aton_digits 8 0 cp)
  else Some (aton_digits 10 0 cp).

(** The outer loop; [n] is [parts + 3 - pp]. *)
Fixpoint aton_parts (n : nat) (parts : list Z) (cp : list Z) : option (list Z * Z * list Z) :=
  match aton_part cp with
  | None => None
  | Some (val, cp) =>
      if cur cp =? 46 then
        match n with O => None | S n => aton_parts n (parts ++ [val]) (step cp) end
      else Some (parts, val, cp)
  end.

Definition shl (x n : Z) : Z := u32 (Z.shiftl x n).

Definition ipaddr_aton (cp : list Z) : option Z :=
  match aton_parts 3 [] cp with
  | None => None
  | Some (parts, val, cp) =>
      let c := cur cp in
      if negb (c =? 0) && negb (isspace c) then None
      else
        match parts with
        | [] => Some (lwip_htonl val)
        | [a] => if 0xffffff <? val then None else Some (lwip_htonl (Z.lor val (shl a 24)))
        | [a; b] =>
            if 0xffff <? val then None else Some (lwip_htonl (Z.lor val (Z.lor (shl a 24) (shl b 16))))
        | [a; b; c] =>
            if 0xff <? val then None
            else Some (lwip_htonl (Z.lor val (Z.lor (Z.lor (shl a 24) (shl b 16)) (shl c 8))))
        | _ => Some (lwip_htonl val)
        end
  end.

Definition ipaddr_addr (cp : list Z) : Z :=
  match ipaddr_aton cp with Some val => val | None => IPADDR_NONE end.

(** ** Address to text *)

(** The digits of a byte, the lowest first: [inv] holds three. *)
Fixpoint ntoa_inv (room : nat) (ap : Z) : option (list Z) :=
  match room with
  | O => None
  | S room =>
      let rem := ap mod 10 in
      let ap := ap / 10 in
      if negb (ap =? 0) then option_map (cons (48 + rem)) (ntoa_inv room ap) else Some [48 + rem]
  end.

(** A character, if the buffer has room. *)
Definition ntoa_put (buflen : Z) (out : list Z) (c : Z) : option (list Z) :=
  if buflen <=? zlen out then None else Some (out ++ [c]).

(** [while (i--)] *)
Fixpoint ntoa_copy (buflen : Z) (out inv : list Z) : option (list Z) :=
  match inv with
  | [] => Some out
  | c :: inv => match ntoa_put buflen out c with Some out => ntoa_copy buflen out inv | None => None end
  end.

(** The loop over the four bytes; outside, [None] is a write past [inv],
    inside it is [return NULL]. *)
Fixpoint ntoa_loop (buflen : Z) (out : list Z) (aps : list Z) : option (option (list Z)) :=
  match aps with
  | [] => Some (Some out)
  | ap :: aps =>
      match ntoa_inv 3 ap with
      | None => None
      | Some inv =>
          match ntoa_copy buflen out (rev inv) with
          | None => Some None
          | Some out =>
              match ntoa_put buflen out 46 with
              | None => Some None
              | Some out => ntoa_loop buflen out aps
              end
          end
      end
  end.

(** The bytes of [s_addr] in memory. *)
Definition addr_bytes (a : Z) : list Z := [a mod 256; a / 256 mod 256; a / 65536 mod 256; a / 16777216].

(** What [buf] holds; the last dot is overwritten by the terminating 0. *)
Definition ipaddr_ntoa_r (addr buflen : Z) : option (option (list Z)) :=
  match ntoa_loop buflen [] (addr_bytes addr) with
  | Some (Some out) => Some (Some (removelast out ++ [0]))
  | r => r
  end.

Definition ipaddr_ntoa (addr : Z) : option (option (list Z)) := ipaddr_ntoa_r addr 16.

(** ** Masks and broadcast *)

Definition NETIF_FLAG_BROADCAST : Z := 0x02.

(** What the functions here use of a [struct netif]. *)
Record netif := { ip_addr : Z; netmask : Z; flags : Z }.

Definition ip_addr_netcmp (addr1 addr2 mask : Z) : bool := Z.land addr1 mask =? Z.land addr2 mask.

Definition ip4_addr_isbroadcast (addr : Z) (n : netif) : Z :=
  if (u32 (Z.lnot addr) =? IPADDR_ANY) || (addr =? IPADDR_ANY) then 1
  else if Z.land (flags n) NETIF_FLAG_BROADCAST =? 0 then 0
  else if addr =? ip_addr n then 0
  else if ip_addr_netcmp addr (ip_addr n) (netmask n) &&
          (Z.land addr (u32 (Z.lnot (netmask n))) =? Z.land IPADDR_BROADCAST (u32 (Z.lnot (netmask n)))) then 1
  else 0.

(** The first loop ends with the mask of the first zero; [mask] has [fuel] bits. *)
Fixpoint first_zero (fuel : nat) (mask nm : Z) : Z :=
  match fuel with
  | O => 0
  | S fuel => if negb (mask =? 0) then if Z.land nm mask =? 0 then mask else first_zero fuel (Z.shiftr mask 1) nm else 0
  end.

Fixpoint no_one (fuel : nat) (mask nm : Z) : Z :=
  match fuel with
  | O => 1
  | S fuel =>
      if negb (mask =? 0) then if negb (Z.land nm mask =? 0) then 0 else no_one fuel (Z.shiftr mask 1) nm else 1
  end.

Definition ip4_addr_netmask_valid (netmask : Z) : Z :=
  let nm_hostorder := lwip_htonl netmask in
  no_one 32 (first_zero 32 (Z.shiftl 1 31) nm_hostorder) nm_hostorder.

(** ** Numbers in text *)

(** The value decimal digits spell. *)
Definition dec_val (ds : list Z) : Z := fold_left (fun v c => v * 10 + (c - 48)) ds 0.

Definition dec_digit (c : Z) : Prop := 48 <= c <= 57.

Lemma isdigit_dec c : 0 <= c < 256 -> isdigit c = true <-> dec_digit c.
Proof. intros Hc. unfold isdigit, in_range, dec_digit. rewrite u8_id by done. rewrite andb_true_iff, !Z.leb_le. done. Qed.

Lemma isdigit_char c : dec_digit c -> isdigit c = true.
Proof. intros Hc. apply isdigit_dec; unfold dec_digit in *; lia. Qed.

(** A run of digits that does not overflow, up to something else. *)
Lemma aton_digits_run base ds v rest :
  Forall dec_digit ds -> (base = 16 -> isxdigit (cur rest) = false) -> isdigit (cur rest) = false -> 0 <= v -> 0 < base ->
  fold_left (fun v c => v * base + (c - 48)) ds v < 2 ^ 32 ->
  aton_digits base v (ds ++ rest) = (fold_left (fun v c => v * base + (c - 48)) ds v, rest).
Proof.
  intros Hds Hx Hr. revert v. induction Hds as [|c ds Hc Hds IH]; intros v Hv Hb Hlt; cbn [app fold_left] in *.
  - destruct rest as [|c rest]; [done|]. cbn [aton_digits cur] in *. rewrite Hr.
    destruct (Z.eqb_spec base 16); [by rewrite Hx|done].
  - cbn [aton_digits]. rewrite isdigit_char by done. unfold dec_digit in Hc.
    assert (Hmono : forall ds v, Forall dec_digit ds -> 0 <= v -> v <= fold_left (fun v c => v * base + (c - 48)) ds v).
    { clear -Hb. intros ds. induction ds as [|c ds IH]; intros v Hds Hv; cbn [fold_left]; [lia|].
      apply Forall_cons_iff in Hds as [Hc Hds]. unfold dec_digit in Hc.
      assert (v <= v * base + (c - 48)) by nia. specialize (IH (v * base + (c - 48)) Hds). lia. }
    assert (0 <= v * base + (c - 48)) by nia. specialize (Hmono ds (v * base + (c - 48)) Hds). rewrite u32_id by lia.
    apply IH; (done || lia).
Qed.

(** A byte in decimal. *)
Definition dec_byte (b : Z) : list Z := match ntoa_inv 3 b with Some inv => rev inv | None => [] end.

(** What the proofs need of all 256 of them. *)
Definition dec_byte_ok (b : Z) : bool :=
  match ntoa_inv 3 b with
  | Some inv => let ds := rev inv in
      (dec_val ds =? b) && forallb (fun c => (48 <=? c) && (c <=? 57)) ds && (1 <=? zlen ds) && (zlen ds <=? 3) &&
      ((negb (cur ds =? 48)) || (zlen ds =? 1))
  | None => false
  end.

Lemma bytes_dec : forallb dec_byte_ok (map Z.of_nat (seq 0 256)) = true.
Proof. vm_compute. reflexivity. Qed.

Lemma dec_byte_spec b : is_byte b ->
  ntoa_inv 3 b = Some (rev (dec_byte b)) /\ dec_val (dec_byte b) = b /\ Forall dec_digit (dec_byte b) /\
  1 <= zlen (dec_byte b) <= 3 /\ (dec_byte b = [48] \/ cur (dec_byte b) <> 48).
Proof.
  intros Hb. unfold is_byte in Hb. pose proof bytes_dec as H. rewrite forallb_forall in H.
  specialize (H b). assert (Hin : In b (map Z.of_nat (seq 0 256))).
  { apply in_map_iff. exists (Z.to_nat b). split; [lia|]. apply in_seq. lia. }
  specialize (H Hin). unfold dec_byte_ok, dec_byte in *. destruct (ntoa_inv 3 b) as [inv|]; [|done].
  cbv zeta in H. rewrite !andb_true_iff, orb_true_iff, Z.eqb_eq, !Z.leb_le, negb_true_iff, Z.eqb_neq, forallb_forall in H.
  destruct H as ((((H1 & H2) & H3) & H4) & H5). rewrite rev_involutive. split_and!; try done; [|].
  - apply Forall_forall. intros c Hc%H2. apply andb_true_iff in Hc as [?%Z.leb_le ?%Z.leb_le]. unfold dec_digit. lia.
  - destruct H5 as [H5|H5]; [by right|]. apply Z.eqb_eq in H5.
    destruct (rev inv) as [|c [|? ?]]; cbn [length] in *; try lia. destruct (Z.eq_dec c 48) as [->|]; [by left|by right].
Qed.

(** A decimal number in front of a dot or of the end. *)
Lemma aton_part_decimal ds rest :
  Forall dec_digit ds -> ds <> [] -> cur ds <> 48 -> dec_val ds < 2 ^ 32 -> cur rest = 46 \/ cur rest = 0 ->
  aton_part (ds ++ rest) = Some (dec_val ds, rest).
Proof.
  intros Hds Hne Hz Hv Hr. assert (Hnd : isdigit (cur rest) = false) by (by destruct Hr as [->| ->]).
  destruct ds as [|c ds]; [done|]. unfold aton_part. cbn [app cur] in *.
  pose proof Hds as Hds0. apply Forall_cons_iff in Hds0 as [Hc _]. rewrite isdigit_char by done. cbn [negb].
  rewrite (proj2 (Z.eqb_neq c 48)) by done. rewrite app_comm_cons. unfold dec_val in *.
  by rewrite (aton_digits_run 10 (c :: ds) 0 rest) by (try done; lia).
Qed.

(** A byte in front of a dot or of the end is read back. *)
Lemma aton_part_byte b rest : is_byte b -> cur rest = 46 \/ cur rest = 0 -> aton_part (dec_byte b ++ rest) = Some (b, rest).
Proof.
  intros Hb Hr. destruct (dec_byte_spec b Hb) as (_ & Hv & Hds & Hlen & Hz). unfold is_byte in Hb.
  assert (Hnd : isdigit (cur rest) = false) by (by destruct Hr as [->| ->]).
  assert (Hnx : isxdigit (cur rest) = false) by (by destruct Hr as [->| ->]).
  destruct Hz as [E|Hz].
  - unfold aton_part. rewrite E in *. cbn [app cur step]. change (isdigit 48) with true. change (48 =? 48) with true. cbn [negb].
    assert (Hx : (cur rest =? 120) || (cur rest =? 88) = false) by (by destruct Hr as [->| ->]). rewrite Hx.
    pose proof (aton_digits_run 8 [] 0 rest) as Hd. cbn [app fold_left] in Hd.
    rewrite Hd by (done || lia || constructor). by rewrite <- Hv.
  - rewrite aton_part_decimal; [by rewrite Hv|done| |done|lia|done]. intros E. rewrite E in Hlen. cbn in Hlen. lia.
Qed.

(** The dotted form. *)
Definition dotted (a : Z) : list Z :=
  match addr_bytes a with
  | [b0; b1; b2; b3] => dec_byte b0 ++ 46 :: dec_byte b1 ++ 46 :: dec_byte b2 ++ 46 :: dec_byte b3
  | _ => []
  end.

Lemma addr_bytes_ok a : 0 <= a < 2 ^ 32 -> Forall is_byte (addr_bytes a).
Proof.
  intros Ha. unfold addr_bytes. repeat apply Forall_cons; try apply Z.mod_pos_bound; try lia; [|done].
  split; [apply Z.div_pos|apply Z.div_lt_upper_bound]; lia.
Qed.

Lemma lwip_htonl_bytes n : 0 <= n < 2 ^ 32 ->
  lwip_htonl n = ((n mod 256 * 256 + n / 256 mod 256) * 256 + n / 65536 mod 256) * 256 + n / 16777216.
Proof.
  intros Hn. unfold lwip_htonl. change 0xff with (Z.ones 8) at 1. rewrite Z.land_ones by lia. change (2 ^ 8) with 256.
  change 0xff00 with (0xff * 2 ^ 8). change 0xff0000 with (0xff * 2 ^ 16). change 0xff000000 with (0xff * 2 ^ 24).
  rewrite (land_byte n 8), (land_byte n 16), (land_byte n 24) by lia.
  rewrite !Z.shiftl_mul_pow2, !Z.shiftr_div_pow2 by lia.
  change (2 ^ 24) with 16777216. change (2 ^ 16) with 65536. change (2 ^ 8) with 256.
  pose proof (addr_bytes_ok n Hn) as Hb. unfold addr_bytes in Hb. rewrite !Forall_cons_iff in Hb. unfold is_byte in Hb.
  destruct Hb as (B0 & B1 & B2 & B3 & _). rewrite (Z.mod_small (n / 16777216)) by lia.
  set (b0 := n mod 256) in *. set (b1 := n / 256 mod 256) in *. set (b2 := n / 65536 mod 256) in *. set (b3 := n / 16777216) in *.
  rewrite (Z.div_mul b3) by lia. replace (b2 * 65536) with (b2 * 256 * 256) by lia. rewrite (Z.div_mul (b2 * 256)) by lia.
  replace (b1 * 256 * 256) with (b1 * 2 ^ 16) by lia. change 16777216 with (2 ^ 24).
  rewrite (lor_add b0 (b1 * 2 ^ 16) 24) by lia.
  replace (b0 * 2 ^ 24 + b1 * 2 ^ 16) with ((b0 * 256 + b1) * 2 ^ 16) by lia.
  rewrite (lor_add _ (b2 * 256) 16) by lia.
  replace ((b0 * 256 + b1) * 2 ^ 16 + b2 * 256) with (((b0 * 256 + b1) * 256 + b2) * 2 ^ 8) by lia.
  rewrite (lor_add _ b3 8) by lia. rewrite u32_id by lia. lia.
Qed.

(** ** Printing *)

Lemma ntoa_copy_spec buflen out ds : zlen out <= buflen ->
  ntoa_copy buflen out ds = if zlen out + zlen ds <=? buflen then Some (out ++ ds) else None.
Proof.
  revert out. induction ds as [|c ds IH]; intros out Hout; cbn [ntoa_copy length].
  - rewrite (proj2 (Z.leb_le _ _)), app_nil_r by lia. done.
  - unfold ntoa_put. destruct (Z.leb_spec buflen (zlen out)); [by rewrite (proj2 (Z.leb_gt _ _)) by lia|].
    rewrite IH by (rewrite length_app; cbn [length]; lia). rewrite length_app, <- app_assoc. cbn [length app].
    by replace (Z.of_nat (length out + 1) + zlen ds) with (zlen out + Z.of_nat (S (length ds))) by lia.
Qed.

Definition dot_after (b : Z) : list Z := dec_byte b ++ [46].

Lemma ntoa_loop_spec buflen aps out : Forall is_byte aps -> zlen out <= buflen ->
  ntoa_loop buflen out aps =
  Some (if zlen out + zlen (concat (map dot_after aps)) <=? buflen then Some (out ++ concat (map dot_after aps)) else None).
Proof.
  intros Hb. revert out. induction Hb as [|b aps Hb Haps IH]; intros out Hout; cbn [ntoa_loop map concat length].
  - rewrite (proj2 (Z.leb_le _ _)), app_nil_r by lia. done.
  - destruct (dec_byte_spec b Hb) as (-> & _ & _ & Hl & _). rewrite rev_involutive, ntoa_copy_spec by done.
    unfold dot_after at 1 3. rewrite !length_app. cbn [length].
    destruct (Z.leb_spec (zlen out + zlen (dec_byte b)) buflen); [|by rewrite (proj2 (Z.leb_gt _ _)) by lia].
    unfold ntoa_put. rewrite length_app. destruct (Z.leb_spec buflen (Z.of_nat (length out + length (dec_byte b))));
      [by rewrite (proj2 (Z.leb_gt _ _)) by lia|].
    rewrite IH by (rewrite !length_app; cbn [length]; lia). rewrite !length_app, <- !app_assoc. cbn [length].
    replace (Z.of_nat (length out + length (dec_byte b) + 1) + zlen (concat (map dot_after aps)))
      with (zlen out + Z.of_nat (length (dec_byte b) + 1 + length (concat (map dot_after aps)))) by lia. done.
Qed.

Lemma dotted_dots a : concat (map dot_after (addr_bytes a)) = dotted a ++ [46].
Proof. unfold dotted, addr_bytes, dot_after. cbn [map concat]. rewrite app_nil_r. repeat (rewrite <- !app_assoc; cbn [app]). done. Qed.

Lemma ntoa_spec a buflen : 0 <= a < 2 ^ 32 -> 0 <= buflen ->
  ipaddr_ntoa_r a buflen = Some (if zlen (dotted a) + 1 <=? buflen then Some (dotted a ++ [0]) else None).
Proof.
  intros Ha Hb. unfold ipaddr_ntoa_r. rewrite ntoa_loop_spec by (by apply addr_bytes_ok || (cbn; lia)).
  rewrite dotted_dots, length_app. cbn [length].
  replace (Z.of_nat 0 + Z.of_nat (length (dotted a) + 1)) with (zlen (dotted a) + 1) by (cbn; lia).
  destruct (zlen (dotted a) + 1 <=? buflen); [|done]. cbn [app]. by rewrite removelast_last.
Qed.

Lemma dotted_length a : 0 <= a < 2 ^ 32 -> zlen (dotted a) <= 15.
Proof.
  intros Ha. pose proof (addr_bytes_ok a Ha) as Hb. unfold dotted, addr_bytes in *. rewrite !Forall_cons_iff in Hb.
  destruct Hb as (B0 & B1 & B2 & B3 & _). rewrite !length_app. cbn [length]. rewrite !length_app. cbn [length]. rewrite !length_app. cbn [length].
  destruct (dec_byte_spec _ B0) as (_ & _ & _ & L0 & _), (dec_byte_spec _ B1) as (_ & _ & _ & L1 & _),
    (dec_byte_spec _ B2) as (_ & _ & _ & L2 & _), (dec_byte_spec _ B3) as (_ & _ & _ & L3 & _). lia.
Qed.

(** ** Reading *)

Lemma dec_val_nonneg ds : Forall dec_digit ds -> 0 <= dec_val ds.
Proof.
  intros Hds. unfold dec_val. assert (H : forall v, 0 <= v -> 0 <= fold_left (fun v c => v * 10 + (c - 48)) ds v); [|by apply H].
  induction Hds as [|c ds Hc Hds IH]; intros v Hv; cbn [fold_left]; [done|]. apply IH. unfold dec_digit in Hc. lia.
Qed.

(** Four numbers, the last three of them bytes. *)
Lemma aton_four cp a rest b1 b2 b3 :
  aton_part cp = Some (a, rest) -> rest = 46 :: dec_byte b1 ++ 46 :: dec_byte b2 ++ 46 :: dec_byte b3 ->
  0 <= a < 2 ^ 32 -> is_byte b1 -> is_byte b2 -> is_byte b3 ->
  ipaddr_aton cp = Some (lwip_htonl (a mod 256 * 16777216 + b1 * 65536 + b2 * 256 + b3)).
Proof.
  intros Hp -> Ha H1 H2 H3. unfold ipaddr_aton. cbn [aton_parts]. rewrite Hp. cbn [cur step]. cbn [Z.eqb Pos.eqb app].
  do 2 (rewrite aton_part_byte by (done || by left); cbn [cur step Z.eqb Pos.eqb app]).
  pose proof (aton_part_byte b3 [] H3) as Hl. rewrite app_nil_r in Hl. rewrite Hl by (by right).
  cbn [cur Z.eqb negb andb app]. unfold is_byte in *. rewrite (proj2 (Z.ltb_ge 0xff b3)) by lia. do 2 f_equal.
  unfold shl. rewrite !Z.shiftl_mul_pow2 by lia. unfold u32 at 1.
  replace (2 ^ 32) with (2 ^ 8 * 2 ^ 24) by reflexivity. rewrite Z.mul_mod_distr_r by lia. change (2 ^ 8) with 256.
  rewrite !u32_id by lia. set (x := a mod 256). assert (0 <= x < 256) by (apply Z.mod_pos_bound; lia).
  rewrite (lor_add x (b1 * 2 ^ 16) 24) by lia.
  replace (x * 2 ^ 24 + b1 * 2 ^ 16) with ((x * 2 ^ 8 + b1) * 2 ^ 16) by lia. rewrite (lor_add _ (b2 * 256) 16) by lia.
  replace ((x * 2 ^ 8 + b1) * 2 ^ 16 + b2 * 256) with (((x * 2 ^ 8 + b1) * 2 ^ 8 + b2) * 2 ^ 8) by lia.
  rewrite Z.lor_comm, (lor_add _ b3 8) by lia. lia.
Qed.

(** A number is made of its bytes, and [htonl] turns their order round. *)
Lemma addr_bytes_sum a : 0 <= a ->
  a mod 256 + 256 * (a / 256 mod 256) + 65536 * (a / 65536 mod 256) + 16777216 * (a / 16777216) = a.
Proof.
  intros Ha. pose proof (Z.div_mod a 256). pose proof (Z.div_mod (a / 256) 256). pose proof (Z.div_mod (a / 65536) 256).
  rewrite !Z.div_div in * by lia. change (256 * 256) with 65536 in *. change (65536 * 256) with 16777216 in *. lia.
Qed.

Lemma htonl_rev b0 b1 b2 b3 : is_byte b0 -> is_byte b1 -> is_byte b2 -> is_byte b3 ->
  lwip_htonl (b0 * 16777216 + b1 * 65536 + b2 * 256 + b3) = b3 * 16777216 + b2 * 65536 + b1 * 256 + b0.
Proof.
  unfold is_byte. intros H0 H1 H2 H3. set (n := b0 * 16777216 + b1 * 65536 + b2 * 256 + b3).
  rewrite lwip_htonl_bytes by (unfold n; lia).
  rewrite <- (Z.mod_unique_pos n 256 (b0 * 65536 + b1 * 256 + b2) b3) by (unfold n; lia).
  rewrite <- (Z.div_unique_pos n 256 (b0 * 65536 + b1 * 256 + b2) b3) by (unfold n; lia).
  rewrite <- (Z.div_unique_pos n 65536 (b0 * 256 + b1) (b2 * 256 + b3)) by (unfold n; lia).
  rewrite <- (Z.div_unique_pos n 16777216 b0 (b1 * 65536 + b2 * 256 + b3)) by (unfold n; lia).
  rewrite <- (Z.mod_unique_pos (b0 * 65536 + b1 * 256 + b2) 256 (b0 * 256 + b1) b2) by lia.
  rewrite <- (Z.mod_unique_pos (b0 * 256 + b1) 256 b0 b1) by lia. lia.
Qed.

Lemma aton_dotted a : 0 <= a < 2 ^ 32 -> ipaddr_aton (dotted a) = Some a.
Proof.
  intros Ha. pose proof (addr_bytes_ok a Ha) as Hb. pose proof (addr_bytes_sum a) as Hs.
  unfold dotted, addr_bytes in *. rewrite !Forall_cons_iff in Hb.
  destruct Hb as (B0 & B1 & B2 & B3 & _). erewrite aton_four; [|apply aton_part_byte; [done|by left]|reflexivity|..]; try done.
  2: { unfold is_byte in B0. lia. }
  f_equal. rewrite (Z.mod_small (a mod 256)) by (unfold is_byte in B0; lia). rewrite htonl_rev by done. lia.
Qed.

(** ** Masks *)

Lemma land_mask_bit n i : 0 <= i -> (Z.land n (2 ^ i) =? 0) = negb (Z.testbit n i).
Proof.
  intros Hi. destruct (Z.testbit n i) eqn:E; cbn [negb].
  - apply Z.eqb_neq. intros H. apply (f_equal (fun x => Z.testbit x i)) in H.
    by rewrite Z.land_spec, Z.pow2_bits_true, E, Z.bits_0 in H by done.
  - apply Z.eqb_eq. apply Z.bits_inj'. intros j Hj. rewrite Z.land_spec, Z.bits_0.
    destruct (Z.eq_dec j i) as [->|]; [by rewrite E|]. by rewrite Z.pow2_bits_false, andb_false_r by lia.
Qed.

Lemma mod_succ_bit n i : 0 <= n ->
  n mod 2 ^ Z.of_nat (S i) = (if Z.testbit n (Z.of_nat i) then 2 ^ Z.of_nat i else 0) + n mod 2 ^ Z.of_nat i.
Proof.
  intros Hn. rewrite Nat2Z.inj_succ, Z.pow_succ_r by lia. rewrite (Z.mul_comm 2), Z.rem_mul_r by lia.
  rewrite <- Z.testbit_spec' by lia. destruct (Z.testbit n (Z.of_nat i)); cbn; lia.
Qed.

(** The mask in front of [i] lower bits. *)
Definition top_bit (i : nat) : Z := match i with O => 0 | S i => 2 ^ Z.of_nat i end.

Lemma pow2_pos i : 0 < 2 ^ Z.of_nat i.
Proof. apply Z.pow_pos_nonneg; lia. Qed.

Lemma top_bit_next i : Z.shiftr (2 ^ Z.of_nat i) 1 = top_bit i.
Proof.
  destruct i as [|i]; [done|]. cbn [top_bit]. rewrite Nat2Z.inj_succ, Z.pow_succ_r, Z.mul_comm, Z.shiftr_div_pow2 by lia.
  apply Z.div_mul. lia.
Qed.

Lemma no_one_spec f i n : 0 <= n -> (i <= f)%nat -> no_one f (top_bit i) n = if n mod 2 ^ Z.of_nat i =? 0 then 1 else 0.
Proof.
  intros Hn. revert i. induction f as [|f IH]; intros [|i] Hf; cbn [no_one]; try lia; cbn [top_bit];
    [by rewrite Z.mod_1_r|by rewrite Z.mod_1_r|].
  pose proof (pow2_pos i). rewrite (proj2 (Z.eqb_neq (2 ^ Z.of_nat i) 0)), land_mask_bit, mod_succ_bit, top_bit_next by lia. cbn [negb].
  pose proof (Z.mod_pos_bound n (2 ^ Z.of_nat i)). destruct (Z.testbit n (Z.of_nat i)); cbn [negb].
  - by rewrite (proj2 (Z.eqb_neq _ _)) by lia.
  - apply IH. lia.
Qed.

Lemma mask_spec f i n : 0 <= n -> (i <= f)%nat -> (i <= 32)%nat ->
  no_one 32 (first_zero f (top_bit i) n) n = 1 <->
  exists j, (j <= i)%nat /\ n mod 2 ^ Z.of_nat i = 2 ^ Z.of_nat i - 2 ^ Z.of_nat j.
Proof.
  intros Hn. revert i. induction f as [|f IH]; intros [|i] Hf H32; cbn [first_zero]; try lia; cbn [top_bit].
  1, 2: split; [intros _; exists 0%nat; by rewrite Z.mod_1_r|done].
  pose proof (pow2_pos i). rewrite (proj2 (Z.eqb_neq (2 ^ Z.of_nat i) 0)), land_mask_bit, top_bit_next by lia. cbn [negb].
  pose proof (Z.mod_pos_bound n (2 ^ Z.of_nat i)). assert (Hs : 2 ^ Z.of_nat (S i) = 2 * 2 ^ Z.of_nat i).
  { rewrite Nat2Z.inj_succ, Z.pow_succ_r by lia. done. }
  assert (Hj : forall j, (j <= S i)%nat -> 2 ^ Z.of_nat j <= 2 ^ Z.of_nat i \/ j = S i).
  { intros j Hj. destruct (Nat.eq_dec j (S i)); [by right|left]. apply Z.pow_le_mono_r; lia. }
  destruct (Z.testbit n (Z.of_nat i)) eqn:Eb; cbn [negb].
  - rewrite IH by lia. rewrite mod_succ_bit, Eb, Hs by done. split; intros (j & Hj1 & E); exists j; [lia|].
    destruct (Hj j Hj1) as [_| ->]; [|rewrite Hs in E; lia].
    destruct (Nat.eq_dec j (S i)) as [->|]; [rewrite Hs in E|]; lia.
  - change (2 ^ Z.of_nat i) with (top_bit (S i)) at 1. rewrite no_one_spec, mod_succ_bit, Eb, Z.add_0_l, Hs by (done || lia).
    destruct (Z.eqb_spec (n mod 2 ^ Z.of_nat i) 0) as [->|Hne].
    + split; [intros _|done]. exists (S i). split; [done|]. rewrite Hs. lia.
    + split; [done|]. intros (j & Hj1 & E). exfalso. destruct (Hj j Hj1) as [Hle| ->]; [|rewrite Hs in E]; lia.
Qed.

(** ** What the text and the masks mean *)

(** C32: every address survives being printed and read: [ipaddr_ntoa_r] writes the
    dotted form and a 0 if the buffer has room for them, and otherwise returns
    [NULL]; 16 bytes are always enough, and [ipaddr_aton] reads the form back. *)
Theorem addr_roundtrip a buflen :
  0 <= a < 2 ^ 32 -> 0 <= buflen ->
  ipaddr_ntoa_r a buflen = Some (if zlen (dotted a) + 1 <=? buflen then Some (dotted a ++ [0]) else None) /\
  ipaddr_ntoa a = Some (Some (dotted a ++ [0])) /\
  ipaddr_aton (dotted a) = Some a /\ ipaddr_addr (dotted a) = a.
Proof.
  intros Ha Hb. pose proof (dotted_length a Ha). split_and!; [by apply ntoa_spec| |by apply aton_dotted|].
  - unfold ipaddr_ntoa. rewrite ntoa_spec by lia. by rewrite (proj2 (Z.leb_le _ _)) by lia.
  - unfold ipaddr_addr. by rewrite aton_dotted.
Qed.

(** 192.168.0.10 *)
Lemma addr_roundtrip_witness :
  ipaddr_ntoa_r 0x0a00a8c0 13 = Some (Some [49; 57; 50; 46; 49; 54; 56; 46; 48; 46; 49; 48; 0]) /\
  ipaddr_ntoa_r 0x0a00a8c0 12 = Some None /\
  ipaddr_aton [49; 57; 50; 46; 49; 54; 56; 46; 48; 46; 49; 48] = Some 0x0a00a8c0.
Proof.
  split_and!; [apply (addr_roundtrip 0x0a00a8c0 13); lia|apply (addr_roundtrip 0x0a00a8c0 12); lia|].
  apply (addr_roundtrip 0x0a00a8c0 0); lia.
Defined.

(** only the last number of an address is checked: whatever the first of four
    numbers is, the address with it modulo 256 is accepted in its place. *)
Theorem leading_part_wraps ds b1 b2 b3 :
  Forall dec_digit ds -> ds <> [] -> cur ds <> 48 -> dec_val ds < 2 ^ 32 -> is_byte b1 -> is_byte b2 -> is_byte b3 ->
  ipaddr_aton (ds ++ 46 :: dec_byte b1 ++ 46 :: dec_byte b2 ++ 46 :: dec_byte b3) =
  ipaddr_aton (dec_byte (dec_val ds mod 256) ++ 46 :: dec_byte b1 ++ 46 :: dec_byte b2 ++ 46 :: dec_byte b3).
Proof.
  intros Hds Hne Hz Hv H1 H2 H3. set (rest := 46 :: _).
  assert (Hm : is_byte (dec_val ds mod 256)) by (apply Z.mod_pos_bound; lia).
  assert (Hp : aton_part (ds ++ rest) = Some (dec_val ds, rest) /\ 0 <= dec_val ds).
  { split; [apply aton_part_decimal; by try left|by apply dec_val_nonneg]. }
  destruct Hp as [Hp H0]. rewrite (aton_four _ (dec_val ds) rest b1 b2 b3) by done.
  rewrite (aton_four _ (dec_val ds mod 256) rest b1 b2 b3);
    [by rewrite Zmod_mod|apply aton_part_byte; [done|by left]|done| |done..].
  unfold is_byte in Hm. lia.
Qed.

(** "300.1.2.3" is read as 44.1.2.3. *)
Lemma leading_part_witness :
  ipaddr_aton [51; 48; 48; 46; 49; 46; 50; 46; 51] = ipaddr_aton [52; 52; 46; 49; 46; 50; 46; 51].
Proof.
  apply (leading_part_wraps [51; 48; 48] 1 2 3); try (unfold is_byte; lia); try done.
  - repeat constructor; unfold dec_digit; lia.
Defined.

(** A mask is valid exactly when, in host order, it is some ones followed by
    zeros only: all of them and none included. *)
Theorem netmask_valid_correct nm :
  0 <= nm < 2 ^ 32 ->
  (ip4_addr_netmask_valid nm = 1 \/ ip4_addr_netmask_valid nm = 0) /\
  (ip4_addr_netmask_valid nm = 1 <-> exists j, (j <= 32)%nat /\ lwip_htonl nm = 2 ^ 32 - 2 ^ Z.of_nat j).
Proof.
  intros Hn. pose proof (u32_range (Z.lor (Z.lor (Z.lor (Z.shiftl (Z.land nm 0xff) 24) (Z.shiftl (Z.land nm 0xff00) 8))
    (Z.shiftr (Z.land nm 0xff0000) 8)) (Z.shiftr (Z.land nm 0xff000000) 24))) as Hr. fold (lwip_htonl nm) in Hr.
  unfold ip4_addr_netmask_valid. change (Z.shiftl 1 31) with (top_bit 32). split.
  - generalize (first_zero 32 (top_bit 32) (lwip_htonl nm)). generalize 32%nat. intros f.
    induction f as [|f IH]; intros m; cbn [no_one]; [by left|]. destruct (negb (m =? 0)); [|by left].
    destruct (negb _); [by right|apply IH].
  - rewrite mask_spec by lia. change (2 ^ Z.of_nat 32) with (2 ^ 32). by rewrite Z.mod_small by lia.
Qed.

(** 255.255.240.0 and 255.0.255.0 *)
Lemma netmask_witness : ip4_addr_netmask_valid 0x00f0ffff = 1 /\ ~ ip4_addr_netmask_valid 0x00ff00ff = 1.
Proof.
  split.
  - apply (netmask_valid_correct 0x00f0ffff); [lia|]. exists 12%nat. split; [lia|reflexivity].
  - intros H. vm_compute in H. discriminate H.
Defined.
