(* ===== verification/LwipTimers.v ===== *)
(** * Timeouts ([timers.c])

    The list of timeouts keeps in every entry the time from the entry before
    it.  It is modelled as a list, whose entries come from a pool of their own;
    an abstract list with the time from now in every entry is what it is proved
    to implement.  The functions [*_tmr] of the protocols, which the handlers
    call, leave the timeouts alone and are not part of the model. *)

From S2P Require Export Prelude.

Definition MEMP_NUM_SYS_TIMEOUT : Z := 16.
Definition SYS_ARCH_TIMEOUT : Z := 0xffffffff.

(** ** State *)

(** Handlers: those of this file, and others by their addresses; [NULL] is
    [Other 0]. *)
Inductive sys_timeout_handler :=
  | tcpip_tcp_timer | ip_reass_timer | arp_timer | dhcp_timer_coarse | dhcp_timer_fine | igmp_timer | dns_timer
  | Other (address : Z).

#[export] Instance handler_dec : EqDecision sys_timeout_handler.
Proof. solve_decision. Defined.

Record sys_timeo := Timeo { time : Z; h : sys_timeout_handler; arg : Z }.

Record timers := Timers { next_timeout : list sys_timeo; tcpip_tcp_timer_active : bool }.

(** ** The list *)

Definition set_time (t : sys_timeo) (ms : Z) : sys_timeo := Timeo ms (h t) (arg t).

(** [if (t->next != NULL) t->next->time -= ...], and [+=] *)
Definition head_sub (ms : Z) (l : list sys_timeo) : list sys_timeo :=
  match l with t :: l => set_time t (u32 (time t - ms)) :: l | [] => [] end.

Definition head_add (ms : Z) (l : list sys_timeo) : list sys_timeo :=
  match l with t :: l => set_time t (u32 (time t + ms)) :: l | [] => [] end.

(** The loop of [sys_timeout]: [l] is [t] and what follows it. *)
Fixpoint timeout_loop (timeout : sys_timeo) (l : list sys_timeo) : list sys_timeo :=
  match l with
  | [] => []
  | t :: rest =>
      let timeout := set_time timeout (u32 (time timeout - time t)) in
      if match rest with [] => true | n :: _ => time timeout <? time n end then
        t :: timeout :: head_sub (time timeout) rest
      else t :: timeout_loop timeout rest
  end.

Definition sys_timeout (msecs : Z) (handler : sys_timeout_handler) (a : Z) (st : timers) : timers :=
  let l := next_timeout st in
  if MEMP_NUM_SYS_TIMEOUT <=? zlen l then st
  else
    let timeout := Timeo msecs handler a in
    let l :=
      match l with
      | [] => [timeout]
      | t :: _ => if msecs <? time t then timeout :: head_sub msecs l else timeout_loop timeout l
      end in
    Timers l (tcpip_tcp_timer_active st).

Fixpoint untimeout_loop (handler : sys_timeout_handler) (a : Z) (l : list sys_timeo) : list sys_timeo :=
  match l with
  | [] => []
  | t :: l =>
      if bool_decide (h t = handler) && (arg t =? a) then head_add (time t) l else t :: untimeout_loop handler a l
  end.

Definition sys_untimeout (handler : sys_timeout_handler) (a : Z) (st : timers) : timers :=
  Timers (untimeout_loop handler a (next_timeout st)) (tcpip_tcp_timer_active st).

(** ** Handlers *)

Definition TCP_TMR_INTERVAL : Z := 250.
Definition IP_TMR_INTERVAL : Z := 1000.
Definition ARP_TMR_INTERVAL : Z := 5000.
Definition DHCP_COARSE_TIMER_MSECS : Z := 60000.
Definition DHCP_FINE_TIMER_MSECS : Z := 500.
Definition IGMP_TMR_INTERVAL : Z := 100.
Definition DNS_TMR_INTERVAL : Z := 1000.

(** [pcbs] is [tcp_active_pcbs || tcp_tw_pcbs]. *)
Definition run_tcpip_tcp_timer (pcbs : bool) (st : timers) : timers :=
  if pcbs then sys_timeout TCP_TMR_INTERVAL tcpip_tcp_timer 0 st
  else Timers (next_timeout st) false.

Definition tcp_timer_needed (pcbs : bool) (st : timers) : timers :=
  if negb (tcpip_tcp_timer_active st) && pcbs then
    sys_timeout TCP_TMR_INTERVAL tcpip_tcp_timer 0 (Timers (next_timeout st) true)
  else st.

(** A handler runs; those of others are [other]. *)
Definition run_handler (other : Z -> Z -> timers -> timers) (pcbs : bool) (t : sys_timeo) (st : timers) : timers :=
  match h t with
  | tcpip_tcp_timer => run_tcpip_tcp_timer pcbs st
  | ip_reass_timer => sys_timeout IP_TMR_INTERVAL ip_reass_timer 0 st
  | arp_timer => sys_timeout ARP_TMR_INTERVAL arp_timer 0 st
  | dhcp_timer_coarse => sys_timeout DHCP_COARSE_TIMER_MSECS dhcp_timer_coarse 0 st
  | dhcp_timer_fine => sys_timeout DHCP_FINE_TIMER_MSECS dhcp_timer_fine 0 st
  | igmp_timer => sys_timeout IGMP_TMR_INTERVAL igmp_timer 0 st
  | dns_timer => sys_timeout DNS_TMR_INTERVAL dns_timer 0 st
  | Other address => if address =? 0 then st else other address (arg t) st
  end.

Definition sys_timeouts_init (st : timers) : timers :=
  let st := sys_timeout IP_TMR_INTERVAL ip_reass_timer 0 st in
  let st := sys_timeout ARP_TMR_INTERVAL arp_timer 0 st in
  let st := sys_timeout DHCP_COARSE_TIMER_MSECS dhcp_timer_coarse 0 st in
  let st := sys_timeout DHCP_FINE_TIMER_MSECS dhcp_timer_fine 0 st in
  let st := sys_timeout IGMP_TMR_INTERVAL igmp_timer 0 st in
  sys_timeout DNS_TMR_INTERVAL dns_timer 0 st.

(** ** Waiting *)

(** One turn of [sys_timeouts_mbox_fetch] when [sys_arch_mbox_fetch] returns
    [fetched]: whether a message came, and the timers behind it.  A turn whose
    first timeout is due does not wait and ignores [fetched]. *)
Definition fetch_turn (other : Z -> Z -> timers -> timers) (pcbs : bool) (fetched : Z) (st : timers) : bool * timers :=
  match next_timeout st with
  | [] => (true, st)
  | t :: rest =>
      let time_needed := if 0 <? time t then fetched else SYS_ARCH_TIMEOUT in
      if time_needed =? SYS_ARCH_TIMEOUT then
        (false, run_handler other pcbs t (Timers rest (tcpip_tcp_timer_active st)))
      else
        let ms := if time_needed <? time t then u32 (time t - time_needed) else 0 in
        (true, Timers (set_time t ms :: rest) (tcpip_tcp_timer_active st))
  end.

(** [goto again]: what the mailbox returns is given turn by turn; [None] is that
    no message has come yet. *)
Fixpoint sys_timeouts_mbox_fetch (other : Z -> Z -> timers -> timers) (turns : list (Z * bool)) (st : timers) :
    option timers :=
  match turns with
  | [] => None
  | (fetched, pcbs) :: turns =>
      match fetch_turn other pcbs fetched st with
      | (true, st) => Some st
      | (false, st) => sys_timeouts_mbox_fetch other turns st
      end
  end.

(** ** The abstract list: times from now *)

Record due := Due { at_ms : Z; who : sys_timeout_handler; what : Z }.

Fixpoint dues (now : Z) (l : list sys_timeo) : list due :=
  match l with
  | [] => []
  | t :: l => Due (now + time t) (h t) (arg t) :: dues (now + time t) l
  end.

(** Behind those that are due no later. *)
Fixpoint due_insert (d : due) (l : list due) : list due :=
  match l with
  | [] => [d]
  | e :: l => if at_ms d <? at_ms e then d :: e :: l else e :: due_insert d l
  end.

Fixpoint due_delete (w : sys_timeout_handler) (a : Z) (l : list due) : list due :=
  match l with
  | [] => []
  | e :: l => if bool_decide (who e = w) && (what e =? a) then l else e :: due_delete w a l
  end.

Definition due_later (ms : Z) (e : due) : due := Due (at_ms e - ms) (who e) (what e).

(** Times are [u32_t], and so are their sums. *)
Fixpoint times_ok (now : Z) (l : list sys_timeo) : Prop :=
  match l with
  | [] => now < 2 ^ 32
  | t :: l => 0 <= time t /\ times_ok (now + time t) l
  end.

(** ** The list implements the abstract one *)

Lemma times_ok_bound now l : times_ok now l -> now < 2 ^ 32.
Proof. revert now. induction l as [|t l IH]; intros now; cbn [times_ok]; [done|]. intros [H1 H2]. specialize (IH _ H2). lia. Qed.

(** The entry before which a shorter one is put. *)
Lemma head_sub_spec now ms l : 0 <= now -> times_ok now l -> match l with [] => True | n :: _ => ms < time n end -> 0 <= ms ->
  now + ms < 2 ^ 32 -> times_ok (now + ms) (head_sub ms l) /\ dues (now + ms) (head_sub ms l) = dues now l.
Proof.
  intros Hn Hok Hlt Hms Hb. destruct l as [|n l]; cbn [head_sub]; [done|]. destruct Hok as [H1 H2].
  pose proof (times_ok_bound _ _ H2). cbn [times_ok dues]. unfold set_time. cbn [time h arg]. rewrite u32_id by lia.
  replace (now + ms + (time n - ms)) with (now + time n) by lia. split; [split; [lia|done]|done].
Qed.

Lemma timeout_loop_spec now t l :
  l <> [] -> 0 <= now -> times_ok now l -> match l with n :: _ => time n <= time t | [] => True end ->
  now + time t < 2 ^ 32 ->
  times_ok now (timeout_loop t l) /\ dues now (timeout_loop t l) = due_insert (Due (now + time t) (h t) (arg t)) (dues now l) /\
  length (timeout_loop t l) = S (length l).
Proof.
  revert now t. induction l as [|t0 l IH]; intros now t Hne Hn Hok Hle Hb; [done|]. cbn [timeout_loop].
  destruct Hok as [H0 Hok]. pose proof (times_ok_bound _ _ Hok).
  assert (Hset : set_time t (u32 (time t - time t0)) = Timeo (time t - time t0) (h t) (arg t)) by (by rewrite u32_id by lia).
  rewrite Hset. set (t' := Timeo (time t - time t0) (h t) (arg t)).
  cbn [dues due_insert at_ms]. rewrite (proj2 (Z.ltb_ge _ _)) by lia.
  assert (Hnow : now + time t0 + (time t - time t0) = now + time t) by lia.
  destruct l as [|n l].
  - cbn [head_sub times_ok dues due_insert length time h arg]. unfold t'. cbn [time h arg]. rewrite Hnow. split_and!; try lia; done.
  - cbn [time t']. unfold t' at 1. cbn [time]. destruct (Z.ltb_spec (time t - time t0) (time n)) as [Hlt|Hge].
    + destruct (head_sub_spec (now + time t0) (time t - time t0) (n :: l)) as [H1 H2]; [lia|done|done|lia|lia|].
      rewrite Hnow in *. split_and!; try done.
      * cbn [times_ok]. unfold t'. cbn [time]. rewrite Hnow. split_and!; (done || lia).
      * cbn [dues]. unfold t'. cbn [time h arg]. rewrite Hnow, H2. cbn [due_insert at_ms dues].
        by rewrite (proj2 (Z.ltb_lt _ _)) by lia.
    + destruct (IH (now + time t0) t') as (H1 & H2 & H3); [done|lia|done|cbn [time t']; lia|unfold t'; cbn [time]; lia|].
      split; [by split|split].
      * cbn [dues]. rewrite H2. unfold t'. cbn [time h arg]. by rewrite Hnow.
      * cbn [length] in *. by rewrite H3.
Qed.

Definition full (st : timers) : bool := MEMP_NUM_SYS_TIMEOUT <=? zlen (next_timeout st).

(** What the timers stand for. *)
Definition timers_dues (st : timers) : list due := dues 0 (next_timeout st).

Definition timers_ok (st : timers) : Prop := times_ok 0 (next_timeout st) /\ zlen (next_timeout st) <= MEMP_NUM_SYS_TIMEOUT.

Lemma dues_length now l : length (dues now l) = length l.
Proof. revert now. induction l as [|t l IH]; intros now; [done|]. cbn. by rewrite IH. Qed.

Lemma sys_timeout_spec ms w a st :
  timers_ok st -> 0 <= ms < 2 ^ 32 ->
  timers_ok (sys_timeout ms w a st) /\
  timers_dues (sys_timeout ms w a st) = (if full st then timers_dues st else due_insert (Due ms w a) (timers_dues st)) /\
  tcpip_tcp_timer_active (sys_timeout ms w a st) = tcpip_tcp_timer_active st.
Proof.
  intros [Hok Hlen] Hms. unfold sys_timeout, full, timers_ok, timers_dues.
  destruct (Z.leb_spec MEMP_NUM_SYS_TIMEOUT (zlen (next_timeout st))) as [|Hroom]; [done|]. cbn [next_timeout tcpip_tcp_timer_active].
  destruct (next_timeout st) as [|t l] eqn:El.
  - cbn [times_ok dues due_insert time h arg length]. split_and!; try done; lia.
  - destruct (Z.ltb_spec ms (time t)) as [Hlt|Hge].
    + destruct (head_sub_spec 0 ms (t :: l)) as [H1 H2]; [lia|done|done|lia|lia|]. rewrite Z.add_0_l in H1, H2.
      cbn [times_ok time length]. rewrite Z.add_0_l. split_and!; try done; try lia.
      * cbn [head_sub length] in *. unfold MEMP_NUM_SYS_TIMEOUT in *. lia.
      * cbn [dues time h arg]. rewrite Z.add_0_l, H2. cbn [dues due_insert at_ms]. rewrite Z.add_0_l.
        by rewrite (proj2 (Z.ltb_lt _ _)) by done.
    + destruct (timeout_loop_spec 0 (Timeo ms w a) (t :: l)) as (H1 & H2 & H3); [done|lia|done|done|cbn [time]; lia|].
      split_and!; [done|rewrite H3; unfold MEMP_NUM_SYS_TIMEOUT in *; lia|exact H2|done].
Qed.

Lemma head_add_dues now ms l : 0 <= now -> 0 <= ms -> times_ok (now + ms) l -> 
  times_ok now (head_add ms l) /\ dues now (head_add ms l) = dues (now + ms) l /\ length (head_add ms l) = length l.
Proof.
  intros Hn Hms Hok. pose proof (times_ok_bound _ _ Hok). destruct l as [|n l]; cbn [head_add times_ok dues length] in *; [split_and!; (done || lia)|].
  destruct Hok as [H1 H2]. pose proof (times_ok_bound _ _ H2). unfold set_time. cbn [time h arg]. rewrite u32_id by lia.
  replace (now + (time n + ms)) with (now + ms + time n) by lia. split_and!; (done || lia).
Qed.

Lemma untimeout_spec now w a l : 0 <= now -> times_ok now l ->
  times_ok now (untimeout_loop w a l) /\ dues now (untimeout_loop w a l) = due_delete w a (dues now l) /\
  (length (untimeout_loop w a l) <= length l)%nat.
Proof.
  revert now. induction l as [|t l IH]; intros now Hn Hok; [done|]. destruct Hok as [H1 H2].
  cbn [untimeout_loop dues due_delete who what]. destruct (bool_decide (h t = w) && (arg t =? a)).
  - destruct (head_add_dues now (time t) l) as (E1 & E2 & E3); [done..|]. cbn [length]. split_and!; [done|done|lia].
  - destruct (IH (now + time t)) as (E1 & E2 & E3); [lia|done|]. cbn [times_ok dues length]. rewrite E2.
    split_and!; (done || lia).
Qed.

(** Time passes: [ms] is subtracted from every entry. *)
Lemma dues_shift now ms l : dues (now - ms) l = map (due_later ms) (dues now l).
Proof.
  revert now. induction l as [|t l IH]; intros now; [done|]. cbn [dues map]. unfold due_later at 1. cbn [at_ms who what].
  rewrite <- IH. by replace (now - ms + time t) with (now + time t - ms) by lia.
Qed.

Lemma times_ok_le now now' l : now' <= now -> times_ok now l -> times_ok now' l.
Proof.
  revert now now'. induction l as [|t l IH]; intros now now' Hle; cbn [times_ok]; [lia|]. intros [H1 H2]. split; [done|].
  eapply (IH (now + time t)); [lia|done].
Qed.

(** ** The abstract timers *)

(** One turn: a message after [ms] milliseconds, counted up to the next time
    due only; or the next entry is due and its handler runs. *)
Definition due_turn (fetched : Z) (l : list due) : bool * option due * list due :=
  match l with
  | [] => (true, None, [])
  | d :: rest =>
      if (at_ms d <=? 0) || (fetched =? SYS_ARCH_TIMEOUT) then (false, Some d, map (due_later (at_ms d)) rest)
      else (true, None, map (due_later (Z.min fetched (at_ms d))) l)
  end.

(** What happens to a list before the handler runs. *)
Definition expire (st : timers) : timers :=
  Timers (match next_timeout st with [] => [] | _ :: rest => rest end) (tcpip_tcp_timer_active st).

Lemma fetch_turn_spec other pcbs fetched st :
  timers_ok st -> 0 <= fetched <= SYS_ARCH_TIMEOUT ->
  match due_turn fetched (timers_dues st) with
  | (msg, None, l) => fetch_turn other pcbs fetched st = (msg, Timers (next_timeout (fetch_turn other pcbs fetched st).2) (tcpip_tcp_timer_active st)) /\
      timers_ok (fetch_turn other pcbs fetched st).2 /\ timers_dues (fetch_turn other pcbs fetched st).2 = l
  | (msg, Some d, l) => exists t, h t = who d /\ arg t = what d /\
      fetch_turn other pcbs fetched st = (msg, run_handler other pcbs t (expire st)) /\
      timers_ok (expire st) /\ timers_dues (expire st) = l /\ full (expire st) = false
  end.
Proof.
  intros [Hok Hlen] Hf. unfold timers_dues, timers_ok, fetch_turn, due_turn, expire, full. destruct st as [l active].
  cbn [next_timeout tcpip_tcp_timer_active] in *. destruct l as [|t l]; [done|]. cbn [dues at_ms times_ok] in *. rewrite Z.add_0_l in *.
  destruct Hok as [H0 Hok]. cbn [length] in Hlen. unfold SYS_ARCH_TIMEOUT, MEMP_NUM_SYS_TIMEOUT in *.
  assert (Hex : times_ok 0 l /\ zlen l <= 16 /\ dues 0 l = map (due_later (time t)) (dues (time t) l) /\ (16 <=? zlen l) = false).
  { split_and!; [by eapply times_ok_le|lia| |apply Z.leb_gt; lia]. rewrite <- dues_shift. f_equal. lia. }
  destruct (Z.ltb_spec 0 (time t)) as [Hpos|Hdue].
  - rewrite (proj2 (Z.leb_gt (time t) 0)) by done. cbn [orb].
    destruct (Z.eqb_spec fetched 0xffffffff) as [E|E]; [exists t; cbn [who what]; tauto|].
    assert (Hms : (if fetched <? time t then u32 (time t - fetched) else 0) = time t - Z.min fetched (time t)).
    { pose proof (times_ok_bound _ _ Hok). destruct (Z.ltb_spec fetched (time t)); [rewrite u32_id by lia|]; lia. }
    rewrite Hms. cbn [snd next_timeout times_ok length dues map]. unfold set_time. cbn [time h arg]. unfold due_later at 1.
    cbn [at_ms who what]. rewrite <- dues_shift, !Z.add_0_l. split_and!; try done; try lia.
    eapply times_ok_le; [|exact Hok]. lia.
  - rewrite (proj2 (Z.leb_le (time t) 0)) by lia. cbn [orb]. exists t. change (0xffffffff =? 0xffffffff) with true.
    cbn [who what]. tauto.
Qed.

Record adues := ADues { list_of : list due; tcp_active : bool }.

Definition refines (st : timers) (ad : adues) : Prop :=
  timers_ok st /\ timers_dues st = list_of ad /\ tcpip_tcp_timer_active st = tcp_active ad.

Definition abs_start (ms : Z) (w : sys_timeout_handler) (a : Z) (ad : adues) : adues :=
  ADues (if MEMP_NUM_SYS_TIMEOUT <=? zlen (list_of ad) then list_of ad else due_insert (Due ms w a) (list_of ad)) (tcp_active ad).

Definition abs_stop (w : sys_timeout_handler) (a : Z) (ad : adues) : adues :=
  ADues (due_delete w a (list_of ad)) (tcp_active ad).

(** The timers of the stack that never stop. *)
Definition cyclic (w : sys_timeout_handler) : option Z :=
  match w with
  | ip_reass_timer => Some IP_TMR_INTERVAL
  | arp_timer => Some ARP_TMR_INTERVAL
  | dhcp_timer_coarse => Some DHCP_COARSE_TIMER_MSECS
  | dhcp_timer_fine => Some DHCP_FINE_TIMER_MSECS
  | igmp_timer => Some IGMP_TMR_INTERVAL
  | dns_timer => Some DNS_TMR_INTERVAL
  | _ => None
  end.

(** The entries of one handler. *)
Definition entries (w : sys_timeout_handler) (l : list due) : list due := filter (fun e => who e = w) l.

(** Handlers of other code: what they do to the timers, in both forms; they
    leave the cyclic timers alone. *)
Class Handlers := {
  other : Z -> Z -> timers -> timers;
  abs_other : Z -> Z -> adues -> adues;
  other_refines address a st ad : refines st ad -> refines (other address a st) (abs_other address a ad);
  other_entries address a ad w : cyclic w <> None ->
    entries w (list_of (abs_other address a ad)) = entries w (list_of ad)
}.

Section Runs.
Context `{Handlers}.

Definition abs_handler (pcbs : bool) (d : due) (ad : adues) : adues :=
  match who d with
  | tcpip_tcp_timer => if pcbs then abs_start TCP_TMR_INTERVAL tcpip_tcp_timer 0 ad else ADues (list_of ad) false
  | Other address => if address =? 0 then ad else abs_other address (what d) ad
  | w => match cyclic w with Some ms => abs_start ms w 0 ad | None => ad end
  end.

Definition abs_turn (pcbs : bool) (fetched : Z) (ad : adues) : adues :=
  match due_turn fetched (list_of ad) with
  | (_, None, l) => ADues l (tcp_active ad)
  | (_, Some d, l) => abs_handler pcbs d (ADues l (tcp_active ad))
  end.

(** What happens to the timers. *)
Inductive op :=
  | Start (ms : Z) (w : sys_timeout_handler) (a : Z)
  | Stop (w : sys_timeout_handler) (a : Z)
  | Needed (pcbs : bool)
  | Turn (pcbs : bool) (fetched : Z).

Definition exec (o : op) (st : timers) : timers :=
  match o with
  | Start ms w a => sys_timeout ms w a st
  | Stop w a => sys_untimeout w a st
  | Needed pcbs => tcp_timer_needed pcbs st
  | Turn pcbs fetched => (fetch_turn other pcbs fetched st).2
  end.

Definition abs_exec (o : op) (ad : adues) : adues :=
  match o with
  | Start ms w a => abs_start ms w a ad
  | Stop w a => abs_stop w a ad
  | Needed pcbs =>
      if negb (tcp_active ad) && pcbs then abs_start TCP_TMR_INTERVAL tcpip_tcp_timer 0 (ADues (list_of ad) true) else ad
  | Turn pcbs fetched => abs_turn pcbs fetched ad
  end.

Definition op_ok (o : op) : Prop :=
  match o with
  | Start ms _ _ => 0 <= ms < 2 ^ 32
  | Turn _ fetched => 0 <= fetched <= SYS_ARCH_TIMEOUT
  | _ => True
  end.

Lemma start_refines ms w a st ad : refines st ad -> 0 <= ms < 2 ^ 32 -> refines (sys_timeout ms w a st) (abs_start ms w a ad).
Proof.
  intros (Hok & Hd & Ha) Hms. destruct (sys_timeout_spec ms w a st Hok Hms) as (H1 & H2 & H3).
  split_and!; [done| |by rewrite H3]. rewrite H2. unfold full. rewrite <- (dues_length 0). fold (timers_dues st).
  cbn [abs_start list_of]. by rewrite Hd.
Qed.

Lemma handler_refines pcbs t d st ad :
  refines st ad -> h t = who d -> arg t = what d -> refines (run_handler other pcbs t st) (abs_handler pcbs d ad).
Proof.
  intros Hr Hh Ha. unfold run_handler, abs_handler. rewrite <- Hh, <- Ha.
  destruct (h t); try (by apply start_refines).
  - unfold run_tcpip_tcp_timer. destruct pcbs; [by apply start_refines|]. destruct Hr as (H1 & H2 & _). by split_and!.
  - destruct (address =? 0); [done|by apply other_refines].
Qed.

Lemma turn_refines pcbs fetched st ad :
  refines st ad -> 0 <= fetched <= SYS_ARCH_TIMEOUT ->
  refines (fetch_turn other pcbs fetched st).2 (abs_turn pcbs fetched ad).
Proof.
  intros (Hok & Hd & Ha) Hf. pose proof (fetch_turn_spec other pcbs fetched st Hok Hf) as Ht. rewrite Hd in Ht.
  unfold abs_turn. destruct (due_turn fetched (list_of ad)) as [[msg [d|]] l].
  - destruct Ht as (t & Hh & Harg & -> & Hok' & Hd' & _). apply handler_refines; [|done..]. by split_and!.
  - destruct Ht as (E & Hok' & Hd'). split_and!; [done|done|]. by rewrite E.
Qed.

Lemma exec_refines o st ad : refines st ad -> op_ok o -> refines (exec o st) (abs_exec o ad).
Proof.
  intros Hr Ho. destruct o as [ms w a|w a|pcbs|pcbs fetched]; cbn [exec abs_exec op_ok] in *.
  - by apply start_refines.
  - destruct Hr as ([Hok Hl] & Hd & Ha). destruct (untimeout_spec 0 w a (next_timeout st)) as (H1 & H2 & H3); [lia|done|].
    split_and!; [by split; cbn [next_timeout sys_untimeout]; [|lia]| |done].
    cbn [abs_stop list_of]. rewrite <- Hd. exact H2.
  - unfold tcp_timer_needed. pose proof Hr as (H1 & H2 & ->). destruct (negb (tcp_active ad) && pcbs); [|done].
    apply start_refines; [by split_and!|done].
  - by apply turn_refines.
Qed.

Fixpoint run (os : list op) (st : timers) : timers := match os with [] => st | o :: os => run os (exec o st) end.
Fixpoint abs_run (os : list op) (ad : adues) : adues := match os with [] => ad | o :: os => abs_run os (abs_exec o ad) end.

Lemma run_refines os st ad : refines st ad -> Forall op_ok os -> refines (run os st) (abs_run os ad).
Proof.
  revert st ad. induction os as [|o os IH]; intros st ad Hr Ho; [done|]. apply Forall_cons_iff in Ho as [Ho Hos].
  cbn [run abs_run]. apply IH; [|done]. by apply exec_refines.
Qed.

(** ** The cyclic timers *)

Lemma entries_insert d l w : who d <> w -> entries w (due_insert d l) = entries w l.
Proof.
  intros Hne. unfold entries. induction l as [|e l IH]; cbn [due_insert].
  - by rewrite filter_cons_False.
  - destruct (at_ms d <? at_ms e); [by rewrite filter_cons_False|].
    destruct (decide (who e = w)); [rewrite !filter_cons_True by done|rewrite !filter_cons_False by done]; by rewrite IH.
Qed.

Lemma entries_first d l : entries (who d) l = [] -> entries (who d) (due_insert d l) = [d].
Proof.
  unfold entries. induction l as [|e l IH]; cbn [due_insert]; intros Hl.
  - by rewrite filter_cons_True.
  - destruct (decide (who e = who d)); [by rewrite filter_cons_True in Hl|]. rewrite filter_cons_False in Hl by done.
    destruct (at_ms d <? at_ms e); [|by rewrite filter_cons_False, IH].
    by rewrite filter_cons_True, filter_cons_False, Hl.
Qed.

Lemma entries_delete w' a l w : w' <> w -> entries w (due_delete w' a l) = entries w l.
Proof.
  intros Hne. unfold entries. induction l as [|e l IH]; cbn [due_delete]; [done|].
  destruct (bool_decide (who e = w') && (what e =? a)) eqn:E.
  - apply andb_true_iff in E as [E%bool_decide_eq_true _]. rewrite filter_cons_False; [done|congruence].
  - destruct (decide (who e = w)); [rewrite !filter_cons_True by done|rewrite !filter_cons_False by done]; by rewrite IH.
Qed.

Lemma entries_later ms l w : entries w (map (due_later ms) l) = map (due_later ms) (entries w l).
Proof.
  unfold entries. induction l as [|e l IH]; cbn [map]; [done|].
  destruct (decide (who e = w)); [rewrite !filter_cons_True by done|rewrite !filter_cons_False by done]; cbn [map]; by rewrite IH.
Qed.

(** Each of them is due once, within its period. *)
Definition beats (l : list due) : Prop :=
  forall w ms, cyclic w = Some ms -> exists d, entries w l = [d] /\ at_ms d <= ms.

Lemma beats_later ms l : 0 <= ms -> beats l -> beats (map (due_later ms) l).
Proof.
  intros Hms Hb w p Hw. destruct (Hb w p Hw) as (d & E & Hd). exists (due_later ms d). rewrite entries_later, E.
  split; [done|]. cbn. lia.
Qed.

Lemma beats_start ms w a ad : cyclic w = None -> beats (list_of ad) -> beats (list_of (abs_start ms w a ad)).
Proof.
  intros Hw Hb v p Hv. cbn [abs_start list_of]. destruct (_ <=? _); [by apply Hb|].
  rewrite entries_insert; [by apply Hb|]. cbn [who]. congruence.
Qed.

(** The handler of a timer that was taken out puts it back. *)
Lemma beats_handler pcbs d l active :
  beats (d :: l) -> zlen l < MEMP_NUM_SYS_TIMEOUT -> beats (list_of (abs_handler pcbs d (ADues l active))).
Proof.
  intros Hb Hroom.
  assert (Hrest : cyclic (who d) = None -> beats l).
  { intros Hd w p Hw. destruct (Hb w p Hw) as (e & E & He). exists e. unfold entries in *.
    rewrite filter_cons_False in E by congruence. done. }
  assert (Hback : forall ms, cyclic (who d) = Some ms -> beats (list_of (abs_start ms (who d) 0 (ADues l active)))).
  { intros ms Hd w p Hw. cbn [abs_start list_of]. rewrite (proj2 (Z.leb_gt _ _)) by done.
    destruct (Hb w p Hw) as (e & E & He). unfold entries in E. destruct (decide (who d = w)) as [<-|Hne].
    - rewrite filter_cons_True in E by done. injection E as _ E. exists (Due ms (who d) 0).
      split; [by apply (entries_first (Due ms (who d) 0))|]. rewrite Hd in Hw. injection Hw as ->. cbn. lia.
    - rewrite filter_cons_False in E by done. exists e. by rewrite entries_insert. }
  unfold abs_handler. destruct d as [t w a]. cbn [who what] in *. destruct w; try (by apply Hback).
  - destruct pcbs; [apply beats_start; [done|]|]; by apply Hrest.
  - destruct (address =? 0); [by apply Hrest|]. intros w p Hw. rewrite other_entries by congruence. by apply Hrest.
Qed.

(** Nobody else starts or stops them. *)
Definition keeps (o : op) : Prop :=
  match o with Start _ w _ | Stop w _ => cyclic w = None | _ => True end.

Lemma beats_exec o st ad : refines st ad -> op_ok o -> keeps o -> beats (list_of ad) -> beats (list_of (abs_exec o ad)).
Proof.
  intros ([Hok Hlen] & Hd & Ha) Ho Hk Hb. destruct o as [ms w a|w a|pcbs|pcbs fetched]; cbn [abs_exec op_ok keeps] in *.
  - by apply beats_start.
  - intros v p Hv. cbn [abs_stop list_of]. rewrite entries_delete by congruence. by apply Hb.
  - destruct (negb (tcp_active ad) && pcbs); [|done]. by apply beats_start.
  - unfold abs_turn, due_turn. rewrite <- (dues_length 0) in Hlen. fold (timers_dues st) in Hlen. rewrite Hd in Hlen.
    assert (Hpos : match list_of ad with d :: _ => 0 <= at_ms d | [] => True end).
    { rewrite <- Hd. unfold timers_dues. destruct (next_timeout st); [done|]. destruct Hok. cbn. lia. }
    destruct (list_of ad) as [|d l]; [done|]. cbn [length] in Hlen. destruct ((at_ms d <=? 0) || (fetched =? SYS_ARCH_TIMEOUT)).
    + assert (Hd2 : beats (due_later (at_ms d) d :: map (due_later (at_ms d)) l)) by by apply (beats_later (at_ms d) (d :: l)).
      apply (beats_handler pcbs (due_later (at_ms d) d)) with (active := tcp_active ad) in Hd2;
        [exact Hd2|rewrite length_map; unfold MEMP_NUM_SYS_TIMEOUT in *; lia].
    + apply beats_later; [lia|done].
Qed.

Lemma beats_run os st ad : refines st ad -> Forall op_ok os -> Forall keeps os -> beats (list_of ad) -> beats (timers_dues (run os st)).
Proof.
  revert st ad. induction os as [|o os IH]; intros st ad Hr Ho Hk Hb; [cbn [run]; by destruct Hr as (_ & -> & _)|].
  apply Forall_cons_iff in Ho as [Ho Hos]. apply Forall_cons_iff in Hk as [Hk Hks]. cbn [run].
  apply (IH _ (abs_exec o ad)); try done; [by apply exec_refines|by eapply beats_exec].
Qed.

Definition no_timers : timers := Timers [] false.

Lemma no_timers_ok active : refines (Timers [] active) (ADues [] active).
Proof. split_and!; done. Qed.

(** ** What the timers promise *)

(** C4: the list of differences implements the list of times from now: for every
    sequence of starts, stops, waits and handlers, each entry is due when the
    abstract list says, entries due at the same time stay in the order in which
    they were started, no sum overflows, and the 16 entries of the pool are never
    exceeded. *)
Theorem timers_refine os :
  Forall op_ok os ->
  timers_ok (run os no_timers) /\
  timers_dues (run os no_timers) = list_of (abs_run os (ADues [] false)) /\
  tcpip_tcp_timer_active (run os no_timers) = tcp_active (abs_run os (ADues [] false)).
Proof. apply run_refines, no_timers_ok. Qed.

(** C14: the timers of the stack never die: after [sys_timeouts_init], whatever
    comes by the mailbox and whatever other timers are started or stopped, each of
    the six cyclic timers is in the list exactly once, due within its period. *)
Theorem heartbeat os w ms :
  Forall op_ok os -> Forall keeps os -> cyclic w = Some ms ->
  exists d, entries w (timers_dues (run os (sys_timeouts_init no_timers))) = [d] /\ at_ms d <= ms.
Proof.
  intros Ho Hk. eapply (beats_run os _ (ADues (timers_dues (sys_timeouts_init no_timers)) false)); try done.
  intros v p Hv. destruct v; try discriminate Hv; injection Hv as <-; eexists; (split; [vm_compute; reflexivity|cbn; done]).
Qed.

End Runs.

(** Without handlers of other code. *)
Definition no_handlers : Handlers.
Proof. refine {| other := fun _ _ st => st; abs_other := fun _ _ ad => ad |}; done. Defined.

Definition timers_example : list op :=
  [Start 500 (Other 0x1000) 1; Start 500 (Other 0x1000) 2; Start 120 (Other 0x2000) 0; Turn false 50; Stop (Other 0x1000) 1;
   Needed true; Turn true SYS_ARCH_TIMEOUT; Turn true 30].

Ltac all_ops :=
  unfold timers_example; repeat (apply Forall_cons; [cbn; unfold SYS_ARCH_TIMEOUT; (done || lia)|]); apply Forall_nil.

Lemma timers_witness :
  timers_dues (@run no_handlers timers_example no_timers) =
    [Due 150 tcpip_tcp_timer 0; Due 350 (Other 0x1000) 2].
Proof.
  destruct (@timers_refine no_handlers timers_example) as (_ & E & _).
  - all_ops.
  - rewrite E. vm_compute. reflexivity.
Defined.

Lemma heartbeat_witness :
  exists d, entries igmp_timer (timers_dues (@run no_handlers timers_example (sys_timeouts_init no_timers))) = [d] /\ at_ms d <= 100.
Proof. apply (@heartbeat no_handlers timers_example igmp_timer 100); [all_ops|all_ops|done]. Defined.
