(* ===== verification/PppFrame.v ===== *)
(** * PPP frames ([ppp.c])

    What PPP puts on the serial line: frames between flags, with a checksum,
    in which octets are escaped.  [pppWrite] and [pppifOutput] make them in
    buffers of a pool, [pppInProc] takes them apart octet by octet, and
    [pppInput] hands what is in them to IP and the protocols.  The code is that
    of the configuration [LWIP_TRANSPORT_PPP] of [lwipopts.h], with neither PPP
    over Ethernet nor header compression of TCP.  Counters and
    traces are not part of the model. *)

From S2P Require Export LwipBase.

Definition PPP_ALLSTATIONS : Z := 0xff.
Definition PPP_UI : Z := 0x03.
Definition PPP_FLAG : Z := 0x7e.
Definition PPP_ESCAPE : Z := 0x7d.
Definition PPP_TRANS : Z := 0x20.
Definition PPP_INITFCS : Z := 0xffff.
Definition PPP_GOODFCS : Z := 0xf0b8.
Definition PPP_MAXIDLEFLAG : Z := 100.

Definition PPP_IP : Z := 0x21.
Definition PPP_VJC_COMP : Z := 0x2d.
Definition PPP_VJC_UNCOMP : Z := 0x2f.
Definition PPP_IPCP : Z := 0x8021.
Definition PPP_LCP : Z := 0xc021.
Definition PPP_PAP : Z := 0xc023.
Definition PPP_LQR : Z := 0xc025.
Definition PPP_CHAP : Z := 0xc223.

Definition PPPERR_NONE : Z := 0.
Definition PPPERR_ALLOC : Z := -4.
Definition ERR_OK : Z := 0.
Definition ERR_MEM : Z := -1.
Definition ERR_RTE : Z := -4.
Definition ERR_ARG : Z := -14.

Definition PHASE_DEAD : Z := 0.
Definition PHASE_AUTHENTICATE : Z := 3.

(** [LWIP_MEM_ALIGN_SIZE(TCP_MSS+40+PBUF_LINK_HLEN)] *)
Definition PBUF_POOL_BUFSIZE : Z := 592.

(** ** Checksum and character maps *)

Definition fcstab : list Z := [
  0x0000; 0x1189; 0x2312; 0x329b; 0x4624; 0x57ad; 0x6536; 0x74bf;
  0x8c48; 0x9dc1; 0xaf5a; 0xbed3; 0xca6c; 0xdbe5; 0xe97e; 0xf8f7;
  0x1081; 0x0108; 0x3393; 0x221a; 0x56a5; 0x472c; 0x75b7; 0x643e;
  0x9cc9; 0x8d40; 0xbfdb; 0xae52; 0xdaed; 0xcb64; 0xf9ff; 0xe876;
  0x2102; 0x308b; 0x0210; 0x1399; 0x6726; 0x76af; 0x4434; 0x55bd;
  0xad4a; 0xbcc3; 0x8e58; 0x9fd1; 0xeb6e; 0xfae7; 0xc87c; 0xd9f5;
  0x3183; 0x200a; 0x1291; 0x0318; 0x77a7; 0x662e; 0x54b5; 0x453c;
  0xbdcb; 0xac42; 0x9ed9; 0x8f50; 0xfbef; 0xea66; 0xd8fd; 0xc974;
  0x4204; 0x538d; 0x6116; 0x709f; 0x0420; 0x15a9; 0x2732; 0x36bb;
  0xce4c; 0xdfc5; 0xed5e; 0xfcd7; 0x8868; 0x99e1; 0xab7a; 0xbaf3;
  0x5285; 0x430c; 0x7197; 0x601e; 0x14a1; 0x0528; 0x37b3; 0x263a;
  0xdecd; 0xcf44; 0xfddf; 0xec56; 0x98e9; 0x8960; 0xbbfb; 0xaa72;
  0x6306; 0x728f; 0x4014; 0x519d; 0x2522; 0x34ab; 0x0630; 0x17b9;
  0xef4e; 0xfec7; 0xcc5c; 0xddd5; 0xa96a; 0xb8e3; 0x8a78; 0x9bf1;
  0x7387; 0x620e; 0x5095; 0x411c; 0x35a3; 0x242a; 0x16b1; 0x0738;
  0xffcf; 0xee46; 0xdcdd; 0xcd54; 0xb9eb; 0xa862; 0x9af9; 0x8b70;
  0x8408; 0x9581; 0xa71a; 0xb693; 0xc22c; 0xd3a5; 0xe13e; 0xf0b7;
  0x0840; 0x19c9; 0x2b52; 0x3adb; 0x4e64; 0x5fed; 0x6d76; 0x7cff;
  0x9489; 0x8500; 0xb79b; 0xa612; 0xd2ad; 0xc324; 0xf1bf; 0xe036;
  0x18c1; 0x0948; 0x3bd3; 0x2a5a; 0x5ee5; 0x4f6c; 0x7df7; 0x6c7e;
  0xa50a; 0xb483; 0x8618; 0x9791; 0xe32e; 0xf2a7; 0xc03c; 0xd1b5;
  0x2942; 0x38cb; 0x0a50; 0x1bd9; 0x6f66; 0x7eef; 0x4c74; 0x5dfd;
  0xb58b; 0xa402; 0x9699; 0x8710; 0xf3af; 0xe226; 0xd0bd; 0xc134;
  0x39c3; 0x284a; 0x1ad1; 0x0b58; 0x7fe7; 0x6e6e; 0x5cf5; 0x4d7c;
  0xc60c; 0xd785; 0xe51e; 0xf497; 0x8028; 0x91a1; 0xa33a; 0xb2b3;
  0x4a44; 0x5bcd; 0x6956; 0x78df; 0x0c60; 0x1de9; 0x2f72; 0x3efb;
  0xd68d; 0xc704; 0xf59f; 0xe416; 0x90a9; 0x8120; 0xb3bb; 0xa232;
  0x5ac5; 0x4b4c; 0x79d7; 0x685e; 0x1ce1; 0x0d68; 0x3ff3; 0x2e7a;
  0xe70e; 0xf687; 0xc41c; 0xd595; 0xa12a; 0xb0a3; 0x8238; 0x93b1;
  0x6b46; 0x7acf; 0x4854; 0x59dd; 0x2d62; 0x3ceb; 0x0e70; 0x1ff9;
  0xf78f; 0xe606; 0xd49d; 0xc514; 0xb1ab; 0xa022; 0x92b9; 0x8330;
  0x7bc7; 0x6a4e; 0x58d5; 0x495c; 0x3de3; 0x2c6a; 0x1ef1; 0x0f78].

Definition PPP_FCS (fcs c : Z) : Z :=
  Z.lxor (Z.shiftr fcs 8) (nth (Z.to_nat (Z.land (Z.lxor fcs c) 0xff)) fcstab 0).

Definition pppACCMMask : list Z := [0x01; 0x02; 0x04; 0x08; 0x10; 0x20; 0x40; 0x80].

(** One bit for each of the 256 characters. *)
Definition ext_accm := list Z.

Definition ESCAPE_P (accm : ext_accm) (c : Z) : bool :=
  negb (Z.land (nth (Z.to_nat (Z.shiftr c 3)) accm 0) (nth (Z.to_nat (Z.land c 0x07)) pppACCMMask 0) =? 0).

(** The loops of [ppp_send_config] and [ppp_recv_config]. *)
Fixpoint load_accm (n : nat) (i asyncmap : Z) (accm : ext_accm) : ext_accm :=
  match n with
  | O => accm
  | S n => load_accm n (i + 1) asyncmap (<[Z.to_nat i := u8 (Z.shiftr asyncmap (8 * i))]> accm)
  end.

(** ** Sending *)

(** What is sent with: of a [PPPControl], the fields for output, and the octets
    the serial device has got. *)
Record PPPControl := Pc {
  mtu : Z; pcomp : bool; accomp : bool; lastXMit : Z; outACCM : ext_accm;
  wire : list Z }.

Definition ppp_send_config (mtu asyncmap : Z) (pcomp accomp : bool) (pc : PPPControl) : PPPControl :=
  Pc mtu pcomp accomp (lastXMit pc) (load_accm 4 0 asyncmap (outACCM pc)) (wire pc).

Definition ppp_set_xaccm (accm : ext_accm) (pc : PPPControl) : PPPControl :=
  Pc (mtu pc) (pcomp pc) (accomp pc) (lastXMit pc) accm (wire pc).

(** The buffers of an outgoing packet: those in front of [tailMB], and the
    payload of [tailMB], which is [NULL] when the pool was empty.  [pool] is
    what [pbuf_alloc] answers, call by call; behind its end it answers NULL. *)
Record outbuf := Out { front : list (list Z); tailMB : option (list Z); pool_out : list bool }.

Definition put_octet (c : Z) (accm : option ext_accm) (payload : list Z) : list Z :=
  match accm with
  | Some accm => if ESCAPE_P accm c then payload ++ [PPP_ESCAPE; Z.lxor c PPP_TRANS] else payload ++ [c]
  | None => payload ++ [c]
  end.

Definition pppAppend (c : Z) (accm : option ext_accm) (o : outbuf) : outbuf :=
  match tailMB o with
  | None => o
  | Some nb =>
      if PBUF_POOL_BUFSIZE - zlen nb <? 2 then
        match pool_out o with
        | true :: pool => Out (front o ++ [nb]) (Some (put_octet c accm [])) pool
        | pool => Out (front o ++ [nb]) None (tail pool)
        end
      else Out (front o) (Some (put_octet c accm nb)) (pool_out o)
  end.

(** The loop over the octets of a packet, and over those of a buffer of it. *)
Fixpoint load_octets (accm : ext_accm) (s : list Z) (fcsOut : Z) (o : outbuf) : Z * outbuf :=
  match s with
  | [] => (fcsOut, o)
  | c :: s => load_octets accm s (PPP_FCS fcsOut c) (pppAppend c (Some accm) o)
  end.

Definition finish_frame (accm : ext_accm) (fcsOut : Z) (o : outbuf) : outbuf :=
  let o := pppAppend (Z.land (Z.lnot fcsOut) 0xff) (Some accm) o in
  let o := pppAppend (Z.land (Z.shiftr (Z.lnot fcsOut) 8) 0xff) (Some accm) o in
  pppAppend PPP_FLAG None o.

(** [sio_write] takes some of the octets, given those it has taken before. *)
Fixpoint nPut (sio_write : list Z -> list Z -> Z) (nb : list (list Z)) (pc : PPPControl) : PPPControl :=
  match nb with
  | [] => pc
  | b :: nb =>
      let c := sio_write (wire pc) b in
      let put last := Pc (mtu pc) (pcomp pc) (accomp pc) last (outACCM pc) (wire pc ++ take (Z.to_nat c) b) in
      if negb (c =? zlen b) then put 0 else nPut sio_write nb (put (lastXMit pc))
  end.

Definition set_lastXMit (t : Z) (pc : PPPControl) : PPPControl :=
  Pc (mtu pc) (pcomp pc) (accomp pc) t (outACCM pc) (wire pc).

(** The first buffer with a flag in it if the line has been idle; [now] is
    what [sys_jiffies()] returns, and [now'] below at its next call. *)
Definition start_frame (now : Z) (pool : list bool) (pc : PPPControl) : outbuf :=
  let o := Out [] (Some []) pool in
  if PPP_MAXIDLEFLAG <=? u32 (now - lastXMit pc) then pppAppend PPP_FLAG None o else o.

(** [if (!tailMB) ... else nPut] *)
Definition send_frame (sio_write : list Z -> list Z -> Z) (o : outbuf) (err ok : Z) (pc : PPPControl) : Z * PPPControl :=
  match tailMB o with
  | None => (err, pc)
  | Some nb => (ok, nPut sio_write (front o ++ [nb]) pc)
  end.

Definition pppWrite (now now' : Z) (pool : list bool) (sio_write : list Z -> list Z -> Z) (s : list Z) (pc : PPPControl) :
    Z * PPPControl :=
  match pool with
  | true :: pool =>
      let o := start_frame now pool pc in
      let pc := set_lastXMit now' pc in
      let '(fcsOut, o) := load_octets (outACCM pc) s PPP_INITFCS o in
      send_frame sio_write (finish_frame (outACCM pc) fcsOut o) PPPERR_ALLOC PPPERR_NONE pc
  | _ => (PPPERR_ALLOC, pc)
  end.

(** [while (p) ...] over the buffers of a packet *)
Fixpoint load_packet (accm : ext_accm) (p : list (list Z)) (fcsOut : Z) (o : outbuf) : Z * outbuf :=
  match p with
  | [] => (fcsOut, o)
  | payload :: p => let '(fcsOut, o) := load_octets accm payload fcsOut o in load_packet accm p fcsOut o
  end.

Definition output_header (pc : PPPControl) (protocol : Z) : list Z :=
  (if negb (accomp pc) then [PPP_ALLSTATIONS; PPP_UI] else []) ++
  (if negb (pcomp pc) || (0xff <? protocol) then [Z.land (Z.shiftr protocol 8) 0xff] else []) ++
  [Z.land protocol 0xff].

(** [openFlag] of the descriptor, which is in range, and [lcp_phase]. *)
Definition pppifOutput (now now' : Z) (pool : list bool) (sio_write : list Z -> list Z -> Z) (openFlag : bool)
    (phase : Z) (pb : list (list Z)) (pc : PPPControl) : Z * PPPControl :=
  if negb openFlag || (zlen pb =? 0) then (ERR_ARG, pc)
  else if phase =? PHASE_DEAD then (ERR_RTE, pc)
  else
    match pool with
    | true :: pool =>
        let o := start_frame now pool pc in
        let pc := set_lastXMit now' pc in
        let '(fcsOut, o) := load_octets (outACCM pc) (output_header pc PPP_IP) PPP_INITFCS o in
        let '(fcsOut, o) := load_packet (outACCM pc) pb fcsOut o in
        send_frame sio_write (finish_frame (outACCM pc) fcsOut o) ERR_MEM ERR_OK pc
    | _ => (ERR_MEM, pc)
    end.

(** ** Receiving *)

Inductive PPPDevStates := PDIDLE | PDSTART | PDADDRESS | PDCONTROL | PDPROTOCOL1 | PDPROTOCOL2 | PDDATA.

#[export] Instance PPPDevStates_dec : EqDecision PPPDevStates.
Proof. solve_decision. Defined.

(** The number of a state, for comparisons. *)
Definition PD (st : PPPDevStates) : Z :=
  match st with
  | PDIDLE => 0 | PDSTART => 1 | PDADDRESS => 2 | PDCONTROL => 3 | PDPROTOCOL1 => 4 | PDPROTOCOL2 => 5 | PDDATA => 6
  end.

(** A buffer of a chain, with its [len] the length of its payload. *)
Record pbuf := Pbuf { payload : list Z; tot_len : Z }.

Definition len (p : pbuf) : Z := zlen (payload p).

(** [inTail]: [NULL], the same buffer as [inHead], or one that is not yet in
    the chain. *)
Inductive tail_ref := NoTail | AtHead | Apart (b : pbuf).

(** [inHead] is the chain, empty for [NULL]. *)
Record PPPControlRx := PcRx {
  pd : Z; inHead : list pbuf; inTail : tail_ref; inProtocol : Z; inFCS : Z; inState : PPPDevStates;
  inEscaped : bool; inACCM : ext_accm }.

(** The receiver with its surroundings: the answers of [pbuf_alloc] and of
    [tcpip_callback_with_block] to come, the number of buffers it owns, and
    the packets handed to [pppInput]. *)
Record receiver := Rcv { rx : PPPControlRx; pool : list bool; posts : list bool; owned : Z; inputs : list (list pbuf) }.

Definition on_rx (f : PPPControlRx -> PPPControlRx) (w : receiver) : receiver :=
  Rcv (f (rx w)) (pool w) (posts w) (owned w) (inputs w).

Definition set_bufs (h : list pbuf) (t : tail_ref) (r : PPPControlRx) : PPPControlRx :=
  PcRx (pd r) h t (inProtocol r) (inFCS r) (inState r) (inEscaped r) (inACCM r).
Definition set_inProtocol (p : Z) (r : PPPControlRx) : PPPControlRx :=
  PcRx (pd r) (inHead r) (inTail r) p (inFCS r) (inState r) (inEscaped r) (inACCM r).
Definition set_inFCS (fcs : Z) (r : PPPControlRx) : PPPControlRx :=
  PcRx (pd r) (inHead r) (inTail r) (inProtocol r) fcs (inState r) (inEscaped r) (inACCM r).
Definition set_inState (st : PPPDevStates) (r : PPPControlRx) : PPPControlRx :=
  PcRx (pd r) (inHead r) (inTail r) (inProtocol r) (inFCS r) st (inEscaped r) (inACCM r).
Definition set_inEscaped (e : bool) (r : PPPControlRx) : PPPControlRx :=
  PcRx (pd r) (inHead r) (inTail r) (inProtocol r) (inFCS r) (inState r) e (inACCM r).
Definition set_inACCM (a : ext_accm) (r : PPPControlRx) : PPPControlRx :=
  PcRx (pd r) (inHead r) (inTail r) (inProtocol r) (inFCS r) (inState r) (inEscaped r) a.

Definition ppp_recv_config (asyncmap : Z) (r : PPPControlRx) : PPPControlRx :=
  set_inACCM (load_accm 4 0 asyncmap (inACCM r)) r.

(** The fields [pppOverSerialOpen] sets in a descriptor it takes. *)
Definition pppOverSerialOpen (d : Z) : PPPControlRx * PPPControl :=
  let accm := <[15%nat := 0x60]> (replicate 32 0) in
  (PcRx d [] NoTail 0 0 PDIDLE false accm, Pc 0 false false 0 accm []).

(** *** Chains of buffers ([pbuf.c]) *)

Definition add_tot_len (n : Z) (p : pbuf) : pbuf := Pbuf (payload p) (u16 (tot_len p + n)).

(** [pbuf_cat] of a chain and a single buffer *)
Definition pbuf_cat (h : list pbuf) (t : pbuf) : list pbuf :=
  match h with
  | [] => []
  | _ => map (add_tot_len (tot_len t)) h ++ [t]
  end.

(** The steps over the buffers that stay, and the end of the chain behind
    them; also the number of buffers that are freed. *)
Fixpoint realloc_loop (grow rem_len : Z) (p : list pbuf) : option (list pbuf * Z) :=
  match p with
  | [] => None
  | q :: next =>
      if len q <? rem_len then
        '(next, freed) ← realloc_loop grow (u16 (rem_len - len q)) next;
        Some (Pbuf (payload q) (u16 (tot_len q + u16 grow)) :: next, freed)
      else Some ([Pbuf (take (Z.to_nat rem_len) (payload q)) rem_len], zlen next)
  end.

Definition pbuf_realloc (p : list pbuf) (new_len : Z) : option (list pbuf * Z) :=
  match p with
  | [] => None
  | q :: _ => if tot_len q <=? new_len then Some (p, 0) else realloc_loop (new_len - tot_len q) new_len p
  end.

(** *** The receiver *)

Definition pppDrop (w : receiver) : receiver :=
  match inHead (rx w) with
  | [] => w
  | h =>
      let apart := match inTail (rx w) with Apart _ => 1 | _ => 0 end in
      Rcv (set_bufs [] NoTail (rx w)) (pool w) (posts w) (owned w - apart - zlen h) (inputs w)
  end.

(** [inTail->tot_len = inTail->len], and [pbuf_cat] unless it is [inHead]. *)
Definition join_tail (r : PPPControlRx) : PPPControlRx :=
  match inTail r with
  | NoTail => r
  | AtHead =>
      match inHead r with
      | h :: rest => set_bufs (Pbuf (payload h) (len h) :: rest) AtHead r
      | [] => r
      end
  | Apart t => set_bufs (pbuf_cat (inHead r) (Pbuf (payload t) (len t))) NoTail r
  end.

(** [inTail], where it points to a buffer. *)
Definition tail_pbuf (r : PPPControlRx) : option pbuf :=
  match inTail r with NoTail => None | AtHead => head (inHead r) | Apart t => Some t end.

Definition set_tail (p : pbuf) (r : PPPControlRx) : PPPControlRx :=
  match inTail r with
  | NoTail => r
  | AtHead => set_bufs (p :: tail (inHead r)) AtHead r
  | Apart _ => set_bufs (inHead r) (Apart p) r
  end.

(** Trim off the checksum and take the packet; [None] is a [NULL] pointer. *)
Definition trim_checksum (r : PPPControlRx) : option (list pbuf * Z) :=
  t ← tail_pbuf r;
  if 2 <=? len t then
    let t := Pbuf (take (Z.to_nat (len t - 2)) (payload t)) (tot_len t) in
    Some (inHead (join_tail (set_tail t r)), 0)
  else
    let h := inHead (join_tail r) in
    q ← head h;
    pbuf_realloc h (u16 (tot_len q - 2)).

(** The end of a packet in state [PDDATA] with a good checksum. *)
Definition dispatch (w : receiver) : option receiver :=
  '(inp, freed) ← trim_checksum (rx w);
  let r := set_bufs [] NoTail (rx w) in
  let owned' := owned w - freed - zlen inp in
  match posts w with
  | true :: posts => Some (Rcv r (pool w) posts owned' (inputs w ++ [inp]))
  | posts => Some (Rcv r (pool w) (tail posts) owned' (inputs w))
  end.

(** A flag *)
Definition in_flag (w : receiver) : option receiver :=
  w ← (if PD (inState (rx w)) <=? PD PDADDRESS then Some w
       else if PD (inState (rx w)) <? PD PDDATA then Some (pppDrop w)
       else if negb (inFCS (rx w) =? PPP_GOODFCS) then Some (pppDrop w)
       else dispatch w);
  Some (on_rx (fun r => set_inEscaped false (set_inState PDADDRESS (set_inFCS PPP_INITFCS r))) w).

(** The states before [PDDATA]: their state and protocol after a character. *)
Definition protocol1_char (c : Z) : PPPDevStates * Z :=
  if negb (Z.land c 1 =? 0) then (PDDATA, c) else (PDPROTOCOL2, u16 (Z.shiftl c 8)).

Definition control_char (c proto : Z) : PPPDevStates * Z :=
  if c =? PPP_UI then (PDPROTOCOL1, proto) else protocol1_char c.

Definition address_char (c proto : Z) : PPPDevStates * Z :=
  if c =? PPP_ALLSTATIONS then (PDCONTROL, proto) else control_char c proto.

Definition header_char (c : Z) (r : PPPControlRx) : PPPControlRx :=
  let enter '(st, proto) r := set_inState st (set_inProtocol proto r) in
  let proto := inProtocol r in
  match inState r with
  | PDIDLE =>
      if negb (c =? PPP_ALLSTATIONS) then r
      else enter (address_char c proto) (set_inFCS PPP_INITFCS r)
  | PDSTART => enter (address_char c proto) (set_inFCS PPP_INITFCS r)
  | PDADDRESS => enter (address_char c proto) r
  | PDCONTROL => enter (control_char c proto) r
  | PDPROTOCOL1 => enter (protocol1_char c) r
  | PDPROTOCOL2 => enter (PDDATA, Z.lor proto c) r
  | PDDATA => r
  end.

(** [struct pppInputHeader], in the byte order of the machine; the last two
    octets are padding. *)
Definition pppInputHeader (unit proto : Z) : list Z :=
  [unit mod 256; unit / 256 mod 256; unit / 65536 mod 256; unit / 16777216 mod 256; proto mod 256; proto / 256; 0; 0].

(** A new buffer for the next octets, if there is one. *)
Definition next_buf (w : receiver) : receiver * bool :=
  let w := on_rx join_tail w in
  match pool w with
  | true :: pool =>
      let r := rx w in
      let r := match inHead r with
               | [] => set_bufs [Pbuf (pppInputHeader (pd r) (inProtocol r)) 0] AtHead r
               | h => set_bufs h (Apart (Pbuf [] 0)) r
               end in
      (Rcv r pool (posts w) (owned w + 1) (inputs w), true)
  | pool => (on_rx (set_inState PDSTART) (pppDrop (Rcv (rx w) (tail pool) (posts w) (owned w) (inputs w))), false)
  end.

(** The character is stored in [inTail]. *)
Definition store_char (c : Z) (r : PPPControlRx) : PPPControlRx :=
  match tail_pbuf r with
  | Some t => set_tail (Pbuf (payload t ++ [c]) (tot_len t)) r
  | None => r
  end.

Definition data_char (c : Z) (w : receiver) : receiver :=
  let need := match tail_pbuf (rx w) with None => true | Some t => len t =? PBUF_POOL_BUFSIZE end in
  let '(w, room) := if need then next_buf w else (w, true) in
  if room then on_rx (store_char c) w else w.

Definition in_char (curChar : Z) (w : receiver) : option receiver :=
  if ESCAPE_P (inACCM (rx w)) curChar then
    if curChar =? PPP_ESCAPE then Some (on_rx (set_inEscaped true) w)
    else if curChar =? PPP_FLAG then in_flag w
    else Some w
  else
    let '(curChar, w) :=
      if inEscaped (rx w) then (Z.lxor curChar PPP_TRANS, on_rx (set_inEscaped false) w) else (curChar, w) in
    let w := match inState (rx w) with
             | PDDATA => data_char curChar w
             | _ => on_rx (header_char curChar) w
             end in
    Some (on_rx (fun r => set_inFCS (PPP_FCS (inFCS r) curChar) r) w).

Fixpoint pppInProc (s : list Z) (w : receiver) : option receiver :=
  match s with
  | [] => Some w
  | c :: s => w ← in_char c w; pppInProc s w
  end.

(** What [pppInputThread] does with what [sio_read] returns, call by call. *)
Fixpoint pppInputThread (reads : list (list Z)) (w : receiver) : option receiver :=
  match reads with
  | [] => Some w
  | rxbuf :: reads => w ← (if 0 <? zlen rxbuf then pppInProc rxbuf w else Some w); pppInputThread reads w
  end.

(** *** Dispatch *)

(** What happens to a packet. *)
Inductive delivery :=
  | Tossed
  | ToNetif (nb : list pbuf)
  | ToProtocol (protocol unit : Z) (data : list Z)
  | Rejected (unit : Z) (data : list Z).

(** [pbuf_header] that hides [n] octets, and that shows two in front again. *)
Definition hide_header (n : Z) (p : list pbuf) : option (list pbuf) :=
  match p with
  | q :: rest => if n <=? len q then Some (Pbuf (drop (Z.to_nat n) (payload q)) (u16 (tot_len q - n)) :: rest) else None
  | [] => None
  end.

Definition chain_octets (p : list pbuf) : list Z := concat (map payload p).

(** [single] is whether [pbuf_alloc] finds room for a buffer of its own. *)
Definition pppSingleBuf (single : bool) (p : list pbuf) : list Z :=
  match p with
  | [] => []
  | q :: _ => if tot_len q =? len q then payload q else if single then chain_octets p else payload q
  end.

(** The protocols of [ppp_protocols], all of them enabled *)
Definition ppp_protocols : list Z := [PPP_LCP; PPP_PAP; PPP_CHAP; PPP_IPCP].

(** The packet behind its header; [netif_input] is whether the interface has an
    input function. *)
Definition dispatched (lcp_phase : Z) (netif_input single : bool) (unit protocol : Z) (nb : list pbuf) : delivery :=
  if (lcp_phase <=? PHASE_AUTHENTICATE) && negb (protocol =? PPP_LCP) &&
     (negb ((protocol =? PPP_LQR) || (protocol =? PPP_PAP) || (protocol =? PPP_CHAP)) ||
      negb (lcp_phase =? PHASE_AUTHENTICATE))
  then Tossed
  else if (protocol =? PPP_VJC_COMP) || (protocol =? PPP_VJC_UNCOMP) then Tossed
  else if protocol =? PPP_IP then if netif_input then ToNetif nb else Tossed
  else if bool_decide (protocol ∈ ppp_protocols) then ToProtocol protocol unit (pppSingleBuf single nb)
  else
    match nb with
    | q :: _ => Rejected unit ([protocol / 256; protocol mod 256] ++ payload q)
    | [] => Tossed
    end.

Definition pppInput (lcp_phase : Z) (netif_input single : bool) (nb : list pbuf) : delivery :=
  let header := match nb with q :: _ => payload q | [] => [] end in
  let unit := nth 0 header 0 + 256 * nth 1 header 0 + 65536 * nth 2 header 0 + 16777216 * nth 3 header 0 in
  let protocol := nth 4 header 0 + 256 * nth 5 header 0 in
  match hide_header 8 nb with
  | None => Tossed
  | Some nb => dispatched lcp_phase netif_input single unit protocol nb
  end.
(** ** The checksum *)

(** A predicate holds of the numbers of [k] bits behind the digits [base]. *)
Fixpoint all_bits (k : nat) (base : Z) (f : Z -> bool) : bool :=
  match k with
  | O => f base
  | S k => all_bits k (2 * base) f && all_bits k (2 * base + 1) f
  end.

Lemma all_bits_spec k base f x :
  all_bits k base f = true -> base * 2 ^ Z.of_nat k <= x < (base + 1) * 2 ^ Z.of_nat k -> f x = true.
Proof.
  revert base. induction k as [|k IH]; intros base Hall Hx.
  - change (2 ^ Z.of_nat 0) with 1 in Hx. by replace x with base by lia.
  - rewrite Nat2Z.inj_succ, Z.pow_succ_r in Hx by lia. cbn [all_bits] in Hall. apply andb_true_iff in Hall as [H0 H1].
    destruct (Z.lt_ge_cases x ((2 * base + 1) * 2 ^ Z.of_nat k)); [eapply IH; [exact H0|]|eapply IH; [exact H1|]]; lia.
Qed.

(** What a computation over all 16-bit numbers shows. *)
Lemma all_u16 f x : all_bits 16 0 f = true -> 0 <= x < 65536 -> f x = true.
Proof. intros H Hx. eapply all_bits_spec; [exact H|]. change (2 ^ Z.of_nat 16) with 65536. lia. Qed.

Lemma all_u8 f x : all_bits 8 0 f = true -> 0 <= x < 256 -> f x = true.
Proof. intros H Hx. eapply all_bits_spec; [exact H|]. change (2 ^ Z.of_nat 8) with 256. lia. Qed.

(** One bit of the polynomial division by x^16 + x^12 + x^5 + 1, least
    significant bit first, and one octet. *)
Definition crc_bit (x : Z) : Z := if Z.odd x then Z.lxor (Z.shiftr x 1) 0x8408 else Z.shiftr x 1.
Definition crc_octet (fcs c : Z) : Z := Nat.iter 8 crc_bit (Z.lxor fcs c).

(** The checksum of a block, from what is before it. *)
Definition fcs_from (fcs : Z) (s : list Z) : Z := foldl PPP_FCS fcs s.

(** The last two octets of a frame *)
Definition fcs_octets (fcs : Z) : list Z := [Z.land (Z.lnot fcs) 0xff; Z.land (Z.shiftr (Z.lnot fcs) 8) 0xff].

Definition index (fcs c : Z) : Z := Z.land (Z.lxor fcs c) 0xff.

Lemma index_range fcs c : 0 <= index fcs c < 256.
Proof. unfold index. change 0xff with (Z.ones 8). rewrite Z.land_ones by lia. apply Z.mod_pos_bound. lia. Qed.

Lemma lxor_u16 a b : 0 <= a < 65536 -> 0 <= b < 65536 -> 0 <= Z.lxor a b < 65536.
Proof.
  intros Ha Hb. split; [apply Z.lxor_nonneg; lia|].
  destruct (Z.eq_dec (Z.lxor a b) 0) as [->|]; [lia|]. apply Z.log2_lt_pow2 with (b := 16); [pose proof (Z.lxor_nonneg a b); lia|].
  pose proof (Z.log2_lxor a b). assert (Hlog : forall z, 0 <= z < 65536 -> Z.log2 z < 16).
  { intros z Hz. destruct (Z.eq_dec z 0) as [->|]; [done|]. apply Z.log2_lt_pow2; lia. }
  pose proof (Hlog a Ha). pose proof (Hlog b Hb). lia.
Qed.

Lemma fcstab_check :
  all_bits 8 0 (fun i => (0 <=? nth (Z.to_nat i) fcstab 0) && (nth (Z.to_nat i) fcstab 0 <? 65536)) = true.
Proof. vm_compute. done. Qed.

Lemma fcstab_range i : 0 <= i < 256 -> 0 <= nth (Z.to_nat i) fcstab 0 < 65536.
Proof. intros Hi. pose proof (all_u8 _ _ fcstab_check Hi). cbv beta in *. blia. Qed.

Lemma PPP_FCS_range fcs c : 0 <= fcs < 65536 -> 0 <= PPP_FCS fcs c < 65536.
Proof.
  intros Hf. unfold PPP_FCS. fold (index fcs c). apply lxor_u16; [|apply fcstab_range, index_range].
  rewrite Z.shiftr_div_pow2 by lia. change (2 ^ 8) with 256. pose proof (Z.div_lt_upper_bound fcs 256 256).
  pose proof (Z.div_pos fcs 256). lia.
Qed.

Lemma fcs_from_range s fcs : 0 <= fcs < 65536 -> 0 <= fcs_from fcs s < 65536.
Proof. revert fcs. induction s as [|c s IH]; intros fcs Hf; [done|]. by apply IH, PPP_FCS_range. Qed.

(** *** The table *)

Lemma crc_check :
  all_bits 16 0 (fun x => Z.lxor (Z.shiftr x 8) (nth (Z.to_nat (Z.land x 0xff)) fcstab 0) =? Nat.iter 8 crc_bit x) = true.
Proof. vm_compute. done. Qed.

Lemma byte_shiftr c : is_byte c -> Z.shiftr c 8 = 0.
Proof. intros Hc. rewrite Z.shiftr_div_pow2 by lia. apply Z.div_small. exact Hc. Qed.

Lemma index_byte fcs c : Z.shiftr (Z.lxor fcs c) 8 = Z.lxor (Z.shiftr fcs 8) (Z.shiftr c 8).
Proof. apply Z.shiftr_lxor. Qed.

Lemma PPP_FCS_crc fcs c : 0 <= fcs < 65536 -> is_byte c -> PPP_FCS fcs c = crc_octet fcs c.
Proof.
  intros Hf Hc. unfold crc_octet. assert (Hx : 0 <= Z.lxor fcs c < 65536) by (unfold is_byte in Hc; apply lxor_u16; lia).
  pose proof (all_u16 _ _ crc_check Hx) as E. cbv beta in E. apply Z.eqb_eq in E. rewrite <- E, index_byte, (byte_shiftr c) by done.
  by rewrite Z.lxor_0_r.
Qed.

Lemma good_check :
  all_bits 16 0 (fun x => foldl PPP_FCS x (fcs_octets x) =? PPP_GOODFCS) = true.
Proof. vm_compute. done. Qed.

Lemma fcs_good fcs : 0 <= fcs < 65536 -> fcs_from fcs (fcs_octets fcs) = PPP_GOODFCS.
Proof. intros Hf. pose proof (all_u16 _ _ good_check Hf) as E. by apply Z.eqb_eq in E. Qed.

Lemma fcs_from_app fcs s t : fcs_from fcs (s ++ t) = fcs_from (fcs_from fcs s) t.
Proof. apply foldl_app. Qed.

Lemma fcs_octets_bytes fcs : Forall is_byte (fcs_octets fcs).
Proof.
  unfold fcs_octets. change 0xff with (Z.ones 8). rewrite !Z.land_ones by lia. unfold is_byte.
  repeat constructor; apply Z.mod_pos_bound; lia.
Qed.

(** *** What it detects *)

(** An octet of a checksum enters through its index in the table, whose entries
    differ in their high octets. *)
Lemma fcstab_nodup : NoDup (map (fun t => Z.shiftr t 8) fcstab).
Proof. apply (bool_decide_unpack _). vm_compute. exact I. Qed.

Lemma fcstab_high k :
  0 <= k < 256 -> map (fun t => Z.shiftr t 8) fcstab !! Z.to_nat k = Some (Z.shiftr (nth (Z.to_nat k) fcstab 0) 8).
Proof.
  intros Hk. rewrite list_lookup_fmap. destruct (fcstab !! Z.to_nat k) as [t|] eqn:E.
  - cbn [fmap option_fmap option_map]. by rewrite (nth_lookup_Some _ _ _ _ E).
  - apply lookup_ge_None in E. change (length fcstab) with 256%nat in E. lia.
Qed.

Lemma fcstab_inj i j :
  0 <= i < 256 -> 0 <= j < 256 ->
  Z.shiftr (nth (Z.to_nat i) fcstab 0) 8 = Z.shiftr (nth (Z.to_nat j) fcstab 0) 8 -> i = j.
Proof.
  intros Hi Hj E. pose proof (fcstab_high i Hi) as Li. pose proof (fcstab_high j Hj) as Lj. rewrite <- E in Lj.
  pose proof (NoDup_lookup _ _ _ _ fcstab_nodup Li Lj). lia.
Qed.

Lemma shiftr_u16 f k : 0 <= f < 65536 -> 16 <= k -> Z.shiftr f k = 0.
Proof.
  intros Hf Hk. rewrite Z.shiftr_div_pow2 by lia. apply Z.div_small.
  pose proof (Z.pow_le_mono_r 2 16 k). change (2 ^ 16) with 65536 in *. lia.
Qed.

(** One octet: equal results come from equal indices and equal high octets. *)
Lemma PPP_FCS_inj f c f' c' :
  0 <= f < 65536 -> 0 <= f' < 65536 -> PPP_FCS f c = PPP_FCS f' c' ->
  index f c = index f' c' /\ Z.shiftr f 8 = Z.shiftr f' 8.
Proof.
  intros Hf Hf' E. unfold PPP_FCS in E. fold (index f c) (index f' c') in E.
  assert (Hi : index f c = index f' c').
  { apply fcstab_inj; [apply index_range..|]. apply (f_equal (fun x => Z.shiftr x 8)) in E.
    rewrite !Z.shiftr_lxor, !Z.shiftr_shiftr, !(shiftr_u16 _ (8 + 8)), !Z.lxor_0_l in E by lia. exact E. }
  split; [done|]. rewrite Hi in E. apply (f_equal (fun x => Z.lxor x (nth (Z.to_nat (index f' c')) fcstab 0))) in E.
  by rewrite !Z.lxor_assoc, !Z.lxor_nilpotent, !Z.lxor_0_r in E.
Qed.

(** The low octet is in the index. *)
Lemma index_inj f f' c : 0 <= f < 65536 -> 0 <= f' < 65536 ->
  index f c = index f' c -> Z.shiftr f 8 = Z.shiftr f' 8 -> f = f'.
Proof.
  intros Hf Hf' Hi Hs. apply Z.bits_inj'. intros n Hn. destruct (Z.lt_ge_cases n 8).
  - apply (f_equal (fun x => Z.testbit x n)) in Hi. unfold index in Hi. change 0xff with (Z.ones 8) in Hi.
    rewrite !Z.land_spec, !Z.lxor_spec, Z.ones_spec_low, !andb_true_r in Hi by lia.
    by destruct (Z.testbit f n), (Z.testbit f' n), (Z.testbit c n).
  - apply (f_equal (fun x => Z.testbit x (n - 8))) in Hs. rewrite !Z.shiftr_spec in Hs by lia.
    by replace (n - 8 + 8) with n in Hs by lia.
Qed.

Lemma index_octet_inj f c c' : is_byte c -> is_byte c' -> index f c = index f c' -> c = c'.
Proof.
  unfold is_byte. intros Hc Hc' Hi. apply (index_inj c c' f); [lia..| |].
  - unfold index in *. by rewrite !(Z.lxor_comm _ f).
  - by rewrite (byte_shiftr c), (byte_shiftr c') by done.
Qed.

Lemma fcs_from_inj f f' s : 0 <= f < 65536 -> 0 <= f' < 65536 -> fcs_from f s = fcs_from f' s -> f = f'.
Proof.
  revert f f'. induction s as [|c s IH]; intros f f' Hf Hf' E; [done|].
  apply IH, PPP_FCS_inj in E as [Hi Hs]; [|done|done|by apply PPP_FCS_range..]. by eapply index_inj.
Qed.

(** Two octets in a row go into the checksum without loss. *)
Lemma fcs_pair_inj f a b a' b' :
  0 <= f < 65536 -> is_byte a -> is_byte b -> is_byte a' -> is_byte b' ->
  fcs_from f [a; b] = fcs_from f [a'; b'] -> a = a' /\ b = b'.
Proof.
  intros Hf Ha Hb Ha' Hb' E. cbn in E. apply PPP_FCS_inj in E as [Hi Hs]; [|by apply PPP_FCS_range..].
  assert (a = a') as <-.
  { apply (index_octet_inj f); [done..|]. apply fcstab_inj; [apply index_range..|]. unfold PPP_FCS in Hs.
    by rewrite !Z.shiftr_lxor, !Z.shiftr_shiftr, !(shiftr_u16 _ (8 + 8)), !Z.lxor_0_l in Hs by lia. }
  split; [done|]. by eapply index_octet_inj.
Qed.

(** C18: [PPP_FCS] with its table is the CRC of ITU-T V.42: eight steps of the
    division by x^16 + x^12 + x^5 + 1 with reversed bits; and a block followed
    by its complemented checksum, low octet first, always has the checksum
    [PPP_GOODFCS]. *)
Theorem fcs_is_crc fcs s :
  0 <= fcs < 65536 -> Forall is_byte s ->
  fcs_from fcs s = foldl crc_octet fcs s /\
  fcs_from fcs (s ++ fcs_octets (fcs_from fcs s)) = PPP_GOODFCS.
Proof.
  intros Hf Hs. split.
  - revert fcs Hf. induction Hs as [|c s Hc Hs IH]; intros fcs Hf; [done|]. unfold fcs_from in *. cbn [foldl].
    rewrite <- PPP_FCS_crc by done. by apply IH, PPP_FCS_range.
  - rewrite fcs_from_app. by apply fcs_good, fcs_from_range.
Qed.

Lemma fcs_is_crc_witness :
  (0 <= PPP_INITFCS < 65536 /\ Forall is_byte [0x31; 0x32; 0x33]) /\
  fcs_from PPP_INITFCS [0x31; 0x32; 0x33] = foldl crc_octet PPP_INITFCS [0x31; 0x32; 0x33].
Proof.
  assert (H : Forall is_byte [0x31; 0x32; 0x33]) by (repeat constructor; done).
  split; [done|]. destruct (fcs_is_crc PPP_INITFCS [0x31; 0x32; 0x33] ltac:(done) H) as [E _]. exact E.
Defined.

(** Up to two altered octets in a row change the checksum. *)
Lemma fcs_burst f pre x x' post :
  0 <= f < 65536 -> Forall is_byte x -> Forall is_byte x' -> length x = length x' -> (length x <= 2)%nat -> x <> x' ->
  fcs_from f (pre ++ x ++ post) <> fcs_from f (pre ++ x' ++ post).
Proof.
  intros Hf Hx Hx' Hl H2 Hne E. rewrite !fcs_from_app in E. pose proof (fcs_from_range pre f Hf) as Hp.
  apply fcs_from_inj in E; [|by apply fcs_from_range..]. apply Hne.
  destruct x as [|a [|b [|]]]; destruct x' as [|a' [|b' [|]]]; cbn in Hl, H2; try lia; [done|..].
  - apply Forall_cons_iff in Hx as [Hx _], Hx' as [Hx' _]. cbn in E. apply PPP_FCS_inj in E as [Hi _]; [|exact Hp|exact Hp].
    f_equal. by eapply index_octet_inj.
  - apply Forall_cons_iff in Hx as [? [? _]%Forall_cons_iff], Hx' as [? [? _]%Forall_cons_iff].
    by apply fcs_pair_inj in E as [-> ->].
Qed.

(** ** Character maps *)

(** The maps that are in use: a bit for each of the 32 control characters, and
    the flag and the escape character. *)
Definition accm_of (asyncmap : Z) : ext_accm := load_accm 4 0 asyncmap (<[15%nat := 0x60]> (replicate 32 0)).

Lemma accm_of_reload m m' : load_accm 4 0 m' (accm_of m) = accm_of m'.
Proof. done. Qed.

Lemma ESCAPE_P_check :
  all_bits 8 0 (fun c => (c <? 32) || bool_decide (ESCAPE_P (accm_of 0) c = ((c =? PPP_ESCAPE) || (c =? PPP_FLAG)))) = true.
Proof. vm_compute. done. Qed.

Lemma accm_of_nth m i : 4 <= i -> nth (Z.to_nat i) (accm_of m) 0 = nth (Z.to_nat i) (accm_of 0) 0.
Proof.
  intros Hi. replace (Z.to_nat i) with (S (S (S (S (Z.to_nat (i - 4)))))) by lia. done.
Qed.

Lemma accm_of_byte m i : 0 <= i < 4 -> nth (Z.to_nat i) (accm_of m) 0 = u8 (Z.shiftr m (8 * i)).
Proof. intros Hi. assert (i = 0 \/ i = 1 \/ i = 2 \/ i = 3) as [->|[->|[->| ->]]] by lia; done. Qed.

Lemma mask_pow c : nth (Z.to_nat (Z.land c 7)) pppACCMMask 0 = 2 ^ (c mod 8).
Proof.
  change 7 with (Z.ones 3). rewrite Z.land_ones by lia. change (2 ^ 3) with 8. pose proof (Z.mod_pos_bound c 8 ltac:(lia)).
  assert (c mod 8 = 0 \/ c mod 8 = 1 \/ c mod 8 = 2 \/ c mod 8 = 3 \/ c mod 8 = 4 \/ c mod 8 = 5 \/ c mod 8 = 6 \/ c mod 8 = 7)
    as [->|[->|[->|[->|[->|[->|[->| ->]]]]]]] by lia; done.
Qed.

Lemma ESCAPE_P_spec m c :
  is_byte c -> ESCAPE_P (accm_of m) c = if c <? 32 then Z.testbit m c else (c =? PPP_ESCAPE) || (c =? PPP_FLAG).
Proof.
  unfold is_byte. intros Hc. destruct (Z.ltb_spec c 32) as [Hlt|Hge].
  - unfold ESCAPE_P. rewrite Z.shiftr_div_pow2, mask_pow by lia. change (2 ^ 3) with 8.
    pose proof (Z.div_mod c 8). pose proof (Z.mod_pos_bound c 8). rewrite accm_of_byte, land_pow2 by lia.
    unfold u8. rewrite Z.mod_pow2_bits_low, Z.shiftr_spec by lia. replace (c mod 8 + 8 * (c / 8)) with c by lia.
    pose proof (Z.pow_pos_nonneg 2 (c mod 8)). destruct (Z.testbit m c); [|done]. apply negb_true_iff, Z.eqb_neq. lia.
  - pose proof (all_u8 _ _ ESCAPE_P_check Hc) as E. cbv beta in E. rewrite (proj2 (Z.ltb_ge _ _)) in E by done.
    cbn [orb] in E. apply bool_decide_eq_true in E. rewrite <- E. unfold ESCAPE_P.
    rewrite accm_of_nth; [done|]. rewrite Z.shiftr_div_pow2 by lia. change (2 ^ 3) with 8. apply Z.div_le_lower_bound; lia.
Qed.

Lemma escaped_check :
  all_bits 8 0 (fun c => negb ((c <? 32) || (c =? PPP_ESCAPE) || (c =? PPP_FLAG)) ||
    (negb (Z.lxor c PPP_TRANS <? 32) && negb (Z.lxor c PPP_TRANS =? PPP_ESCAPE) && negb (Z.lxor c PPP_TRANS =? PPP_FLAG) &&
     (Z.lxor c PPP_TRANS <? 256) && (0 <=? Z.lxor c PPP_TRANS))) = true.
Proof. vm_compute. done. Qed.

(** What the sender leaves alone the receiver does not drop, and what it
    escapes arrives. *)
Lemma accm_compatible mi mo c :
  (forall i, 0 <= i < 32 -> Z.testbit mi i = true -> Z.testbit mo i = true) -> is_byte c ->
  if ESCAPE_P (accm_of mo) c then ESCAPE_P (accm_of mi) (Z.lxor c PPP_TRANS) = false
  else ESCAPE_P (accm_of mi) c = false.
Proof.
  intros Hm Hc. rewrite (ESCAPE_P_spec mo c) by done. pose proof (all_u8 _ _ escaped_check Hc) as E. cbv beta in E.
  unfold is_byte in Hc.
  assert (Hesc : (c <? 32) || (c =? PPP_ESCAPE) || (c =? PPP_FLAG) = true -> ESCAPE_P (accm_of mi) (Z.lxor c PPP_TRANS) = false).
  { intros H. rewrite H in E. cbn [negb orb] in E. rewrite !andb_true_iff in E. destruct E as [[[[E1 E2] E3] E4] E5].
    apply negb_true_iff in E1, E2, E3. apply Z.ltb_lt in E4. apply Z.leb_le in E5.
    rewrite ESCAPE_P_spec by (unfold is_byte; lia). by rewrite E1, E2, E3. }
  destruct (Z.ltb_spec c 32) as [Hlt|Hge].
  - destruct (Z.testbit mo c) eqn:Emo; [by apply Hesc|]. rewrite ESCAPE_P_spec, (proj2 (Z.ltb_lt _ _)) by done.
    destruct (Z.testbit mi c) eqn:Emi; [|done]. by rewrite (Hm c) in Emo by (done || lia).
  - destruct ((c =? PPP_ESCAPE) || (c =? PPP_FLAG)) eqn:Es; [by apply Hesc|]. rewrite ESCAPE_P_spec by done.
    by rewrite (proj2 (Z.ltb_ge _ _)), Es by done.
Qed.

(** ** Frames *)

(** The octets that stand for one on the line, and a frame. *)
Definition esc_char (accm : ext_accm) (c : Z) : list Z :=
  if ESCAPE_P accm c then [PPP_ESCAPE; Z.lxor c PPP_TRANS] else [c].

Definition esc_octets (accm : ext_accm) (s : list Z) : list Z := concat (map (esc_char accm) s).

Definition with_fcs (s : list Z) : list Z := s ++ fcs_octets (fcs_from PPP_INITFCS s).

Definition frame (accm : ext_accm) (idle : bool) (s : list Z) : list Z :=
  (if idle then [PPP_FLAG] else []) ++ esc_octets accm (with_fcs s) ++ [PPP_FLAG].

Lemma esc_octets_app accm s t : esc_octets accm (s ++ t) = esc_octets accm s ++ esc_octets accm t.
Proof. unfold esc_octets. by rewrite map_app, concat_app. Qed.

(** *** The sender makes them *)

Definition fits (b : list Z) : Prop := zlen b <= PBUF_POOL_BUFSIZE.

(** No buffer is overrun. *)
Definition out_ok (o : outbuf) : Prop :=
  Forall fits (front o) /\ match tailMB o with Some t => fits t | None => True end.

Definition out_octets (o : outbuf) : list Z :=
  concat (front o) ++ match tailMB o with Some t => t | None => [] end.

(** [o'] is [o] with [s] appended, or an allocation failed. *)
Definition appended (s : list Z) (o o' : outbuf) : Prop :=
  (out_ok o -> out_ok o') /\ (is_Some (tailMB o') -> is_Some (tailMB o) /\ out_octets o' = out_octets o ++ s).

Lemma appended_trans s t o o' o'' : appended s o o' -> appended t o' o'' -> appended (s ++ t) o o''.
Proof.
  intros [Hok E] [Hok' E']. split; [tauto|]. intros H. apply E' in H as [H ->]. apply E in H as [H ->].
  split; [done|by rewrite app_assoc].
Qed.

Lemma appended_nil o : appended [] o o.
Proof. split; [done|]. intros H. by rewrite app_nil_r. Qed.

Definition accm_esc (accm : option ext_accm) (c : Z) : list Z :=
  match accm with Some a => esc_char a c | None => [c] end.

Lemma put_octet_spec c accm b : put_octet c accm b = b ++ accm_esc accm c.
Proof. unfold put_octet, accm_esc, esc_char. by destruct accm as [a|]; [destruct (ESCAPE_P a c)|]. Qed.

Lemma accm_esc_length c accm : zlen (accm_esc accm c) <= 2.
Proof. unfold accm_esc, esc_char. destruct accm as [a|]; [destruct (ESCAPE_P a c)|]; cbn; lia. Qed.

Lemma pppAppend_spec c accm o : appended (accm_esc accm c) o (pppAppend c accm o).
Proof.
  unfold appended, pppAppend, out_ok, out_octets. pose proof (accm_esc_length c accm) as Hlen.
  destruct o as [fr [nb|] po]; cbn [tailMB front pool_out] in *; [|split; [done|by intros []]].
  rewrite !put_octet_spec. destruct (Z.ltb_spec (PBUF_POOL_BUFSIZE - zlen nb) 2) as [Hfull|Hroom].
  - destruct po as [|[] po]; cbn [front tailMB app].
    + split; [|by intros []]. intros [H1 H2]. by rewrite Forall_app, Forall_singleton.
    + split.
      * intros [H1 H2]. rewrite Forall_app, Forall_singleton. split_and!; [done|done|]. unfold fits, PBUF_POOL_BUFSIZE. lia.
      * intros _. rewrite concat_app. cbn [concat]. by rewrite !app_nil_r, <- !app_assoc.
    + split; [|by intros []]. intros [H1 H2]. by rewrite Forall_app, Forall_singleton.
  - cbn [front tailMB]. split.
    + intros [H1 H2]. split; [done|]. unfold fits in *. rewrite length_app. lia.
    + intros _. by rewrite <- app_assoc.
Qed.

Lemma load_octets_spec accm s fcs o :
  exists o', load_octets accm s fcs o = (fcs_from fcs s, o') /\ appended (esc_octets accm s) o o'.
Proof.
  revert fcs o. induction s as [|c s IH]; intros fcs o; [exists o; split; [done|apply appended_nil]|].
  destruct (IH (PPP_FCS fcs c) (pppAppend c (Some accm) o)) as (o' & E & Ha). exists o'. split; [done|].
  change (esc_octets accm (c :: s)) with (esc_char accm c ++ esc_octets accm s).
  eapply appended_trans; [|exact Ha]. apply (pppAppend_spec c (Some accm)).
Qed.

Lemma load_packet_spec accm p fcs o :
  exists o', load_packet accm p fcs o = (fcs_from fcs (concat p), o') /\ appended (esc_octets accm (concat p)) o o'.
Proof.
  revert fcs o. induction p as [|b p IH]; intros fcs o; [exists o; split; [done|apply appended_nil]|].
  cbn [load_packet concat]. destruct (load_octets_spec accm b fcs o) as (o1 & -> & H1).
  destruct (IH (fcs_from fcs b) o1) as (o2 & -> & H2). exists o2. rewrite fcs_from_app, esc_octets_app.
  split; [done|]. by eapply appended_trans.
Qed.

Lemma finish_frame_spec accm fcs o :
  appended (esc_octets accm (fcs_octets fcs) ++ [PPP_FLAG]) o (finish_frame accm fcs o).
Proof.
  unfold finish_frame, fcs_octets, esc_octets. cbn [map concat]. rewrite app_nil_r, <- app_assoc.
  eapply appended_trans; [apply (pppAppend_spec _ (Some accm))|].
  eapply appended_trans; [apply (pppAppend_spec _ (Some accm))|apply (pppAppend_spec _ None)].
Qed.

Definition is_idle (now : Z) (pc : PPPControl) : bool := PPP_MAXIDLEFLAG <=? u32 (now - lastXMit pc).

Lemma start_frame_spec now pool pc :
  appended (if is_idle now pc then [PPP_FLAG] else []) (Out [] (Some []) pool) (start_frame now pool pc).
Proof. unfold start_frame, is_idle. destruct (_ <=? _); [apply (pppAppend_spec _ None)|apply appended_nil]. Qed.

(** What happens to a packet [s] that is sent: no memory, or its frame goes to
    the device in buffers. *)
Definition frame_sent (sio_write : list Z -> list Z -> Z) (now now' : Z) (s : list Z) (pc : PPPControl) (err ok : Z)
    (res : Z * PPPControl) : Prop :=
  (res.1 = err /\ wire res.2 = wire pc) \/
  exists nb, res = (ok, nPut sio_write nb (set_lastXMit now' pc)) /\ Forall fits nb /\
    concat nb = frame (outACCM pc) (is_idle now pc) s.

Lemma send_frame_spec sio now now' pool s o err ok pc :
  appended (frame (outACCM pc) (is_idle now pc) s) (Out [] (Some []) pool) o ->
  frame_sent sio now now' s pc err ok (send_frame sio o err ok (set_lastXMit now' pc)).
Proof.
  intros [Hok Ho]. unfold send_frame. destruct (tailMB o) as [nb|] eqn:Et; [right|by left].
  destruct Ho as [_ Ho]; [done|]. destruct Hok as [Hf Hn]; [split; cbn; [done|unfold fits, PBUF_POOL_BUFSIZE; cbn; lia]|]. rewrite Et in Hn.
  exists (front o ++ [nb]). rewrite Forall_app, Forall_singleton. split_and!; try done.
  rewrite concat_app. cbn [concat]. rewrite app_nil_r. unfold out_octets in Ho. by rewrite Et in Ho.
Qed.

Lemma pppWrite_spec now now' pool sio s pc :
  frame_sent sio now now' s pc PPPERR_ALLOC PPPERR_NONE (pppWrite now now' pool sio s pc).
Proof.
  unfold pppWrite. destruct pool as [|[] pool]; [by left| |by left].
  destruct (load_octets_spec (outACCM (set_lastXMit now' pc)) s PPP_INITFCS (start_frame now pool pc)) as (o & -> & Ho).
  apply send_frame_spec with (pool := pool). eapply appended_trans; [apply start_frame_spec|].
  unfold with_fcs. rewrite esc_octets_app, <- app_assoc. eapply appended_trans; [exact Ho|]. apply finish_frame_spec.
Qed.

Lemma pppifOutput_spec now now' pool sio phase pb pc :
  phase <> PHASE_DEAD -> pb <> [] ->
  frame_sent sio now now' (output_header pc PPP_IP ++ concat pb) pc ERR_MEM ERR_OK
    (pppifOutput now now' pool sio true phase pb pc).
Proof.
  intros Hp Hb. unfold pppifOutput. destruct pb as [|b pb]; [done|]. cbn [negb orb].
  replace (zlen (b :: pb) =? 0) with false by done. rewrite (proj2 (Z.eqb_neq _ _)) by done.
  destruct pool as [|[] pool]; [by left| |by left].
  destruct (load_octets_spec (outACCM (set_lastXMit now' pc)) (output_header (set_lastXMit now' pc) PPP_IP) PPP_INITFCS
    (start_frame now pool pc)) as (o1 & -> & H1).
  destruct (load_packet_spec (outACCM (set_lastXMit now' pc)) (b :: pb) (fcs_from PPP_INITFCS (output_header (set_lastXMit now' pc) PPP_IP)) o1)
    as (o & -> & Ho).
  apply send_frame_spec with (pool := pool). eapply appended_trans; [apply start_frame_spec|].
  unfold with_fcs. rewrite !esc_octets_app, <- !app_assoc, fcs_from_app.
  eapply appended_trans; [exact H1|]. eapply appended_trans; [exact Ho|]. apply finish_frame_spec.
Qed.

(** A device that takes all octets gets the whole frame. *)
Lemma nPut_all sio nb pc :
  (forall w b, sio w b = zlen b) -> nPut sio nb pc = Pc (mtu pc) (pcomp pc) (accomp pc) (lastXMit pc) (outACCM pc) (wire pc ++ concat nb).
Proof.
  intros Hs. revert pc. induction nb as [|b nb IH]; intros pc; cbn [nPut concat].
  - rewrite app_nil_r. by destruct pc.
  - rewrite Hs, Z.eqb_refl. cbn [negb]. rewrite IH. cbn. rewrite Nat2Z.id, take_ge by lia. by rewrite app_assoc.
Qed.

(** Any device gets the beginning of it; when it is not all, the next frame
    starts with a flag. *)
Lemma nPut_some sio nb pc :
  (forall w b, 0 <= sio w b <= zlen b) ->
  exists got rest, wire (nPut sio nb pc) = wire pc ++ got /\ concat nb = got ++ rest /\
    (rest <> [] -> lastXMit (nPut sio nb pc) = 0).
Proof.
  intros Hs. revert pc. induction nb as [|b nb IH]; intros pc; cbn [nPut concat].
  - exists [], []. by rewrite app_nil_r.
  - set (c := sio (wire pc) b). pose proof (Hs (wire pc) b). fold c in H. destruct (Z.eqb_spec c (zlen b)) as [E|E]; cbn [negb].
    + rewrite take_ge by lia. destruct (IH (Pc (mtu pc) (pcomp pc) (accomp pc) (lastXMit pc) (outACCM pc) (wire pc ++ b)))
        as (got & rest & E1 & E2 & E3). exists (b ++ got), rest. rewrite E1, E2. cbn [wire].
      split_and!; [by rewrite app_assoc|by rewrite app_assoc|done].
    + exists (take (Z.to_nat c) b), (drop (Z.to_nat c) b ++ concat nb). rewrite app_assoc, take_drop. done.
Qed.

(** ** The buffers of the receiver *)

Definition tail_list (r : PPPControlRx) : list pbuf := match inTail r with Apart t => [t] | _ => [] end.

(** All of its buffers, and what is in them. *)
Definition bufs (r : PPPControlRx) : list pbuf := inHead r ++ tail_list r.
Definition octets (r : PPPControlRx) : list Z := chain_octets (bufs r).

Lemma chain_octets_app p q : chain_octets (p ++ q) = chain_octets p ++ chain_octets q.
Proof. unfold chain_octets. by rewrite map_app, concat_app. Qed.

(** [tot_len] is the length of the chain from a buffer on. *)
Fixpoint chain_ok (p : list pbuf) : Prop :=
  match p with
  | [] => True
  | q :: next => tot_len q = u16 (zlen (chain_octets (q :: next))) /\ chain_ok next
  end.

(** Every buffer but the last is full, and that one has at least [n] octets of
    data. *)
Definition bufs_at (n : Z) (r : PPPControlRx) : Prop :=
  match inTail r with
  | NoTail => inHead r = []
  | AtHead => exists h, inHead r = [h] /\ 8 + n <= len h <= PBUF_POOL_BUFSIZE
  | Apart t =>
      inHead r <> [] /\ chain_ok (inHead r) /\ Forall (fun p => len p = PBUF_POOL_BUFSIZE) (inHead r) /\
      n <= len t <= PBUF_POOL_BUFSIZE
  end.

Definition bufs_ok (r : PPPControlRx) : Prop := bufs_at 1 r.

Lemma u16_add a b : u16 (u16 a + u16 b) = u16 (a + b).
Proof. unfold u16. symmetry. apply Zplus_mod. Qed.

Lemma pbuf_cat_spec h t :
  h <> [] -> chain_ok h -> tot_len t = u16 (len t) ->
  pbuf_cat h t <> [] /\ chain_ok (pbuf_cat h t) /\ chain_octets (pbuf_cat h t) = chain_octets h ++ payload t /\
  map len (pbuf_cat h t) = map len h ++ [len t].
Proof.
  intros Hne Hok Ht. destruct h as [|q h]; [done|]. unfold pbuf_cat.
  assert (Hoct : forall l, chain_octets (map (add_tot_len (tot_len t)) l ++ [t]) = chain_octets l ++ payload t).
  { intros l. unfold chain_octets. rewrite map_app, map_map, concat_app. cbn. by rewrite app_nil_r. }
  split_and!; [done| |apply Hoct|by rewrite map_app, map_map].
  clear Hne. induction (q :: h) as [|p l IH]; cbn [map app chain_ok].
  - unfold chain_octets. cbn. rewrite app_nil_r. done.
  - destruct Hok as [Hp Hok]. split; [|by apply IH]. change (tot_len (add_tot_len (tot_len t) p)) with (u16 (tot_len p + tot_len t)).
    change (add_tot_len (tot_len t) p :: map (add_tot_len (tot_len t)) l ++ [t]) with
      (map (add_tot_len (tot_len t)) (p :: l) ++ [t]).
    rewrite Hoct, Hp, Ht, u16_add. unfold len. by rewrite length_app, Nat2Z.inj_add.
Qed.

(** A chain cut to a length it has. *)
Lemma realloc_loop_spec grow p rem :
  p <> [] -> 0 <= rem <= zlen (chain_octets p) -> rem < 65536 ->
  exists p' freed, realloc_loop grow rem p = Some (p', freed) /\
    chain_octets p' = take (Z.to_nat rem) (chain_octets p) /\ zlen p' + freed = zlen p /\
    (chain_ok p -> grow = rem - zlen (chain_octets p) -> chain_ok p') /\
    ((exists q, p' = [q]) \/ map payload (take 1 p') = map payload (take 1 p)).
Proof.
  revert rem. induction p as [|q p IH]; intros rem Hne Hr Hlt; [done|]. cbn [realloc_loop chain_ok].
  change (chain_octets (q :: p)) with (payload q ++ chain_octets p) in *. rewrite length_app in Hr. unfold len.
  destruct (Z.ltb_spec (zlen (payload q)) rem) as [Hq|Hq].
  - destruct (IH (rem - zlen (payload q))) as (p' & freed & E & Eo & El & Ec & _); [|lia|lia|].
    { intros ->. unfold chain_octets in Hr. cbn [map concat length] in Hr. lia. }
    rewrite (u16_id (rem - _)), E by lia. cbn [mbind option_bind].
    assert (Hoct : payload q ++ chain_octets p' = take (Z.to_nat rem) (payload q ++ chain_octets p)).
    { rewrite Eo, take_app. f_equal; [by rewrite take_ge by lia|]. f_equal. lia. }
    exists (Pbuf (payload q) (u16 (tot_len q + u16 grow)) :: p'), freed. split; [done|]. split; [exact Hoct|].
    split; [cbn [length]; lia|]. split; [|by right]. intros [Hq' Hok] Hg. rewrite length_app in Hg. split; [|apply Ec; [done|lia]].
    cbn [tot_len]. rewrite Hq', u16_add.
    change (chain_octets (_ :: p')) with (payload q ++ chain_octets p'). rewrite Hoct, length_take, !length_app. f_equal. lia.
  - exists [Pbuf (take (Z.to_nat rem) (payload q)) rem], (zlen p). unfold chain_octets at 1. cbn [map concat payload].
    rewrite app_nil_r, take_app_le by lia. split_and!; [done|done|cbn [length]; lia| |left; by eexists]. intros _ _. split; [|done].
    unfold chain_octets. cbn [map concat payload tot_len]. rewrite app_nil_r, length_take, u16_id by lia. lia.
Qed.

Lemma pbuf_realloc_spec p n :
  chain_ok p -> p <> [] -> 0 <= n <= zlen (chain_octets p) -> n < 65536 ->
  exists p' freed, pbuf_realloc p n = Some (p', freed) /\ zlen p' + freed = zlen p /\
    ((exists q, p' = [q]) \/ map payload (take 1 p') = map payload (take 1 p)) /\
    (n < zlen (chain_octets p) < 65536 -> chain_octets p' = take (Z.to_nat n) (chain_octets p) /\ chain_ok p').
Proof.
  intros Hok Hne Hn Hlt. destruct p as [|q p]; [done|]. destruct Hok as [Hq Hok']. unfold pbuf_realloc.
  destruct (Z.leb_spec (tot_len q) n) as [Hle|Hgt].
  - exists (q :: p), 0. split; [done|]. split; [lia|]. split; [by right|]. intros H. rewrite Hq, u16_id in Hle by lia. lia.
  - destruct (realloc_loop_spec (n - tot_len q) (q :: p) n) as (p' & freed & E & Eo & El & Ec & Ef); [done|lia..|].
    exists p', freed. split; [done|]. split; [done|]. split; [done|]. intros H. split; [done|]. apply Ec; [done|].
    rewrite Hq, u16_id by lia. done.
Qed.

(** The chain without its lengths *)
Definition shape (r : PPPControlRx) : Prop :=
  match inTail r with
  | NoTail => inHead r = []
  | AtHead => exists h, inHead r = [h] /\ len h <= PBUF_POOL_BUFSIZE
  | Apart t => inHead r <> [] /\ chain_ok (inHead r) /\ len t <= PBUF_POOL_BUFSIZE
  end.

Lemma bufs_ok_shape r : bufs_ok r -> shape r.
Proof.
  unfold bufs_ok, bufs_at, shape. destruct (inTail r); [done|intros (h & E & Hl); exists h; split; [done|lia]|intros (H1 & H2 & H3 & H4)].
  split_and!; [done|done|lia].
Qed.

(** The tail is the last of the buffers; it can be replaced. *)
Lemma shape_tail r t :
  shape r -> tail_pbuf r = Some t ->
  exists fr, bufs r = fr ++ [t] /\ len t <= PBUF_POOL_BUFSIZE /\
    forall t', len t' <= PBUF_POOL_BUFSIZE ->
      shape (set_tail t' r) /\ tail_pbuf (set_tail t' r) = Some t' /\ bufs (set_tail t' r) = fr ++ [t'].
Proof.
  destruct r as [d h tl p f st e a]. unfold shape, tail_pbuf, bufs, tail_list, set_tail, set_bufs. cbn.
  destruct tl as [| |t0]; [done| |].
  - intros (h0 & -> & Hl) [= ->]. exists []. split_and!; [done|done|]. intros t' Ht'. split; [by exists t'|done].
  - intros (H1 & H2 & H3) [= ->]. exists h. by split_and!.
Qed.

Lemma len_u16 t : len t <= PBUF_POOL_BUFSIZE -> len t = u16 (len t).
Proof. unfold len, PBUF_POOL_BUFSIZE. intros. by rewrite u16_id by lia. Qed.

Lemma join_tail_spec r t :
  shape r -> tail_pbuf r = Some t ->
  inHead (join_tail r) <> [] /\ chain_ok (inHead (join_tail r)) /\
  chain_octets (inHead (join_tail r)) = octets r /\ map len (inHead (join_tail r)) = map len (bufs r).
Proof.
  destruct r as [d h tl p f st e a]. unfold shape, tail_pbuf, octets, bufs, tail_list, join_tail, set_bufs.
  cbn [inHead inTail head app map].
  destruct tl as [| |t0]; [done| |].
  - intros (h0 & -> & Hl) _. cbn [inHead]. split_and!; [done| |done|done]. cbn [chain_ok tot_len].
    unfold chain_octets. cbn. rewrite app_nil_r. split; [by apply len_u16|done].
  - intros (H1 & H2 & H3) [= ->]. cbn [inHead].
    destruct (pbuf_cat_spec h (Pbuf (payload t) (len t))) as (E1 & E2 & E3 & E4); [done|done|exact (len_u16 t H3)|].
    split_and!; [done|done| |by rewrite E4, map_app]. rewrite E3, chain_octets_app. unfold chain_octets at 3. cbn.
    by rewrite app_nil_r.
Qed.

(** What [join_tail] leaves alone; it leaves no buffer apart. *)
Lemma join_tail_set r : exists h t, join_tail r = set_bufs h t r /\ (forall b, t <> Apart b).
Proof.
  unfold join_tail. destruct (inTail r) eqn:Et; [exists (inHead r), (inTail r); rewrite Et; by destruct r as [? ? []]| |by eexists _, _].
  destruct (inHead r) eqn:Eh; [exists (inHead r), (inTail r); rewrite Et; by destruct r as [? [] []]|by eexists _, _].
Qed.

Lemma pppDrop_spec w :
  (inHead (rx w) = [] -> inTail (rx w) = NoTail) ->
  pppDrop w = Rcv (set_bufs [] NoTail (rx w)) (pool w) (posts w) (owned w - zlen (bufs (rx w))) (inputs w).
Proof.
  destruct w as [[d h tl p f st e a] pl po ow ins]. unfold pppDrop, bufs, tail_list.
  cbn [rx inHead inTail pool posts owned inputs]. intros Hn. destruct h as [|h0 h].
  - rewrite Hn by done. cbn. by rewrite Z.sub_0_r.
  - f_equal. rewrite length_app. destruct tl; cbn [length]; lia.
Qed.

Lemma set_bufs_set_bufs h t h' t' r : set_bufs h t (set_bufs h' t' r) = set_bufs h t r.
Proof. done. Qed.

(** *** A data octet *)

(** The octets of a packet of which [r] has received none: those of its header. *)
Definition octets_or_header (r : PPPControlRx) : list Z :=
  match inTail r with NoTail => pppInputHeader (pd r) (inProtocol r) | _ => octets r end.

(** [w'] is [w] with other buffers, [k] of them from the pool. *)
Definition rebuffered (k : Z) (w w' : receiver) : Prop :=
  exists h t pl, w' = Rcv (set_bufs h t (rx w)) pl (posts w) (owned w + k) (inputs w) /\
    zlen (bufs (rx w')) = zlen (bufs (rx w)) + k /\ bufs_ok (rx w') /\ inTail (rx w') <> NoTail.

Lemma store_char_spec c w t :
  bufs_at 0 (rx w) -> tail_pbuf (rx w) = Some t -> len t < PBUF_POOL_BUFSIZE ->
  rebuffered 0 w (on_rx (store_char c) w) /\ pool (on_rx (store_char c) w) = pool w /\
  octets (rx (on_rx (store_char c) w)) = octets (rx w) ++ [c].
Proof.
  destruct w as [[d h tl p f st e a] pl po ow ins]. unfold on_rx, store_char. cbn [rx]. intros Hb Ht Hlen. rewrite Ht.
  unfold rebuffered, octets, bufs_ok, bufs_at, bufs, tail_list, set_tail, tail_pbuf in *.
  cbn [rx pool posts owned inputs inHead inTail] in *.
  assert (Hl1 : len (Pbuf (payload t ++ [c]) (tot_len t)) = len t + 1) by (unfold len; cbn [payload]; rewrite length_app; cbn; lia).
  destruct tl as [| |t0]; [done| |].
  - destruct Hb as (h0 & -> & Hb). injection Ht as ->. cbn [tail set_bufs rx inHead inTail].
    split_and!; [|done|unfold chain_octets; cbn; by rewrite !app_nil_r].
    eexists _, _, _. split_and!; [rewrite Z.add_0_r; done|cbn; lia| |done]. eexists. split; [done|]. rewrite Hl1. lia.
  - destruct Hb as (H1 & H2 & H3 & H4). injection Ht as ->. cbn [set_bufs rx inHead inTail].
    split_and!; [|done|rewrite !chain_octets_app; unfold chain_octets; cbn; by rewrite !app_nil_r, app_assoc].
    eexists _, _, _. split; [rewrite Z.add_0_r; done|]. split; [cbn; rewrite !length_app; cbn; lia|]. split; [|done].
    rewrite Hl1. split_and!; (done || lia).
Qed.

Lemma rebuffered_trans k k' w w' w'' : rebuffered k w w' -> rebuffered k' w' w'' -> rebuffered (k + k') w w''.
Proof.
  intros (h & t & pl & -> & H1 & H2 & H3) (h' & t' & pl' & -> & H1' & H2' & H3'). cbn [rx pool posts owned inputs] in *.
  exists h', t', pl'. rewrite Z.add_assoc. cbn [rx]. split; [done|]. split; [lia|done].
Qed.

Lemma bufs_ok_tail r : bufs_ok r -> tail_pbuf r = None <-> inTail r = NoTail.
Proof.
  unfold bufs_ok, bufs_at, tail_pbuf. destruct (inTail r); [done|intros (h & -> & _)|]; done.
Qed.

Lemma bufs_at_le n m r : m <= n -> bufs_at n r -> bufs_at m r.
Proof.
  unfold bufs_at. intros Hle. destruct (inTail r); [done| |].
  - intros (h & -> & Hl). exists h. split; [done|lia].
  - intros (H1 & H2 & H3 & H4). split_and!; (done || lia).
Qed.

Lemma rebuffered_pool k w w' pl :
  rebuffered k w w' -> rebuffered k w (Rcv (rx w') pl (posts w') (owned w') (inputs w')).
Proof. intros (h & t & pl' & -> & H). by exists h, t, pl. Qed.

(** When the last one is full all are. *)
Lemma bufs_ok_full r t :
  bufs_ok r -> tail_pbuf r = Some t -> len t = PBUF_POOL_BUFSIZE -> Forall (fun n => n = PBUF_POOL_BUFSIZE) (map len (bufs r)).
Proof.
  unfold bufs_ok, bufs_at, tail_pbuf, bufs, tail_list. destruct (inTail r) as [| |t0]; [done| |].
  - intros (h & -> & _) [= ->] E. by repeat constructor.
  - intros (_ & _ & Hall & _) [= ->] E. rewrite map_app, Forall_app, Forall_map. split; [done|by repeat constructor].
Qed.

(** A new buffer is there, or the packet is lost. *)
Lemma next_buf_spec w :
  bufs_ok (rx w) -> (forall t, tail_pbuf (rx w) = Some t -> len t = PBUF_POOL_BUFSIZE) ->
  match pool w with
  | true :: pl =>
      exists h t, next_buf w = (Rcv (set_bufs h t (rx w)) pl (posts w) (owned w + 1) (inputs w), true) /\
        bufs_at 0 (set_bufs h t (rx w)) /\ zlen (bufs (set_bufs h t (rx w))) = zlen (bufs (rx w)) + 1 /\
        octets (set_bufs h t (rx w)) = octets_or_header (rx w) /\
        exists b, tail_pbuf (set_bufs h t (rx w)) = Some b /\ len b < PBUF_POOL_BUFSIZE
  | pl =>
      next_buf w = (Rcv (set_inState PDSTART (set_bufs [] NoTail (rx w))) (tail pl) (posts w)
        (owned w - zlen (bufs (rx w))) (inputs w), false)
  end.
Proof.
  intros Hok Hfull. unfold next_buf, on_rx. cbn [pool]. destruct (tail_pbuf (rx w)) as [t|] eqn:Et.
  - specialize (Hfull t eq_refl). destruct (join_tail_spec _ _ (bufs_ok_shape _ Hok) Et) as (Hne & Hch & Hoct & Hlen).
    pose proof (bufs_ok_full _ _ Hok Et Hfull) as Hall.
    destruct (join_tail_set (rx w)) as (h' & t' & Ej & Hap). rewrite Ej in *. cbn [inHead set_bufs] in *.
    assert (Hz : zlen h' = zlen (bufs (rx w))) by (rewrite <- (length_map len h'), Hlen, length_map; done).
    assert (Hh : octets_or_header (rx w) = octets (rx w)).
    { unfold octets_or_header. destruct (inTail (rx w)) eqn:Etl; [|done|done]. unfold tail_pbuf in Et. by rewrite Etl in Et. }
    assert (Hfail : forall pl, on_rx (set_inState PDSTART) (pppDrop (Rcv (set_bufs h' t' (rx w)) pl (posts w) (owned w) (inputs w))) =
      Rcv (set_inState PDSTART (set_bufs [] NoTail (rx w))) pl (posts w) (owned w - zlen (bufs (rx w))) (inputs w)).
    { intros pl. rewrite pppDrop_spec by done. unfold on_rx. cbn [rx pool posts owned inputs]. do 2 f_equal.
      unfold bufs at 1, tail_list. cbn [set_bufs inHead inTail].
      destruct t'; [by rewrite app_nil_r, Hz..|]. by destruct (Hap b). }
    destruct (pool w) as [|[] pl].
    + exact (f_equal (fun x => (x, false)) (Hfail _)).
    + cbn [rx set_bufs inHead]. destruct h' as [|h0 h']; [done|]. eexists _, _. split; [done|].
      rewrite <- Hz, Hh, <- Hoct. unfold bufs_at, bufs, octets, tail_list, tail_pbuf. cbn [set_bufs inHead inTail].
      split; [split; [done|split; [done|split; [|unfold len, PBUF_POOL_BUFSIZE; cbn; lia]]]|].
      { rewrite <- Hlen, Forall_map in Hall. exact Hall. }
      split; [rewrite length_app; cbn [length] in *; lia|]. split.
      * change (chain_octets ((h0 :: h') ++ [Pbuf [] 0]) = chain_octets (h0 :: h')). rewrite chain_octets_app.
        by rewrite app_nil_r.
      * eexists. split; [done|]. unfold len, PBUF_POOL_BUFSIZE; cbn; lia.
    + exact (f_equal (fun x => (x, false)) (Hfail _)).
  - apply (bufs_ok_tail _ Hok) in Et as Etl. unfold bufs_ok, bufs_at in Hok. rewrite Etl in Hok.
    clear Hfull. destruct w as [[d h tl p f st e a] pl po ow ins]. cbn [rx pool posts owned inputs inHead inTail] in *. subst.
    destruct pl as [|[] pl].
    + cbn. by rewrite Z.sub_0_r.
    + eexists _, _. split; [done|]. split; [by eexists|]. split; [cbn; lia|]. split; [done|]. by eexists.
    + cbn. by rewrite Z.sub_0_r.
Qed.

(** The packet is lost; the receiver is out of step with the frames. *)
Definition lost (pl : list bool) (w : receiver) : receiver :=
  Rcv (set_inState PDSTART (set_bufs [] NoTail (rx w))) pl (posts w) (owned w - zlen (bufs (rx w))) (inputs w).

Lemma data_char_spec c w :
  bufs_ok (rx w) ->
  (exists k, rebuffered k w (data_char c w) /\ octets (rx (data_char c w)) = octets_or_header (rx w) ++ [c] /\
    (pool (data_char c w) = pool w \/ pool w = true :: pool (data_char c w))) \/
  (data_char c w = lost (tail (pool w)) w /\ head (pool w) <> Some true).
Proof.
  intros Hok. unfold data_char. set (need := match tail_pbuf (rx w) with None => true | Some t => len t =? PBUF_POOL_BUFSIZE end).
  destruct need eqn:En; subst need.
  - assert (Hfull : forall t, tail_pbuf (rx w) = Some t -> len t = PBUF_POOL_BUFSIZE).
    { intros t Et. rewrite Et in En. by apply Z.eqb_eq. }
    pose proof (next_buf_spec w Hok Hfull) as Hnext. destruct (pool w) as [|[] pl].
    + right. by rewrite Hnext.
    + left. destruct Hnext as (h & t & -> & Hb & Hz & Ho & b & Hbt & Hbl).
      set (w1 := Rcv (set_bufs h t (rx w)) pl (posts w) (owned w + 1) (inputs w)).
      destruct (store_char_spec c w1 b Hb Hbt Hbl) as (H1 & H2 & H3).
      exists 1. rewrite H3, H2. cbn [rx pool w1]. rewrite Ho. split; [|by split; [|right]].
      destruct H1 as (h2 & t2 & pl2 & E & Hz2 & Hok2 & Hne). exists h2, t2, pl2. rewrite E in *. split; [|split; [|done]].
      * cbn [rx pool posts owned inputs w1]. by rewrite Z.add_0_r.
      * cbn [rx w1] in Hz2 |- *. lia.
    + right. by rewrite Hnext.
  - left. exists 0. destruct (tail_pbuf (rx w)) as [t|] eqn:Et; [|done]. apply Z.eqb_neq in En.
    destruct (shape_tail _ _ (bufs_ok_shape _ Hok) Et) as (_ & _ & Hl & _).
    destruct (store_char_spec c w t) as (H1 & H2 & H3); [by apply (bufs_at_le 1); [lia|]|done|lia|].
    split; [done|]. split; [|by left]. rewrite H3. f_equal. unfold octets_or_header.
    destruct (inTail (rx w)) eqn:Etl; [|done|done]. unfold tail_pbuf in Et. by rewrite Etl in Et.
Qed.

(** *** The end of a packet *)

(** What is left of its octets without the checksum. *)
Definition trimmed (s : list Z) : list Z := take (length s - 2) s.

(** When the last buffer has one octet only there is a full one in front. *)
Lemma octets_big r t : bufs_ok r -> tail_pbuf r = Some t -> len t < 2 -> 2 <= zlen (octets r).
Proof.
  unfold bufs_ok, bufs_at, tail_pbuf, octets, bufs. destruct (inTail r) as [| |t0]; [done| |].
  - intros (h & -> & Hl) [= ->]. lia.
  - intros (Hne & _ & Hall & _) _ _. rewrite chain_octets_app. destruct (inHead r) as [|q h]; [done|].
    apply Forall_cons_iff in Hall as [Hq _]. change (chain_octets (q :: h)) with (payload q ++ chain_octets h).
    rewrite !length_app. unfold len, PBUF_POOL_BUFSIZE in Hq. lia.
Qed.

(** The first buffer holds the header of the packet, if the packet does. *)
Definition first_ok (inp : list pbuf) : Prop :=
  match inp with [] => False | q :: rest => rest = [] \/ 8 <= len q end.

Lemma first_full r t fr :
  bufs_ok r -> tail_pbuf r = Some t -> bufs r = fr ++ [t] ->
  (fr = [] /\ 8 < len t) \/ exists q fr', fr = q :: fr' /\ len q = PBUF_POOL_BUFSIZE.
Proof.
  unfold bufs_ok, bufs_at, tail_pbuf, bufs, tail_list. destruct (inTail r) as [| |t0]; [done| |].
  - intros (h & -> & Hl) [= ->] E. left. destruct fr as [|? [|]]; [split; [done|lia]|done|done].
  - intros (Hne & _ & Hall & _) [= ->] [<- _]%app_inj_tail. right. destruct (inHead r) as [|q h]; [done|].
    apply Forall_cons_iff in Hall as [Hq _]. by exists q, h.
Qed.

Lemma first_ok_len inp q l : map len inp = len q :: l -> 8 <= len q -> first_ok inp.
Proof. destruct inp as [|q0 inp]; [done|]. intros [= E _] Hl. right. lia. Qed.

Lemma trim_checksum_spec r :
  bufs_ok r ->
  (inTail r = NoTail /\ trim_checksum r = None) \/
  (exists inp freed, trim_checksum r = Some (inp, freed) /\ zlen inp + freed = zlen (bufs r) /\ first_ok inp /\
    (zlen (octets r) < 65536 -> chain_octets inp = trimmed (octets r) /\ chain_ok inp)).
Proof.
  intros Hok. unfold trim_checksum. destruct (tail_pbuf r) as [t|] eqn:Et; [right|left; by rewrite <- bufs_ok_tail].
  cbn [mbind option_bind]. destruct (shape_tail _ _ (bufs_ok_shape _ Hok) Et) as (fr & Eb & Hl & Hset).
  destruct (Z.leb_spec 2 (len t)) as [H2|H2].
  - set (t' := Pbuf (take (Z.to_nat (len t - 2)) (payload t)) (tot_len t)).
    assert (Ht' : len t' = len t - 2) by (unfold len, t'; cbn [payload]; rewrite length_take; unfold len in *; lia).
    destruct (Hset t') as (Hs & Htl & Hb); [lia|]. destruct (join_tail_spec _ _ Hs Htl) as (Hne & Hch & Hoct & Hlen).
    eexists _, 0. split; [done|]. split.
    + rewrite <- (length_map len (inHead _)), Hlen, length_map, Hb, Eb, !length_app. cbn. lia.
    + split.
      { rewrite Hb in Hlen. destruct (first_full r t fr Hok Et Eb) as [[-> _]|(q & fr' & -> & Hq)].
        - destruct (inHead _) as [|q [|]]; [done|by left|done].
        - eapply first_ok_len; [exact Hlen|]. unfold PBUF_POOL_BUFSIZE in Hq. lia. } intros _. split; [|done]. rewrite Hoct. unfold octets, trimmed. rewrite Hb, Eb, !chain_octets_app.
      unfold chain_octets at 2 4 6. cbn [map concat t' payload]. rewrite !app_nil_r, length_app, take_app.
      unfold len in *. f_equal; [rewrite take_ge by lia; done|]. f_equal. lia.
  - destruct (join_tail_spec _ _ (bufs_ok_shape _ Hok) Et) as (Hne & Hch & Hoct & Hlen).
    pose proof (octets_big r t Hok Et H2) as Hbig.
    destruct (inHead (join_tail r)) as [|q h] eqn:Eh; [done|]. cbn [head mbind option_bind].
    assert (Hq : tot_len q = u16 (zlen (octets r))) by (rewrite <- Hoct; apply Hch).
    pose proof (u16_range (tot_len q - 2)) as Hr.
    assert (Hn : u16 (tot_len q - 2) = u16 (zlen (octets r) - 2)).
    { rewrite Hq. unfold u16. by rewrite Zminus_mod_idemp_l. }
    assert (Hmod : u16 (zlen (octets r) - 2) <= zlen (octets r) - 2) by (apply Z.mod_le; lia).
    destruct (pbuf_realloc_spec (q :: h) (u16 (tot_len q - 2))) as (p' & freed & E & Ef & Ep & Eo); [done|done|rewrite Hoct; lia|lia|].
    exists p', freed. split; [done|]. split; [rewrite Ef, <- (length_map len (q :: h)), Hlen, length_map; done|].
    split.
    { destruct Ep as [[q0 ->]|Ep]; [by left|]. destruct p' as [|q0 p']; [done|]. cbn in Ep. injection Ep as Ep. right.
      unfold len. rewrite Ep. fold (len q). rewrite Eb in Hlen.
      destruct (first_full r t fr Hok Et Eb) as [[_ ?]|(q1 & fr' & -> & Hq1)]; [lia|]. injection Hlen as Hlen _.
      unfold PBUF_POOL_BUFSIZE in *. lia. }
    intros Hlt. rewrite Hoct, Hn, u16_id in Eo by lia. destruct Eo as [-> Hc]; [lia|]. split; [|done].
    unfold trimmed. f_equal. lia.
Qed.
