(* ===== verification/PppLine.v ===== *)
(** * The PPP line ([ppp.c])

    The receiver of [PppFrame] against its specification: frames between flags,
    and what they contain.  From it follow the safety of the receiver, that
    what is sent arrives, and that damaged frames do not. *)

From S2P Require Export PppFrame.

(** ** The receiver is safe *)

(** Its buffers are those it owns, and before the data of a packet it has none. *)
Definition rcv_ok (w : receiver) : Prop :=
  bufs_ok (rx w) /\ (inState (rx w) <> PDDATA -> inTail (rx w) = NoTail) /\ owned w = zlen (bufs (rx w)).

(** A flag now would end a packet without data but with a good checksum. *)
Definition empty_packet (w : receiver) : Prop :=
  inState (rx w) = PDDATA /\ inTail (rx w) = NoTail /\ inFCS (rx w) = PPP_GOODFCS.

Lemma bufs_NoTail r : bufs_ok r -> inTail r = NoTail -> bufs r = [] /\ inHead r = [].
Proof. unfold bufs_ok, bufs_at, bufs, tail_list. intros Hok Ht. rewrite Ht in *. by rewrite Hok. Qed.

Lemma pppDrop_ok w : rcv_ok w -> pppDrop w = Rcv (set_bufs [] NoTail (rx w)) (pool w) (posts w) 0 (inputs w).
Proof.
  intros (Hok & _ & Ho). rewrite pppDrop_spec; [by rewrite Ho, Z.sub_diag|]. intros Hh. unfold bufs_ok, bufs_at in Hok.
  destruct (inTail (rx w)); [done|by destruct Hok as (h & E & _); rewrite Hh in E|by destruct Hok as [Hn _]; rewrite Hh in Hn].
Qed.

(** What a flag leaves behind. *)
Definition restarted (w w' : receiver) : Prop :=
  rx w' = set_inEscaped false (set_inState PDADDRESS (set_inFCS PPP_INITFCS (set_bufs [] NoTail (rx w)))) /\
  pool w' = pool w /\ owned w' = 0.

Lemma in_flag_spec w :
  rcv_ok w ->
  (empty_packet w /\ in_flag w = None) \/
  (~ empty_packet w /\ exists w', in_flag w = Some w' /\ restarted w w' /\
    (if bool_decide (inState (rx w) = PDDATA) && (inFCS (rx w) =? PPP_GOODFCS) then
      posts w' = tail (posts w) /\
      exists inp, (inputs w' = if bool_decide (head (posts w) = Some true) then inputs w ++ [inp] else inputs w) /\ first_ok inp /\
        (zlen (octets (rx w)) < 65536 -> chain_octets inp = trimmed (octets (rx w)) /\ chain_ok inp)
    else posts w' = posts w /\ inputs w' = inputs w)).
Proof.
  intros Hw. pose proof Hw as (Hok & Hst & Ho). unfold in_flag, empty_packet, restarted, on_rx.
  destruct (decide (inState (rx w) = PDDATA)) as [Ed|Ed].
  - rewrite Ed. cbn [PD Z.leb Z.ltb Z.compare Pos.compare Pos.compare_cont]. rewrite bool_decide_true by done. cbn [andb].
    destruct (Z.eqb_spec (inFCS (rx w)) PPP_GOODFCS) as [Ef|Ef]; cbn [negb].
    + unfold dispatch. destruct (trim_checksum_spec _ Hok) as [[Ht ->]|(inp & freed & Ht & Hf & Hfirst & Hinp)].
      * left. by rewrite Ht, Ef.
      * right. split.
        { intros (_ & Hn & _). unfold trim_checksum in Ht. by rewrite (proj2 (bufs_ok_tail _ Hok)) in Ht. }
        rewrite Ht. cbn [mbind option_bind]. replace (owned w - freed - zlen inp) with 0 by lia.
        destruct (posts w) as [|[] ps]; cbn [mbind option_bind]; eexists; (split; [done|]); (split; [done|]);
          (split; [done|]); by exists inp.
    + right. split; [tauto|]. rewrite pppDrop_ok by done. eexists. split; [done|]. done.
  - rewrite bool_decide_false by done. cbn [andb]. right. split; [tauto|]. 
    destruct (bufs_NoTail _ Hok (Hst Ed)) as [Hb Hh].
    assert (Hset : set_bufs [] NoTail (rx w) = rx w) by (rewrite <- Hh, <- (Hst Ed); by destruct (rx w)).
    rewrite Hb in Ho. rewrite (pppDrop_ok w Hw), Hset.
    replace (Rcv (rx w) (pool w) (posts w) 0 (inputs w)) with w by (destruct w; cbn in Ho |- *; by rewrite Ho).
    destruct (PD (inState (rx w)) <=? PD PDADDRESS); [eexists; by split|].
    replace (PD (inState (rx w)) <? PD PDDATA) with true by (by destruct (inState (rx w))). eexists; by split.
Qed.

(** *** One octet *)

Lemma header_char_bufs c r :
  inHead (header_char c r) = inHead r /\ inTail (header_char c r) = inTail r /\ inACCM (header_char c r) = inACCM r /\
  pd (header_char c r) = pd r /\ inEscaped (header_char c r) = inEscaped r.
Proof.
  unfold header_char. destruct (inState r); try done; [destruct (negb _); [done|]|..];
    match goal with |- context [let '(_, _) := ?x in _] => destruct x end; done.
Qed.

(** The octet that [c] stands for. *)
Definition unescaped (e : bool) (c : Z) : Z := if e then Z.lxor c PPP_TRANS else c.

(** An octet of a packet, after its escape. *)
Definition packet_char (c : Z) (w : receiver) : receiver :=
  let w := match inState (rx w) with
           | PDDATA => data_char c w
           | _ => on_rx (header_char c) w
           end in
  on_rx (fun r => set_inFCS (PPP_FCS (inFCS r) c) r) w.

Lemma in_char_eq c w :
  in_char c w =
    if ESCAPE_P (inACCM (rx w)) c then
      if c =? PPP_ESCAPE then Some (on_rx (set_inEscaped true) w) else if c =? PPP_FLAG then in_flag w else Some w
    else Some (packet_char (unescaped (inEscaped (rx w)) c) (on_rx (set_inEscaped false) w)).
Proof.
  unfold in_char, packet_char, unescaped. destruct (ESCAPE_P _ _); [done|]. destruct (inEscaped (rx w)) eqn:Ee; [done|].
  replace (on_rx (set_inEscaped false) w) with w; [done|]. destruct w as [[d h t p f st e a] pl po ow ins]. cbn in Ee |- *. by subst.
Qed.

(** Fields that do not matter to the buffers *)
Lemma rcv_ok_ext w r :
  rcv_ok w -> inHead r = inHead (rx w) -> inTail r = inTail (rx w) ->
  (inState r <> PDDATA -> inTail r = NoTail) -> rcv_ok (Rcv r (pool w) (posts w) (owned w) (inputs w)).
Proof.
  unfold rcv_ok, bufs_ok, bufs_at, bufs, tail_list. cbn [rx owned]. by intros (H1 & H2 & H3) -> ->.
Qed.

Lemma packet_char_ok c w : rcv_ok w -> rcv_ok (packet_char c w).
Proof.
  intros Hw. pose proof Hw as (Hok & Hst & Ho). unfold packet_char, on_rx at 1.
  destruct (decide (inState (rx w) = PDDATA)) as [Ed|Ed].
  - rewrite Ed. assert (Hd : rcv_ok (data_char c w)).
    { destruct (data_char_spec c w Hok) as [(k & (h & t & pl & E & Hz & Hok' & Hne) & _)|[E _]]; rewrite E in *.
      - cbn [rx] in *. split; [done|]. cbn [rx owned set_bufs inState]. split; [by rewrite Ed|]. rewrite Ho. lia.
      - split; [done|]. split; [done|]. cbn. lia. }
    apply rcv_ok_ext; [done|done|done|]. apply Hd.
  - replace (match inState (rx w) with PDDATA => _ | _ => _ end) with (on_rx (header_char c) w) by (by destruct (inState (rx w))).
    destruct (header_char_bufs c (rx w)) as (H1 & H2 & _). 
    apply (rcv_ok_ext w); [done|exact H1|exact H2|]. cbn. rewrite H2. intros _. by apply Hst.
Qed.

Lemma in_char_ok c w :
  rcv_ok w -> match in_char c w with Some w' => rcv_ok w' | None => c = PPP_FLAG /\ empty_packet w end.
Proof.
  intros Hw. rewrite in_char_eq. destruct (ESCAPE_P _ _).
  - destruct (Z.eqb_spec c PPP_ESCAPE); [apply (rcv_ok_ext w); [done..|apply Hw]|]. destruct (Z.eqb_spec c PPP_FLAG); [|done].
    destruct (in_flag_spec w Hw) as [[He ->]|(_ & w' & -> & (Hr & _ & Ho) & _)]; [done|].
    unfold rcv_ok. rewrite Hr, Ho. done.
  - apply packet_char_ok. apply (rcv_ok_ext w); [done..|apply Hw].
Qed.

(** C17: Whatever octets arrive and whatever the pool and the mailbox of the
    stack answer, no buffer is overrun, and the buffers the receiver has taken
    from the pool are those of the packet it is receiving, so none is lost; it
    fails at one place only, a flag that ends a packet without data whose
    checksum is good. *)
Theorem receiver_safe s w :
  rcv_ok w ->
  match pppInProc s w with
  | Some w' =>
      Forall (fun p => len p <= PBUF_POOL_BUFSIZE) (bufs (rx w')) /\ owned w' = zlen (bufs (rx w')) /\ rcv_ok w'
  | None => exists s1 s2 w1, s = s1 ++ PPP_FLAG :: s2 /\ pppInProc s1 w = Some w1 /\ rcv_ok w1 /\ empty_packet w1
  end.
Proof.
  revert w. induction s as [|c s IH]; intros w Hw; cbn [pppInProc].
  - split_and!; [|apply Hw|done]. destruct Hw as (Hok & _). unfold bufs_ok, bufs_at, bufs, tail_list in *.
    destruct (inTail (rx w)); [by rewrite Hok|destruct Hok as (h & -> & Hl); cbn; constructor; [lia|done]|].
    destruct Hok as (_ & _ & Hall & Hl). rewrite Forall_app. split; [|repeat constructor; lia].
    eapply Forall_impl; [|exact Hall]. cbn. lia.
  - pose proof (in_char_ok c w Hw) as Hc. destruct (in_char c w) as [w1|] eqn:E; cbn [mbind option_bind].
    + specialize (IH w1 Hc). destruct (pppInProc s w1); [done|]. destruct IH as (s1 & s2 & w2 & -> & Ep & H).
      exists (c :: s1), s2, w2. split; [done|]. cbn [pppInProc]. by rewrite E.
    + destruct Hc as [-> He]. by exists [], s, w.
Qed.

(** An established receiver: after [pppOverSerialOpen] and [ppp_recv_config]. *)
Definition new_receiver (d asyncmap : Z) (pool posts : list bool) : receiver :=
  Rcv (ppp_recv_config asyncmap (pppOverSerialOpen d).1) pool posts 0 [].

Lemma new_receiver_ok d asyncmap pool posts : rcv_ok (new_receiver d asyncmap pool posts).
Proof. done. Qed.

Lemma receiver_safe_witness :
  rcv_ok (new_receiver 0 0 [true] []) /\
  match pppInProc [0x7e; 0xff; 3; 0xc0; 0x21; 1; 2] (new_receiver 0 0 [true] []) with
  | Some w' => owned w' = zlen (bufs (rx w')) /\ owned w' = 1
  | None => False
  end.
Proof.
  split; [apply new_receiver_ok|].
  pose proof (receiver_safe [0x7e; 0xff; 3; 0xc0; 0x21; 1; 2] (new_receiver 0 0 [true] []) (new_receiver_ok 0 0 [true] [])) as H.
  destruct (pppInProc _ _) as [w'|] eqn:E; [|revert E; vm_compute; discriminate].
  destruct H as (_ & H & _). split; [exact H|]. revert E. vm_compute. intros [= <-]. reflexivity.
Defined.

(** ** What frames mean

    The specification: the line is cut at flags, escapes are undone, and a
    frame with a good checksum gives its protocol and its data. *)

(** The frames that [s] completes when [u] has come of the first, and whether
    an escape is open. *)
Fixpoint frames (accm : ext_accm) (e : bool) (u s : list Z) : list (list Z) :=
  match s with
  | [] => []
  | c :: s =>
      if ESCAPE_P accm c then
        if c =? PPP_ESCAPE then frames accm true u s
        else if c =? PPP_FLAG then u :: frames accm false [] s
        else frames accm e u s
      else frames accm false (u ++ [unescaped e c]) s
  end.

Definition skip (c : Z) (u : list Z) : list Z :=
  match u with x :: u' => if x =? c then u' else u | [] => [] end.

(** Address and control are optional, and a protocol may have one octet; then
    its lowest bit is set. *)
Definition frame_contents (u : list Z) : option (Z * list Z) :=
  match skip PPP_UI (skip PPP_ALLSTATIONS u) with
  | p :: d =>
      if Z.odd p then Some (p, d) else match d with p' :: d => Some (Z.lor (u16 (Z.shiftl p 8)) p', d) | [] => None end
  | [] => None
  end.

Inductive frame_result := Ignored | Packet (protocol : Z) (data : list Z) | Crash.

(** [data] is with the checksum. *)
Definition result_of (u : list Z) : frame_result :=
  match frame_contents u with
  | Some (p, d) =>
      if fcs_from PPP_INITFCS u =? PPP_GOODFCS then match d with [] => Crash | _ => Packet p d end else Ignored
  | None => Ignored
  end.

Fixpoint packets_of (us : list (list Z)) : list (Z * list Z) :=
  match us with
  | [] => []
  | u :: us => match result_of u with Packet p d => (p, d) :: packets_of us | _ => packets_of us end
  end.

(** Those the stack takes. *)
Fixpoint posted {A} (posts : list bool) (l : list A) : list A :=
  match l with
  | [] => []
  | x :: l => match posts with true :: posts => x :: posted posts l | posts => posted (tail posts) l end
  end.

(** *** The states of the receiver *)

Definition hdr_step (st : PPPDevStates * Z * list Z) (c : Z) : PPPDevStates * Z * list Z :=
  let '(s, p, d) := st in
  match s with
  | PDADDRESS => (address_char c p, d)
  | PDCONTROL => (control_char c p, d)
  | PDPROTOCOL1 => (protocol1_char c, d)
  | PDPROTOCOL2 => (PDDATA, Z.lor p c, d)
  | _ => (s, p, d ++ [c])
  end.

Lemma hdr_data p d u : foldl hdr_step (PDDATA, p, d) u = (PDDATA, p, d ++ u).
Proof.
  revert d. induction u as [|c u IH]; intros d; [by rewrite app_nil_r|]. cbn. rewrite IH. by rewrite <- app_assoc.
Qed.

Lemma land_odd c : negb (Z.land c 1 =? 0) = Z.odd c.
Proof. change 1 with (Z.ones 1). rewrite Z.land_ones, Zmod_odd by lia. by destruct (Z.odd c). Qed.

(** The state after [u] says what [u] contains. *)
Lemma hdr_contents p0 u :
  match foldl hdr_step (PDADDRESS, p0, []) u with
  | (PDDATA, p, d) => frame_contents u = Some (p, d)
  | (PDADDRESS, _, d) | (PDCONTROL, _, d) | (PDPROTOCOL1, _, d) | (PDPROTOCOL2, _, d) => frame_contents u = None /\ d = []
  | _ => False
  end.
Proof.
  assert (H2 : forall q u, match foldl hdr_step (PDPROTOCOL2, q, []) u with
    | (PDDATA, p, d) => match u with p' :: d' => p = Z.lor q p' /\ d = d' | [] => False end
    | (PDPROTOCOL2, _, d) => u = [] /\ d = [] | _ => False end).
  { intros q [|c v]; [done|]. cbn. by rewrite hdr_data. }
  assert (H1 : forall c v, match foldl hdr_step (protocol1_char c, []) v with
    | (PDDATA, p, d) => (if Z.odd c then Some (c, v) else match v with p' :: d => Some (Z.lor (u16 (Z.shiftl c 8)) p', d) | [] => None end) = Some (p, d)
    | (PDPROTOCOL2, _, d) => (if Z.odd c then Some (c, v) else match v with p' :: d => Some (Z.lor (u16 (Z.shiftl c 8)) p', d) | [] => None end) = None /\ d = []
    | _ => False end).
  { intros c v. unfold protocol1_char. rewrite land_odd. destruct (Z.odd c); [by rewrite hdr_data|].
    pose proof (H2 (u16 (Z.shiftl c 8)) v) as H. destruct (foldl hdr_step _ v) as [[[] p] d]; try done.
    - by destruct H as [-> ->].
    - destruct v; [done|]. by destruct H as [-> ->]. }
  unfold frame_contents. destruct u as [|c v]; [done|]. cbn [foldl hdr_step skip]. unfold address_char, control_char.
  destruct (Z.eqb_spec c PPP_ALLSTATIONS) as [->|Ha].
  - destruct v as [|c v]; [done|]. cbn [foldl hdr_step skip]. unfold control_char. destruct (Z.eqb_spec c PPP_UI) as [->|Hc].
    + destruct v as [|c v]; [done|]. cbn [foldl hdr_step]. pose proof (H1 c v). by destruct (foldl hdr_step _ v) as [[[] p] d].
    + pose proof (H1 c v). by destruct (foldl hdr_step _ v) as [[[] p] d].
  - cbn [skip]. destruct (Z.eqb_spec c PPP_UI) as [->|Hc].
    + destruct v as [|c v]; [done|]. cbn [foldl hdr_step]. pose proof (H1 c v). by destruct (foldl hdr_step _ v) as [[[] p] d].
    + pose proof (H1 c v). by destruct (foldl hdr_step _ v) as [[[] p] d].
Qed.

(** [u] has come since the last flag. *)
Definition receiving (u : list Z) (w : receiver) : Prop :=
  rcv_ok w /\ inFCS (rx w) = fcs_from PPP_INITFCS u /\
  exists p0 d, foldl hdr_step (PDADDRESS, p0, []) u = (inState (rx w), inProtocol (rx w), d) /\
    (inTail (rx w) = NoTail <-> d = []) /\
    (d <> [] -> octets (rx w) = pppInputHeader (pd (rx w)) (inProtocol (rx w)) ++ d).

(** The pool has a buffer for each of the next [n] requests. *)
Definition granted (n : nat) (pl : list bool) : Prop := take n pl = replicate n true.

Lemma granted_cons n pl : granted (S n) pl -> exists pl', pl = true :: pl' /\ granted n pl'.
Proof. unfold granted. destruct pl as [|b pl]; [done|]. cbn. intros [= -> E]. by exists pl. Qed.

Lemma granted_S n pl : granted (S n) pl -> granted n pl.
Proof. unfold granted. intros H. apply (f_equal (take n)) in H. by rewrite take_take, take_replicate, Nat.min_l in H by lia. Qed.

Lemma restarted_receiving w w' : restarted w w' -> receiving [] w' /\ inEscaped (rx w') = false /\ inACCM (rx w') = inACCM (rx w) /\ pd (rx w') = pd (rx w).
Proof.
  intros (Hr & Hp & Ho). unfold receiving, rcv_ok. rewrite Hr, Ho. split; [|done]. split; [done|]. split; [done|].
  exists (inProtocol (rx w)), []. done.
Qed.

Lemma foldl_snoc {A B} (f : A -> B -> A) x l b : foldl f x (l ++ [b]) = f (foldl f x l) b.
Proof. by rewrite foldl_app. Qed.

(** What [packet_char] leaves alone *)
Definition same_rest (w w' : receiver) : Prop :=
  posts w' = posts w /\ inputs w' = inputs w /\ inACCM (rx w') = inACCM (rx w) /\ pd (rx w') = pd (rx w) /\
  inEscaped (rx w') = inEscaped (rx w) /\ (pool w' = pool w \/ pool w = true :: pool w').

Lemma packet_char_spec u c w :
  receiving u w -> granted 1 (pool w) ->
  receiving (u ++ [c]) (packet_char c w) /\ same_rest w (packet_char c w).
Proof.
  intros (Hw & Hf & p0 & d & Hst & Hd & Ho) Hg. pose proof (packet_char_ok c w Hw) as Hw'.
  unfold receiving. rewrite fcs_from_app. unfold packet_char in *.
  destruct (decide (inState (rx w) = PDDATA)) as [Ed|Ed].
  - rewrite Ed in *. destruct (data_char_spec c w) as [(k & (h & t & pl & E & Hz & Hok & Hne) & Hoct & Hpl)|[_ Hno]]; [apply Hw| |].
    2: { apply granted_cons in Hg as (pl' & E & _). by rewrite E in Hno. }
    rewrite E in *. cbn [rx pool posts inputs on_rx] in *. split; [|by split_and!].
    split; [exact Hw'|]. split; [cbn; by rewrite Hf|]. exists p0, (d ++ [c]). rewrite foldl_snoc, Hst.
    split; [cbn; by rewrite Ed|]. split; [split; [done|by destruct d]|]. intros _.
    change (octets (set_inFCS _ _)) with (octets (set_bufs h t (rx w))). rewrite Hoct. cbn [pd inProtocol set_inFCS set_bufs].
    rewrite app_assoc. f_equal. unfold octets_or_header. destruct (decide (d = [])) as [->|Hdn].
    + rewrite (proj2 Hd) by done. by rewrite app_nil_r.
    + rewrite <- Ho by done. destruct (inTail (rx w)); [by destruct Hdn; apply Hd|done|done].
  - replace (match inState (rx w) with PDDATA => _ | _ => _ end) with (on_rx (header_char c) w) in * by (by destruct (inState (rx w))).
    destruct (header_char_bufs c (rx w)) as (H1 & H2 & H3 & H4 & H5). destruct Hw as (_ & Hnt & _).
    assert (d = []) as -> by (apply Hd, Hnt, Ed).
    split; [|unfold same_rest, on_rx; cbn; rewrite H3, H4, H5; by split_and!; try done; left].
    split; [exact Hw'|]. pose proof (hdr_contents p0 u) as Hc. rewrite Hst in Hc.
    assert (Hh : (inState (header_char c (rx w)), inProtocol (header_char c (rx w)), []) = hdr_step (inState (rx w), inProtocol (rx w), []) c /\
      inFCS (header_char c (rx w)) = inFCS (rx w)).
    { unfold header_char, hdr_step. destruct (inState (rx w)) eqn:Es; try done;
        match goal with |- context [let '(_, _) := ?x in _] => destruct x end; by rewrite ?Es. }
    destruct Hh as [Hh1 Hh2]. unfold on_rx. cbn [rx set_inFCS inFCS inState inProtocol inTail]. rewrite Hh2, Hf. split; [done|].
    exists p0, []. rewrite foldl_snoc, Hst, <- Hh1, H2. split; [done|]. split; [by rewrite (Hnt Ed)|done].
Qed.

Lemma frame_contents_length u p d : frame_contents u = Some (p, d) -> zlen d <= zlen u.
Proof.
  unfold frame_contents. assert (Hskip : forall c v, zlen (skip c v) <= zlen v).
  { intros c [|x v]; [done|]. cbn [skip]. destruct (x =? c); cbn [length]; lia. }
  pose proof (Hskip PPP_ALLSTATIONS u). pose proof (Hskip PPP_UI (skip PPP_ALLSTATIONS u)).
  destruct (skip PPP_UI _) as [|x v]; [done|]. cbn [length] in *. destruct (Z.odd x); [intros [= _ <-]; lia|].
  destruct v as [|y v]; [done|]. intros [= _ <-]. cbn [length] in *. lia.
Qed.

(** A chain that carries the packet [pkt] of the unit [d]. *)
Definition carries (d : Z) (inp : list pbuf) (pkt : Z * list Z) : Prop :=
  first_ok inp /\ chain_ok inp /\ chain_octets inp = trimmed (pppInputHeader d pkt.1 ++ pkt.2).

Lemma flag_spec u w :
  receiving u w -> zlen u <= 65000 ->
  match result_of u with
  | Crash => in_flag w = None
  | Ignored => exists w', in_flag w = Some w' /\ restarted w w' /\ posts w' = posts w /\ inputs w' = inputs w
  | Packet p d =>
      exists w' inp, in_flag w = Some w' /\ restarted w w' /\ posts w' = tail (posts w) /\
        inputs w' = (if bool_decide (head (posts w) = Some true) then inputs w ++ [inp] else inputs w) /\
        carries (pd (rx w)) inp (p, d)
  end.
Proof.
  intros (Hw & Hf & p0 & d & Hst & Hd & Ho) Hu. pose proof (in_flag_spec w Hw) as Hflag.
  pose proof (hdr_contents p0 u) as Hc. rewrite Hst in Hc. unfold empty_packet in Hflag. unfold result_of.
  destruct (decide (inState (rx w) = PDDATA)) as [Ed|Ed].
  - rewrite Ed in *. rewrite Hc, <- Hf. destruct (Z.eqb_spec (inFCS (rx w)) PPP_GOODFCS) as [Eg|Eg].
    + destruct (decide (d = [])) as [->|Hdn].
      { destruct Hflag as [[_ H]|[[] _]]; [done|]. split_and!; [done|by apply Hd|done]. }
      assert (Hdd : match d with [] => Crash | _ => Packet (inProtocol (rx w)) d end = Packet (inProtocol (rx w)) d) by (by destruct d).
      rewrite Hdd. destruct Hflag as [[(_ & Hn & _) _]|(_ & w' & E & Hr & H)]; [by apply Hd in Hn|].
      rewrite bool_decide_true in H by done. cbn [andb] in H. destruct H as (Hp & inp & Hi & Hfirst & Hcar).
      exists w', inp. split_and!; try done. apply frame_contents_length in Hc. specialize (Ho Hdn).
      destruct Hcar as [Hoct Hch]; [rewrite Ho, length_app; cbn [pppInputHeader length]; lia|].
      split; [done|]. split; [done|]. cbn [fst snd]. by rewrite <- Ho.
    + destruct Hflag as [[(_ & _ & H) _]|(_ & w' & E & Hr & H)]; [done|]. rewrite andb_false_r in H. by exists w'.
  - destruct Hflag as [[[H _] _]|(_ & w' & E & Hr & H)]; [done|]. rewrite bool_decide_false in H by done.
    replace (frame_contents u) with (@None (Z * list Z)) by (by destruct (inState (rx w)); destruct Hc). by exists w'.
Qed.

Definition crashes (u : list Z) : Prop := result_of u = Crash.

Lemma pppInProc_frames s u w :
  receiving u w -> granted (length s) (pool w) ->
  let fs := frames (inACCM (rx w)) (inEscaped (rx w)) u s in
  Forall (fun u => zlen u <= 65000) fs ->
  match pppInProc s w with
  | Some w' =>
      Forall (fun u => ~ crashes u) fs /\
      exists inps, inputs w' = inputs w ++ inps /\ Forall2 (carries (pd (rx w))) inps (posted (posts w) (packets_of fs))
  | None => Exists crashes fs
  end.
Proof.
  revert u w. induction s as [|c s IH]; intros u w Hr Hg; cbn zeta; intros Hl.
  { cbn. split; [done|]. exists []. rewrite app_nil_r. split; [done|constructor]. }
  cbn [pppInProc frames]. rewrite in_char_eq. cbn [frames] in Hl. cbn [length] in Hg. pose proof (granted_S _ _ Hg) as Hg'.
  destruct (ESCAPE_P (inACCM (rx w)) c).
  - destruct (Z.eqb_spec c PPP_ESCAPE) as [->|].
    + cbn [mbind option_bind]. specialize (IH u (on_rx (set_inEscaped true) w)). apply IH; [exact Hr|exact Hg'|exact Hl].
    + destruct (Z.eqb_spec c PPP_FLAG) as [->|]; [|apply IH; [done|done|exact Hl]].
      apply Forall_cons_iff in Hl as [Hlu Hl]. pose proof (flag_spec u w Hr Hlu) as Hflag. unfold crashes at 1 2. cbn [packets_of].
      destruct (result_of u) as [|p d|] eqn:Eu.
      * destruct Hflag as (w' & -> & Hre & Hp & Hi). cbn [mbind option_bind].
        destruct (restarted_receiving _ _ Hre) as (Hr' & He & Ha & Hpd). destruct Hre as (_ & Hpool & _).
        specialize (IH [] w' Hr'). rewrite Hpool, He, Ha, Hp, Hi, Hpd in IH. 
        specialize (IH Hg'). cbn zeta in IH. specialize (IH Hl). destruct (pppInProc s w').
        -- destruct IH as [H1 H2]. split; [constructor; [by rewrite Eu|done]|done].
        -- by right.
      * destruct Hflag as (w' & inp & -> & Hre & Hp & Hi & Hcar). cbn [mbind option_bind].
        destruct (restarted_receiving _ _ Hre) as (Hr' & He & Ha & Hpd). destruct Hre as (_ & Hpool & _).
        specialize (IH [] w' Hr'). rewrite Hpool, He, Ha, Hp, Hi, Hpd in IH. 
        specialize (IH Hg'). cbn zeta in IH. specialize (IH Hl). destruct (pppInProc s w').
        -- destruct IH as [H1 (inps & H2 & H3)]. split; [constructor; [by rewrite Eu|done]|]. rewrite H2. cbn [posted].
           destruct (posts w) as [|[] ps]; cbn [head tail] in *.
           ++ rewrite bool_decide_false by done. by exists inps.
           ++ rewrite bool_decide_true by done. exists (inp :: inps). rewrite <- app_assoc. split; [done|by constructor].
           ++ rewrite bool_decide_false by done. by exists inps.
        -- by right.
      * rewrite Hflag. cbn [mbind option_bind]. by left.
  - cbn [mbind option_bind]. destruct (packet_char_spec u (unescaped (inEscaped (rx w)) c) (on_rx (set_inEscaped false) w))
      as (Hr' & Hp & Hi & Ha & Hpd & He & Hpl).
    { exact Hr. } { destruct (granted_cons _ _ Hg) as (pl & E & _). cbn. by rewrite E. }
    set (w1 := packet_char (unescaped (inEscaped (rx w)) c) (on_rx (set_inEscaped false) w)) in *. clearbody w1.
    cbn [on_rx rx pool posts inputs set_inEscaped inACCM pd inEscaped] in *.
    specialize (IH _ _ Hr'). rewrite Hp, Hi, Ha, Hpd, He in IH. apply IH; [|exact Hl].
    destruct Hpl as [->|Hpl]; [done|]. destruct (granted_cons _ _ Hg) as (pl & E & Hgp). rewrite E in Hpl. injection Hpl as Epl.
    by rewrite <- Epl.
Qed.

(** *** Input, read by read *)

Lemma pppInProc_app s t w : pppInProc (s ++ t) w = w' ← pppInProc s w; pppInProc t w'.
Proof. revert w. induction s as [|c s IH]; intros w; [done|]. cbn [app pppInProc]. destruct (in_char c w); [apply IH|done]. Qed.

Lemma pppInputThread_concat reads w : pppInputThread reads w = pppInProc (concat reads) w.
Proof.
  revert w. induction reads as [|s reads IH]; intros w; [done|]. cbn [pppInputThread concat]. rewrite pppInProc_app.
  destruct (Z.ltb_spec 0 (zlen s)) as [|Hs].
  - destruct (pppInProc s w); [apply IH|done].
  - destruct s; [apply IH|cbn in Hs; lia].
Qed.

(** Between frames *)
Definition at_rest (w : receiver) : Prop := receiving [] w /\ inEscaped (rx w) = false.

(** C7: However the octets on the line are divided into reads, the receiver
    hands over the packets of the frames they make: cut at flags, with the
    escapes undone, those whose checksum is good, without it, each in a chain
    of buffers behind its unit and protocol.  It stops at a frame that is
    nothing but a header with a good checksum, and at no other.  (The pool has
    buffers, and packets that the stack does not take are lost.) *)
Theorem receiver_refines reads w :
  at_rest w -> granted (length (concat reads)) (pool w) ->
  let fs := frames (inACCM (rx w)) false [] (concat reads) in
  Forall (fun u => zlen u <= 65000) fs ->
  match pppInputThread reads w with
  | Some w' =>
      Forall (fun u => ~ crashes u) fs /\
      exists inps, inputs w' = inputs w ++ inps /\ Forall2 (carries (pd (rx w))) inps (posted (posts w) (packets_of fs))
  | None => Exists crashes fs
  end.
Proof.
  intros [Hr He] Hg fs Hl. rewrite pppInputThread_concat. subst fs. rewrite <- He in *. by apply pppInProc_frames.
Qed.

(** A receiver that has seen a flag *)
Definition ready (d asyncmap : Z) (pool posts : list bool) : receiver :=
  Rcv (set_inFCS PPP_INITFCS (set_inState PDADDRESS (ppp_recv_config asyncmap (pppOverSerialOpen d).1))) pool posts 0 [].

Lemma ready_at_rest d asyncmap pool posts : at_rest (ready d asyncmap pool posts).
Proof. split; [|done]. split; [done|]. split; [done|]. by exists 0, []. Qed.

(** The frame of an LCP packet with escapes, in two reads *)
Definition example_reads : list (list Z) :=
  [frame (accm_of 0xffffffff) true [0xff; 3; 0xc0; 0x21; 1; 2; 0; 4]; [0x7e; 0x11]].

Lemma receiver_refines_witness :
  (at_rest (ready 0 0 (replicate 30 true) [true]) /\
   granted (length (concat example_reads)) (replicate 30 true) /\
   Forall (fun u => zlen u <= 65000) (frames (accm_of 0) false [] (concat example_reads))) /\
  match pppInputThread example_reads (ready 0 0 (replicate 30 true) [true]) with
  | Some w' => map chain_octets (inputs w') = [pppInputHeader 0 PPP_LCP ++ [1; 2; 0; 4]]
  | None => False
  end.
Proof.
  assert (H1 := ready_at_rest 0 0 (replicate 30 true) [true]).
  assert (H2 : granted (length (concat example_reads)) (replicate 30 true)) by (vm_compute; reflexivity).
  assert (H3 : Forall (fun u => zlen u <= 65000) (frames (accm_of 0) false [] (concat example_reads))).
  { vm_compute. repeat constructor; discriminate. }
  split; [exact (conj H1 (conj H2 H3))|]. pose proof (receiver_refines example_reads _ H1 H2 H3) as H.
  destruct (pppInputThread example_reads (ready 0 0 (replicate 30 true) [true])) as [w'|] eqn:E.
  - revert E. vm_compute. intros [= <-]. reflexivity.
  - revert E. vm_compute. discriminate.
Defined.

(** ** From end to end *)

(** Characters the receiver drops, such as the line may insert. *)
Definition keeps (accm : ext_accm) (c : Z) : bool :=
  negb (ESCAPE_P accm c) || (c =? PPP_ESCAPE) || (c =? PPP_FLAG).

Lemma frames_filter accm e u s : frames accm e u s = frames accm e u (List.filter (keeps accm) s).
Proof.
  revert e u. induction s as [|c s IH]; intros e u; [done|]. cbn [frames List.filter]. unfold keeps at 1.
  destruct (ESCAPE_P accm c) eqn:Ec; cbn [negb orb].
  - destruct (c =? PPP_ESCAPE) eqn:E1; cbn [orb frames]; [by rewrite Ec, E1|].
    destruct (c =? PPP_FLAG) eqn:E2; cbn [frames]; [by rewrite Ec, E1, E2, IH|done].
  - cbn [frames]. by rewrite Ec.
Qed.

(** The receiver's map is part of the sender's. *)
Definition accm_le (mi mo : Z) : Prop := forall i, 0 <= i < 32 -> Z.testbit mi i = true -> Z.testbit mo i = true.

Lemma lxor_trans c : Z.lxor (Z.lxor c PPP_TRANS) PPP_TRANS = c.
Proof. by rewrite Z.lxor_assoc, Z.lxor_nilpotent, Z.lxor_0_r. Qed.

Lemma frames_esc mi mo u s rest :
  accm_le mi mo -> Forall is_byte s ->
  frames (accm_of mi) false u (esc_octets (accm_of mo) s ++ rest) = frames (accm_of mi) false (u ++ s) rest.
Proof.
  intros Hm Hs. revert u. induction Hs as [|c s Hc Hs IH]; intros u; [by rewrite app_nil_r|].
  change (esc_octets (accm_of mo) (c :: s)) with (esc_char (accm_of mo) c ++ esc_octets (accm_of mo) s). rewrite <- app_assoc.
  pose proof (accm_compatible mi mo c Hm Hc) as Hcomp. unfold esc_char.
  replace (u ++ c :: s) with ((u ++ [c]) ++ s) by (by rewrite <- app_assoc).
  destruct (ESCAPE_P (accm_of mo) c); cbn [app frames].
  - rewrite (ESCAPE_P_spec mi PPP_ESCAPE) by done. cbn [Z.ltb Z.compare PPP_ESCAPE Pos.compare Pos.compare_cont orb].
    rewrite Hcomp. unfold unescaped. rewrite lxor_trans. apply IH.
  - rewrite Hcomp. apply IH.
Qed.

Lemma frames_flag m e u s : frames (accm_of m) e u (PPP_FLAG :: s) = u :: frames (accm_of m) false [] s.
Proof. cbn [frames]. rewrite (ESCAPE_P_spec m PPP_FLAG) by done. done. Qed.

Lemma frames_frame mi mo idle s :
  accm_le mi mo -> Forall is_byte s ->
  frames (accm_of mi) false [] (frame (accm_of mo) idle s) = (if idle then [[]] else []) ++ [with_fcs s].
Proof.
  intros Hm Hs. assert (Hf : Forall is_byte (with_fcs s)) by (unfold with_fcs; rewrite Forall_app; split; [done|apply fcs_octets_bytes]).
  assert (Hend : frames (accm_of mi) false [] (esc_octets (accm_of mo) (with_fcs s) ++ [PPP_FLAG]) = [with_fcs s]).
  { rewrite frames_esc by done. cbn [app]. by rewrite frames_flag. }
  unfold frame. destruct idle; cbn [app]; [|done]. rewrite frames_flag. by rewrite Hend.
Qed.

Lemma result_of_frame s p body :
  frame_contents (with_fcs s) = Some (p, body ++ fcs_octets (fcs_from PPP_INITFCS s)) -> Forall is_byte s ->
  result_of (with_fcs s) = Packet p (body ++ fcs_octets (fcs_from PPP_INITFCS s)).
Proof.
  intros Hc Hs. unfold result_of. rewrite Hc. unfold with_fcs. rewrite fcs_from_app, fcs_good by (by apply fcs_from_range).
  rewrite Z.eqb_refl. by destruct body.
Qed.

(** A packet that arrives *)
Definition arrives (w : receiver) (line : list Z) (p : Z) (body : list Z) : Prop :=
  exists w' inp, pppInProc line w = Some w' /\ inputs w' = inputs w ++ [inp] /\
    first_ok inp /\ chain_ok inp /\ chain_octets inp = pppInputHeader (pd (rx w)) p ++ body.

Lemma trimmed_fcs s fcs : trimmed (s ++ fcs_octets fcs) = s.
Proof. unfold trimmed. rewrite length_app. cbn. rewrite take_app_le, take_ge by lia. done. Qed.

Lemma frame_arrives mi mo w idle s p body line :
  accm_le mi mo -> inACCM (rx w) = accm_of mi -> at_rest w -> granted (length line) (pool w) -> head (posts w) = Some true ->
  Forall is_byte s -> zlen s <= 64000 -> frame_contents (with_fcs s) = Some (p, body ++ fcs_octets (fcs_from PPP_INITFCS s)) ->
  List.filter (keeps (accm_of mi)) line = frame (accm_of mo) idle s ->
  arrives w line p body.
Proof.
  intros Hm Ha [Hr He] Hg Hp Hs Hl Hc Hline. pose proof (result_of_frame s p body Hc Hs) as Hres.
  pose proof (pppInProc_frames line [] w Hr Hg) as H. cbn zeta in H.
  assert (Hfs : frames (inACCM (rx w)) (inEscaped (rx w)) [] line = (if idle then [[]] else []) ++ [with_fcs s]).
  { rewrite Ha, He, frames_filter, Hline. by apply frames_frame. }
  rewrite Hfs in H. assert (Hlen : Forall (fun u => zlen u <= 65000) ((if idle then [[]] else []) ++ [with_fcs s])).
  { unfold with_fcs. destruct idle; repeat constructor; rewrite ?length_app; cbn; lia. }
  specialize (H Hlen). assert (Hpk : packets_of ((if idle then [[]] else []) ++ [with_fcs s]) = [(p, body ++ fcs_octets (fcs_from PPP_INITFCS s))]).
  { destruct idle; cbn [app packets_of]; [change (result_of []) with Ignored|]; by rewrite Hres. }
  rewrite Hpk in H. destruct (posts w) as [|[] ps]; [done| |done]. destruct (pppInProc line w) as [w'|] eqn:E.
  - destruct H as (_ & inps & Hi & Hcar). cbn [posted] in Hcar. destruct inps as [|inp [|]]; [by inversion Hcar| |].
    2: { inversion Hcar as [|? ? ? ? _ Hrest]. by inversion Hrest. }
    apply Forall2_cons_iff in Hcar as [(Hf & Hch & Ho) _]. cbn [fst snd] in Ho. exists w', inp.
    rewrite app_assoc, trimmed_fcs in Ho. done.
  - exfalso. unfold crashes in H. destruct idle; cbn [app] in H.
    + apply Exists_cons in H as [H|H]; [done|]. apply Exists_cons in H as [H|H]; [by rewrite Hres in H|by inversion H].
    + apply Exists_cons in H as [H|H]; [by rewrite Hres in H|by inversion H].
Qed.

(** *** Dispatch *)

Lemma le_octets_u16 p : 0 <= p < 65536 -> p mod 256 + 256 * (p / 256) = p.
Proof. intros Hp. pose proof (Z.div_mod p 256). lia. Qed.

Lemma le_octets_u32 d :
  0 <= d < 2 ^ 32 ->
  d mod 256 + 256 * (d / 256 mod 256) + 65536 * (d / 65536 mod 256) + 16777216 * (d / 16777216 mod 256) = d.
Proof.
  intros Hd. replace (d / 65536) with (d / 256 / 256) by (by rewrite Z.div_div by lia).
  replace (d / 16777216) with (d / 256 / 256 / 256) by (by rewrite !Z.div_div by lia).
  rewrite (Z.mod_small (d / 256 / 256 / 256)).
  - pose proof (Z.div_mod d 256). pose proof (Z.div_mod (d / 256) 256). pose proof (Z.div_mod (d / 256 / 256) 256). lia.
  - rewrite !Z.div_div by lia. split; [apply Z.div_pos; lia|apply Z.div_lt_upper_bound; lia].
Qed.

Lemma pppInput_spec phase ni single inp d p body :
  first_ok inp -> chain_ok inp -> chain_octets inp = pppInputHeader d p ++ body ->
  0 <= d < 2 ^ 32 -> 0 <= p < 65536 -> zlen body < 65000 ->
  exists nb, pppInput phase ni single inp = dispatched phase ni single d p nb /\
    chain_octets nb = body /\ pppSingleBuf true nb = body.
Proof.
  intros Hf Hch Ho Hd Hp Hlen. destruct inp as [|q rest]; [done|].
  change (chain_octets (q :: rest)) with (payload q ++ chain_octets rest) in Ho.
  assert (Hq : 8 <= len q).
  { destruct Hf as [->|]; [|done]. unfold chain_octets in Ho. cbn [map concat] in Ho. rewrite app_nil_r in Ho. unfold len. rewrite Ho.
    rewrite length_app. cbn. lia. }
  destruct q as [pq tq]. unfold len in Hq. cbn [payload] in *.
  assert (Hpay : exists pl, pq = pppInputHeader d p ++ pl /\ pl ++ chain_octets rest = body).
  { exists (drop 8 pq). split.
    - rewrite <- (take_drop 8 pq) at 1. f_equal. apply (f_equal (take 8)) in Ho. rewrite take_app_le in Ho by lia. by rewrite Ho.
    - apply (f_equal (drop 8)) in Ho. rewrite drop_app_le in Ho by lia. exact Ho. }
  destruct Hpay as (pl & -> & Hbody). exists (Pbuf pl (u16 (tq - 8)) :: rest). split_and!; [|exact Hbody|].
  - unfold pppInput. cbn [hide_header len payload pppInputHeader app nth]. rewrite le_octets_u32, le_octets_u16 by done.
    unfold len. cbn [payload length]. by rewrite (proj2 (Z.leb_le _ _)) by lia.
  - unfold pppSingleBuf, len. cbn [tot_len payload]. destruct (Z.eqb_spec (u16 (tq - 8)) (zlen pl)) as [E|E]; [|exact Hbody].
    destruct Hch as [Ht _]. cbn [tot_len] in Ht. change (chain_octets (_ :: rest)) with ((pppInputHeader d p ++ pl) ++ chain_octets rest) in Ht.
    rewrite Ho, length_app in Ht. cbn [pppInputHeader length] in Ht. rewrite u16_id in Ht by lia. rewrite Ht, u16_id in E by lia.
    rewrite <- Hbody in E |- *. rewrite length_app in E. destruct (chain_octets rest); [by rewrite app_nil_r|cbn [length] in E; lia].
Qed.

(** [pppInput] gives a packet to the protocol or to IP. *)
Definition delivers (d p : Z) (body : list Z) (inp : list pbuf) : Prop :=
  (p ∈ ppp_protocols -> forall phase ni, p = PPP_LCP \/ PHASE_AUTHENTICATE < phase ->
    pppInput phase ni true inp = ToProtocol p d body) /\
  (p = PPP_IP -> forall phase single, PHASE_AUTHENTICATE < phase ->
    exists nb, pppInput phase true single inp = ToNetif nb /\ chain_octets nb = body).

Definition transferred (w : receiver) (line : list Z) (p : Z) (body : list Z) : Prop :=
  exists w' inp, pppInProc line w = Some w' /\ inputs w' = inputs w ++ [inp] /\ delivers (pd (rx w)) p body inp.

Lemma arrives_transferred w line p body :
  0 <= pd (rx w) < 2 ^ 32 -> 0 <= p < 65536 -> zlen body < 65000 -> arrives w line p body -> transferred w line p body.
Proof.
  intros Hd Hp Hl (w' & inp & E & Hi & Hf & Hch & Ho). exists w', inp. split; [done|]. split; [done|]. split.
  - intros Hin phase ni Hph. destruct (pppInput_spec phase ni true inp _ _ _ Hf Hch Ho Hd Hp Hl) as (nb & -> & _ & Hs).
    unfold dispatched. replace ((phase <=? PHASE_AUTHENTICATE) && negb (p =? PPP_LCP) && _) with false.
    2: { symmetry. destruct Hph as [->|Hph]; [by rewrite Z.eqb_refl, andb_false_r|]. by rewrite (proj2 (Z.leb_gt _ _)) by lia. }
    rewrite Hs, bool_decide_true by done. unfold ppp_protocols in Hin.
    repeat (apply elem_of_cons in Hin as [->|Hin]; [done|]). by apply not_elem_of_nil in Hin.
  - intros -> phase single Hph. destruct (pppInput_spec phase true single inp _ _ _ Hf Hch Ho Hd Hp Hl) as (nb & -> & Hb & _).
    exists nb. split; [|done]. unfold dispatched. by rewrite (proj2 (Z.leb_gt _ _)) by lia.
Qed.

Lemma contents_ppp hi lo body t :
  0 <= hi < 256 -> 0 <= lo < 256 -> Z.odd hi = false ->
  frame_contents (PPP_ALLSTATIONS :: PPP_UI :: hi :: lo :: body ++ t) = Some (hi * 256 + lo, body ++ t).
Proof.
  intros Hhi Hlo Hodd. unfold frame_contents. cbn [skip Z.eqb PPP_ALLSTATIONS PPP_UI Pos.eqb]. rewrite Hodd, Z.shiftl_mul_pow2 by lia.
  change (2 ^ 8) with 256. rewrite u16_id by lia. change 256 with (2 ^ 8) at 1. by rewrite (lor_add hi lo 8) by lia.
Qed.

Lemma contents_ip pc body : frame_contents (output_header pc PPP_IP ++ body) = Some (PPP_IP, body).
Proof. unfold output_header. by destruct (accomp pc), (pcomp pc). Qed.

Lemma output_header_bytes pc : Forall is_byte (output_header pc PPP_IP) /\ zlen (output_header pc PPP_IP) <= 4.
Proof. unfold output_header. destruct (accomp pc), (pcomp pc); cbn; (split; [by repeat constructor|lia]). Qed.

(** A packet goes out: not at all, or so that it arrives on any line that adds
    only characters of the receiver's map. *)
Definition sent_to (w : receiver) (mi : Z) (p : Z) (body : list Z) (pc : PPPControl) (err ok : Z) (res : Z * PPPControl) : Prop :=
  (res.1 = err /\ wire res.2 = wire pc) \/
  (res.1 = ok /\ exists sent, wire res.2 = wire pc ++ sent /\
    forall line, List.filter (keeps (accm_of mi)) line = sent -> granted (length line) (pool w) -> transferred w line p body).

Lemma frame_sent_to mi mo pc w sio now now' s p body err ok res :
  accm_le mi mo -> outACCM pc = accm_of mo -> inACCM (rx w) = accm_of mi -> at_rest w -> head (posts w) = Some true ->
  0 <= pd (rx w) < 2 ^ 32 -> (forall v b, sio v b = zlen b) -> 0 <= p < 65536 ->
  Forall is_byte s -> zlen s <= 64000 -> zlen body <= zlen s -> 
  frame_contents (with_fcs s) = Some (p, body ++ fcs_octets (fcs_from PPP_INITFCS s)) ->
  frame_sent sio now now' s pc err ok res -> sent_to w mi p body pc err ok res.
Proof.
  intros Hm Ho Hi Hr Hp Hd Hsio Hpr Hs Hl Hb Hc [[H1 H2]|(nb & -> & _ & Hn)]; [by left|right]. split; [done|].
  exists (concat nb). rewrite nPut_all by done. split; [done|]. intros line Hline Hg. apply arrives_transferred; [done|done|lia|].
  rewrite Hn, Ho in Hline. by eapply frame_arrives.
Qed.


Definition example_pc (idle : bool) : PPPControl :=
  ppp_send_config 1500 0xffffffff false false (set_lastXMit (if idle then 0 else 1000) (pppOverSerialOpen 0).2).

Definition takes_all (v b : list Z) : Z := zlen b.

(** A Configure-Request with an escaped octet, an XON character slipped in. *)
Definition example_line : list Z :=
  [0x7e; 0xff; 0x7d; 0x23; 0xc0; 0x11; 0x21; 0x7d; 0x21; 0x7d; 0x2a; 0x7d; 0x20; 0x7d; 0x24; 0x7d; 0x23; 0x66; 0x7e].




(** C38: Two octets 0 between flags make the receiver use a [NULL] pointer: they
    are read as the protocol 0 without data, and their checksum is good. *)
Theorem empty_frame_crashes m w :
  at_rest w -> inACCM (rx w) = accm_of m -> Z.testbit m 0 = false ->
  pppInProc [0; 0; PPP_FLAG] w = None.
Proof.
  intros [(Hw & Hf & p0 & d & Hst & Hd & _) He] Ha Hm. cbn [foldl] in Hst. injection Hst as Hs Hp <-.
  destruct w as [[dd h t p f st e a] pl po ow ins]. cbn [rx pd inHead inTail inProtocol inFCS inState inEscaped inACCM] in *.
  assert (inHead (rx (Rcv (PcRx dd h t p f st e a) pl po ow ins)) = []) as Hh.
  { apply (bufs_NoTail _ (proj1 Hw)). by apply Hd. }
  cbn [rx inHead] in Hh. assert (t = NoTail) as -> by (by apply Hd). subst.
  assert (E0 : ESCAPE_P (accm_of m) 0 = false) by (by rewrite ESCAPE_P_spec).
  assert (Ef : ESCAPE_P (accm_of m) PPP_FLAG = true) by (by rewrite ESCAPE_P_spec).
  cbn [pppInProc]. rewrite in_char_eq. cbn [rx inACCM]. rewrite E0. cbn [mbind option_bind].
  rewrite in_char_eq. change (inACCM _) with (accm_of m). rewrite E0. cbn [mbind option_bind].
  rewrite in_char_eq. change (inACCM _) with (accm_of m). rewrite Ef. vm_compute. reflexivity.
Qed.

Lemma empty_frame_witness :
  (at_rest (ready 0 0 [] []) /\ inACCM (rx (ready 0 0 [] [])) = accm_of 0) /\ pppInProc [0; 0; PPP_FLAG] (ready 0 0 [] []) = None.
Proof.
  split; [split; [apply ready_at_rest|reflexivity]|].
  apply (empty_frame_crashes 0); [apply ready_at_rest|reflexivity|reflexivity].
Defined.
