(* ===== verification/PppFsm.v ===== *)
(** * The PPP automaton ([fsm.c])

    The automaton that brings a PPP control protocol up and down: its handlers,
    one per event, over the timeouts of [LwipTimers] and the buffer for packets
    that go out.  What a protocol plugs into it is a record of callbacks, any
    computations; what the automaton needs of them is a class of laws.  Packets
    that are sent are those [pppWrite] of [PppFrame] frames. *)

From stdpp Require Export relations.
From S2P Require Export LwipTimers PppFrame.

Definition HEADERLEN : Z := 4.
Definition PPP_HDRLEN : Z := 4.
Definition PPP_MRU : Z := 1500.

Definition CONFREQ : Z := 1.
Definition CONFACK : Z := 2.
Definition CONFNAK : Z := 3.
Definition CONFREJ : Z := 4.
Definition TERMREQ : Z := 5.
Definition TERMACK : Z := 6.
Definition CODEREJ : Z := 7.

Inductive link_state :=
  | LS_INITIAL | LS_STARTING | LS_CLOSED | LS_STOPPED | LS_CLOSING | LS_STOPPING | LS_REQSENT | LS_ACKRCVD | LS_ACKSENT
  | LS_OPENED.

#[export] Instance link_state_dec : EqDecision link_state.
Proof. solve_decision. Defined.

Definition OPT_PASSIVE : Z := 1.
Definition OPT_RESTART : Z := 2.
Definition OPT_SILENT : Z := 4.

Definition FSM_DEFTIMEOUT : Z := 6.
Definition FSM_DEFMAXTERMREQS : Z := 2.
Definition FSM_DEFMAXCONFREQS : Z := 10.
Definition FSM_DEFMAXNAKLOOPS : Z := 5.

(** ** State *)

(** [term_reason] is the string without its end, empty for [NULL]. *)
Record fsm := Fsm {
  protocol : Z; state : link_state; flags : Z; id : Z; reqid : Z; seen_ack : Z; timeouttime : Z;
  maxconfreqtransmits : Z; retransmits : Z; maxtermtransmits : Z; nakloops : Z; maxnakloops : Z;
  term_reason : list Z; term_reason_len : Z }.

(** Callbacks that are recorded when they are called. *)
Inductive call := Up | Down | Starting | Finished.

(** The automaton with all it touches: the timeouts, the buffer
    [outpacket_buf] and [peer_mru] of its unit, the packets given to
    [pppWrite], the calls made so far, and the state of the protocol. *)
Record world (E : Type) := World {
  f : fsm; timeouts : timers; outpacket_buf : list Z; peer_mru : Z; sent : list (list Z); calls : list call; own : E }.
Arguments World {E}. Arguments f {E}. Arguments timeouts {E}. Arguments outpacket_buf {E}. Arguments peer_mru {E}.
Arguments sent {E}. Arguments calls {E}. Arguments own {E}.

(** Computations; [None] is an access outside of a buffer. *)
Definition M (E A : Type) : Type := world E -> option (A * world E).

#[export] Instance M_ret {E} : MRet (M E) := fun A a w => Some (a, w).
#[export] Instance M_bind {E} : MBind (M E) := fun A B k c w => match c w with Some (a, w) => k a w | None => None end.

Section Fsm.
Context {E : Type}.
Abbreviation M := (M E).
Abbreviation world := (world E).

Definition gets {A} (g : fsm -> A) : M A := fun w => Some (g (f w), w).
Definition upd (g : fsm -> fsm) : M unit :=
  fun w => Some (tt, World (g (f w)) (timeouts w) (outpacket_buf w) (peer_mru w) (sent w) (calls w) (own w)).
Definition upd_timeouts (g : timers -> timers) : M unit :=
  fun w => Some (tt, World (f w) (g (timeouts w)) (outpacket_buf w) (peer_mru w) (sent w) (calls w) (own w)).
Definition when (b : bool) (m : M unit) : M unit := if b then m else mret tt.
Definition fault {A} : M A := fun _ => None.
End Fsm.

Definition set_state (s : link_state) (a : fsm) : fsm :=
  Fsm (protocol a) s (flags a) (id a) (reqid a) (seen_ack a) (timeouttime a) (maxconfreqtransmits a) (retransmits a)
    (maxtermtransmits a) (nakloops a) (maxnakloops a) (term_reason a) (term_reason_len a).
Definition set_ids (i r : Z) (a : fsm) : fsm :=
  Fsm (protocol a) (state a) (flags a) i r (seen_ack a) (timeouttime a) (maxconfreqtransmits a) (retransmits a)
    (maxtermtransmits a) (nakloops a) (maxnakloops a) (term_reason a) (term_reason_len a).
Definition set_seen_ack (b : Z) (a : fsm) : fsm :=
  Fsm (protocol a) (state a) (flags a) (id a) (reqid a) b (timeouttime a) (maxconfreqtransmits a) (retransmits a)
    (maxtermtransmits a) (nakloops a) (maxnakloops a) (term_reason a) (term_reason_len a).
Definition set_retransmits (n : Z) (a : fsm) : fsm :=
  Fsm (protocol a) (state a) (flags a) (id a) (reqid a) (seen_ack a) (timeouttime a) (maxconfreqtransmits a) n
    (maxtermtransmits a) (nakloops a) (maxnakloops a) (term_reason a) (term_reason_len a).
Definition set_nakloops (n : Z) (a : fsm) : fsm :=
  Fsm (protocol a) (state a) (flags a) (id a) (reqid a) (seen_ack a) (timeouttime a) (maxconfreqtransmits a) (retransmits a)
    (maxtermtransmits a) n (maxnakloops a) (term_reason a) (term_reason_len a).
Definition set_term_reason (s : list Z) (n : Z) (a : fsm) : fsm :=
  Fsm (protocol a) (state a) (flags a) (id a) (reqid a) (seen_ack a) (timeouttime a) (maxconfreqtransmits a) (retransmits a)
    (maxtermtransmits a) (nakloops a) (maxnakloops a) s n.

Definition has_flag (opt : Z) (a : fsm) : bool := negb (Z.land (flags a) opt =? 0).

(** The field, where a parameter has its name *)
Definition id_of (a : fsm) : Z := id a.

(** [fsm_init] sets what it sets of the fields there are. *)
Definition fsm_init (a : fsm) : fsm :=
  Fsm (protocol a) LS_INITIAL 0 0 (reqid a) (seen_ack a) FSM_DEFTIMEOUT FSM_DEFMAXCONFREQS (retransmits a)
    FSM_DEFMAXTERMREQS (nakloops a) FSM_DEFMAXNAKLOOPS (term_reason a) 0.

(** What a protocol plugs in; [None] is [NULL].  A callback gets octets from a
    pointer on and a length.  [addci] writes to [outpacket_buf] itself and
    returns the length; [reqci] returns the code, and the octets and the length
    it leaves behind. *)
Record fsm_callbacks (E : Type) := Callbacks {
  resetci : option (M E unit);
  cilen : option (M E Z);
  addci : option (Z -> M E Z);
  ackci : option (list Z -> Z -> M E Z);
  nakci : option (list Z -> Z -> M E Z);
  rejci : option (list Z -> Z -> M E Z);
  reqci : option (list Z -> Z -> bool -> M E (Z * list Z * Z));
  up : option (M E unit);
  down : option (M E unit);
  starting : option (M E unit);
  finished : option (M E unit);
  retransmit : option (M E unit);
  extcode : option (Z -> Z -> list Z -> Z -> M E Z) }.
Arguments Callbacks {E}. Arguments resetci {E}. Arguments cilen {E}. Arguments addci {E}. Arguments ackci {E}.
Arguments nakci {E}. Arguments rejci {E}. Arguments reqci {E}. Arguments up {E}. Arguments down {E}. Arguments starting {E}.
Arguments finished {E}. Arguments retransmit {E}. Arguments extcode {E}.

(** ** The handlers *)

(** Where the data of a packet is: nowhere, already in [outpacket_buf], or
    somewhere else. *)
Inductive data_at := NULL | Outp | Elsewhere (octets : list Z).

Section Handlers.
Context {E : Type} (cb : fsm_callbacks E).
(** The addresses of [fsm_timeout] and of the automaton *)
Context (fsm_timeout_at fsm_at : Z).
Abbreviation M := (M E).
Abbreviation world := (world E).

(** [if (cb) cb(f)], recorded *)
Definition call_back (c : call) (m : option (M unit)) : M unit :=
  match m with
  | None => mret tt
  | Some m => fun w => m (World (f w) (timeouts w) (outpacket_buf w) (peer_mru w) (sent w) (calls w ++ [c]) (own w))
  end.

Definition invoke (m : option (M unit)) : M unit := match m with None => mret tt | Some m => m end.

Definition UNTIMEOUT : M unit := upd_timeouts (sys_untimeout (Other fsm_timeout_at) fsm_at).

Definition TIMEOUT (t : Z) : M unit :=
  _ ← UNTIMEOUT;
  upd_timeouts (sys_timeout (u32 (t * 1000)) (Other fsm_timeout_at) fsm_at).

Definition start_timer : M unit := t ← gets timeouttime; TIMEOUT t.

(** Writing to [outpacket_buf], and giving its first [n] octets to [pppWrite] *)
Definition put_out (at_ : Z) (bs : list Z) : M unit := fun w =>
  match mem_put (outpacket_buf w) at_ bs with
  | Some b => Some (tt, World (f w) (timeouts w) b (peer_mru w) (sent w) (calls w) (own w))
  | None => None
  end.

Definition write_out (n : Z) : M unit := fun w =>
  if (0 <=? n) && (n <=? zlen (outpacket_buf w)) then
    Some (tt, World (f w) (timeouts w) (outpacket_buf w) (peer_mru w) (sent w ++ [take (Z.to_nat n) (outpacket_buf w)]) (calls w) (own w))
  else None.

Definition get_mru : M Z := fun w => Some (peer_mru w, w).

(** [BCOPY(data, outp + PPP_HDRLEN + HEADERLEN, datalen)] where it is done *)
Definition copy_data (data : data_at) (datalen : Z) : M unit :=
  match data with
  | Outp => mret tt
  | NULL => when (negb (datalen =? 0)) fault
  | Elsewhere octets =>
      when (negb (datalen =? 0))
        (if (0 <=? datalen) && (datalen <=? zlen octets) then
           put_out (PPP_HDRLEN + HEADERLEN) (take (Z.to_nat datalen) octets)
         else fault)
  end.

Definition fsm_sdata (code id : Z) (data : data_at) (datalen : Z) : M unit :=
  mru ← get_mru;
  let datalen := if mru - HEADERLEN <? datalen then mru - HEADERLEN else datalen in
  _ ← copy_data data datalen;
  let outlen := datalen + HEADERLEN in
  proto ← gets protocol;
  _ ← put_out 0 [PPP_ALLSTATIONS; PPP_UI; u8 (Z.shiftr proto 8); Z.land proto 0xff; u8 code; u8 id;
                 u8 (Z.shiftr outlen 8); Z.land outlen 0xff];
  write_out (outlen + PPP_HDRLEN).

(** [f->reqid = ++f->id] *)
Definition next_id : M Z :=
  _ ← upd (fun a => let i := u8 (id a + 1) in set_ids i i a);
  gets reqid.

Definition negotiating (s : link_state) : bool :=
  match s with LS_REQSENT | LS_ACKRCVD | LS_ACKSENT => true | _ => false end.

Definition fsm_sconfreq (retransmission : bool) : M unit :=
  s ← gets state;
  _ ← when (negb (negotiating s)) (_ ← invoke (resetci cb); upd (set_nakloops 0));
  _ ← when (negb retransmission)
        (_ ← upd (fun a => set_retransmits (maxconfreqtransmits a) a); _ ← next_id; mret tt);
  _ ← upd (set_seen_ack 0);
  n ← match cilen cb, addci cb with
      | Some cilen, Some addci =>
          n ← cilen;
          mru ← get_mru;
          addci (if mru - HEADERLEN <? n then mru - HEADERLEN else n)
      | _, _ => mret 0
      end;
  r ← gets reqid;
  _ ← fsm_sdata CONFREQ r Outp n;
  _ ← upd (fun a => set_retransmits (retransmits a - 1) a);
  start_timer.

(** [Init restart counter, send Terminate-Request] and the first lines of it
    again at a timeout *)
Definition send_termreq : M unit :=
  r ← next_id;
  reason ← gets term_reason;
  n ← gets term_reason_len;
  _ ← fsm_sdata TERMREQ r (Elsewhere reason) n;
  _ ← start_timer;
  upd (fun a => set_retransmits (retransmits a - 1) a).

Definition fsm_lowerup : M unit :=
  s ← gets state;
  match s with
  | LS_INITIAL => upd (set_state LS_CLOSED)
  | LS_STARTING =>
      silent ← gets (has_flag OPT_SILENT);
      if (silent : bool) then upd (set_state LS_STOPPED)
      else _ ← fsm_sconfreq false; upd (set_state LS_REQSENT)
  | _ => mret tt
  end.

Definition fsm_lowerdown : M unit :=
  s ← gets state;
  match s with
  | LS_CLOSED => upd (set_state LS_INITIAL)
  | LS_STOPPED => _ ← upd (set_state LS_STARTING); call_back Starting (starting cb)
  | LS_CLOSING => _ ← upd (set_state LS_INITIAL); UNTIMEOUT
  | LS_STOPPING | LS_REQSENT | LS_ACKRCVD | LS_ACKSENT => _ ← upd (set_state LS_STARTING); UNTIMEOUT
  | LS_OPENED => _ ← call_back Down (down cb); upd (set_state LS_STARTING)
  | _ => mret tt
  end.

Definition fsm_open : M unit :=
  let restart :=
    b ← gets (has_flag OPT_RESTART);
    when b (_ ← fsm_lowerdown; fsm_lowerup) in
  s ← gets state;
  match s with
  | LS_INITIAL => _ ← upd (set_state LS_STARTING); call_back Starting (starting cb)
  | LS_CLOSED =>
      silent ← gets (has_flag OPT_SILENT);
      if (silent : bool) then upd (set_state LS_STOPPED)
      else _ ← fsm_sconfreq false; upd (set_state LS_REQSENT)
  | LS_CLOSING => _ ← upd (set_state LS_STOPPING); restart
  | LS_STOPPED | LS_OPENED => restart
  | _ => mret tt
  end.

(** [reason] is the string without its end, empty for [NULL]. *)
Definition fsm_close (reason : list Z) : M unit :=
  _ ← upd (set_term_reason reason (zlen reason));
  s ← gets state;
  match s with
  | LS_STARTING => upd (set_state LS_INITIAL)
  | LS_STOPPED => upd (set_state LS_CLOSED)
  | LS_STOPPING => upd (set_state LS_CLOSING)
  | LS_REQSENT | LS_ACKRCVD | LS_ACKSENT | LS_OPENED =>
      _ ← (if bool_decide (s <> LS_OPENED) then UNTIMEOUT else call_back Down (down cb));
      _ ← upd (fun a => set_retransmits (maxtermtransmits a) a);
      _ ← send_termreq;
      upd (set_state LS_CLOSING)
  | _ => mret tt
  end.

Definition fsm_timeout : M unit :=
  s ← gets state;
  n ← gets retransmits;
  match s with
  | LS_CLOSING | LS_STOPPING =>
      if n <=? 0 then
        _ ← upd (set_state (if bool_decide (s = LS_CLOSING) then LS_CLOSED else LS_STOPPED));
        call_back Finished (finished cb)
      else send_termreq
  | LS_REQSENT | LS_ACKRCVD | LS_ACKSENT =>
      if n <=? 0 then
        _ ← upd (set_state LS_STOPPED);
        passive ← gets (has_flag OPT_PASSIVE);
        when (negb passive) (call_back Finished (finished cb))
      else
        _ ← invoke (retransmit cb);
        _ ← fsm_sconfreq true;
        s ← gets state;
        when (bool_decide (s = LS_ACKRCVD)) (upd (set_state LS_REQSENT))
  | _ => mret tt
  end.

(** The end of [fsm_rconfreq]: the options are checked and the answer sent. *)
Definition answer_confreq (id : Z) (inp : list Z) (len : Z) : M unit :=
  loops ← gets nakloops;
  max ← gets maxnakloops;
  '(code, inp, len) ← match reqci cb with
                      | Some reqci => reqci inp len (max <=? loops)
                      | None => mret (if negb (len =? 0) then CONFREJ else CONFACK, inp, len)
                      end;
  _ ← fsm_sdata (u8 code) id (Elsewhere inp) len;
  s ← gets state;
  if code =? CONFACK then
    _ ← (if bool_decide (s = LS_ACKRCVD) then
           _ ← UNTIMEOUT;
           _ ← upd (set_state LS_OPENED);
           call_back Up (up cb)
         else upd (set_state LS_ACKSENT));
    upd (set_nakloops 0)
  else
    _ ← when (bool_decide (s <> LS_ACKRCVD)) (upd (set_state LS_REQSENT));
    when (code =? CONFNAK) (upd (fun a => set_nakloops (nakloops a + 1) a)).

Definition fsm_rconfreq (id : Z) (inp : list Z) (len : Z) : M unit :=
  s ← gets state;
  match s with
  | LS_CLOSED => fsm_sdata TERMACK id NULL 0
  | LS_CLOSING | LS_STOPPING => mret tt
  | LS_OPENED => _ ← call_back Down (down cb); _ ← fsm_sconfreq false; answer_confreq id inp len
  | LS_STOPPED => _ ← fsm_sconfreq false; _ ← upd (set_state LS_REQSENT); answer_confreq id inp len
  | _ => answer_confreq id inp len
  end.

(** [Go down and restart negotiation] *)
Definition go_down : M unit :=
  _ ← call_back Down (down cb);
  _ ← fsm_sconfreq false;
  upd (set_state LS_REQSENT).

Definition fsm_rconfack (id : Z) (inp : list Z) (len : Z) : M unit :=
  r ← gets reqid;
  seen ← gets seen_ack;
  if negb (id =? r) || negb (seen =? 0) then mret tt
  else
    good ← match ackci cb with Some ackci => ackci inp len | None => mret (if len =? 0 then 1 else 0) end;
    if good =? 0 then mret tt
    else
      _ ← upd (set_seen_ack 1);
      s ← gets state;
      match s with
      | LS_CLOSED | LS_STOPPED => fsm_sdata TERMACK (u8 id) NULL 0
      | LS_REQSENT =>
          _ ← upd (set_state LS_ACKRCVD);
          upd (fun a => set_retransmits (maxconfreqtransmits a) a)
      | LS_ACKRCVD => _ ← UNTIMEOUT; _ ← fsm_sconfreq false; upd (set_state LS_REQSENT)
      | LS_ACKSENT =>
          _ ← UNTIMEOUT;
          _ ← upd (set_state LS_OPENED);
          _ ← upd (fun a => set_retransmits (maxconfreqtransmits a) a);
          call_back Up (up cb)
      | LS_OPENED => go_down
      | _ => mret tt
      end.

Definition fsm_rconfnakrej (code id : Z) (inp : list Z) (len : Z) : M unit :=
  r ← gets reqid;
  seen ← gets seen_ack;
  if negb (id =? r) || negb (seen =? 0) then mret tt
  else
    ret ← match (if code =? CONFNAK then nakci cb else rejci cb) with Some proc => proc inp len | None => mret 0 end;
    if ret =? 0 then mret tt
    else
      _ ← upd (set_seen_ack 1);
      s ← gets state;
      match s with
      | LS_CLOSED | LS_STOPPED => fsm_sdata TERMACK (u8 id) NULL 0
      | LS_REQSENT | LS_ACKSENT =>
          _ ← UNTIMEOUT;
          if ret <? 0 then upd (set_state LS_STOPPED) else fsm_sconfreq false
      | LS_ACKRCVD => _ ← UNTIMEOUT; _ ← fsm_sconfreq false; upd (set_state LS_REQSENT)
      | LS_OPENED => go_down
      | _ => mret tt
      end.

Definition fsm_rtermreq (id : Z) : M unit :=
  s ← gets state;
  _ ← match s with
      | LS_ACKRCVD | LS_ACKSENT => upd (set_state LS_REQSENT)
      | LS_OPENED =>
          _ ← call_back Down (down cb);
          _ ← upd (set_retransmits 0);
          _ ← upd (set_state LS_STOPPING);
          start_timer
      | _ => mret tt
      end;
  fsm_sdata TERMACK (u8 id) NULL 0.

Definition fsm_rtermack : M unit :=
  s ← gets state;
  match s with
  | LS_CLOSING => _ ← UNTIMEOUT; _ ← upd (set_state LS_CLOSED); call_back Finished (finished cb)
  | LS_STOPPING => _ ← UNTIMEOUT; _ ← upd (set_state LS_STOPPED); call_back Finished (finished cb)
  | LS_ACKRCVD => upd (set_state LS_REQSENT)
  | LS_OPENED => _ ← call_back Down (down cb); fsm_sconfreq false
  | _ => mret tt
  end.

Definition fsm_rcoderej (len : Z) : M unit :=
  if len <? HEADERLEN then mret tt
  else
    s ← gets state;
    when (bool_decide (s = LS_ACKRCVD)) (upd (set_state LS_REQSENT)).

(** [inpacket] from its pointer on, of which [l] octets were received; [l] is
    the length of a buffer, so the comparison with the [size_t] is of numbers
    that are not negative. *)
Definition fsm_input (inpacket : list Z) (l : Z) : M unit :=
  if l <? HEADERLEN then mret tt
  else
    match inpacket with
    | code :: id :: hi :: lo :: inp =>
        let len := Z.lor (Z.shiftl hi 8) lo in
        if len <? HEADERLEN then mret tt
        else if l <? len then mret tt
        else
          let len := len - HEADERLEN in
          s ← gets state;
          if bool_decide (s = LS_INITIAL) || bool_decide (s = LS_STARTING) then mret tt
          else if code =? CONFREQ then fsm_rconfreq id inp len
          else if code =? CONFACK then fsm_rconfack id inp len
          else if (code =? CONFNAK) || (code =? CONFREJ) then fsm_rconfnakrej code id inp len
          else if code =? TERMREQ then fsm_rtermreq id
          else if code =? TERMACK then fsm_rtermack
          else if code =? CODEREJ then fsm_rcoderej len
          else
            known ← match extcode cb with Some extcode => extcode code id inp len | None => mret 0 end;
            when (known =? 0)
              (_ ← upd (fun a => set_ids (u8 (id_of a + 1)) (reqid a) a);
               i ← gets id_of;
               fsm_sdata CODEREJ i (Elsewhere inpacket) (len + HEADERLEN))
    | _ => fault
    end.

Definition fsm_protreject : M unit :=
  s ← gets state;
  match s with
  | LS_CLOSING | LS_CLOSED =>
      _ ← when (bool_decide (s = LS_CLOSING)) UNTIMEOUT;
      _ ← upd (set_state LS_CLOSED);
      call_back Finished (finished cb)
  | LS_STOPPING | LS_REQSENT | LS_ACKRCVD | LS_ACKSENT | LS_STOPPED =>
      _ ← when (bool_decide (s <> LS_STOPPED)) UNTIMEOUT;
      _ ← upd (set_state LS_STOPPED);
      call_back Finished (finished cb)
  | LS_OPENED =>
      _ ← call_back Down (down cb);
      _ ← upd (fun a => set_retransmits (maxtermtransmits a) a);
      _ ← send_termreq;
      upd (set_state LS_STOPPING)
  | _ => mret tt
  end.

(** ** Events *)

Inductive event :=
  | Lowerup | Lowerdown | Open | Close (reason : list Z) | Timeout | Input (inpacket : list Z) (l : Z) | Protreject.

(** The timeouts call [fsm_timeout] when its entry is the first and due. *)
Definition expire_own : M unit := fun w =>
  match next_timeout (timeouts w) with
  | t :: _ =>
      if bool_decide (h t = Other fsm_timeout_at) && (arg t =? fsm_at) then
        (_ ← upd_timeouts expire; fsm_timeout) w
      else Some (tt, w)
  | [] => Some (tt, w)
  end.

Definition handle (e : event) : M unit :=
  match e with
  | Lowerup => fsm_lowerup
  | Lowerdown => fsm_lowerdown
  | Open => fsm_open
  | Close reason => fsm_close reason
  | Timeout => expire_own
  | Input inpacket l => fsm_input inpacket l
  | Protreject => fsm_protreject
  end.
End Handlers.

(** ** The timer of the automaton *)

Section Timer.
Context (fsm_timeout_at fsm_at : Z).

Definition is_own (t : sys_timeo) : bool := bool_decide (h t = Other fsm_timeout_at) && (arg t =? fsm_at).

(** Its entries in the list *)
Definition own_entries (l : list sys_timeo) : nat := length (List.filter is_own l).

Lemma is_own_set_time t ms : is_own (set_time t ms) = is_own t.
Proof. done. Qed.

Lemma own_entries_cons t l : own_entries (t :: l) = ((if is_own t then 1 else 0) + own_entries l)%nat.
Proof. unfold own_entries. cbn [List.filter]. by destruct (is_own t). Qed.

Lemma own_entries_head_sub ms l : own_entries (head_sub ms l) = own_entries l.
Proof. destruct l as [|t l]; [done|]. cbn [head_sub]. by rewrite !own_entries_cons, is_own_set_time. Qed.

Lemma own_entries_head_add ms l : own_entries (head_add ms l) = own_entries l.
Proof. destruct l as [|t l]; [done|]. cbn [head_add]. by rewrite !own_entries_cons, is_own_set_time. Qed.

Lemma length_head_sub ms l : length (head_sub ms l) = length l.
Proof. by destruct l. Qed.

Lemma length_head_add ms l : length (head_add ms l) = length l.
Proof. by destruct l. Qed.

Lemma timeout_loop_entries t l :
  l <> [] -> own_entries (timeout_loop t l) = ((if is_own t then 1 else 0) + own_entries l)%nat /\
    length (timeout_loop t l) = S (length l).
Proof.
  revert t. induction l as [|t0 l IH]; intros t Hne; [done|]. cbn [timeout_loop]. case_match.
  - rewrite !own_entries_cons, own_entries_head_sub, is_own_set_time. cbn [length]. rewrite length_head_sub. lia.
  - destruct l as [|n l]; [done|]. destruct (IH (set_time t (u32 (time t - time t0))) ltac:(done)) as [E1 E2].
    rewrite own_entries_cons, E1, is_own_set_time, (own_entries_cons t0). cbn [length] in *. lia.
Qed.

Definition pend (ts : timers) : nat := own_entries (next_timeout ts).

(** The others leave an entry for this automaton. *)
Definition room (ts : timers) : Prop := zlen (next_timeout ts) - Z.of_nat (pend ts) < MEMP_NUM_SYS_TIMEOUT.

Lemma untimeout_entries l :
  own_entries (untimeout_loop (Other fsm_timeout_at) fsm_at l) = pred (own_entries l) /\
  (length l - length (untimeout_loop (Other fsm_timeout_at) fsm_at l) = own_entries l - pred (own_entries l))%nat /\
  (length (untimeout_loop (Other fsm_timeout_at) fsm_at l) <= length l)%nat.
Proof.
  induction l as [|t l IH]; [done|]. cbn [untimeout_loop]. rewrite (own_entries_cons t l). change (_ && _) with (is_own t).
  destruct (is_own t) eqn:Et.
  - rewrite own_entries_head_add, length_head_add. cbn [length]. lia.
  - rewrite own_entries_cons, Et. cbn [length]. lia.
Qed.

Lemma untimeout_pend ts :
  (pend ts <= 1)%nat -> room ts ->
  pend (sys_untimeout (Other fsm_timeout_at) fsm_at ts) = O /\ room (sys_untimeout (Other fsm_timeout_at) fsm_at ts) /\
  zlen (next_timeout (sys_untimeout (Other fsm_timeout_at) fsm_at ts)) < MEMP_NUM_SYS_TIMEOUT.
Proof.
  unfold pend, room, sys_untimeout. cbn [next_timeout]. intros Hp Hr.
  destruct (untimeout_entries (next_timeout ts)) as (E1 & E2 & E3). rewrite E1. unfold pend in Hr. lia.
Qed.

Lemma timeout_pend ms ts :
  pend ts = O -> zlen (next_timeout ts) < MEMP_NUM_SYS_TIMEOUT ->
  pend (sys_timeout ms (Other fsm_timeout_at) fsm_at ts) = 1%nat /\ room (sys_timeout ms (Other fsm_timeout_at) fsm_at ts).
Proof.
  unfold pend, room, sys_timeout. intros Hp Hl. rewrite (proj2 (Z.leb_gt _ _)) by done. cbn [next_timeout].
  assert (Hown : is_own (Timeo ms (Other fsm_timeout_at) fsm_at) = true).
  { unfold is_own. cbn [h arg]. by rewrite bool_decide_true, Z.eqb_refl. }
  unfold pend. cbn [next_timeout]. destruct (next_timeout ts) as [|t l] eqn:El.
  - rewrite own_entries_cons, Hown. cbn in *. lia.
  - destruct (ms <? time t).
    + change (head_sub ms (t :: l)) with (set_time t (u32 (time t - ms)) :: l). rewrite !own_entries_cons, is_own_set_time, Hown.
      rewrite own_entries_cons in Hp. cbn [length] in *. lia.
    + destruct (timeout_loop_entries (Timeo ms (Other fsm_timeout_at) fsm_at) (t :: l) ltac:(done)) as [E1 E2].
      rewrite E1, E2, Hown, Hp. cbn [length] in *. lia.
Qed.
End Timer.

(** ** Reasoning about handlers

    What matters to the properties of the automaton is a view of its world; a
    triple says that a computation returns and what it does to the view. *)

Record view := View {
  v_state : link_state; v_up : bool; v_pend : nat; v_seen : Z; v_retr : Z; v_maxconf : Z; v_maxterm : Z;
  v_reqid : Z; v_codes : list (Z * Z) }.

Definition with_state s v := View s (v_up v) (v_pend v) (v_seen v) (v_retr v) (v_maxconf v) (v_maxterm v) (v_reqid v) (v_codes v).
Definition with_up b v := View (v_state v) b (v_pend v) (v_seen v) (v_retr v) (v_maxconf v) (v_maxterm v) (v_reqid v) (v_codes v).
Definition with_pend n v := View (v_state v) (v_up v) n (v_seen v) (v_retr v) (v_maxconf v) (v_maxterm v) (v_reqid v) (v_codes v).
Definition with_seen z v := View (v_state v) (v_up v) (v_pend v) z (v_retr v) (v_maxconf v) (v_maxterm v) (v_reqid v) (v_codes v).
Definition with_retr n v := View (v_state v) (v_up v) (v_pend v) (v_seen v) n (v_maxconf v) (v_maxterm v) (v_reqid v) (v_codes v).
Definition with_codes l v := View (v_state v) (v_up v) (v_pend v) (v_seen v) (v_retr v) (v_maxconf v) (v_maxterm v) (v_reqid v) l.
Definition with_reqid i v := View (v_state v) (v_up v) (v_pend v) (v_seen v) (v_retr v) (v_maxconf v) (v_maxterm v) i (v_codes v).

(** Whether the layer above is up after some calls. *)
Definition call_up (b : bool) (c : call) : bool := match c with Up => true | Down => false | _ => b end.

(** A packet of the protocol: header, code, identifier, length, data. *)
Definition ctl_packet (proto code i : Z) (data : list Z) : list Z :=
  [PPP_ALLSTATIONS; PPP_UI; u8 (Z.shiftr proto 8); Z.land proto 0xff; u8 code; u8 i;
   u8 (Z.shiftr (zlen data + HEADERLEN) 8); Z.land (zlen data + HEADERLEN) 0xff] ++ data.

Definition well_formed (proto : Z) (p : list Z) : Prop :=
  exists code i data, p = ctl_packet proto code i data /\ zlen data <= PPP_MRU - HEADERLEN /\ Forall is_byte data.

Lemma land_octet z : is_byte (Z.land z 0xff).
Proof. change 0xff with (Z.ones 8). rewrite Z.land_ones by lia. apply Z.mod_pos_bound. lia. Qed.

Section Triples.
Context {E : Type} (cb : fsm_callbacks E) (ta fa : Z).
Abbreviation M := (M E).
Abbreviation world := (world E).

Definition view_of (w : world) : view :=
  View (state (f w)) (foldl call_up false (calls w)) (pend ta fa (timeouts w)) (seen_ack (f w)) (retransmits (f w))
    (maxconfreqtransmits (f w)) (maxtermtransmits (f w)) (reqid (f w)) (map (fun p => (nth 4 p 0, nth 5 p 0)) (sent w)).

(** Nothing is out of bounds. *)
Record good (w : world) : Prop := {
  good_room : room ta fa (timeouts w);
  good_pend : (pend ta fa (timeouts w) <= 1)%nat;
  good_mru : HEADERLEN <= peer_mru w <= PPP_MRU;
  good_buf : zlen (outpacket_buf w) = PPP_MRU + PPP_HDRLEN;
  good_octets : Forall is_byte (outpacket_buf w);
  good_reason : 0 <= term_reason_len (f w) <= zlen (term_reason (f w));
  good_reason_octets : Forall is_byte (term_reason (f w));
  good_reqid : is_byte (reqid (f w));
  good_sent : Forall (well_formed (protocol (f w))) (sent w) }.

Definition triple {A} (v : view) (m : M A) (Q : A -> view -> Prop) : Prop :=
  forall w, good w -> view_of w = v -> exists a w', m w = Some (a, w') /\ good w' /\ Q a (view_of w').

Lemma triple_ret {A} v (a : A) Q : Q a v -> triple v (mret a) Q.
Proof. intros H w Hg <-. by exists a, w. Qed.

Lemma triple_bind {A B} v (m : M A) (k : A -> M B) P Q :
  triple v m P -> (forall a v', P a v' -> triple v' (k a) Q) -> triple v (m ≫= k) Q.
Proof.
  intros Hm Hk w Hg Hv. destruct (Hm w Hg Hv) as (a & w1 & E1 & Hg1 & HP). unfold mbind, M_bind. rewrite E1. by apply (Hk a _ HP).
Qed.

Lemma triple_weaken {A} v (m : M A) (P Q : A -> view -> Prop) :
  triple v m P -> (forall a v', P a v' -> Q a v') -> triple v m Q.
Proof. intros Hm H w Hg Hv. destruct (Hm w Hg Hv) as (a & w1 & E1 & Hg1 & HP). exists a, w1. split; [done|]. split; [done|by apply H]. Qed.

Lemma triple_gets {A} v (g : fsm -> A) : triple v (gets g) (fun _ v' => v' = v).
Proof. intros w Hg <-. by eexists _, w. Qed.

Lemma triple_state v : triple v (gets state) (fun s v' => v' = v /\ s = v_state v).
Proof. intros w Hg <-. by eexists _, w. Qed.

Lemma triple_seen v : triple v (gets seen_ack) (fun s v' => v' = v /\ s = v_seen v).
Proof. intros w Hg <-. by eexists _, w. Qed.

Lemma triple_retr v : triple v (gets retransmits) (fun s v' => v' = v /\ s = v_retr v).
Proof. intros w Hg <-. by eexists _, w. Qed.

(** An assignment to fields that are not in the invariant of the world *)
Definition keeps_good (g : fsm -> fsm) : Prop :=
  forall a, protocol (g a) = protocol a /\ term_reason (g a) = term_reason a /\ term_reason_len (g a) = term_reason_len a /\
    (is_byte (reqid a) -> is_byte (reqid (g a))).

Lemma good_upd g (w : world) :
  keeps_good g -> good w -> good (World (g (f w)) (timeouts w) (outpacket_buf w) (peer_mru w) (sent w) (calls w) (own w)).
Proof. intros Hk []. destruct (Hk (f w)) as (E1 & E2 & E3 & E4).
  split; cbn [f timeouts outpacket_buf peer_mru sent]; rewrite ?E1, ?E2, ?E3; auto. Qed.

Lemma triple_upd v g v1 :
  keeps_good g ->
  (forall w, view_of w = v -> view_of (World (g (f w)) (timeouts w) (outpacket_buf w) (peer_mru w) (sent w) (calls w) (own w)) = v1) ->
  triple v (upd g) (fun _ v' => v' = v1).
Proof. intros Hk Hv w Hg Ew. eexists _, _. split; [done|]. split; [by apply good_upd|by apply Hv]. Qed.

Lemma triple_set_state v s : triple v (upd (set_state s)) (fun _ v' => v' = with_state s v).
Proof. apply triple_upd; [done|by intros w <-]. Qed.

Lemma triple_set_seen v z : triple v (upd (set_seen_ack z)) (fun _ v' => v' = with_seen z v).
Proof. apply triple_upd; [done|by intros w <-]. Qed.

Lemma triple_set_nakloops v z : triple v (upd (set_nakloops z)) (fun _ v' => v' = v).
Proof. apply triple_upd; [done|by intros w <-]. Qed.

Lemma triple_add_nakloops v : triple v (upd (fun a => set_nakloops (nakloops a + 1) a)) (fun _ v' => v' = v).
Proof. apply triple_upd; [done|by intros w <-]. Qed.

Lemma triple_set_retr v z : triple v (upd (set_retransmits z)) (fun _ v' => v' = with_retr z v).
Proof. apply triple_upd; [done|by intros w <-]. Qed.

Lemma triple_dec_retr v :
  triple v (upd (fun a => set_retransmits (retransmits a - 1) a)) (fun _ v' => v' = with_retr (v_retr v - 1) v).
Proof. apply triple_upd; [done|by intros w <-]. Qed.

Lemma triple_maxconf v :
  triple v (upd (fun a => set_retransmits (maxconfreqtransmits a) a)) (fun _ v' => v' = with_retr (v_maxconf v) v).
Proof. apply triple_upd; [done|by intros w <-]. Qed.

Lemma triple_maxterm v :
  triple v (upd (fun a => set_retransmits (maxtermtransmits a) a)) (fun _ v' => v' = with_retr (v_maxterm v) v).
Proof. apply triple_upd; [done|by intros w <-]. Qed.

Lemma triple_set_ids v g : triple v (upd (fun a => set_ids (g a) (reqid a) a)) (fun _ v' => v' = v).
Proof. apply triple_upd; [done|by intros w <-]. Qed.

Lemma triple_reqid v : triple v (gets reqid) (fun r v' => v' = v /\ r = v_reqid v /\ is_byte r).
Proof. intros w Hg <-. eexists _, w. split; [done|]. split; [done|]. split; [done|]. split; [done|]. apply Hg. Qed.

Lemma triple_next_id v : triple v next_id (fun r v' => exists i, v' = with_reqid i v /\ r = i /\ is_byte i).
Proof.
  intros w Hg <-. set (i := u8 (id (f w) + 1)). exists i. eexists. split; [done|]. split; [|exists i; split_and!; [done|done|apply u8_range]].
  apply (good_upd (fun a => set_ids i i a)); [|done]. intros a. split_and!; try done. intros _. apply u8_range.
Qed.

(** *** The timer *)

Lemma triple_UNTIMEOUT v : triple v (UNTIMEOUT ta fa) (fun _ v' => v' = with_pend 0 v).
Proof.
  intros w Hg <-. destruct Hg as [H1 H2 H3 H4 H5 H6 H7 H8 H9]. destruct (untimeout_pend ta fa _ H2 H1) as (E1 & E2 & _).
  eexists _, _. split; [done|]. split; [split; cbn [f timeouts outpacket_buf peer_mru sent]; (done || lia)|].
  unfold view_of, with_pend. cbn [f timeouts outpacket_buf peer_mru sent calls]. by rewrite E1.
Qed.

Lemma triple_start_timer v : triple v (start_timer ta fa) (fun _ v' => v' = with_pend 1 v).
Proof.
  intros w Hg <-. destruct Hg as [H1 H2 H3 H4 H5 H6 H7 H8 H9]. destruct (untimeout_pend ta fa _ H2 H1) as (E1 & E2 & E3).
  destruct (timeout_pend ta fa (u32 (timeouttime (f w) * 1000)) _ E1 E3) as [E4 E5].
  eexists _, _. split; [done|]. split; [split; cbn [f timeouts outpacket_buf peer_mru sent]; (done || lia)|].
  unfold view_of, with_pend. cbn [f timeouts outpacket_buf peer_mru sent calls]. by rewrite E4.
Qed.

(** *** Packets *)

(** The data a packet gets: at most what the peer takes. *)
Definition data_of (w : world) (data : data_at) (datalen : Z) : list Z :=
  take (Z.to_nat (Z.min datalen (peer_mru w - HEADERLEN)))
    (match data with NULL => [] | Outp => drop 8 (outpacket_buf w) | Elsewhere l => l end).

Definition data_ok (data : data_at) (datalen : Z) : Prop :=
  match data with
  | NULL => datalen = 0
  | Outp => 0 <= datalen
  | Elsewhere l => 0 <= datalen <= zlen l /\ Forall is_byte l
  end.

Lemma copy_data_spec data n w :
  good w -> 0 <= n <= PPP_MRU - HEADERLEN ->
  match data with NULL => n = 0 | Outp => True | Elsewhere l => n <= zlen l /\ Forall is_byte l end ->
  exists buf, copy_data data n w = Some (tt, World (f w) (timeouts w) buf (peer_mru w) (sent w) (calls w) (own w)) /\
    zlen buf = PPP_MRU + PPP_HDRLEN /\ Forall is_byte buf /\
    take (Z.to_nat n) (drop 8 buf) =
      take (Z.to_nat n) (match data with NULL => [] | Outp => drop 8 (outpacket_buf w) | Elsewhere l => l end).
Proof.
  intros Hg Hn Hd. pose proof (good_buf _ Hg) as Hb. pose proof (good_octets _ Hg) as Ho.
  assert (Hsame : forall m : world, World (f m) (timeouts m) (outpacket_buf m) (peer_mru m) (sent m) (calls m) (own m) = m) by (by intros []).
  unfold PPP_MRU, HEADERLEN, PPP_HDRLEN in *. destruct data as [| |l]; cbn [copy_data].
  - subst n. exists (outpacket_buf w). rewrite Hsame. done.
  - exists (outpacket_buf w). rewrite Hsame. done.
  - destruct Hd as [Hl Hlb]. destruct (Z.eqb_spec n 0) as [->|Hne]; cbn [negb when].
    { exists (outpacket_buf w). rewrite Hsame. done. }
    rewrite (proj2 (Z.leb_le 0 n)), (proj2 (Z.leb_le n _)) by lia. cbn [andb]. unfold put_out, PPP_HDRLEN, HEADERLEN.
    destruct (mem_put_ok (outpacket_buf w) 8 (take (Z.to_nat n) l)) as [buf Ep]; [lia|rewrite length_take; lia|].
    change (4 + 4) with 8. rewrite Ep. exists buf. split; [done|]. pose proof (mem_put_length _ _ _ _ Ep). split; [lia|].
    apply mem_put_inv in Ep as (pre & mid & post & Eb & Hpre & Hmid & ->). rewrite Eb, !Forall_app in Ho.
    split; [rewrite !Forall_app; split_and!; [tauto|by apply Forall_take|tauto]|].
    rewrite drop_app_length' by lia. by rewrite take_app_length' by (rewrite length_take; lia).
Qed.

Lemma fsm_sdata_spec code i data datalen w :
  good w -> data_ok data datalen ->
  exists buf, fsm_sdata code i data datalen w =
    Some (tt, World (f w) (timeouts w) buf (peer_mru w)
      (sent w ++ [ctl_packet (protocol (f w)) code i (data_of w data datalen)]) (calls w) (own w)) /\
    zlen buf = PPP_MRU + PPP_HDRLEN /\ Forall is_byte buf /\
    zlen (data_of w data datalen) <= PPP_MRU - HEADERLEN /\ Forall is_byte (data_of w data datalen).
Proof.
  intros Hg Hd. pose proof (good_mru _ Hg) as Hm. set (n := Z.min datalen (peer_mru w - HEADERLEN)).
  assert (Hn : 0 <= n <= PPP_MRU - HEADERLEN) by (destruct data; cbn in Hd; lia).
  destruct (copy_data_spec data n w Hg Hn) as (b1 & E1 & Hl1 & Hb1 & Ht1); [destruct data; cbn in Hd; [lia|done|split; [lia|tauto]]|].
  assert (Hdat : data_of w data datalen = take (Z.to_nat n) (drop 8 b1)) by (by rewrite Ht1).
  assert (Hdl : zlen (data_of w data datalen) = n).
  { rewrite Hdat, length_take, length_drop. unfold PPP_MRU, HEADERLEN, PPP_HDRLEN in *. lia. }
  unfold fsm_sdata, mbind, M_bind, get_mru. 
  replace (if peer_mru w - HEADERLEN <? datalen then peer_mru w - HEADERLEN else datalen) with n.
  2: { unfold n. destruct (Z.ltb_spec (peer_mru w - HEADERLEN) datalen); lia. }
  rewrite E1. unfold gets, put_out. cbn [f timeouts outpacket_buf peer_mru sent calls own].
  set (hdr := [PPP_ALLSTATIONS; _; _; _; _; _; _; _]).
  assert (Hhdr : Forall is_byte hdr).
  { repeat first [apply Forall_nil; exact I|apply Forall_cons; [first [apply u8_range|apply land_octet|done]|]]. }
  assert (Eput : mem_put b1 0 hdr = Some (hdr ++ drop 8 b1)).
  { unfold mem_put. cbn [length hdr]. rewrite (proj2 (Z.leb_le _ (zlen b1))) by (unfold PPP_MRU, PPP_HDRLEN in *; lia). done. }
  rewrite Eput. unfold write_out. cbn [f timeouts outpacket_buf peer_mru sent calls own].
  assert (Hbl : zlen (hdr ++ drop 8 b1) = PPP_MRU + PPP_HDRLEN).
  { rewrite length_app, length_drop. unfold PPP_MRU, PPP_HDRLEN in *. cbn [length hdr]. lia. }
  rewrite Hbl. replace ((0 <=? n + HEADERLEN + PPP_HDRLEN) && _) with true.
  2: { symmetry. unfold PPP_MRU, PPP_HDRLEN, HEADERLEN in *. blia. }
  exists (hdr ++ drop 8 b1). split.
  - apply (f_equal (fun p => Some (tt, World (f w) (timeouts w) (hdr ++ drop 8 b1) (peer_mru w) (sent w ++ [p]) (calls w) (own w)))).
    unfold ctl_packet. rewrite Hdl. fold hdr. rewrite Hdat, take_app_ge by (cbn [length hdr]; unfold PPP_HDRLEN, HEADERLEN; lia).
    f_equal. f_equal. cbn [length hdr]. unfold PPP_HDRLEN, HEADERLEN. lia.
  - split; [done|]. split; [rewrite Forall_app; split; [done|by apply Forall_drop]|]. rewrite Hdl. split; [lia|].
    rewrite Hdat. by apply Forall_take, Forall_drop.
Qed.

Lemma triple_sdata v code i data datalen :
  data_ok data datalen ->
  triple v (fsm_sdata code i data datalen) (fun _ v' => v' = with_codes (v_codes v ++ [(u8 code, u8 i)]) v).
Proof.
  intros Hd w Hg <-. destruct (fsm_sdata_spec code i data datalen w Hg Hd) as (buf & -> & Hl & Hb & Hdl & Hdb).
  eexists _, _. split; [done|]. split.
  - destruct Hg. split; cbn [f timeouts outpacket_buf peer_mru sent]; try done. rewrite Forall_app. split; [done|].
    repeat constructor. by eexists _, _, _.
  - unfold view_of, with_codes. cbn. by rewrite map_app.
Qed.
End Triples.

(** ** What the automaton needs of its callbacks *)

(** States in which a timeout is due to come. *)
Definition timed (s : link_state) : bool :=
  match s with LS_CLOSING | LS_STOPPING | LS_REQSENT | LS_ACKRCVD | LS_ACKSENT => true | _ => false end.

(** The invariant.  [strict] is that there is no timeout in the other states. *)
Record inv (strict : bool) (v : view) : Prop := {
  inv_timer : timed (v_state v) = true -> v_pend v = 1%nat;
  inv_up : v_up v = true -> v_state v = LS_OPENED;
  inv_ack : v_state v = LS_ACKRCVD -> v_seen v <> 0;
  inv_strict : strict = true -> timed (v_state v) = false -> v_pend v = O;
  inv_opened : strict = true -> v_state v = LS_OPENED -> v_up v = true }.

Section Laws.
Context {E : Type} (cb : fsm_callbacks E) (ta fa : Z).

(** A computation that does nothing to the automaton; and one that may run
    its handlers. *)
Definition quiet {A} (m : M E A) (P : A -> Prop) : Prop :=
  forall v, triple ta fa v m (fun a v' => v' = v /\ P a).
Definition tame {A} (m : M E A) : Prop :=
  forall strict v, inv strict v -> triple ta fa v m (fun _ v' => inv strict v').

(** Octets in a buffer and how many of them count *)
Definition octets_ok (inp : list Z) (len : Z) : Prop := 0 <= len <= zlen inp /\ Forall is_byte inp.

Class CallbackLaws : Prop := {
  resetci_law m : resetci cb = Some m -> quiet m (fun _ => True);
  cilen_law m : cilen cb = Some m -> quiet m (fun _ => True);
  addci_law m n : addci cb = Some m -> n <= PPP_MRU - HEADERLEN -> quiet (m n) (fun k => 0 <= k);
  ackci_law m inp len : ackci cb = Some m -> octets_ok inp len -> quiet (m inp len) (fun _ => True);
  nakci_law m inp len : nakci cb = Some m -> octets_ok inp len -> quiet (m inp len) (fun _ => True);
  rejci_law m inp len : rejci cb = Some m -> octets_ok inp len -> quiet (m inp len) (fun _ => True);
  reqci_law m inp len b : reqci cb = Some m -> octets_ok inp len ->
    quiet (m inp len b) (fun '(_, inp', len') => octets_ok inp' len');
  down_law m : down cb = Some m -> quiet m (fun _ => True);
  retransmit_law m : retransmit cb = Some m -> quiet m (fun _ => True);
  up_law m : up cb = Some m -> tame m;
  starting_law m : starting cb = Some m -> tame m;
  finished_law m : finished cb = Some m -> tame m;
  extcode_law m code i inp len : extcode cb = Some m -> octets_ok inp len -> tame (m code i inp len);
  down_given : down cb <> None;
  up_given : up cb <> None }.
End Laws.

(** ** The handlers keep the invariant *)

Section Handlers_ok.
Context {E : Type} (cb : fsm_callbacks E) (ta fa : Z) {L : CallbackLaws cb ta fa}.
Abbreviation triple := (@triple E ta fa _).

Lemma inv_ext strict v v' :
  v_state v' = v_state v -> v_up v' = v_up v -> v_pend v' = v_pend v -> v_seen v' = v_seen v -> inv strict v -> inv strict v'.
Proof. intros E1 E2 E3 E4 []. split; rewrite ?E1, ?E2, ?E3, ?E4; done. Qed.

Lemma triple_quiet {A} v (m : M E A) P : quiet ta fa m P -> triple v m (fun a v' => v' = v /\ P a).
Proof. intros H. apply H. Qed.

Lemma triple_invoke v m :
  (forall m', m = Some m' -> quiet ta fa m' (fun _ => True)) -> triple v (invoke m) (fun _ v' => v' = v).
Proof.
  intros H. destruct m as [m|]; cbn [invoke]; [|by apply triple_ret]. eapply triple_weaken; [by apply H|]. by intros a v' [-> _].
Qed.

(** The call is recorded. *)
Lemma call_back_record c m v Q :
  triple (with_up (call_up (v_up v) c) v) m Q -> triple v (call_back c (Some m)) Q.
Proof.
  intros Hm w Hg <-. cbn [call_back]. apply (Hm (World (f w) (timeouts w) (outpacket_buf w) (peer_mru w) (sent w) (calls w ++ [c]) (own w))).
  - destruct Hg. split; done.
  - unfold view_of, with_up. cbn. by rewrite foldl_app.
Qed.

Lemma triple_down v : triple v (call_back Down (down cb)) (fun _ v' => v' = with_up false v).
Proof.
  pose proof (@down_given _ cb ta fa L) as Hd. destruct (down cb) as [m|] eqn:Ed; [|done].
  apply call_back_record. eapply triple_weaken; [by eapply down_law|]. by intros a v' [-> _].
Qed.

(** Calls at the end of a handler *)
Lemma triple_tail_call strict c m v :
  (forall m', m = Some m' -> tame ta fa m') -> inv strict (with_up (call_up (v_up v) c) v) -> (m = None -> inv strict v) ->
  triple v (call_back c m) (fun _ v' => inv strict v').
Proof.
  intros Hm Hv Hn. destruct m as [m|]; [|cbn [call_back]; apply triple_ret; by apply Hn].
  apply call_back_record. by apply Hm.
Qed.

Lemma triple_tail_up strict v :
  inv strict (with_up true v) -> triple v (call_back Up (up cb)) (fun _ v' => inv strict v').
Proof.
  intros Hv. apply triple_tail_call; [intros m; by apply up_law|done|]. intros Hn. by destruct (@up_given _ cb ta fa L).
Qed.

(** *** Symbolic execution *)

Tactic Notation "run" uconstr(lem) := eapply triple_bind; [eapply lem|]; let Hrun := fresh in intros ? ? Hrun; cbv beta in Hrun;
  repeat match type of Hrun with ex _ => destruct Hrun as [? Hrun] end;
  repeat match type of Hrun with _ /\ _ => destruct Hrun as [Hrun ?] end; subst.

Lemma triple_when v b m Q : (b = true -> triple v m Q) -> (b = false -> Q tt v) -> triple v (when b m) Q.
Proof. destruct b; [by intros H _; apply H|]. intros _ H. by apply triple_ret, H. Qed.

Lemma triple_sconfreq v b :
  triple v (fsm_sconfreq cb ta fa b) (fun _ v' =>
    exists i, v' = View (v_state v) (v_up v) 1 0 ((if b then v_retr v else v_maxconf v) - 1) (v_maxconf v) (v_maxterm v) i
      (v_codes v ++ [(CONFREQ, i)]) /\ (b = true -> i = v_reqid v) /\ is_byte i).
Proof.
  unfold fsm_sconfreq. eapply triple_bind; [apply triple_state|]. intros s v0 [-> ->].
  eapply triple_bind with (P := fun _ v' => v' = v).
  { apply triple_when; [|done]. intros _. eapply triple_bind; [apply triple_invoke; intros m Em; by eapply resetci_law|].
    intros _ v' ->. apply triple_set_nakloops. }
  intros _ v0 ->.
  eapply triple_bind with (P := fun _ v' => exists i,
    v' = with_reqid i (if b then v else with_retr (v_maxconf v) v) /\ (b = true -> i = v_reqid v)).
  { apply triple_when; intros Hb; destruct b; try done; [|by exists (v_reqid v); destruct v].
    run triple_maxconf. run triple_next_id. apply triple_ret. by eexists. }
  intros _ v0 (i & -> & Hi). set (v1 := with_reqid i _). eapply triple_bind; [apply triple_set_seen|]. intros _ ? ->.
  eapply triple_bind with (P := fun n v' => v' = with_seen 0 v1 /\ 0 <= n).
  { destruct (cilen cb) as [ci|] eqn:Eci; [destruct (addci cb) as [add|] eqn:Eadd|]; [|by apply triple_ret..].
    eapply triple_bind; [by eapply cilen_law|]. intros n v' [-> _].
    eapply triple_bind with (P := fun mru v' => v' = with_seen 0 v1 /\ mru <= PPP_MRU).
    { intros w Hg <-. exists (peer_mru w), w. split_and!; try done. apply Hg. }
    intros mru v' [-> Hm]. eapply addci_law; [exact L|exact Eadd|]. destruct (Z.ltb_spec (mru - HEADERLEN) n); lia. }
  intros n v0 [-> Hn]. eapply triple_bind; [apply triple_reqid|]. intros r v0 (-> & -> & Hr).
  eapply triple_bind; [by apply triple_sdata|]. intros _ v0 ->.
  eapply triple_bind; [apply triple_dec_retr|]. intros _ ? ->. eapply triple_weaken; [apply triple_start_timer|]. intros _ ? ->. exists i.
  assert (Ei : v_reqid (with_seen 0 v1) = i) by done. rewrite Ei in Hr |- *. change (u8 CONFREQ) with CONFREQ. rewrite (u8_id i) by done.
  split; [|done]. unfold v1. by destruct b, v.
Qed.

Lemma triple_reason {A} v (k : list Z -> Z -> M E A) Q :
  (forall reason n, data_ok (Elsewhere reason) n -> triple v (k reason n) Q) ->
  triple v (reason ← gets term_reason; n ← gets term_reason_len; k reason n) Q.
Proof. intros Hk w Hg Hv. apply (Hk (term_reason (f w)) (term_reason_len (f w))); [split; apply Hg|done|done]. Qed.

Lemma triple_termreq v :
  triple v (send_termreq ta fa) (fun _ v' =>
    exists i, v' = View (v_state v) (v_up v) 1 (v_seen v) (v_retr v - 1) (v_maxconf v) (v_maxterm v) i
      (v_codes v ++ [(TERMREQ, i)]) /\ is_byte i).
Proof.
  unfold send_termreq. eapply triple_bind; [apply triple_next_id|]. intros r ? (i & -> & -> & Hi).
  apply triple_reason. intros reason n Hd. eapply triple_bind; [by apply triple_sdata|]. intros _ ? ->.
  eapply triple_bind; [apply triple_start_timer|]. intros _ ? ->. eapply triple_weaken; [apply triple_dec_retr|].
  intros _ ? ->. exists i. change (u8 TERMREQ) with TERMREQ. rewrite (u8_id i) by done. split; [by destruct v|done].
Qed.

(** Every handler of an event. *)
Definition keeps (m : M E unit) : Prop := forall strict v, inv strict v -> triple v m (fun _ v' => inv strict v').

(** In each state, what the invariant says of the view. *)
Ltac open_view v Hi :=
  eapply triple_bind; [apply triple_state|]; intros s v0 [-> ->]; destruct Hi as [Ht Hu Ha Hs Ho];
  destruct v as [st b p z r mc mt ri l]; cbn [v_state v_up v_pend v_seen v_retr v_maxconf v_maxterm v_reqid v_codes] in *;
  destruct st; cbn [timed] in *.
Ltac view v := intros strict v Hi; open_view v Hi.

(** The invariant of a view that is known. *)
Ltac inv_done :=
  split; cbn [v_state v_up v_pend v_seen v_retr v_maxconf v_maxterm v_reqid v_codes with_state with_up with_pend with_seen with_retr
    with_codes timed call_up]; naive_solver.

Ltac set_done := eapply triple_weaken; [apply triple_set_state|]; intros ? ? ->; inv_done.

Lemma inv_not_up strict st b p z r mc mt ri l :
  inv strict (View st b p z r mc mt ri l) -> st <> LS_OPENED -> b = false.
Proof. intros [_ Hu _ _ _] Hs. destruct b; [|done]. by destruct Hs; apply Hu. Qed.

Lemma keeps_lowerup : keeps (fsm_lowerup cb ta fa).
Proof.
  unfold fsm_lowerup. view v; try (apply triple_ret; inv_done); [set_done|].
  eapply triple_bind; [apply triple_gets|]. intros silent v0 ->. destruct silent; [set_done|].
  run triple_sconfreq. set_done.
Qed.

Ltac untimeout_done := eapply triple_weaken; [apply triple_UNTIMEOUT|]; intros ? ? ->; inv_done.
Ltac up_done := apply triple_tail_up; inv_done.
Ltac tail_done law := eapply triple_tail_call; [intros ? ?; by eapply law|inv_done|intros _; inv_done].

Lemma keeps_lowerdown : keeps (fsm_lowerdown cb ta fa).
Proof.
  unfold fsm_lowerdown. view v; try (apply triple_ret; inv_done).
  1: set_done.
  1: run triple_set_state; tail_done (@starting_law E cb ta fa L).
  all: try (run triple_set_state; untimeout_done).
  run triple_down. set_done.
Qed.

Lemma keeps_bind m k : keeps m -> keeps k -> keeps (_ ← m; k).
Proof. intros Hm Hk strict v Hv. eapply triple_bind; [by apply Hm|]. intros ? v' Hv'. by apply Hk. Qed.

Lemma keeps_when b m : keeps m -> keeps (when b m).
Proof. intros Hm strict v Hv. apply triple_when; [intros _; by apply Hm|done]. Qed.

Lemma keeps_open : keeps (fsm_open cb ta fa).
Proof.
  unfold fsm_open. set (restart := b ← gets (has_flag OPT_RESTART); when b _).
  assert (Hr : keeps restart).
  { intros strict v Hv. eapply triple_bind; [apply triple_gets|]. intros b v0 ->. apply (keeps_when b); [|done].
    apply keeps_bind; [apply keeps_lowerdown|apply keeps_lowerup]. }
  view v; try (apply triple_ret; inv_done).
  - run triple_set_state. tail_done (@starting_law E cb ta fa L).
  - eapply triple_bind; [apply triple_gets|]. intros silent v0 ->. destruct silent; [set_done|].
    run triple_sconfreq. set_done.
  - apply Hr. inv_done.
  - run triple_set_state. apply Hr. inv_done.
  - apply Hr. inv_done.
Qed.

Lemma triple_close_end v :
  triple v (_ ← upd (fun a => set_retransmits (maxtermtransmits a) a); _ ← send_termreq ta fa; upd (set_state LS_CLOSING))
    (fun _ v' => exists i, v' = View LS_CLOSING (v_up v) 1 (v_seen v) (v_maxterm v - 1) (v_maxconf v) (v_maxterm v) i
      (v_codes v ++ [(TERMREQ, i)]) /\ is_byte i).
Proof.
  run triple_maxterm. run triple_termreq. eapply triple_weaken; [apply triple_set_state|]. intros _ v' ->. eexists. split; [by destruct v|done].
Qed.

(** The octets of an event are in a buffer as long as it says. *)
Definition event_ok (e : event) : Prop :=
  match e with
  | Close reason => Forall is_byte reason
  | Input inpacket l => 0 <= l <= zlen inpacket /\ Forall is_byte inpacket
  | _ => True
  end.

Lemma triple_set_reason v reason :
  Forall is_byte reason -> triple v (upd (set_term_reason reason (zlen reason))) (fun _ v' => v' = v).
Proof.
  intros Hr w Hg <-. eexists _, _. split; [done|]. split; [|done]. destruct Hg. split; cbn; (done || lia).
Qed.

Lemma keeps_close reason : Forall is_byte reason -> keeps (fsm_close cb ta fa reason).
Proof.
  intros Hr strict v Hv. unfold fsm_close. eapply triple_bind; [by apply triple_set_reason|]. intros _ v0 ->.
  revert strict v Hv. view v; try (apply triple_ret; inv_done); try set_done.
  all: first [run triple_UNTIMEOUT|run triple_down].
  all: eapply triple_weaken; [apply triple_close_end|]; intros ? ? (? & -> & ?); inv_done.
Qed.

Lemma triple_skip {A} v (x : A) : triple v (mret x) (fun _ v' => v' = v).
Proof. by apply triple_ret. Qed.

Ltac decide_state := repeat first [rewrite bool_decide_true by done|rewrite bool_decide_false by done]; cbn [when negb].

Lemma keeps_protreject : keeps (fsm_protreject cb ta fa).
Proof.
  unfold fsm_protreject. view v; try (apply triple_ret; inv_done); decide_state.
  8: { run triple_down. run triple_maxterm. run triple_termreq. set_done. }
  all: first [run triple_UNTIMEOUT|run triple_skip].
  all: run triple_set_state; tail_done (@finished_law E cb ta fa L).
Qed.

Lemma keeps_sdata code i data n : data_ok data n -> keeps (fsm_sdata code i data n).
Proof.
  intros Hd strict v Hv. eapply triple_weaken; [by apply triple_sdata|]. intros ? ? ->. by eapply inv_ext; [..|exact Hv].
Qed.

(** The timer has just run out: a state that waits for it has none. *)
Lemma triple_timeout strict v :
  (timed (v_state v) = true -> v_pend v = O) -> (strict = true -> timed (v_state v) = false -> v_pend v = O) ->
  (v_up v = true -> v_state v = LS_OPENED) -> (v_state v = LS_ACKRCVD -> v_seen v <> 0) ->
  (strict = true -> v_state v = LS_OPENED -> v_up v = true) ->
  triple v (fsm_timeout cb ta fa) (fun _ v' => inv strict v').
Proof.
  intros Ht Hs Hu Ha Ho. unfold fsm_timeout. eapply triple_bind; [apply triple_state|]. intros s v0 [-> ->].
  eapply triple_bind; [apply triple_retr|]. intros n v0 [-> ->].
  destruct v as [st b p z r mc mt ri l]. cbn [v_state v_up v_pend v_seen v_retr v_maxconf v_maxterm v_reqid v_codes] in *.
  assert (Hgive_up : timed st = true -> triple (View st b p z r mc mt ri l)
    (_ ← upd (set_state LS_STOPPED); passive ← gets (has_flag OPT_PASSIVE);
     when (negb passive) (call_back Finished (finished cb))) (fun _ v' => inv strict v')).
  { intros Htm. run triple_set_state. eapply triple_bind; [apply triple_gets|]. intros passive v0 ->.
    apply triple_when; intros _; [tail_done (@finished_law E cb ta fa L)|inv_done]. }
  destruct st; cbn [timed] in *; try (apply triple_ret; inv_done); decide_state; destruct (r <=? 0).
  all: try (run triple_set_state; tail_done (@finished_law E cb ta fa L)).
  all: try (eapply triple_weaken; [apply triple_termreq|]; intros ? ? (? & -> & ?); inv_done).
  all: try (by apply Hgive_up).
  all: eapply triple_bind; [apply triple_invoke; intros ? ?; by eapply retransmit_law|]; intros ? ? Hx; cbv beta in Hx; subst.
  all: run triple_sconfreq; eapply triple_bind; [apply triple_state|]; intros ? ? [-> ->]; cbn [v_state]; decide_state.
  all: first [set_done|apply triple_ret; inv_done].
Qed.

(** The world in which [fsm_timeout] is called *)
Lemma good_expired (w : world E) t l :
  good ta fa w -> next_timeout (timeouts w) = t :: l -> is_own ta fa t = true ->
  let w1 := World (f w) (expire (timeouts w)) (outpacket_buf w) (peer_mru w) (sent w) (calls w) (own w) in
  good ta fa w1 /\ view_of ta fa w1 = with_pend 0 (view_of ta fa w).
Proof.
  intros Hg El Et w1.
  assert (Hp : pend ta fa (timeouts w) = S (own_entries ta fa l)) by (unfold pend; by rewrite El, own_entries_cons, Et).
  assert (Hp' : pend ta fa (expire (timeouts w)) = O).
  { pose proof (good_pend _ _ _ Hg). unfold pend, expire. cbn [next_timeout]. rewrite El. lia. }
  split.
  - destruct Hg as [H1 H2 H3 H4 H5 H6 H7 H8]. split; cbn [w1 f timeouts outpacket_buf peer_mru sent]; try done; [|lia].
    unfold room in *. rewrite Hp'. unfold expire. cbn [next_timeout]. rewrite El in *. cbn [length] in H1. lia.
  - unfold view_of, with_pend. cbn [w1 f timeouts calls sent]. by rewrite Hp'.
Qed.

Lemma keeps_expire : keeps (expire_own cb ta fa).
Proof.
  intros strict v Hv w Hg Hw. unfold expire_own. destruct (next_timeout (timeouts w)) as [|t l] eqn:El; [by exists tt, w; rewrite Hw|].
  change (bool_decide (h t = Other ta) && (arg t =? fa)) with (is_own ta fa t).
  destruct (is_own ta fa t) eqn:Et; [|by exists tt, w; rewrite Hw].
  destruct (good_expired w t l Hg El Et) as [Hg1 Hv1]. rewrite Hw in Hv1.
  refine (triple_timeout strict (with_pend 0 v) _ _ _ _ _ _ Hg1 Hv1); try done; apply Hv.
Qed.

Lemma keeps_rtermreq i : keeps (fsm_rtermreq cb ta fa i).
Proof.
  unfold fsm_rtermreq. view v; eapply triple_bind with (P := fun _ v' => inv strict v').
  all: try (intros ? v' Hv'; by apply (keeps_sdata TERMACK (u8 i) NULL 0)).
  all: try (apply triple_ret; inv_done).
  all: try set_done.
  run triple_down. run triple_set_retr. run triple_set_state.
  eapply triple_weaken; [apply triple_start_timer|]. intros ? ? ->. inv_done.
Qed.

Lemma triple_answer strict v i inp len :
  v_pend v = 1%nat -> v_up v = false -> (v_state v = LS_ACKRCVD -> v_seen v <> 0) -> octets_ok inp len ->
  triple v (answer_confreq cb ta fa i inp len) (fun _ v' => inv strict v').
Proof.
  intros Hp Hu Ha Hio. unfold answer_confreq. run triple_gets. eapply triple_bind; [apply triple_gets|]. intros max v' ->.
  eapply triple_bind with (P := fun '(_, inp', len') v' => v' = v /\ octets_ok inp' len').
  { destruct (reqci cb) as [m|] eqn:Em; [|by apply triple_ret].
    eapply triple_weaken; [by eapply reqci_law|]. by intros [[code inp'] len'] v' [-> H]. }
  intros [[code inp'] len'] v' [-> [Hl Hb]]. eapply triple_bind; [by apply triple_sdata|]. intros ? v' ->.
  eapply triple_bind; [apply triple_state|]. intros s v' [-> ->].
  destruct v as [st b p z r mc mt ri l]. cbn [v_state v_up v_pend v_seen with_codes v_codes] in *. subst.
  destruct (code =? CONFACK).
  - eapply triple_bind with (P := fun _ v' => inv strict v').
    2: { intros ? v' Hv'. eapply triple_weaken; [apply triple_set_nakloops|]. by intros ? ? ->. }
    destruct (decide (st = LS_ACKRCVD)) as [->|Hne]; decide_state; [|set_done].
    run triple_UNTIMEOUT. run triple_set_state. up_done.
  - eapply triple_bind with (P := fun _ v' => inv strict v').
    + destruct (decide (st = LS_ACKRCVD)) as [->|Hne]; decide_state; [apply triple_ret; inv_done|set_done].
    + intros ? v' Hv'. apply triple_when; [|done]. intros _. eapply triple_weaken; [apply triple_add_nakloops|]. by intros ? ? ->.
Qed.

Ltac answer_done :=
  apply triple_answer; cbn [v_state v_up v_pend v_seen];
  [auto|match goal with H : ?b = true -> _ |- ?b = false => by destruct b; [discriminate H|] end|auto; discriminate|assumption].

Lemma keeps_rconfreq i inp len :
  octets_ok inp len -> forall strict v, v_state v <> LS_INITIAL -> v_state v <> LS_STARTING -> inv strict v ->
  triple v (fsm_rconfreq cb ta fa i inp len) (fun _ v' => inv strict v').
Proof.
  intros Hio strict v Hn1 Hn2 Hi. unfold fsm_rconfreq. open_view v Hi; try done.
  - by apply keeps_sdata; [|inv_done].
  - run triple_sconfreq. run triple_set_state. apply triple_answer; try done. cbn. by destruct b; [discriminate Hu|].
  - apply triple_ret. inv_done.
  - apply triple_ret. inv_done.
  - answer_done.
  - answer_done.
  - answer_done.
  - run triple_down. run triple_sconfreq. by apply triple_answer.
Qed.

Lemma triple_go_down v :
  triple v (go_down cb ta fa) (fun _ v' =>
    exists i, v' = View LS_REQSENT false 1 0 (v_maxconf v - 1) (v_maxconf v) (v_maxterm v) i (v_codes v ++ [(CONFREQ, i)]) /\
      is_byte i).
Proof.
  unfold go_down. run triple_down. run triple_sconfreq. eapply triple_weaken; [apply triple_set_state|].
  intros ? ? ->. eexists. split; [done|tauto].
Qed.

(** An answer to a request that is not the one expected, or was answered. *)
Lemma triple_expected strict v i (m : M E unit) :
  inv strict v -> (v_seen v = 0 -> triple v m (fun _ v' => inv strict v')) ->
  triple v (r ← gets reqid; seen ← gets seen_ack; if negb (i =? r) || negb (seen =? 0) then mret tt else m)
    (fun _ v' => inv strict v').
Proof.
  intros Hi Hm. eapply triple_bind; [apply triple_gets|]. intros r v0 ->. eapply triple_bind; [apply triple_seen|].
  intros z v0 [-> ->]. destruct (negb (i =? r)); [by apply triple_ret|]. destruct (Z.eqb_spec (v_seen v) 0) as [Hz|Hz]; cbn [negb orb].
  - by apply Hm.
  - by apply triple_ret.
Qed.

Ltac sdata_done := eapply triple_weaken; [by apply triple_sdata|]; intros ? ? ->; inv_done.
Ltac go_down_done := eapply triple_weaken; [apply triple_go_down|]; intros ? ? (? & -> & ?); inv_done.

Lemma keeps_rconfack i inp len : octets_ok inp len -> keeps (fsm_rconfack cb ta fa i inp len).
Proof.
  intros Hio strict v Hi. apply triple_expected; [done|]. intros Hz.
  eapply triple_bind with (P := fun _ v' => v' = v).
  { destruct (ackci cb) as [m|] eqn:Em; [|by apply triple_ret]. eapply triple_weaken; [by eapply ackci_law|]. by intros ? ? [-> _]. }
  intros good_ ? ->. destruct (good_ =? 0); [by apply triple_ret|]. run triple_set_seen.
  open_view v Hi; try (apply triple_ret; inv_done).
  - sdata_done.
  - sdata_done.
  - run triple_set_state. eapply triple_weaken; [apply triple_maxconf|]. intros ? ? ->. inv_done.
  - by destruct Ha.
  - run triple_UNTIMEOUT. run triple_set_state. run triple_maxconf. up_done.
  - go_down_done.
Qed.

Lemma keeps_rconfnakrej code i inp len : octets_ok inp len -> keeps (fsm_rconfnakrej cb ta fa code i inp len).
Proof.
  intros Hio strict v Hi. apply triple_expected; [done|]. intros Hz.
  eapply triple_bind with (P := fun _ v' => v' = v).
  { destruct (code =? CONFNAK).
    - destruct (nakci cb) as [m|] eqn:Em; [|by apply triple_ret]. eapply triple_weaken; [by eapply nakci_law|]. by intros ? ? [-> _].
    - destruct (rejci cb) as [m|] eqn:Em; [|by apply triple_ret]. eapply triple_weaken; [by eapply rejci_law|]. by intros ? ? [-> _]. }
  intros ret ? ->. destruct (ret =? 0); [by apply triple_ret|]. run triple_set_seen.
  open_view v Hi; try (apply triple_ret; inv_done).
  - sdata_done.
  - sdata_done.
  - run triple_UNTIMEOUT. destruct (ret <? 0); [set_done|]. eapply triple_weaken; [apply triple_sconfreq|]. intros ? ? (? & -> & ?). inv_done.
  - by destruct Ha.
  - run triple_UNTIMEOUT. destruct (ret <? 0); [set_done|]. eapply triple_weaken; [apply triple_sconfreq|]. intros ? ? (? & -> & ?). inv_done.
  - go_down_done.
Qed.

(** Not strictly when the automaton is open. *)
Lemma keeps_rtermack strict v :
  (strict = true -> v_state v <> LS_OPENED) -> inv strict v -> triple v (fsm_rtermack cb ta fa) (fun _ v' => inv strict v').
Proof.
  intros Hno Hi. unfold fsm_rtermack. open_view v Hi; try (apply triple_ret; inv_done).
  - run triple_UNTIMEOUT. run triple_set_state. tail_done (@finished_law E cb ta fa L).
  - run triple_UNTIMEOUT. run triple_set_state. tail_done (@finished_law E cb ta fa L).
  - set_done.
  - run triple_down. eapply triple_weaken; [apply triple_sconfreq|]. intros ? ? (? & -> & ?). inv_done.
Qed.

Lemma keeps_rcoderej len : keeps (fsm_rcoderej len).
Proof.
  intros strict v Hi. unfold fsm_rcoderej. destruct (len <? HEADERLEN); [by apply triple_ret|].
  open_view v Hi; decide_state; first [set_done|apply triple_ret; inv_done].
Qed.

(** The event that loses track of the timer *)
Definition termack_when_open (e : event) (s : link_state) : Prop :=
  s = LS_OPENED /\ exists rest l, e = Input (TERMACK :: rest) l.

Lemma keeps_input strict v inpacket l :
  event_ok (Input inpacket l) -> (strict = true -> ~ termack_when_open (Input inpacket l) (v_state v)) -> inv strict v ->
  triple v (fsm_input cb ta fa inpacket l) (fun _ v' => inv strict v').
Proof.
  intros [Hl Hb] Hstrict Hi. unfold fsm_input. destruct (Z.ltb_spec l HEADERLEN); [by apply triple_ret|].
  destruct inpacket as [|code [|i [|hi [|lo inp]]]]; try (unfold HEADERLEN in *; cbn in Hl; lia).
  set (n := Z.lor (Z.shiftl hi 8) lo). destruct (Z.ltb_spec n HEADERLEN) as [|Hn]; [by apply triple_ret|].
  destruct (Z.ltb_spec l n) as [|Hln]; [by apply triple_ret|].
  eapply triple_bind; [apply triple_state|]. intros s v' [-> ->].
  assert (Hinp : octets_ok inp (n - HEADERLEN)).
  { unfold octets_ok, HEADERLEN in *. cbn [length] in Hl. apply Forall_cons_iff in Hb as [_ Hb].
    apply Forall_cons_iff in Hb as [_ Hb]. apply Forall_cons_iff in Hb as [_ Hb]. apply Forall_cons_iff in Hb as [_ Hb]. split; [lia|done]. }
  destruct (bool_decide_reflect (v_state v = LS_INITIAL)) as [|H1]; [by apply triple_ret|].
  destruct (bool_decide_reflect (v_state v = LS_STARTING)) as [|H2]; [by apply triple_ret|]. cbn [orb].
  destruct (code =? CONFREQ); [by apply keeps_rconfreq|]. destruct (code =? CONFACK); [by apply keeps_rconfack|].
  destruct ((code =? CONFNAK) || (code =? CONFREJ)); [by apply keeps_rconfnakrej|].
  destruct (code =? TERMREQ); [by apply keeps_rtermreq|]. destruct (Z.eqb_spec code TERMACK) as [->|].
  { apply keeps_rtermack; [|done]. intros Hs Ho. apply Hstrict; [done|]. split; [done|by eexists _, _]. }
  destruct (code =? CODEREJ); [by apply keeps_rcoderej|].
  eapply triple_bind with (P := fun _ v' => inv strict v').
  { destruct (extcode cb) as [m|] eqn:Em; [|by apply triple_ret]. by eapply (@extcode_law E cb ta fa L). }
  intros known v' Hv'. apply triple_when; [|done]. intros _. run triple_set_ids. run triple_gets.
  apply keeps_sdata; [|done]. split; [|done]. unfold HEADERLEN in *. lia.
Qed.

Lemma keeps_handle strict v e :
  event_ok e -> (strict = true -> ~ termack_when_open e (v_state v)) -> inv strict v ->
  triple v (handle cb ta fa e) (fun _ v' => inv strict v').
Proof.
  intros He Hs Hi. destruct e; cbn [handle].
  - by apply keeps_lowerup.
  - by apply keeps_lowerdown.
  - by apply keeps_open.
  - by apply keeps_close.
  - by apply keeps_expire.
  - by apply keeps_input.
  - by apply keeps_protreject.
Qed.
End Handlers_ok.
