(* ===== verification/PppRun.v ===== *)
(** * Runs of the PPP automaton ([fsm.c])

    What holds in every run of the automaton of [PppFsm], for every protocol
    that keeps the laws; what it does when the peer is silent; two automata that
    negotiate with each other; and an example protocol for concrete runs. *)

From S2P Require Export PppFsm.

(** ** Runs *)

(** What the rest of the program may do between events: move other timeouts,
    change the MRU of the peer within the buffer, and its own state. *)
Definition others_act {E} (ta fa : Z) (w w' : world E) : Prop :=
  f w' = f w /\ sent w' = sent w /\ calls w' = calls w /\ outpacket_buf w' = outpacket_buf w /\
  pend ta fa (timeouts w') = pend ta fa (timeouts w) /\ room ta fa (timeouts w') /\ HEADERLEN <= peer_mru w' <= PPP_MRU.

Section Runs.
Context {E : Type} (cb : fsm_callbacks E) (ta fa : Z).

(** Before [fsm_init] of an automaton with any contents *)
Record fresh (w : world E) (a : fsm) : Prop := {
  fresh_f : f w = fsm_init a;
  fresh_octets : is_byte (reqid a) /\ Forall is_byte (term_reason a);
  fresh_timeouts : pend ta fa (timeouts w) = O /\ room ta fa (timeouts w);
  fresh_buf : zlen (outpacket_buf w) = PPP_MRU + PPP_HDRLEN /\ Forall is_byte (outpacket_buf w);
  fresh_mru : HEADERLEN <= peer_mru w <= PPP_MRU;
  fresh_trace : sent w = [] /\ calls w = [] }.

(** [strict]: no Terminate-Ack comes while the automaton is open. *)
Inductive reachable (strict : bool) : world E -> Prop :=
  | reach_init w a : fresh w a -> reachable strict w
  | reach_event w e w' :
      reachable strict w -> event_ok e -> (strict = true -> ~ termack_when_open e (state (f w))) ->
      handle cb ta fa e w = Some (tt, w') -> reachable strict w'
  | reach_others w w' : reachable strict w -> others_act ta fa w w' -> reachable strict w'.

Lemma good_others (w w' : world E) : others_act ta fa w w' -> good ta fa w -> good ta fa w' /\ view_of ta fa w' = view_of ta fa w.
Proof.
  intros (E1 & E2 & E3 & E4 & E5 & E6 & E7) []. split; [split; rewrite ?E1, ?E2, ?E4, ?E5; done|].
  unfold view_of. by rewrite E1, E2, E3, E5.
Qed.

Lemma fresh_good strict w a : fresh w a -> good ta fa w /\ inv strict (view_of ta fa w).
Proof.
  intros [Ef [Hr Ho] [Hp Hroom] [Hb Hbo] Hm [Hs Hc]]. split.
  - split; rewrite ?Ef; cbn [fsm_init term_reason term_reason_len reqid]; try done; [lia|lia|]. by rewrite Hs.
  - unfold view_of. rewrite Ef, Hs, Hc, Hp. by split.
Qed.

Context {L : CallbackLaws cb ta fa}.

Lemma reachable_inv strict w : reachable strict w -> good ta fa w /\ inv strict (view_of ta fa w).
Proof.
  induction 1 as [w a Hf|w e w' _ [Hg Hi] He Hs Hh|w w' _ [Hg Hi] Ho]; [by eapply fresh_good| |].
  - destruct (keeps_handle cb ta fa strict (view_of ta fa w) e He Hs Hi w Hg eq_refl) as (u & w1 & E1 & Hg1 & Hi1).
    rewrite Hh in E1. by injection E1 as _ <-.
  - destruct (good_others _ _ Ho Hg) as [Hg' ->]. done.
Qed.

Lemma handle_returns w e : good ta fa w -> inv false (view_of ta fa w) -> event_ok e -> exists w', handle cb ta fa e w = Some (tt, w').
Proof.
  intros Hg Hi He. destruct (keeps_handle cb ta fa false (view_of ta fa w) e He ltac:(done) Hi w Hg eq_refl) as ([] & w1 & E1 & _). by exists w1.
Qed.

Lemma reachable_weaken strict w : reachable strict w -> reachable false w.
Proof. induction 1; [by eapply reach_init|by eapply reach_event|by eapply reach_others]. Qed.

(** The codes and identifiers of the packets that were sent *)
Definition codes (w : world E) : list (Z * Z) := map (fun p => (nth 4 p 0, nth 5 p 0)) (sent w).

(** The upper layer has been told [Up] last. *)
Definition upper_up (w : world E) : bool := foldl call_up false (calls w).

(** A handler in terms of views, from a world on *)
Lemma triple_run {A} (w : world E) (m : M E A) Q :
  triple ta fa (view_of ta fa w) m Q -> good ta fa w ->
  exists a w', m w = Some (a, w') /\ good ta fa w' /\ Q a (view_of ta fa w').
Proof. intros Hm Hg. by apply Hm. Qed.

(** C9: In every run of the automaton, for any protocol whose callbacks keep
    their laws: the next event is handled without leaving a buffer; what was
    sent are packets of the protocol, no longer than the peer takes; the
    retransmission timer runs, once, in the five states that wait for an
    answer; the upper layer is not up but in [LS_OPENED]; and the answer that
    led to [LS_ACKRCVD] has been counted, so an extra valid Ack or Nak cannot
    come there.  If no Terminate-Ack comes in [LS_OPENED], the timer does not
    run in the other states and the upper layer is up just in [LS_OPENED]. *)
Theorem automaton_invariant strict w :
  reachable strict w ->
  (forall e, event_ok e -> exists w', handle cb ta fa e w = Some (tt, w')) /\
  Forall (well_formed (protocol (f w))) (sent w) /\
  (pend ta fa (timeouts w) <= 1)%nat /\
  (timed (state (f w)) = true -> pend ta fa (timeouts w) = 1%nat) /\
  (upper_up w = true -> state (f w) = LS_OPENED) /\
  (state (f w) = LS_ACKRCVD -> seen_ack (f w) <> 0) /\
  (strict = true ->
    (timed (state (f w)) = false -> pend ta fa (timeouts w) = O) /\ (state (f w) = LS_OPENED -> upper_up w = true)).
Proof.
  intros H. destruct (reachable_inv _ _ H) as [Hg [Ht Hu Ha Hs Ho]].
  destruct (reachable_inv _ _ (reachable_weaken _ _ H)) as [_ Hi].
  split; [by intros e; apply handle_returns|]. split; [apply Hg|]. split; [apply Hg|]. split; [done|]. split; [done|]. split; [done|].
  intros Hst. split; [by apply Hs|by apply Ho].
Qed.

(** *** A Terminate-Ack for an automaton that is open *)

Lemma timeout_unhandled (w : world E) : state (f w) = LS_OPENED -> fsm_timeout cb ta fa w = Some (tt, w).
Proof. intros Hs. unfold fsm_timeout, mbind, M_bind, gets. by rewrite Hs. Qed.

Lemma open_termack w i rest l :
  good ta fa w -> state (f w) = LS_OPENED -> 4 <= l ->
  exists w1, fsm_input cb ta fa (TERMACK :: i :: 0 :: 4 :: rest) l w = Some (tt, w1) /\ good ta fa w1 /\
    exists j, view_of ta fa w1 = View LS_OPENED false 1 0 (maxconfreqtransmits (f w) - 1) (maxconfreqtransmits (f w))
      (maxtermtransmits (f w)) j (codes w ++ [(CONFREQ, j)]).
Proof.
  intros Hg Hs Hl. unfold fsm_input. rewrite (proj2 (Z.ltb_ge l HEADERLEN)) by (unfold HEADERLEN; lia).
  change (Z.lor (Z.shiftl 0 8) 4) with 4. rewrite (proj2 (Z.ltb_ge l 4)) by done. cbn -[fsm_rtermack zlen].
  unfold mbind at 1, M_bind at 1. cbn [gets]. rewrite Hs. cbn -[fsm_rtermack].
  assert (Ht : triple ta fa (view_of ta fa w) (fsm_rtermack cb ta fa) (fun _ v' => exists j,
    v' = View LS_OPENED false 1 0 (maxconfreqtransmits (f w) - 1) (maxconfreqtransmits (f w)) (maxtermtransmits (f w)) j
      (codes w ++ [(CONFREQ, j)]))).
  { unfold fsm_rtermack. eapply triple_bind; [apply triple_state|]. intros s ? [-> ->]. cbn [v_state view_of]. rewrite Hs.
    eapply triple_bind; [by eapply triple_down|]. intros _ ? ->. eapply triple_weaken; [by eapply triple_sconfreq|].
    intros _ ? (j & -> & _). exists j. cbn. by rewrite Hs. }
  destruct (Ht w Hg eq_refl) as ([] & w1 & E1 & Hg1 & H1). by exists w1.
Qed.

(** C39: A Terminate-Ack that comes in [LS_OPENED] tells the upper layer that
    the connection is down and sends a Configure-Request, but leaves the
    state at [LS_OPENED].  The timer for sending the request again is
    started, but when it runs out nothing is done in this state: no packet is
    sent, no callback called, and no timer is left. *)
Theorem termack_stays_open w i rest l :
  reachable true w -> state (f w) = LS_OPENED -> 4 <= l ->
  upper_up w = true /\
  exists w1, handle cb ta fa (Input (TERMACK :: i :: 0 :: 4 :: rest) l) w = Some (tt, w1) /\
    state (f w1) = LS_OPENED /\ upper_up w1 = false /\ pend ta fa (timeouts w1) = 1%nat /\
    (exists j, codes w1 = codes w ++ [(CONFREQ, j)]) /\
    forall t l2, next_timeout (timeouts w1) = t :: l2 -> is_own ta fa t = true ->
      exists w2, handle cb ta fa Timeout w1 = Some (tt, w2) /\
        f w2 = f w1 /\ sent w2 = sent w1 /\ calls w2 = calls w1 /\ pend ta fa (timeouts w2) = O.
Proof.
  intros Hr Hs Hl. destruct (reachable_inv _ _ Hr) as [Hg Hi]. split; [by apply Hi|].
  destruct (open_termack w i rest l Hg Hs Hl) as (w1 & E1 & Hg1 & j & Hv). exists w1.
  assert (Hs1 : state (f w1) = LS_OPENED) by exact (f_equal v_state Hv).
  split; [exact E1|]. split; [done|]. split; [exact (f_equal v_up Hv)|]. split; [exact (f_equal v_pend Hv)|].
  split; [exists j; exact (f_equal v_codes Hv)|]. intros t l2 El Ht. cbn [handle]. unfold expire_own. rewrite El.
  change (_ && _) with (is_own ta fa t). rewrite Ht. unfold mbind, M_bind. cbn [upd_timeouts].
  eexists. split; [by apply timeout_unhandled|]. do 3 (split; [done|]). cbn [timeouts].
  assert (Hp : pend ta fa (timeouts w1) = 1%nat) by exact (f_equal v_pend Hv).
  unfold pend, expire in *. cbn [next_timeout]. rewrite El in *. rewrite own_entries_cons, Ht in Hp. cbn [tl]. lia.
Qed.
End Runs.

(** ** A peer that is silent *)

Section Silence.
Context {E : Type} (cb : fsm_callbacks E) (ta fa : Z) {L : CallbackLaws cb ta fa}.
Abbreviation triple := (@triple E ta fa _).
(** The protocol does not start again when it is told that it is finished. *)
Context (finished_quiet : forall m, finished cb = Some m -> quiet ta fa m (fun _ => True)).

(** A run without events but [n] timeouts of the automaton *)
Inductive silence (w : world E) : nat -> world E -> Prop :=
  | silence_start : silence w O w
  | silence_others n w1 w2 : silence w n w1 -> others_act ta fa w1 w2 -> silence w n w2
  | silence_timeout n w1 w2 t l :
      silence w n w1 -> next_timeout (timeouts w1) = t :: l -> is_own ta fa t = true ->
      handle cb ta fa Timeout w1 = Some (tt, w2) -> silence w (S n) w2.

(** What a state sends again, and where it gives up *)
Definition request (s : link_state) : Z := if negotiating s then CONFREQ else TERMREQ.
Definition given_up (s : link_state) : link_state := match s with LS_CLOSING => LS_CLOSED | _ => LS_STOPPED end.
Definition after_retry (s : link_state) : link_state := match s with LS_ACKRCVD => LS_REQSENT | _ => s end.

Lemma triple_finished v : triple v (call_back Finished (finished cb)) (fun _ v' => v' = v).
Proof.
  destruct (finished cb) as [m|] eqn:Em; [|by apply triple_ret]. apply call_back_record.
  eapply triple_weaken; [by apply finished_quiet|]. intros _ v' [-> _]. by destruct v.
Qed.

Lemma triple_give_up v :
  timed (v_state v) = true -> v_retr v <= 0 ->
  triple v (fsm_timeout cb ta fa) (fun _ v' => v' = with_state (given_up (v_state v)) v).
Proof.
  intros Ht Hn. unfold fsm_timeout. eapply triple_bind; [apply triple_state|]. intros s ? [-> ->].
  eapply triple_bind; [apply triple_retr|]. intros n ? [-> ->]. rewrite (proj2 (Z.leb_le _ _) Hn).
  assert (Hend : forall v', triple v' (call_back Finished (finished cb)) (fun _ v'' => v'' = v')) by (intros; apply triple_finished).
  assert (Hstop : triple v (_ ← upd (set_state LS_STOPPED); passive ← gets (has_flag OPT_PASSIVE);
    when (negb passive) (call_back Finished (finished cb))) (fun _ v' => v' = with_state LS_STOPPED v)).
  { eapply triple_bind; [apply triple_set_state|]. intros _ ? ->. eapply triple_bind; [apply triple_gets|]. intros b ? ->.
    by apply triple_when. }
  destruct (v_state v) eqn:Es; try discriminate Ht; try exact Hstop;
    (eapply triple_bind; [apply triple_set_state|]; intros _ ? ->; apply Hend).
Qed.

Lemma triple_retry v :
  timed (v_state v) = true -> 0 < v_retr v ->
  triple v (fsm_timeout cb ta fa) (fun _ v' =>
    v_state v' = after_retry (v_state v) /\ v_pend v' = 1%nat /\ v_retr v' = v_retr v - 1 /\
    map fst (v_codes v') = map fst (v_codes v) ++ [request (v_state v)]).
Proof.
  intros Ht Hn. unfold fsm_timeout. eapply triple_bind; [apply triple_state|]. intros s ? [-> ->].
  eapply triple_bind; [apply triple_retr|]. intros n ? [-> ->]. rewrite (proj2 (Z.leb_gt _ _) Hn).
  assert (Hterm : triple v (send_termreq ta fa) (fun _ v' => v_state v' = v_state v /\ v_pend v' = 1%nat /\
    v_retr v' = v_retr v - 1 /\ map fst (v_codes v') = map fst (v_codes v) ++ [TERMREQ])).
  { eapply triple_weaken; [apply triple_termreq|]. intros _ ? (i & -> & _). cbn. by rewrite map_app. }
  assert (Hconf : triple v (_ ← invoke (retransmit cb); _ ← fsm_sconfreq cb ta fa true; s ← gets state;
      when (bool_decide (s = LS_ACKRCVD)) (upd (set_state LS_REQSENT))) (fun _ v' =>
    v_state v' = after_retry (v_state v) /\ v_pend v' = 1%nat /\
    v_retr v' = v_retr v - 1 /\ map fst (v_codes v') = map fst (v_codes v) ++ [CONFREQ])).
  { eapply triple_bind; [by apply triple_invoke; eapply retransmit_law|]. intros _ ? ->.
    eapply triple_bind; [by eapply triple_sconfreq|]. intros _ ? (i & -> & _). eapply triple_bind; [apply triple_state|].
    intros s ? [-> ->]. cbn [v_state]. apply triple_when; intros Hb.
    - apply bool_decide_eq_true in Hb. eapply triple_weaken; [apply triple_set_state|]. intros _ ? ->. cbn. rewrite Hb, map_app. done.
    - apply bool_decide_eq_false in Hb. cbn. rewrite map_app. split; [by destruct (v_state v)|done]. }
  destruct (v_state v) eqn:Es; try discriminate Ht; first [exact Hterm|exact Hconf].
Qed.

(** The timer runs out: a handler that finds it gone. *)
Lemma timeout_run (w : world E) t l Q :
  good ta fa w -> next_timeout (timeouts w) = t :: l -> is_own ta fa t = true ->
  triple (with_pend 0 (view_of ta fa w)) (fsm_timeout cb ta fa) Q ->
  exists w', handle cb ta fa Timeout w = Some (tt, w') /\ good ta fa w' /\ Q tt (view_of ta fa w').
Proof.
  intros Hg El Ht Hm. destruct (good_expired ta fa w t l Hg El Ht) as [Hg1 Hv1].
  destruct (Hm _ Hg1 Hv1) as ([] & w' & E1 & Hg' & HQ). exists w'. split; [|done].
  cbn [handle]. unfold expire_own. rewrite El. change (_ && _) with (is_own ta fa t). rewrite Ht. exact E1.
Qed.

Definition waiting (w w' : world E) (n : nat) : Prop :=
  timed (state (f w')) = true /\ given_up (state (f w')) = given_up (state (f w)) /\ request (state (f w')) = request (state (f w)) /\
  pend ta fa (timeouts w') = 1%nat /\ retransmits (f w') = retransmits (f w) - Z.of_nat n /\
  map fst (codes w') = map fst (codes w) ++ replicate n (request (state (f w))).

Definition ended (w w' : world E) (n : nat) : Prop :=
  state (f w') = given_up (state (f w)) /\ pend ta fa (timeouts w') = O /\
  map fst (codes w') = map fst (codes w) ++ replicate n (request (state (f w))).

Lemma given_up_retry s : given_up (after_retry s) = given_up s /\ request (after_retry s) = request s.
Proof. by destruct s. Qed.

Lemma waiting_others w w1 w2 n : others_act ta fa w1 w2 -> waiting w w1 n -> waiting w w2 n.
Proof. unfold waiting, codes. by intros (-> & -> & _ & _ & -> & _). Qed.

Lemma ended_others w w1 w2 n : others_act ta fa w1 w2 -> ended w w1 n -> ended w w2 n.
Proof. unfold ended, codes. by intros (-> & -> & _ & _ & -> & _). Qed.

Lemma waiting_timeout w w1 n t l :
  good ta fa w1 -> waiting w w1 n -> next_timeout (timeouts w1) = t :: l -> is_own ta fa t = true ->
  exists w2, handle cb ta fa Timeout w1 = Some (tt, w2) /\ good ta fa w2 /\
    if Z.of_nat n <? retransmits (f w) then waiting w w2 (S n) else ended w w2 n.
Proof.
  intros Hg (Ht & Hu & Hr & Hp & Hn & Hc) El Eo. destruct (Z.ltb_spec (Z.of_nat n) (retransmits (f w))) as [Hlt|Hge].
  - destruct (timeout_run w1 t l _ Hg El Eo (triple_retry (with_pend 0 (view_of ta fa w1)) Ht ltac:(cbn; lia)))
      as (w2 & E2 & Hg2 & Hs2 & Hp2 & Hn2 & Hc2).
    exists w2. split; [done|]. split; [done|]. unfold waiting. cbn in Hs2, Hp2, Hn2, Hc2. rewrite Hs2.
    destruct (given_up_retry (state (f w1))) as [-> ->]. split; [by destruct (state (f w1))|]. do 2 (split; [done|]).
    split; [done|]. split; [lia|]. unfold codes in *. rewrite Hc2, Hc, Hr, <- app_assoc. f_equal. by rewrite <- replicate_cons_app.
  - destruct (timeout_run w1 t l _ Hg El Eo (triple_give_up (with_pend 0 (view_of ta fa w1)) Ht ltac:(cbn; lia)))
      as (w2 & E2 & Hg2 & Hv2).
    exists w2. split; [done|]. split; [done|]. split; [by rewrite <- Hu; exact (f_equal v_state Hv2)|].
    split; [exact (f_equal v_pend Hv2)|]. unfold codes in *. rewrite <- Hc. exact (f_equal (fun v => map fst (v_codes v)) Hv2).
Qed.

Lemma silence_progress w n w1 :
  silence w n w1 -> good ta fa w1 -> waiting w w1 n -> exists w2, silence w (S n) w2.
Proof.
  intros Hs Hg Hw. set (t := Timeo 0 (Other ta) fa).
  set (w' := World (f w1) (Timers [t] (tcpip_tcp_timer_active (timeouts w1))) (outpacket_buf w1) (peer_mru w1) (sent w1) (calls w1) (own w1)).
  assert (Et : is_own ta fa t = true) by (unfold is_own; cbn [t h arg]; by rewrite bool_decide_true, Z.eqb_refl).
  assert (Hp : pend ta fa (timeouts w') = 1%nat) by (unfold pend; cbn [w' timeouts next_timeout]; by rewrite own_entries_cons, Et).
  assert (Ho : others_act ta fa w1 w').
  { do 4 (split; [done|]). split; [by destruct Hw as (_ & _ & _ & -> & _)|]. split; [unfold room; by rewrite Hp|apply Hg]. }
  destruct (good_others _ _ _ _ Ho Hg) as [Hg' _].
  destruct (waiting_timeout w w' n t [] Hg' (waiting_others _ _ _ _ Ho Hw) eq_refl Et) as (w2 & E2 & _).
  exists w2. by apply (silence_timeout w n w' w2 t []); [apply (silence_others w n w1)|..].
Qed.

(** C23: When the peer is silent, the automaton in a state that waits for an
    answer, with [k] transmissions left, sends its request again at each of
    the next [k] timeouts, gives up at the one after them, to [LS_STOPPED]
    or [LS_CLOSED], and no timer is left.  It takes no more than these
    timeouts, and none of them fails or is missing. *)
Theorem silent_peer w n w' :
  reachable cb ta fa false w -> timed (state (f w)) = true -> 0 <= retransmits (f w) -> silence w n w' ->
  let k := Z.to_nat (retransmits (f w)) in
  ((n <= k)%nat /\ waiting w w' n /\ exists w'', silence w (S n) w'') \/ (n = S k /\ ended w w' k).
Proof.
  intros Hr Ht Hk Hs k. destruct (reachable_inv _ _ _ _ _ Hr) as [Hg Hi].
  assert (H : good ta fa w' /\ (((n <= k)%nat /\ waiting w w' n) \/ (n = S k /\ ended w w' k))).
  { induction Hs as [|n w1 w2 Hs [Hg1 IH] Ho|n w1 w2 t l Hs [Hg1 IH] El Eo E2].
    - split; [done|]. left. split; [lia|]. do 3 (split; [done|]). split; [by apply Hi|]. split; [lia|by rewrite app_nil_r].
    - split; [by eapply good_others|]. destruct IH as [[Hn IH]|[Hn IH]]; [left|right]; (split; [done|]);
        [by eapply waiting_others|by eapply ended_others].
    - destruct IH as [[Hn IH]|[Hn (_ & Hp & _)]].
      + destruct (waiting_timeout w w1 n t l Hg1 IH El Eo) as (w3 & E3 & Hg3 & H3). rewrite E2 in E3. injection E3 as <-.
        split; [done|]. destruct (Z.ltb_spec (Z.of_nat n) (retransmits (f w))); [left|right]; (split; [lia|]); [done|].
        by replace k with n by lia.
      + unfold pend in Hp. rewrite El, own_entries_cons, Eo in Hp. lia. }
  destruct H as [Hg' [[Hn Hw]|H]]; [left|by right]. split; [done|]. split; [done|]. by apply (silence_progress w n w').
Qed.
End Silence.

(** ** Two automata *)

(** A packet as the protocol at the other end gets it *)
Definition arrived (p : list Z) : event := Input (drop 4 p) (zlen p - 4).

Definition is_packet (p : list Z) (code i : Z) : Prop :=
  (exists proto, well_formed proto p) /\ nth 4 p 0 = code /\ nth 5 p 0 = i.

Lemma length_octets n : 0 <= n < 65536 -> Z.lor (Z.shiftl (u8 (Z.shiftr n 8)) 8) (Z.land n 0xff) = n.
Proof.
  intros Hn. assert (Z.shiftr n 8 < 256) by (rewrite Z.shiftr_div_pow2 by lia; apply Z.div_lt_upper_bound; lia).
  rewrite u8_id by (split; [apply Z.shiftr_nonneg; lia|done]). apply Z.bits_inj'. intros k Hk.
  rewrite Z.lor_spec, Z.shiftl_spec, Z.land_spec by done. change 0xff with (Z.ones 8). rewrite Z.testbit_ones_nonneg by lia.
  destruct (Z.ltb_spec k 8).
  - rewrite (Z.testbit_neg_r _ (k - 8)) by lia. by rewrite andb_true_r.
  - rewrite Z.shiftr_spec, andb_false_r, orb_false_r by lia. f_equal. lia.
Qed.

(** What is in a packet *)
Lemma packet_contents p code i :
  is_packet p code i -> exists hi lo data,
    drop 4 p = code :: i :: hi :: lo :: data /\ Z.lor (Z.shiftl hi 8) lo = zlen data + 4 /\ zlen p - 4 = zlen data + 4 /\
    Forall is_byte data.
Proof.
  intros [(proto & c & j & data & -> & Hl & Hd) [<- <-]]. unfold ctl_packet. cbn [nth app drop].
  eexists _, _, data. split; [reflexivity|]. unfold HEADERLEN, PPP_MRU in *. split; [apply length_octets; lia|]. cbn [length]. split; [lia|done].
Qed.

Section Side.
Context {E : Type} (cb : fsm_callbacks E) (ta fa : Z) {L : CallbackLaws cb ta fa}.

(** A protocol that is content with any options, and with being up *)
Class Agrees : Prop := {
  agrees_req : exists m, reqci cb = Some m /\ forall inp len b, octets_ok inp len ->
    quiet ta fa (m inp len b) (fun '(code, inp', len') => code = CONFACK /\ octets_ok inp' len');
  agrees_ack : exists m, ackci cb = Some m /\ forall inp len, octets_ok inp len -> quiet ta fa (m inp len) (fun r => r <> 0);
  agrees_up m : up cb = Some m -> quiet ta fa m (fun _ => True) }.
Context {A : Agrees}.
Abbreviation triple := (@triple E ta fa _).

(** One end after [r] of the two packets it is to get *)
Definition end_state (r : nat) : link_state := match r with O => LS_REQSENT | 1%nat => LS_ACKSENT | _ => LS_OPENED end.
Definition side (w : world E) (r : nat) : Prop :=
  good ta fa w /\ state (f w) = end_state r /\ upper_up w = (2 <=? r)%nat /\
  pend ta fa (timeouts w) = (if (2 <=? r)%nat then O else 1%nat) /\ ((r < 2)%nat -> seen_ack (f w) = 0).

(** The packets a handler has sent *)
Definition new_packets (w w' : world E) : list (list Z) := drop (length (sent w)) (sent w').

Lemma new_packets_codes w w' l :
  good ta fa w' -> codes w' = codes w ++ l -> Forall2 (fun p '(code, i) => is_packet p code i) (new_packets w w') l.
Proof.
  intros Hg Hc. assert (Hm : map (fun p => (nth 4 p 0, nth 5 p 0)) (new_packets w w') = l).
  { unfold new_packets. rewrite <- skipn_map. unfold codes in Hc. rewrite Hc. apply drop_app_length'. by rewrite length_map. }
  assert (Hw : Forall (well_formed (protocol (f w'))) (new_packets w w')) by apply Forall_drop, Hg.
  clear Hc. revert Hw. rewrite <- Hm. clear Hm. generalize (new_packets w w') as ps.
  intros ps Hw. induction Hw as [|p ps Hp Hps IH]; [constructor|]. cbn [map]. constructor; [|done]. split; [by eexists|done].
Qed.

(** The packet reaches its handler. *)
Lemma input_packet (w : world E) p code i (m : M E unit) Q :
  is_packet p code i -> good ta fa w -> state (f w) <> LS_INITIAL -> state (f w) <> LS_STARTING ->
  (forall inp, Forall is_byte inp -> triple (view_of ta fa w)
    (if code =? CONFREQ then fsm_rconfreq cb ta fa i inp (zlen inp)
     else if code =? CONFACK then fsm_rconfack cb ta fa i inp (zlen inp) else m) Q) ->
  code = CONFREQ \/ code = CONFACK ->
  exists w', handle cb ta fa (arrived p) w = Some (tt, w') /\ good ta fa w' /\ Q tt (view_of ta fa w').
Proof.
  intros Hp Hg H1 H2 Hm Hcode. destruct (packet_contents _ _ _ Hp) as (hi & lo & data & Ed & El & Ep & Hd).
  destruct (Hm data Hd w Hg eq_refl) as ([] & w' & E1 & Hg' & HQ). exists w'. split; [|done].
  cbn [arrived handle]. unfold fsm_input. rewrite Ed, Ep, El. unfold HEADERLEN.
  rewrite (proj2 (Z.ltb_ge (zlen data + 4) 4)), (proj2 (Z.ltb_ge (zlen data + 4) (zlen data + 4))) by lia.
  unfold mbind at 1, M_bind at 1. cbn [gets]. rewrite !bool_decide_false by done. cbn [orb].
  replace (zlen data + 4 - 4) with (zlen data) by lia.
  destruct Hcode as [-> | ->]; exact E1.
Qed.

Lemma triple_accept v i inp :
  Forall is_byte inp -> v_state v = LS_REQSENT ->
  triple v (fsm_rconfreq cb ta fa i inp (zlen inp))
    (fun _ v' => v' = with_state LS_ACKSENT (with_codes (v_codes v ++ [(CONFACK, u8 i)]) v)).
Proof.
  intros Hb Hs. unfold fsm_rconfreq. eapply triple_bind; [apply triple_state|]. intros s ? [-> ->]. rewrite Hs.
  unfold answer_confreq. eapply triple_bind; [apply triple_gets|]. intros loops ? ->.
  eapply triple_bind; [apply triple_gets|]. intros max ? ->. destruct (@agrees_req A) as (m & -> & Hm).
  eapply triple_bind; [apply Hm; split; [lia|done]|]. intros [[code inp'] len'] ? (-> & -> & [Hl Hb']).
  eapply triple_bind; [by apply triple_sdata|]. intros _ ? ->. eapply triple_bind; [apply triple_state|].
  intros s ? [-> ->]. change (CONFACK =? CONFACK) with true. cbv iota.
  rewrite bool_decide_false by (cbn; by rewrite Hs). eapply triple_bind; [apply triple_set_state|]. intros _ ? ->.
  eapply triple_weaken; [apply triple_set_nakloops|]. by intros _ ? ->.
Qed.

Lemma triple_agreed v i inp :
  Forall is_byte inp -> v_state v = LS_ACKSENT -> v_seen v = 0 -> i = v_reqid v ->
  triple v (fsm_rconfack cb ta fa i inp (zlen inp)) (fun _ v' =>
    v' = View LS_OPENED true 0 1 (v_maxconf v) (v_maxconf v) (v_maxterm v) (v_reqid v) (v_codes v)).
Proof.
  intros Hb Hs Hz Hi. unfold fsm_rconfack. eapply triple_bind; [apply triple_reqid|]. intros r ? (-> & -> & _).
  eapply triple_bind; [apply triple_seen|]. intros z ? [-> ->]. rewrite Hi, Z.eqb_refl, Hz. cbn [negb orb Z.eqb].
  destruct (@agrees_ack A) as (m & -> & Hm). eapply triple_bind; [apply Hm; split; [lia|done]|].
  intros good_ ? [-> Hgood]. rewrite (proj2 (Z.eqb_neq _ _) Hgood). eapply triple_bind; [apply triple_set_seen|]. intros _ ? ->.
  eapply triple_bind; [apply triple_state|]. intros s ? [-> ->]. cbn [v_state with_seen]. rewrite Hs.
  eapply triple_bind; [apply triple_UNTIMEOUT|]. intros _ ? ->. eapply triple_bind; [apply triple_set_state|]. intros _ ? ->.
  eapply triple_bind; [apply triple_maxconf|]. intros _ ? ->. pose proof (@up_given _ cb ta fa L) as Hup.
  destruct (up cb) as [mu|] eqn:Eu; [|done]. apply call_back_record. eapply triple_weaken; [by apply (@agrees_up A)|].
  by intros _ ? [-> _].
Qed.

Lemma side_confreq (w : world E) p j :
  side w 0 -> is_packet p CONFREQ j -> is_byte j ->
  exists w', handle cb ta fa (arrived p) w = Some (tt, w') /\ side w' 1 /\ reqid (f w') = reqid (f w) /\
    Forall2 (fun p '(code, i) => is_packet p code i) (new_packets w w') [(CONFACK, j)].
Proof.
  intros (Hg & Hs & Hu & Hp & Hz) Hpk Hj.
  destruct (input_packet w p CONFREQ j (mret tt) _ Hpk Hg ltac:(by rewrite Hs) ltac:(by rewrite Hs)
    (fun inp Hb => triple_accept (view_of ta fa w) j inp Hb Hs) ltac:(by left)) as (w' & Ew & Hg' & Hv).
  exists w'. split; [done|]. split.
  - split; [done|]. split; [exact (f_equal v_state Hv)|]. split; [etrans; [exact (f_equal v_up Hv)|exact Hu]|].
    split; [etrans; [exact (f_equal v_pend Hv)|exact Hp]|]. intros _. etrans; [exact (f_equal v_seen Hv)|]. apply Hz. lia.
  - split; [exact (f_equal v_reqid Hv)|]. apply new_packets_codes; [done|]. rewrite <- (u8_id j) by done. exact (f_equal v_codes Hv).
Qed.

Lemma side_confack (w : world E) p :
  side w 1 -> is_packet p CONFACK (reqid (f w)) ->
  exists w', handle cb ta fa (arrived p) w = Some (tt, w') /\ side w' 2 /\ new_packets w w' = [].
Proof.
  intros (Hg & Hs & Hu & Hp & Hz) Hpk.
  destruct (input_packet w p CONFACK _ (mret tt) _ Hpk Hg ltac:(by rewrite Hs) ltac:(by rewrite Hs)
    (fun inp Hb => triple_agreed (view_of ta fa w) _ inp Hb Hs (Hz ltac:(lia)) eq_refl) ltac:(by right)) as (w' & Ew & Hg' & Hv).
  exists w'. split; [done|]. split.
  - split; [done|]. split; [exact (f_equal v_state Hv)|]. split; [exact (f_equal v_up Hv)|].
    split; [exact (f_equal v_pend Hv)|]. cbn. lia.
  - assert (Hn : Forall2 (fun p '(code, i) => is_packet p code i) (new_packets w w') []).
    { apply new_packets_codes; [done|]. rewrite app_nil_r. exact (f_equal v_codes Hv). }
    by inversion Hn.
Qed.

(** The start of a negotiation: [fsm_lowerup] in [LS_STARTING] *)
Definition begins (w0 w : world E) : Prop :=
  reachable cb ta fa false w0 /\ state (f w0) = LS_STARTING /\ has_flag OPT_SILENT (f w0) = false /\
  handle cb ta fa Lowerup w0 = Some (tt, w).

Lemma begins_side w0 w :
  begins w0 w -> side w 0 /\ is_byte (reqid (f w)) /\
    Forall2 (fun p '(code, i) => is_packet p code i) (new_packets w0 w) [(CONFREQ, reqid (f w))].
Proof.
  intros (Hr & Hs & Hf & Hh). destruct (reachable_inv _ _ _ _ _ Hr) as [Hg Hi].
  assert (Hu : upper_up w0 = false).
  { destruct (upper_up w0) eqn:Eu; [|done]. pose proof (inv_up _ _ Hi Eu) as Hst. cbn in Hst. by rewrite Hs in Hst. }
  assert (Ht : triple (view_of ta fa w0) (_ ← fsm_sconfreq cb ta fa false; upd (set_state LS_REQSENT)) (fun _ v' => exists i,
    v' = View LS_REQSENT false 1 0 (maxconfreqtransmits (f w0) - 1) (maxconfreqtransmits (f w0)) (maxtermtransmits (f w0)) i
      (codes w0 ++ [(CONFREQ, i)]) /\ is_byte i)).
  { eapply triple_bind; [by eapply triple_sconfreq|]. intros _ ? (i & -> & _ & Hb). eapply triple_weaken; [apply triple_set_state|].
    intros _ ? ->. exists i. split; [|done]. unfold with_state, view_of. cbn [v_state v_up v_pend v_seen v_retr v_maxconf v_maxterm v_reqid v_codes].
    unfold upper_up in Hu. by rewrite Hu. }
  destruct (Ht w0 Hg eq_refl) as ([] & w1 & E1 & Hg1 & i & Hv & Hb).
  assert (w1 = w) as ->.
  { cbn [handle] in Hh. unfold fsm_lowerup in Hh. unfold mbind at 1, M_bind at 1 in Hh. cbn [gets] in Hh. rewrite Hs in Hh.
    unfold mbind at 1, M_bind at 1 in Hh. cbn [gets] in Hh. rewrite Hf in Hh. rewrite E1 in Hh. by injection Hh. }
  assert (Ei : reqid (f w) = i) by exact (f_equal v_reqid Hv). rewrite Ei. split.
  - split; [done|]. split; [exact (f_equal v_state Hv)|]. split; [exact (f_equal v_up Hv)|].
    split; [exact (f_equal v_pend Hv)|]. intros _. exact (f_equal v_seen Hv).
  - split; [done|]. apply new_packets_codes; [done|]. exact (f_equal v_codes Hv).
Qed.
End Side.

(** The packets an end gets whose request has the identifier [i], from one
    whose request has [j] and that has got [s] packets itself *)
Definition expected (i j : Z) (s : nat) : list (Z * Z) := (CONFREQ, j) :: match s with O => [] | _ => [(CONFACK, i)] end.

Definition packets_are (ps : list (list Z)) (l : list (Z * Z)) : Prop := Forall2 (fun p '(code, i) => is_packet p code i) ps l.

Section Ends.
Context {E : Type} (cb : fsm_callbacks E) (ta fa : Z) {L : CallbackLaws cb ta fa} {A : Agrees cb ta fa}.

(** An end that has got [r] of them, with those that are under way *)
Definition end_ok (i j : Z) (r s : nat) (w : world E) (ps : list (list Z)) : Prop :=
  side ta fa w r /\ ((r < 2)%nat -> reqid (f w) = i) /\ (r <= length (expected i j s))%nat /\
  packets_are ps (drop r (expected i j s)).

Lemma end_step i j r s w p ps :
  is_byte j -> end_ok i j r s w (p :: ps) ->
  exists w', handle cb ta fa (arrived p) w = Some (tt, w') /\ end_ok i j (S r) s w' ps /\
    packets_are (new_packets w w') (match r with O => [(CONFACK, j)] | _ => [] end).
Proof.
  intros Hj (Hw & Hi & Hr & Hps). unfold packets_are in Hps.
  destruct r as [|[|r]].
  - inversion Hps as [|? ? ? ? Hp Hps']; subst. destruct (side_confreq cb ta fa w p j Hw Hp Hj) as (w' & Ew & Hw' & Ei & Hn).
    exists w'. split; [done|]. split; [|done]. split; [done|]. split; [intros _; rewrite Ei; apply Hi; lia|]. split; [cbn; lia|done].
  - destruct s as [|s]; [by inversion Hps|]. inversion Hps as [|? ? ? ? Hp Hps']; subst. rewrite <- Hi in Hp by lia.
    destruct (side_confack cb ta fa w p Hw Hp) as (w' & Ew & Hw' & Hn). exists w'. split; [done|].
    split; [|rewrite Hn; constructor]. split; [done|]. split; [lia|]. split; [cbn; lia|done].
  - rewrite (drop_ge _ (S (S r))) in Hps by (destruct s; cbn; lia). inversion Hps.
Qed.

(** The other end gets one more packet. *)
Lemma end_more i j r s w ps ps' :
  end_ok i j r s w ps -> packets_are ps' (match s with O => [(CONFACK, i)] | _ => [] end) -> end_ok i j r (S s) w (ps ++ ps').
Proof.
  intros (Hw & Hi & Hr & Hps) Hps'. split; [done|]. split; [done|]. unfold packets_are in *.
  assert (Ee : expected i j (S s) = expected i j s ++ match s with O => [(CONFACK, i)] | _ => [] end) by (by destruct s).
  rewrite Ee. split; [rewrite length_app; lia|]. rewrite drop_app_le by done. by apply Forall2_app.
Qed.

Lemma end_done i j r s w ps :
  end_ok i j r s w ps -> r = 2%nat -> ps = [] /\ state (f w) = LS_OPENED /\ upper_up w = true /\ pend ta fa (timeouts w) = O.
Proof.
  intros ((_ & Hs & Hu & Hp & _) & _ & _ & Hps) ->. unfold packets_are in Hps. split; [|done].
  rewrite drop_ge in Hps by (destruct s; cbn; lia). by inversion Hps.
Qed.

Lemma begins_end i j w0 w ps :
  begins cb ta fa w0 w -> i = reqid (f w) -> packets_are ps [(CONFREQ, j)] -> end_ok i j 0 0 w ps.
Proof.
  intros Hb -> Hps. destruct (begins_side cb ta fa w0 w Hb) as (Hw & _). split; [done|]. split; [done|]. split; [cbn; lia|done].
Qed.
End Ends.

Section Peers.
Context {EA EB : Type} (cbA : fsm_callbacks EA) (ta fa : Z) (cbB : fsm_callbacks EB) (tb fb : Z).
Context {LA : CallbackLaws cbA ta fa} {AA : Agrees cbA ta fa} {LB : CallbackLaws cbB tb fb} {AB : Agrees cbB tb fb}.

(** Two automata and the packets on the way to each of them *)
Record link := Link { left : world EA; right : world EB; to_left : list (list Z); to_right : list (list Z) }.

(** A packet arrives at one end, and what it answers is on its way. *)
Inductive delivered : link -> link -> Prop :=
  | deliver_left p ps l w :
      to_left l = p :: ps -> handle cbA ta fa (arrived p) (left l) = Some (tt, w) ->
      delivered l (Link w (right l) ps (to_right l ++ new_packets (left l) w))
  | deliver_right p ps l w :
      to_right l = p :: ps -> handle cbB tb fb (arrived p) (right l) = Some (tt, w) ->
      delivered l (Link (left l) w (to_left l ++ new_packets (right l) w) ps).

Definition link_ok (i j : Z) (rA rB : nat) (l : link) : Prop :=
  end_ok ta fa i j rA rB (left l) (to_left l) /\ end_ok tb fb j i rB rA (right l) (to_right l).

Lemma link_step i j rA rB l l' :
  is_byte i -> is_byte j -> link_ok i j rA rB l -> delivered l l' -> link_ok i j (S rA) rB l' \/ link_ok i j rA (S rB) l'.
Proof.
  intros Hi Hj [HA HB] H. destruct H as [p ps l w Ep Ew|p ps l w Ep Ew]; rewrite Ep in *; [left|right].
  - destruct (end_step cbA ta fa i j rA rB (left l) p ps Hj HA) as (w' & Ew' & HA' & Hn). rewrite Ew in Ew'. injection Ew' as <-.
    split; [done|]. by apply end_more.
  - destruct (end_step cbB tb fb j i rB rA (right l) p ps Hi HB) as (w' & Ew' & HB' & Hn). rewrite Ew in Ew'. injection Ew' as <-.
    split; [|done]. by apply end_more.
Qed.

Lemma link_progress i j rA rB l :
  is_byte i -> is_byte j -> link_ok i j rA rB l -> (rA + rB < 4)%nat -> exists l', delivered l l'.
Proof.
  intros Hi Hj [HA HB] Hn. destruct (to_left l) as [|p ps] eqn:Eql.
  - destruct (to_right l) as [|p ps] eqn:Eqr.
    + destruct HA as (_ & _ & HrA & HA), HB as (_ & _ & HrB & HB). apply Forall2_length in HA, HB.
      rewrite length_drop in HA, HB. unfold expected in *. destruct rA, rB; cbn [length] in *; lia.
    + destruct (end_step cbB tb fb j i rB rA (right l) p ps Hi HB) as (w & Ew & _). eexists. by eapply deliver_right.
  - destruct (end_step cbA ta fa i j rA rB (left l) p ps Hj HA) as (w & Ew & _). eexists. by eapply deliver_left.
Qed.

Lemma link_bound i j rA rB l : link_ok i j rA rB l -> (rA <= 2)%nat /\ (rB <= 2)%nat.
Proof. intros [(_ & _ & HA & _) (_ & _ & HB & _)]. destruct rA, rB; cbn in *; lia. Qed.

End Peers.

(** ** An example *)

(** A protocol with one option, of four octets, that takes what it gets *)
Definition example_callbacks : fsm_callbacks unit :=
  Callbacks None (Some (mret 4)) (Some (fun _ => _ ← put_out (PPP_HDRLEN + HEADERLEN) [1; 4; 5; 220]; mret 4))
    (Some (fun _ _ => mret 1)) (Some (fun _ _ => mret 1)) (Some (fun _ _ => mret 1)) (Some (fun inp len _ => mret (CONFACK, inp, len)))
    (Some (mret tt)) (Some (mret tt)) None (Some (mret tt)) None None.

Lemma quiet_ret {E A} ta fa (a : A) P : P a -> quiet ta fa (mret a : M E A) P.
Proof. intros H v. by apply triple_ret. Qed.

Lemma quiet_put_out {E} ta fa at_ bs :
  0 <= at_ -> at_ + zlen bs <= PPP_MRU + PPP_HDRLEN -> Forall is_byte bs -> quiet ta fa (put_out at_ bs : M E unit) (fun _ => True).
Proof.
  intros Ha Hl Hb v w Hg <-. pose proof (good_buf _ _ _ Hg) as Hbuf. pose proof (good_octets _ _ _ Hg) as Ho.
  destruct (mem_put_ok (outpacket_buf w) at_ bs) as [b Ep]; [lia|lia|]. unfold put_out. rewrite Ep. eexists _, _. split; [done|].
  split; [|done]. pose proof (mem_put_length _ _ _ _ Ep) as El. apply mem_put_inv in Ep as (pre & mid & post & E1 & _ & _ & ->).
  destruct Hg. split; cbn [f timeouts outpacket_buf peer_mru sent]; try done; [lia|].
  rewrite E1, !Forall_app in Ho. rewrite !Forall_app. tauto.
Qed.

Lemma quiet_bind {E A B} ta fa (m : M E A) (k : A -> M E B) P Q :
  quiet ta fa m P -> (forall a, P a -> quiet ta fa (k a) Q) -> quiet ta fa (m ≫= k) Q.
Proof. intros Hm Hk v. eapply triple_bind; [apply Hm|]. intros a ? [-> Ha]. by apply Hk. Qed.

Lemma quiet_tame {E A} ta fa (m : M E A) P : quiet ta fa m P -> tame ta fa m.
Proof. intros Hm strict v Hv. eapply triple_weaken; [apply Hm|]. by intros a ? [-> _]. Qed.

#[export] Instance example_laws ta fa : CallbackLaws example_callbacks ta fa.
Proof.
  split; cbn; intros; simplify_eq; try done; try (by apply quiet_ret); try (by eapply quiet_tame, (quiet_ret ta fa tt (fun _ => True))).
  eapply quiet_bind; [apply quiet_put_out; [done|done|]|intros _ _; by apply quiet_ret].
  repeat constructor; done.
Qed.

#[export] Instance example_agrees ta fa : Agrees example_callbacks ta fa.
Proof.
  split; cbn; intros; simplify_eq; [| |by apply quiet_ret].
  - eexists. split; [done|]. intros inp len b H. by apply quiet_ret.
  - eexists. split; [done|]. intros inp len H. by apply quiet_ret.
Qed.

(** An automaton of LCP before [fsm_init] and the world after it *)
Definition example_fsm : fsm := Fsm PPP_LCP LS_INITIAL 0 0 0 0 0 0 0 0 0 0 [] 0.
Definition example_world : world unit :=
  World (fsm_init example_fsm) (Timers [] false) (replicate 1504 0) PPP_MRU [] [] tt.

Fixpoint run_events (es : list event) (w : world unit) : world unit :=
  match es with
  | [] => w
  | e :: es => match handle example_callbacks 500 600 e w with Some (_, w) => run_events es w | None => w end
  end.

Definition example_request : event := Input [CONFREQ; 7; 0; 8; 1; 4; 5; 220] 8.
Definition example_ack : event := Input [CONFACK; 1; 0; 8; 1; 4; 5; 220] 8.

(** The automaton that has begun, and that is open *)
Definition begun : world unit := run_events [Open; Lowerup] example_world.
Definition opened : world unit := run_events [Open; Lowerup; example_request; example_ack] example_world.

Lemma example_fresh : fresh 500 600 example_world example_fsm.
Proof.
  split.
  - done.
  - by split.
  - by split.
  - split; [done|]. by apply Forall_replicate.
  - by unfold PPP_MRU, HEADERLEN.
  - done.
Qed.

Lemma run_events_reachable es w :
  reachable example_callbacks 500 600 true w -> Forall event_ok es ->
  Forall (fun e => match e with Input (c :: _) _ => c <> TERMACK | _ => True end) es ->
  reachable example_callbacks 500 600 true (run_events es w).
Proof.
  intros Hr He Ht. revert w Hr. induction es as [|e es IH]; intros w Hr; [done|].
  apply Forall_cons_iff in He as [He1 He], Ht as [Ht1 Ht]. cbn [run_events].
  destruct (handle example_callbacks 500 600 e w) as [[[] w']|] eqn:Eh; [|done]. apply IH; [done|done|].
  eapply reach_event; [exact Hr|exact He1| |exact Eh]. intros _ [_ (rest & l & ->)]. by apply Ht1.
Qed.

Lemma example_events_ok : Forall event_ok [Open; Lowerup; example_request; example_ack].
Proof. repeat (constructor; [|try done]); cbn; try done; (split; [done|]); repeat (constructor; try done). Qed.

Lemma begun_reachable : reachable example_callbacks 500 600 true begun.
Proof. apply run_events_reachable; [eapply reach_init, example_fresh|by repeat constructor|by repeat constructor]. Qed.

Lemma opened_reachable : reachable example_callbacks 500 600 true opened.
Proof. apply run_events_reachable; [eapply reach_init, example_fresh|apply example_events_ok|by repeat constructor]. Qed.

Lemma automaton_invariant_witness :
  reachable example_callbacks 500 600 true opened /\ state (f opened) = LS_OPENED /\ upper_up opened = true /\
  map (fun p => nth 4 p 0) (sent opened) = [CONFREQ; CONFACK] /\
  pend 500 600 (timeouts opened) = O.
Proof.
  destruct (automaton_invariant example_callbacks 500 600 true opened opened_reachable) as (_ & _ & _ & _ & _ & _ & H).
  destruct (H eq_refl) as [Hp Hu]. split; [exact opened_reachable|]. split; [reflexivity|]. split; [apply Hu; reflexivity|].
  split; [reflexivity|]. apply Hp. reflexivity.
Defined.

Lemma termack_stays_open_witness :
  exists w1, handle example_callbacks 500 600 (Input [TERMACK; 9; 0; 4] 4) opened = Some (tt, w1) /\ state (f w1) = LS_OPENED /\
    upper_up w1 = false.
Proof.
  destruct (termack_stays_open example_callbacks 500 600 opened 9 [] 4 opened_reachable eq_refl ltac:(lia))
    as (_ & w1 & E1 & Hs & Hu & _).
  exists w1. split; [exact E1|]. split; [exact Hs|exact Hu].
Defined.

(** The world after [n] timeouts without anything else *)
Fixpoint after_timeouts (n : nat) (w : world unit) : world unit :=
  match n with
  | O => w
  | S n => match handle example_callbacks 500 600 Timeout (after_timeouts n w) with Some (_, w) => w | None => w end
  end.

Lemma silence_step n :
  silence example_callbacks 500 600 begun n (after_timeouts n begun) ->
  match next_timeout (timeouts (after_timeouts n begun)) with t :: _ => is_own 500 600 t | [] => false end = true ->
  match handle example_callbacks 500 600 Timeout (after_timeouts n begun) with Some _ => true | None => false end = true ->
  silence example_callbacks 500 600 begun (S n) (after_timeouts (S n) begun).
Proof.
  intros Hs Ht Hh. cbn [after_timeouts]. destruct (next_timeout _) as [|t l] eqn:El; [done|].
  destruct (handle _ _ _ _ (after_timeouts n begun)) as [[[] w]|] eqn:Eh; [|done].
  by eapply silence_timeout.
Qed.

Lemma silence_zero w : silence example_callbacks 500 600 w 0 (after_timeouts 0 w).
Proof. apply silence_start. Qed.

Lemma begun_silent : silence example_callbacks 500 600 begun 10 (after_timeouts 10 begun).
Proof. do 10 (apply silence_step; [|vm_compute; reflexivity|vm_compute; reflexivity]). apply silence_zero. Qed.

Lemma silent_peer_witness :
  state (f begun) = LS_REQSENT /\ retransmits (f begun) = 9 /\
  silence example_callbacks 500 600 begun 10 (after_timeouts 10 begun) /\
  state (f (after_timeouts 10 begun)) = LS_STOPPED.
Proof.
  pose proof begun_silent as H.
  assert (Hq : forall m, finished example_callbacks = Some m -> quiet 500 600 m (fun _ => True)).
  { intros m Em. injection Em as <-. by apply quiet_ret. }
  split; [reflexivity|]. split; [vm_compute; reflexivity|]. split; [exact H|].
  assert (Hr : reachable example_callbacks 500 600 false begun) by exact (reachable_weaken _ _ _ _ _ begun_reachable).
  destruct (silent_peer example_callbacks 500 600 Hq begun 10 (after_timeouts 10 begun) Hr eq_refl ltac:(vm_compute; discriminate) H)
    as [[Hn _]|[_ [Hs _]]]; [|exact Hs].
  exfalso. revert Hn. vm_compute. lia.
Defined.

(** Before the lower layer is up *)
Definition started : world unit := run_events [Open] example_world.

Lemma started_reachable : reachable example_callbacks 500 600 true started.
Proof. apply run_events_reachable; [eapply reach_init, example_fresh|by repeat constructor|by repeat constructor]. Qed.

Lemma started_begins : begins example_callbacks 500 600 started begun.
Proof.
  split; [exact (reachable_weaken _ _ _ _ _ started_reachable)|]. split; [vm_compute; reflexivity|]. split; [vm_compute; reflexivity|].
  vm_compute. reflexivity.
Qed.

(** The next packet to the left, or to the right, is delivered. *)
Definition next_left (l : @link unit unit) : @link unit unit :=
  match to_left l with
  | p :: ps =>
      match handle example_callbacks 500 600 (arrived p) (left l) with
      | Some (_, w) => Link w (right l) ps (to_right l ++ new_packets (left l) w)
      | None => l
      end
  | [] => l
  end.
Definition next_right (l : @link unit unit) : @link unit unit :=
  match to_right l with
  | p :: ps =>
      match handle example_callbacks 500 600 (arrived p) (right l) with
      | Some (_, w) => Link (left l) w (to_left l ++ new_packets (right l) w) ps
      | None => l
      end
  | [] => l
  end.

Definition link_delivered := delivered example_callbacks 500 600 example_callbacks 500 600.

Lemma next_left_delivered l :
  match to_left l with p :: _ => match handle example_callbacks 500 600 (arrived p) (left l) with Some _ => true | None => false end
    | [] => false end = true -> link_delivered l (next_left l).
Proof.
  unfold next_left. destruct (to_left l) as [|p ps] eqn:Eq; [done|]. destruct (handle _ _ _ _ _) as [[[] w]|] eqn:Eh; [|done].
  intros _. by eapply deliver_left.
Qed.

Lemma next_right_delivered l :
  match to_right l with p :: _ => match handle example_callbacks 500 600 (arrived p) (right l) with Some _ => true | None => false end
    | [] => false end = true -> link_delivered l (next_right l).
Proof.
  unfold next_right. destruct (to_right l) as [|p ps] eqn:Eq; [done|]. destruct (handle _ _ _ _ _) as [[[] w]|] eqn:Eh; [|done].
  intros _. by eapply deliver_right.
Qed.

Definition both_begun : @link unit unit := Link begun begun (new_packets started begun) (new_packets started begun).

Lemma both_agree : nsteps link_delivered 4 both_begun (next_left (next_right (next_right (next_left both_begun)))).
Proof.
  eapply nsteps_l; [apply next_left_delivered; vm_compute; reflexivity|].
  eapply nsteps_l; [apply next_right_delivered; vm_compute; reflexivity|].
  eapply nsteps_l; [apply next_right_delivered; vm_compute; reflexivity|].
  eapply nsteps_l; [apply next_left_delivered; vm_compute; reflexivity|]. apply nsteps_O.
Qed.

Lemma started_agree : exists l, nsteps link_delivered 4 both_begun l.
Proof. eexists. exact both_agree. Qed.

