(* ===== verification/PppLcp.v ===== *)
(** * The options of LCP ([lcp.c])

    The configuration options of the Link Control Protocol: the request that is
    made of the options wanted, the checks of an answer to it, and the check of
    a request of the peer; the codes LCP has besides those of the automaton; and
    how it all plugs into the automaton of [PppFsm]. *)

From S2P Require Export PppFsm.

Definition CI_MRU : Z := 1.
Definition CI_ASYNCMAP : Z := 2.
Definition CI_AUTHTYPE : Z := 3.
Definition CI_QUALITY : Z := 4.
Definition CI_MAGICNUMBER : Z := 5.
Definition CI_PCOMPRESSION : Z := 7.
Definition CI_ACCOMPRESSION : Z := 8.
Definition CI_CALLBACK : Z := 13.

Definition PROTREJ : Z := 8.
Definition ECHOREQ : Z := 9.
Definition ECHOREP : Z := 10.
Definition DISCREQ : Z := 11.
Definition CBCP_OPT : Z := 6.

Definition CILEN_VOID : Z := 2.
Definition CILEN_CHAR : Z := 3.
Definition CILEN_SHORT : Z := 4.
Definition CILEN_CHAP : Z := 5.
Definition CILEN_LONG : Z := 6.
Definition CILEN_LQR : Z := 8.
Definition CILEN_CBCP : Z := 3.

Definition PPP_DEFMRU : Z := 296.
Definition PPP_MINMRU : Z := 128.
Definition PPP_MAXMRU : Z := 1500.
Definition CHAP_DIGEST_MD5 : Z := 5.

Record lcp_options := Options {
  passive : bool; silent : bool; restart : bool; neg_mru : bool; neg_asyncmap : bool; neg_upap : bool; neg_chap : bool;
  neg_magicnumber : bool; neg_pcompression : bool; neg_accompression : bool; neg_lqr : bool; neg_cbcp : bool;
  mru : Z; chap_mdtype : Z; asyncmap : Z; magicnumber : Z; numloops : Z; lqr_period : Z }.

(** All of it 0, as [BZERO] leaves it *)
Definition no_options : lcp_options :=
  Options false false false false false false false false false false false false 0 0 0 0 0 0.

(** What [lcp_init] sets in the options wanted and allowed, over what is 0. *)
Definition init_wantoptions : lcp_options :=
  Options false false false true true false false true true true false false PPP_DEFMRU CHAP_DIGEST_MD5 0 0 0 0.
Definition init_allowoptions : lcp_options :=
  Options false false false true true true true true true true false false PPP_MAXMRU CHAP_DIGEST_MD5 0 0 0 0.

(** Octets in a buffer *)
Definition PUTSHORT (v : Z) : list Z := [u8 (Z.shiftr v 8); u8 (Z.land v 0xff)].
Definition PUTLONG (v : Z) : list Z := [u8 (Z.shiftr v 24); u8 (Z.shiftr v 16); u8 (Z.shiftr v 8); u8 v].

Definition GETSHORT (p : list Z) : option (Z * list Z) :=
  match p with a :: b :: p => Some (Z.lor (Z.shiftl a 8) b, p) | _ => None end.
Definition GETLONG (p : list Z) : option (Z * list Z) :=
  match p with
  | a :: b :: c :: d :: p =>
      Some (Z.lor (Z.shiftl (Z.lor (Z.shiftl (Z.lor (Z.shiftl a 8) b) 8) c) 8) d, p)
  | _ => None
  end.

(** ** The request *)

Definition LENCI (len : Z) (neg : bool) : Z := if neg then len else 0.

Definition lcp_cilen (go : lcp_options) : Z :=
  LENCI CILEN_SHORT (neg_mru go && negb (mru go =? PPP_DEFMRU)) +
  LENCI CILEN_LONG (neg_asyncmap go && negb (asyncmap go =? 0xFFFFFFFF)) +
  LENCI CILEN_CHAP (neg_chap go) +
  LENCI CILEN_SHORT (negb (neg_chap go) && neg_upap go) +
  LENCI CILEN_LQR (neg_lqr go) +
  LENCI CILEN_CBCP (neg_cbcp go) +
  LENCI CILEN_LONG (neg_magicnumber go) +
  LENCI CILEN_VOID (neg_pcompression go) +
  LENCI CILEN_VOID (neg_accompression go).

Definition ADDCIVOID (opt : Z) (neg : bool) : list Z := if neg then [opt; CILEN_VOID] else [].
Definition ADDCISHORT (opt : Z) (neg : bool) (val : Z) : list Z := if neg then [opt; CILEN_SHORT] ++ PUTSHORT val else [].
Definition ADDCICHAP (opt : Z) (neg : bool) (val digest : Z) : list Z :=
  if neg then [opt; CILEN_CHAP] ++ PUTSHORT val ++ [digest] else [].
Definition ADDCILONG (opt : Z) (neg : bool) (val : Z) : list Z := if neg then [opt; CILEN_LONG] ++ PUTLONG val else [].
Definition ADDCILQR (opt : Z) (neg : bool) (val : Z) : list Z :=
  if neg then [opt; CILEN_LQR] ++ PUTSHORT PPP_LQR ++ PUTLONG val else [].
Definition ADDCICHAR (opt : Z) (neg : bool) (val : Z) : list Z := if neg then [opt; CILEN_CHAR; val] else [].

(** The octets [lcp_addci] writes; the length it is given is not changed. *)
Definition lcp_addci (go : lcp_options) : list Z :=
  ADDCISHORT CI_MRU (neg_mru go && negb (mru go =? PPP_DEFMRU)) (mru go) ++
  ADDCILONG CI_ASYNCMAP (neg_asyncmap go && negb (asyncmap go =? 0xFFFFFFFF)) (asyncmap go) ++
  ADDCICHAP CI_AUTHTYPE (neg_chap go) PPP_CHAP (chap_mdtype go) ++
  ADDCISHORT CI_AUTHTYPE (negb (neg_chap go) && neg_upap go) PPP_PAP ++
  ADDCILQR CI_QUALITY (neg_lqr go) (lqr_period go) ++
  ADDCICHAR CI_CALLBACK (neg_cbcp go) CBCP_OPT ++
  ADDCILONG CI_MAGICNUMBER (neg_magicnumber go) (magicnumber go) ++
  ADDCIVOID CI_PCOMPRESSION (neg_pcompression go) ++
  ADDCIVOID CI_ACCOMPRESSION (neg_accompression go).

(** ** The answer *)

(** While an Ack is checked: a read outside of the buffer, [goto bad], or the
    rest of the buffer and the length that is left. *)
Inductive parsed := Fault | Bad | Next (p : list Z) (len : Z).

Definition and_then (r : parsed) (k : list Z -> Z -> parsed) : parsed := match r with Next p len => k p len | _ => r end.

(** The head of an option, the same in all the macros *)
Definition ACKCI (cilen_ opt : Z) (neg : bool) (rest : list Z -> Z -> parsed) (p : list Z) (len : Z) : parsed :=
  if neg then
    let len := len - cilen_ in
    if len <? 0 then Bad
    else
      match p with
      | citype :: cilen :: p => if negb (cilen =? cilen_) || negb (citype =? opt) then Bad else rest p len
      | _ => Fault
      end
  else Next p len.

Definition check_short (val : Z) (k : list Z -> Z -> parsed) (p : list Z) (len : Z) : parsed :=
  match GETSHORT p with Some (cishort, p) => if negb (cishort =? val) then Bad else k p len | None => Fault end.
Definition check_long (val : Z) (p : list Z) (len : Z) : parsed :=
  match GETLONG p with Some (cilong, p) => if negb (cilong =? val) then Bad else Next p len | None => Fault end.
Definition check_char (val : Z) (p : list Z) (len : Z) : parsed :=
  match p with cichar :: p => if negb (cichar =? val) then Bad else Next p len | [] => Fault end.

Definition ACKCIVOID opt neg := ACKCI CILEN_VOID opt neg Next.
Definition ACKCISHORT opt neg val := ACKCI CILEN_SHORT opt neg (check_short val Next).
Definition ACKCICHAR opt neg val := ACKCI CILEN_CHAR opt neg (check_char val).
Definition ACKCICHAP opt neg val digest := ACKCI CILEN_CHAP opt neg (check_short val (check_char digest)).
Definition ACKCILONG opt neg val := ACKCI CILEN_LONG opt neg (check_long val).
Definition ACKCILQR opt neg val := ACKCI CILEN_LQR opt neg (check_short PPP_LQR (check_long val)).

(** [None] is a read outside of the buffer. *)
Definition lcp_ackci (go : lcp_options) (p : list Z) (len : Z) : option Z :=
  let r := ACKCISHORT CI_MRU (neg_mru go && negb (mru go =? PPP_DEFMRU)) (mru go) p len in
  let r := and_then r (ACKCILONG CI_ASYNCMAP (neg_asyncmap go && negb (asyncmap go =? 0xFFFFFFFF)) (asyncmap go)) in
  let r := and_then r (ACKCICHAP CI_AUTHTYPE (neg_chap go) PPP_CHAP (chap_mdtype go)) in
  let r := and_then r (ACKCISHORT CI_AUTHTYPE (negb (neg_chap go) && neg_upap go) PPP_PAP) in
  let r := and_then r (ACKCILQR CI_QUALITY (neg_lqr go) (lqr_period go)) in
  let r := and_then r (ACKCICHAR CI_CALLBACK (neg_cbcp go) CBCP_OPT) in
  let r := and_then r (ACKCILONG CI_MAGICNUMBER (neg_magicnumber go) (magicnumber go)) in
  let r := and_then r (ACKCIVOID CI_PCOMPRESSION (neg_pcompression go)) in
  let r := and_then r (ACKCIVOID CI_ACCOMPRESSION (neg_accompression go)) in
  match r with
  | Fault => None
  | Bad => Some 0
  | Next _ len => Some (if negb (len =? 0) then 0 else 1)
  end.

(** ** A Nak or a Reject *)

(** The flag [neg] and the values that the macros and the code behind them set *)
Inductive neg := neg_MRU | neg_ASYNCMAP | neg_UPAP | neg_CHAP | neg_MAGICNUMBER | neg_PCOMPRESSION | neg_ACCOMPRESSION | neg_LQR | neg_CBCP.
#[export] Instance neg_eq_dec : EqDecision neg.
Proof. solve_decision. Defined.

Definition get_neg (n : neg) (o : lcp_options) : bool :=
  match n with
  | neg_MRU => neg_mru o | neg_ASYNCMAP => neg_asyncmap o | neg_UPAP => neg_upap o | neg_CHAP => neg_chap o
  | neg_MAGICNUMBER => neg_magicnumber o | neg_PCOMPRESSION => neg_pcompression o
  | neg_ACCOMPRESSION => neg_accompression o | neg_LQR => neg_lqr o | neg_CBCP => neg_cbcp o
  end.

Definition set_neg (n : neg) (b : bool) (o : lcp_options) : lcp_options :=
  let v m := if decide (m = n) then b else get_neg m o in
  Options (passive o) (silent o) (restart o) (v neg_MRU) (v neg_ASYNCMAP) (v neg_UPAP) (v neg_CHAP) (v neg_MAGICNUMBER)
    (v neg_PCOMPRESSION) (v neg_ACCOMPRESSION) (v neg_LQR) (v neg_CBCP) (mru o) (chap_mdtype o) (asyncmap o) (magicnumber o)
    (numloops o) (lqr_period o).

(** [mru], [asyncmap], [magicnumber], [numloops] and [lqr_period] at once *)
Definition set_values (m a g n l : Z) (o : lcp_options) : lcp_options :=
  Options (passive o) (silent o) (restart o) (neg_mru o) (neg_asyncmap o) (neg_upap o) (neg_chap o) (neg_magicnumber o)
    (neg_pcompression o) (neg_accompression o) (neg_lqr o) (neg_cbcp o) m (chap_mdtype o) a g n l.
Definition try_mru (v : Z) (o : lcp_options) : lcp_options := set_values v (asyncmap o) (magicnumber o) (numloops o) (lqr_period o) o.
Definition try_asyncmap (v : Z) (o : lcp_options) : lcp_options := set_values (mru o) v (magicnumber o) (numloops o) (lqr_period o) o.
Definition try_magicnumber (v : Z) (o : lcp_options) : lcp_options := set_values (mru o) (asyncmap o) v (numloops o) (lqr_period o) o.
Definition try_numloops (v : Z) (o : lcp_options) : lcp_options := set_values (mru o) (asyncmap o) (magicnumber o) v (lqr_period o) o.
Definition try_lqr_period (v : Z) (o : lcp_options) : lcp_options := set_values (mru o) (asyncmap o) (magicnumber o) (numloops o) v o.

(** A read outside of the packet, [goto bad], or a value *)
Inductive checked (A : Type) := Outside | BadPacket | Good (a : A).
Arguments Outside {A}. Arguments BadPacket {A}. Arguments Good {A}.
#[export] Instance checked_bind : MBind checked := fun A B k m =>
  match m with Outside => Outside | BadPacket => BadPacket | Good a => k a end.

Definition within {A} (a : option A) : checked A := match a with Some a => Good a | None => Outside end.
Definition check (b : bool) : checked unit := if b then Good () else BadPacket.

(** The values of the options *)
Definition get_void (p : list Z) : checked (unit * list Z) := Good ((), p).
Definition get_char (p : list Z) : checked (Z * list Z) := match p with c :: p => Good (c, p) | [] => Outside end.
Definition get_short (p : list Z) : checked (Z * list Z) := within (GETSHORT p).
Definition get_long (p : list Z) : checked (Z * list Z) := within (GETLONG p).
Definition get_chap (p : list Z) : checked (Z * Z * list Z) := '(s, p) ← get_short p; '(c, p) ← get_char p; Good (s, c, p).
Definition get_lqr (p : list Z) : checked (Z * Z * list Z) := '(s, p) ← get_short p; '(l, p) ← get_long p; Good (s, l, p).

(** What [p] points to, [len], and what is found out of it *)
Definition cursor (X : Type) : Type := list Z * Z * X.

Section Answers.
Context (go : lcp_options).

(** The condition of the macros *)
Definition at_option (cilen_ opt : Z) (n : neg) (p : list Z) (len : Z) : checked bool :=
  if get_neg n go && (cilen_ <=? len) then
    match p with p0 :: p1 :: _ => Good ((p1 =? cilen_) && (p0 =? opt)) | _ => Outside end
  else Good false.

(** The macros: an option that is there is passed and its value given to the
    code; one that is not is no mistake. *)
Definition CI {A X} (cilen_ opt : Z) (n : neg) (get : list Z -> checked (A * list Z)) (code : A -> X -> checked X)
    (c : cursor X) : checked (cursor X) :=
  let '(p, len, x) := c in
  b ← at_option cilen_ opt n p len;
  if (b : bool) then
    '(v, p) ← get (drop 2 p);
    x ← code v x;
    Good (p, len - cilen_, x)
  else Good c.

(** *** A Nak *)

(** The options we have seen Naks for, those to request next time, and whether
    the line may be looped back *)
Record nak_state := NakState { no : lcp_options; try_ : lcp_options; looped_back : bool }.

Definition on_try (g : lcp_options -> lcp_options) (x : nak_state) : nak_state := NakState (no x) (g (try_ x)) (looped_back x).
Definition seen (n : neg) (x : nak_state) : nak_state := NakState (set_neg n true (no x)) (try_ x) (looped_back x).

Definition NAKCIVOID opt n code := CI CILEN_VOID opt n get_void (fun _ x => Good (code (seen n x))).
Definition NAKCICHAR opt n code := CI CILEN_CHAR opt n get_char (fun v x => Good (code v (seen n x))).
Definition NAKCISHORT opt n code := CI CILEN_SHORT opt n get_short (fun v x => Good (code v (seen n x))).
Definition NAKCILONG opt n code := CI CILEN_LONG opt n get_long (fun v x => Good (code v (seen n x))).
Definition NAKCILQR opt n code := CI CILEN_LQR opt n get_lqr (fun '(s, v) x => Good (code s v (seen n x))).

Definition nak_authtype (c : cursor nak_state) : checked (cursor nak_state) :=
  let '(p, len, x) := c in
  if (neg_chap go || neg_upap go) && (CILEN_SHORT <=? len) then
    match p with
    | p0 :: cilen :: q =>
        if (p0 =? CI_AUTHTYPE) && (CILEN_SHORT <=? cilen) && (cilen <=? len) then
          let len := len - cilen in
          let x := NakState (set_neg neg_UPAP (neg_upap go) (set_neg neg_CHAP (neg_chap go) (no x))) (try_ x) (looped_back x) in
          '(cishort, q) ← get_short q;
          if (cishort =? PPP_PAP) && (cilen =? CILEN_SHORT) then
            _ ← check (neg_chap go);
            Good (q, len, on_try (set_neg neg_CHAP false) x)
          else if (cishort =? PPP_CHAP) && (cilen =? CILEN_CHAP) then
            '(cichar, q) ← get_char q;
            if neg_chap go then
              Good (q, len, if negb (cichar =? chap_mdtype go) then on_try (set_neg neg_CHAP false) x else x)
            else Good (q, len, on_try (set_neg neg_UPAP false) x)
          else
            Good (drop (Z.to_nat (cilen - CILEN_SHORT)) q, len,
              on_try (if neg_chap go then set_neg neg_CHAP false else set_neg neg_UPAP false) x)
        else Good c
    | _ => Outside
    end
  else Good c.

(** An option we have not asked for, of which [p] is the value *)
Definition nak_option (citype cilen : Z) (p : list Z) (x : nak_state) : checked nak_state :=
  if citype =? CI_MRU then
    _ ← check (negb ((neg_mru go && negb (mru go =? PPP_DEFMRU)) || neg_mru (no x) || negb (cilen =? CILEN_SHORT)));
    '(cishort, _) ← get_short p;
    Good (if cishort <? PPP_DEFMRU then on_try (try_mru cishort) x else x)
  else if citype =? CI_ASYNCMAP then
    _ ← check (negb ((neg_asyncmap go && negb (asyncmap go =? 0xFFFFFFFF)) || neg_asyncmap (no x) || negb (cilen =? CILEN_LONG)));
    Good x
  else if citype =? CI_AUTHTYPE then
    _ ← check (negb (neg_chap go || neg_chap (no x) || neg_upap go || neg_upap (no x))); Good x
  else if citype =? CI_MAGICNUMBER then
    _ ← check (negb (neg_magicnumber go || neg_magicnumber (no x) || negb (cilen =? CILEN_LONG))); Good x
  else if citype =? CI_PCOMPRESSION then
    _ ← check (negb (neg_pcompression go || neg_pcompression (no x) || negb (cilen =? CILEN_VOID))); Good x
  else if citype =? CI_ACCOMPRESSION then
    _ ← check (negb (neg_accompression go || neg_accompression (no x) || negb (cilen =? CILEN_VOID))); Good x
  else if citype =? CI_QUALITY then
    _ ← check (negb (neg_lqr go || neg_lqr (no x) || negb (cilen =? CILEN_LQR))); Good x
  else Good x.

Fixpoint nak_loop (fuel : nat) (c : cursor nak_state) : checked (cursor nak_state) :=
  match fuel with
  | O => Outside
  | S fuel =>
      let '(p, len, x) := c in
      if CILEN_VOID <? len then
        match p with
        | citype :: cilen :: q =>
            if (cilen <? CILEN_VOID) || (len - cilen <? 0) then BadPacket
            else
              x ← nak_option citype cilen q x;
              nak_loop fuel (drop (Z.to_nat cilen) p, len - cilen, x)
        | _ => Outside
        end
      else Good c
  end.

(** The check of a Nak: the options to request next and [looped_back].  [magic]
    is what [magic()] returns. *)
Definition nak_check (wo : lcp_options) (magic : Z) (p : list Z) (len : Z) : checked (lcp_options * bool) :=
  let c := (p, len, NakState no_options go false) in
  c ← (if neg_mru go && negb (mru go =? PPP_DEFMRU) then
         NAKCISHORT CI_MRU neg_MRU (fun cishort =>
           if (cishort <=? mru wo) || (cishort <? PPP_DEFMRU) then on_try (try_mru cishort) else fun x => x) c
       else Good c);
  c ← (if neg_asyncmap go && negb (asyncmap go =? 0xFFFFFFFF) then
         NAKCILONG CI_ASYNCMAP neg_ASYNCMAP (fun cilong => on_try (try_asyncmap (Z.lor (asyncmap go) cilong))) c
       else Good c);
  c ← nak_authtype c;
  c ← NAKCILQR CI_QUALITY neg_LQR (fun cishort cilong =>
        on_try (if negb (cishort =? PPP_LQR) then set_neg neg_LQR false else try_lqr_period cilong)) c;
  c ← NAKCICHAR CI_CALLBACK neg_CBCP (fun _ => on_try (set_neg neg_CBCP false)) c;
  c ← NAKCILONG CI_MAGICNUMBER neg_MAGICNUMBER (fun _ x => NakState (no x) (try_magicnumber magic (try_ x)) true) c;
  c ← NAKCIVOID CI_PCOMPRESSION neg_PCOMPRESSION (on_try (set_neg neg_PCOMPRESSION false)) c;
  c ← NAKCIVOID CI_ACCOMPRESSION neg_ACCOMPRESSION (on_try (set_neg neg_ACCOMPRESSION false)) c;
  '(_, len, x) ← nak_loop (S (Z.to_nat len)) c;
  _ ← check (len =? 0);
  Good (try_ x, looped_back x).

(** *** A Reject *)

Definition REJCIVOID opt n := CI CILEN_VOID opt n get_void (fun _ x => Good (set_neg n false x)).
Definition REJCISHORT opt n val := CI CILEN_SHORT opt n get_short (fun v x => _ ← check (v =? val); Good (set_neg n false x)).
Definition REJCICHAP opt n val digest := CI CILEN_CHAP opt n get_chap (fun '(v, d) x =>
  _ ← check ((v =? val) && (d =? digest)); Good (set_neg neg_UPAP false (set_neg n false x))).
Definition REJCILONG opt n val := CI CILEN_LONG opt n get_long (fun v x => _ ← check (v =? val); Good (set_neg n false x)).
Definition REJCILQR opt n val := CI CILEN_LQR opt n get_lqr (fun '(s, v) x =>
  _ ← check ((s =? PPP_LQR) && (v =? val)); Good (set_neg n false x)).
Definition REJCICBCP opt n val := CI CILEN_CBCP opt n get_char (fun v x => _ ← check (v =? val); Good (set_neg n false x)).

(** The check of a Reject: the options to request next *)
Definition rej_check (p : list Z) (len : Z) : checked lcp_options :=
  c ← REJCISHORT CI_MRU neg_MRU (mru go) (p, len, go);
  c ← REJCILONG CI_ASYNCMAP neg_ASYNCMAP (asyncmap go) c;
  c ← REJCICHAP CI_AUTHTYPE neg_CHAP PPP_CHAP (chap_mdtype go) c;
  c ← (if negb (neg_chap go) then REJCISHORT CI_AUTHTYPE neg_UPAP PPP_PAP c else Good c);
  c ← REJCILQR CI_QUALITY neg_LQR (lqr_period go) c;
  c ← REJCICBCP CI_CALLBACK neg_CBCP CBCP_OPT c;
  c ← REJCILONG CI_MAGICNUMBER neg_MAGICNUMBER (magicnumber go) c;
  c ← REJCIVOID CI_PCOMPRESSION neg_PCOMPRESSION c;
  '(_, len, x) ← REJCIVOID CI_ACCOMPRESSION neg_ACCOMPRESSION c;
  _ ← check (len =? 0);
  Good x.
End Answers.

(** ** A request of the peer *)

(** Accepting an option: what is remembered in [hisoptions]. *)
Definition set_mru (v : Z) (o : lcp_options) : lcp_options :=
  Options (passive o) (silent o) (restart o) true (neg_asyncmap o) (neg_upap o) (neg_chap o) (neg_magicnumber o)
    (neg_pcompression o) (neg_accompression o) (neg_lqr o) (neg_cbcp o) v (chap_mdtype o) (asyncmap o) (magicnumber o)
    (numloops o) (lqr_period o).
Definition set_asyncmap (v : Z) (o : lcp_options) : lcp_options :=
  Options (passive o) (silent o) (restart o) (neg_mru o) true (neg_upap o) (neg_chap o) (neg_magicnumber o)
    (neg_pcompression o) (neg_accompression o) (neg_lqr o) (neg_cbcp o) (mru o) (chap_mdtype o) v (magicnumber o)
    (numloops o) (lqr_period o).
Definition set_upap (o : lcp_options) : lcp_options :=
  Options (passive o) (silent o) (restart o) (neg_mru o) (neg_asyncmap o) true (neg_chap o) (neg_magicnumber o)
    (neg_pcompression o) (neg_accompression o) (neg_lqr o) (neg_cbcp o) (mru o) (chap_mdtype o) (asyncmap o) (magicnumber o)
    (numloops o) (lqr_period o).
Definition set_chap (v : Z) (o : lcp_options) : lcp_options :=
  Options (passive o) (silent o) (restart o) (neg_mru o) (neg_asyncmap o) (neg_upap o) true (neg_magicnumber o)
    (neg_pcompression o) (neg_accompression o) (neg_lqr o) (neg_cbcp o) (mru o) v (asyncmap o) (magicnumber o)
    (numloops o) (lqr_period o).
Definition set_magicnumber (v : Z) (o : lcp_options) : lcp_options :=
  Options (passive o) (silent o) (restart o) (neg_mru o) (neg_asyncmap o) (neg_upap o) (neg_chap o) true
    (neg_pcompression o) (neg_accompression o) (neg_lqr o) (neg_cbcp o) (mru o) (chap_mdtype o) (asyncmap o) v
    (numloops o) (lqr_period o).
Definition set_pcompression (o : lcp_options) : lcp_options :=
  Options (passive o) (silent o) (restart o) (neg_mru o) (neg_asyncmap o) (neg_upap o) (neg_chap o) (neg_magicnumber o)
    true (neg_accompression o) (neg_lqr o) (neg_cbcp o) (mru o) (chap_mdtype o) (asyncmap o) (magicnumber o)
    (numloops o) (lqr_period o).
Definition set_accompression (o : lcp_options) : lcp_options :=
  Options (passive o) (silent o) (restart o) (neg_mru o) (neg_asyncmap o) (neg_upap o) (neg_chap o) (neg_magicnumber o)
    (neg_pcompression o) true (neg_lqr o) (neg_cbcp o) (mru o) (chap_mdtype o) (asyncmap o) (magicnumber o)
    (numloops o) (lqr_period o).

(** What becomes of one option: its code [orc], the octets put into
    [nak_buffer], and the options of the peer.  [None] is a read outside of the
    buffer. *)
Definition verdict : Type := option (Z * list Z * lcp_options).

Definition accept (ho : lcp_options) : verdict := Some (CONFACK, [], ho).
Definition reject (ho : lcp_options) : verdict := Some (CONFREJ, [], ho).
Definition nak (bs : list Z) (ho : lcp_options) : verdict := Some (CONFNAK, bs, ho).

Section Reqci.
(** The options allowed and our own, and what [magic()] returns at a call for
    an option at this distance from the end *)
Context (ao go : lcp_options) (magic : Z -> Z).

Definition reqci_mru (cilen : Z) (p : list Z) (ho : lcp_options) : verdict :=
  if negb (neg_mru ao) then reject ho
  else if negb (cilen =? CILEN_SHORT) then reject ho
  else
    '(cishort, p) ← GETSHORT p;
    if cishort <? PPP_MINMRU then nak ([CI_MRU; CILEN_SHORT] ++ PUTSHORT PPP_MINMRU) ho
    else accept (set_mru cishort ho).

Definition reqci_asyncmap (cilen : Z) (p : list Z) (ho : lcp_options) : verdict :=
  if negb (neg_asyncmap ao) then reject ho
  else if negb (cilen =? CILEN_LONG) then reject ho
  else
    '(cilong, p) ← GETLONG p;
    if negb (Z.land (asyncmap ao) (Z.lnot cilong) =? 0) then
      nak ([CI_ASYNCMAP; CILEN_LONG] ++ PUTLONG (Z.lor (asyncmap ao) cilong)) ho
    else accept (set_asyncmap cilong ho).

Definition nak_chap : list Z := [CI_AUTHTYPE; CILEN_CHAP] ++ PUTSHORT PPP_CHAP ++ [chap_mdtype ao].
Definition nak_pap : list Z := [CI_AUTHTYPE; CILEN_SHORT] ++ PUTSHORT PPP_PAP.

Definition reqci_authtype (cilen : Z) (p : list Z) (ho : lcp_options) : verdict :=
  if cilen <? CILEN_SHORT then reject ho
  else if negb (neg_upap ao || neg_chap ao) then reject ho
  else
    '(cishort, p) ← GETSHORT p;
    if cishort =? PPP_PAP then
      if neg_chap ho then reject ho
      else if negb (cilen =? CILEN_SHORT) then reject ho
      else if negb (neg_upap ao) then nak nak_chap ho
      else accept (set_upap ho)
    else if cishort =? PPP_CHAP then
      if neg_upap ho then reject ho
      else if negb (cilen =? CILEN_CHAP) then reject ho
      else if negb (neg_chap ao) then nak nak_pap ho
      else
        match p with
        | cichar :: _ => if negb (cichar =? CHAP_DIGEST_MD5) then nak nak_chap ho else accept (set_chap cichar ho)
        | [] => None
        end
    else nak (if neg_chap ao then nak_chap else nak_pap) ho.

(** The two reads come before any check. *)
Definition reqci_quality (cilen : Z) (p : list Z) (ho : lcp_options) : verdict :=
  '(cishort, p) ← GETSHORT p;
  '(cilong, p) ← GETLONG p;
  if negb (neg_lqr ao) || negb (cilen =? CILEN_LQR) then reject ho
  else if negb (cishort =? PPP_LQR) then nak ([CI_QUALITY; CILEN_LQR] ++ PUTSHORT PPP_LQR ++ PUTLONG (lqr_period ao)) ho
  else accept ho.

Definition reqci_magicnumber (left cilen : Z) (p : list Z) (ho : lcp_options) : verdict :=
  if negb (neg_magicnumber ao || neg_magicnumber go) || negb (cilen =? CILEN_LONG) then reject ho
  else
    '(cilong, p) ← GETLONG p;
    if neg_magicnumber go && (cilong =? magicnumber go) then
      nak ([CI_MAGICNUMBER; CILEN_LONG] ++ PUTLONG (magic left)) ho
    else accept (set_magicnumber cilong ho).

Definition reqci_option (left citype cilen : Z) (p : list Z) (ho : lcp_options) : verdict :=
  if citype =? CI_MRU then reqci_mru cilen p ho
  else if citype =? CI_ASYNCMAP then reqci_asyncmap cilen p ho
  else if citype =? CI_AUTHTYPE then reqci_authtype cilen p ho
  else if citype =? CI_QUALITY then reqci_quality cilen p ho
  else if citype =? CI_MAGICNUMBER then reqci_magicnumber left cilen p ho
  else if citype =? CI_PCOMPRESSION then
    if negb (neg_pcompression ao) || negb (cilen =? CILEN_VOID) then reject ho else accept (set_pcompression ho)
  else if citype =? CI_ACCOMPRESSION then
    if negb (neg_accompression ao) || negb (cilen =? CILEN_VOID) then reject ho else accept (set_accompression ho)
  else reject ho.

(** [rc], the octets in front of [rejp] and of [nakp], and his options *)
Record reqci_state := Req { rc : Z; rejected : list Z; naked : list Z; ho : lcp_options }.

(** Behind [endswitch]; the option is the [cilen] octets [cip]. *)
Definition reqci_end (disagree : bool) (citype orc : Z) (cip : list Z) (s : reqci_state) : reqci_state :=
  if (orc =? CONFACK) && negb (rc s =? CONFACK) then s
  else
    let drop_it := disagree && negb (citype =? CI_MAGICNUMBER) in
    if (orc =? CONFNAK) && negb drop_it then
      if rc s =? CONFREJ then s else Req CONFNAK (rejected s) (naked s) (ho s)
    else if (orc =? CONFNAK) || (orc =? CONFREJ) then Req CONFREJ (rejected s ++ cip) (naked s) (ho s)
    else s.

(** [next] from its pointer on, of which [l] octets are left.  The moving of
    rejected options to [rejp] does not touch what is still to be read, since
    [rejp] is never behind [cip]. *)
Fixpoint reqci_loop (fuel : nat) (disagree : bool) (next : list Z) (l : Z) (s : reqci_state) : option reqci_state :=
  match fuel with
  | O => None
  | S fuel =>
      if l =? 0 then Some s
      else
        let bad := Some (reqci_end disagree 0 CONFREJ (take (Z.to_nat l) next) s) in
        match next with
        | citype :: cilen :: p =>
            if (l <? 2) || (cilen <? 2) || (l <? cilen) then bad
            else
              '(orc, bs, h) ← reqci_option (l - cilen) citype cilen p (ho s);
              if zlen (naked s ++ bs) <=? PPP_MRU then
                reqci_loop fuel disagree (drop (Z.to_nat cilen) next) (l - cilen)
                  (reqci_end disagree citype orc (take (Z.to_nat cilen) next) (Req (rc s) (rejected s) (naked s ++ bs) h))
              else None
        | _ => if l <? 2 then bad else None
        end
  end.

(** The code, the buffer from [inp] on and the length that are left, and the
    options of the peer; [None] is an access outside of [inp] or [nak_buffer]. *)
Definition lcp_reqci (inp : list Z) (len : Z) (disagree : bool) : option (Z * list Z * Z * lcp_options) :=
  s ← reqci_loop (S (Z.to_nat len)) disagree inp len (Req CONFACK [] [] no_options);
  if rc s =? CONFACK then Some (CONFACK, inp, len, ho s)
  else if rc s =? CONFNAK then
    inp' ← mem_put inp 0 (naked s);
    Some (CONFNAK, inp', zlen (naked s), ho s)
  else
    inp' ← mem_put inp 0 (rejected s);
    Some (CONFREJ, inp', zlen (rejected s), ho s).
End Reqci.

(** ** The callbacks *)

Definition PHASE_ESTABLISH : Z := 2.
Definition PHASE_TERMINATE : Z := 6.
Definition lcp_loopbackfail : Z := 10.

(** The options and the phase of a unit *)
Record lcp := Lcp {
  wantoptions : lcp_options; gotoptions : lcp_options; allowoptions : lcp_options; hisoptions : lcp_options; lcp_phase : Z }.

Definition get_lcp : M lcp lcp := fun w => Some (own w, w).
Definition upd_lcp (g : lcp -> lcp) : M lcp unit := fun w =>
  Some (tt, World (f w) (timeouts w) (outpacket_buf w) (peer_mru w) (sent w) (calls w) (g (own w))).
Definition set_hisoptions (ho : lcp_options) : M lcp unit :=
  upd_lcp (fun o => Lcp (wantoptions o) (gotoptions o) (allowoptions o) ho (lcp_phase o)).
Definition set_gotoptions (go : lcp_options) : M lcp unit :=
  upd_lcp (fun o => Lcp (wantoptions o) go (allowoptions o) (hisoptions o) (lcp_phase o)).
Definition set_phase (phase : Z) : M lcp unit :=
  upd_lcp (fun o => Lcp (wantoptions o) (gotoptions o) (allowoptions o) (hisoptions o) phase).

Definition of_option {A} (a : option A) : M lcp A := fun w => match a with Some a => Some (a, w) | None => None end.

Definition cilen_callback : M lcp Z := o ← get_lcp; mret (lcp_cilen (gotoptions o)).
Definition addci_callback (n : Z) : M lcp Z :=
  o ← get_lcp; _ ← put_out (PPP_HDRLEN + HEADERLEN) (lcp_addci (gotoptions o)); mret n.
Definition ackci_callback (p : list Z) (len : Z) : M lcp Z := o ← get_lcp; of_option (lcp_ackci (gotoptions o) p len).
Definition reqci_callback (magic : Z -> Z) (inp : list Z) (len : Z) (disagree : bool) : M lcp (Z * list Z * Z) :=
  o ← get_lcp;
  '(code, inp, len, ho) ← of_option (lcp_reqci (allowoptions o) (gotoptions o) magic inp len disagree);
  _ ← set_hisoptions ho;
  mret (code, inp, len).

Section Close.
(** The callbacks that closing calls, and the addresses of the timer *)
Context (others : fsm_callbacks lcp) (fsm_timeout_at fsm_at : Z).

Definition lcp_close (reason : list Z) : M lcp unit :=
  o ← get_lcp;
  _ ← when (negb (lcp_phase o =? PHASE_DEAD)) (set_phase PHASE_TERMINATE);
  s ← gets state;
  b ← gets (has_flag (Z.lor OPT_PASSIVE OPT_SILENT));
  if bool_decide (s = LS_STOPPED) && b then
    _ ← upd (set_state LS_CLOSED);
    call_back Finished (finished others)
  else fsm_close others fsm_timeout_at fsm_at reason.

(** "Loopback detected" *)
Definition loopback_detected : list Z :=
  [76; 111; 111; 112; 98; 97; 99; 107; 32; 100; 101; 116; 101; 99; 116; 101; 100].

(** [magic] is what [magic()] returns. *)
Definition nakci_callback (magic : Z) (p : list Z) (len : Z) : M lcp Z :=
  o ← get_lcp;
  match nak_check (gotoptions o) (wantoptions o) magic p len with
  | Outside => fault
  | BadPacket => mret 0
  | Good (try_, looped_back) =>
      s ← gets state;
      _ ← when (bool_decide (s <> LS_OPENED))
            (let n := if looped_back then numloops try_ + 1 else 0 in
             _ ← when (looped_back && (lcp_loopbackfail <=? n)) (lcp_close loopback_detected);
             set_gotoptions (try_numloops n try_));
      mret 1
  end.
End Close.

Definition rejci_callback (p : list Z) (len : Z) : M lcp Z :=
  o ← get_lcp;
  match rej_check (gotoptions o) p len with
  | Outside => fault
  | BadPacket => mret 0
  | Good try_ =>
      s ← gets state;
      _ ← when (bool_decide (s <> LS_OPENED)) (set_gotoptions try_);
      mret 1
  end.

(** [lcp_rprotrej] and [lcp_received_echo_reply] are given; the Echo-Reply is
    sent from the buffer of the request, with our magic number in front. *)
Definition lcp_extcode (lcp_rprotrej lcp_received_echo_reply : Z -> list Z -> Z -> M lcp unit)
    (code id : Z) (inp : list Z) (len : Z) : M lcp Z :=
  if code =? PROTREJ then _ ← lcp_rprotrej id inp len; mret 1
  else if code =? ECHOREQ then
    s ← gets state;
    if bool_decide (s <> LS_OPENED) then mret 1
    else
      o ← get_lcp;
      magp ← of_option (mem_put inp 0 (PUTLONG (magicnumber (gotoptions o))));
      _ ← fsm_sdata ECHOREP id (Elsewhere magp) len;
      mret 1
  else if code =? ECHOREP then _ ← lcp_received_echo_reply id inp len; mret 1
  else if code =? DISCREQ then mret 1
  else mret 0.

(** LCP, with the callbacks of [others] where they are not modelled *)
Definition lcp_callbacks (ta fa : Z) (magic : Z -> Z) (lcp_rprotrej lcp_received_echo_reply : Z -> list Z -> Z -> M lcp unit)
    (others : fsm_callbacks lcp) : fsm_callbacks lcp :=
  Callbacks (resetci others) (Some cilen_callback) (Some addci_callback) (Some ackci_callback)
    (Some (nakci_callback others ta fa (magic 0))) (Some rejci_callback) (Some (reqci_callback magic)) (up others) (down others) (starting others) (finished others) None
    (Some (lcp_extcode lcp_rprotrej lcp_received_echo_reply)).

Definition set_flags (v : Z) (a : fsm) : fsm :=
  Fsm (protocol a) (state a) v (id a) (reqid a) (seen_ack a) (timeouttime a) (maxconfreqtransmits a) (retransmits a)
    (maxtermtransmits a) (nakloops a) (maxnakloops a) (term_reason a) (term_reason_len a).

Definition lcp_open (cb : fsm_callbacks lcp) (ta fa : Z) : M lcp unit :=
  o ← get_lcp;
  _ ← upd (set_flags (Z.lor (if passive (wantoptions o) then OPT_PASSIVE else 0)
                            (if silent (wantoptions o) then OPT_SILENT else 0)));
  _ ← fsm_open cb ta fa;
  set_phase PHASE_ESTABLISH.

(** What [lcp_up] makes of the MRU the peer has asked for *)
Definition lcp_up_mru : M lcp unit := fun w =>
  let ho := hisoptions (own w) in
  Some (tt, World (f w) (timeouts w) (outpacket_buf w) (if neg_mru ho then mru ho else peer_mru w) (sent w) (calls w) (own w)).

(** ** Numbers in octets *)

Lemma PUTSHORT_octets v : Forall is_byte (PUTSHORT v).
Proof. repeat (apply Forall_cons; [apply u8_range|]). by apply Forall_nil. Qed.

Lemma PUTLONG_octets v : Forall is_byte (PUTLONG v).
Proof. repeat (apply Forall_cons; [apply u8_range|]). by apply Forall_nil. Qed.

Lemma u8_land v : u8 (Z.land v 0xff) = u8 v.
Proof. change 0xff with (Z.ones 8). rewrite Z.land_ones by lia. apply u8_idem. Qed.

Lemma shift_octet a b : is_byte b -> Z.lor (Z.shiftl a 8) b = a * 256 + b.
Proof. intros Hb. rewrite Z.shiftl_mul_pow2 by lia. by apply lor_add. Qed.

Lemma u8_shiftr v k : 0 <= k -> u8 (Z.shiftr v k) = v / 2 ^ k mod 256.
Proof. intros Hk. unfold u8. by rewrite Z.shiftr_div_pow2. Qed.

Lemma GETSHORT_PUTSHORT v p : 0 <= v < 65536 -> GETSHORT (PUTSHORT v ++ p) = Some (v, p).
Proof.
  intros Hv. unfold PUTSHORT. cbn [app GETSHORT]. rewrite u8_land, shift_octet by apply u8_range.
  rewrite u8_shiftr by lia. unfold u8. do 2 f_equal. change (2 ^ 8) with 256.
  rewrite (Z.mod_small (v / 256)) by (split; [apply Z.div_pos|apply Z.div_lt_upper_bound]; lia). pose proof (Z.div_mod v 256). lia.
Qed.

Lemma GETLONG_PUTLONG v p : 0 <= v < 2 ^ 32 -> GETLONG (PUTLONG v ++ p) = Some (v, p).
Proof.
  intros Hv. unfold PUTLONG. cbn [app GETLONG]. rewrite !shift_octet by apply u8_range. rewrite !u8_shiftr by lia. unfold u8.
  do 2 f_equal. change (2 ^ 24) with (256 * 256 * 256). change (2 ^ 16) with (256 * 256). change (2 ^ 8) with 256.
  rewrite <- !Z.div_div by lia. set (a := v / 256). set (b := a / 256).
  pose proof (Z.div_mod v 256). pose proof (Z.div_mod a 256). pose proof (Z.div_mod b 256).
  assert (0 <= b / 256 < 256).
  { unfold b, a. rewrite !Z.div_div by lia. split; [apply Z.div_pos|apply Z.div_lt_upper_bound]; lia. }
  rewrite (Z.mod_small (b / 256)) by lia. fold a. fold b. lia.
Qed.

(** Octets that are read as a number are the octets of that number. *)
Lemma GETSHORT_inv a b p : is_byte a -> is_byte b -> exists v, GETSHORT (a :: b :: p) = Some (v, p) /\ 0 <= v < 65536 /\ PUTSHORT v = [a; b].
Proof.
  intros Ha Hb. exists (a * 256 + b). cbn [GETSHORT]. rewrite shift_octet by done. unfold is_byte in *. split; [done|]. split; [lia|].
  unfold PUTSHORT. rewrite u8_land, u8_shiftr by lia. unfold u8. change (2 ^ 8) with 256.
  rewrite Z.div_add_l, (Z.div_small b), Z.add_0_r, (Z.mod_small a) by lia. by rewrite Z.add_comm, Z.mod_add, Z.mod_small by lia.
Qed.

Lemma GETLONG_inv a b c d p : is_byte a -> is_byte b -> is_byte c -> is_byte d ->
  exists v, GETLONG (a :: b :: c :: d :: p) = Some (v, p) /\ 0 <= v < 2 ^ 32 /\ PUTLONG v = [a; b; c; d].
Proof.
  intros Ha Hb Hc Hd. exists (((a * 256 + b) * 256 + c) * 256 + d). cbn [GETLONG]. rewrite !shift_octet by done.
  unfold is_byte in *. split; [done|]. split; [lia|]. unfold PUTLONG. rewrite !u8_shiftr by lia. unfold u8.
  change (2 ^ 24) with (256 * 256 * 256). change (2 ^ 16) with (256 * 256). change (2 ^ 8) with 256. rewrite <- !Z.div_div by lia.
  assert (H : forall x y, 0 <= y < 256 -> (x * 256 + y) / 256 = x /\ (x * 256 + y) mod 256 = y).
  { intros x y Hy. split; [rewrite Z.div_add_l, Z.div_small by lia; lia|]. by rewrite Z.add_comm, Z.mod_add, Z.mod_small by lia. }
  rewrite (proj1 (H ((a * 256 + b) * 256 + c) d Hd)), (proj2 (H _ d Hd)), (proj1 (H (a * 256 + b) c Hc)), (proj2 (H _ c Hc)),
    (proj1 (H a b Hb)), (proj2 (H a b Hb)), (Z.mod_small a) by lia. done.
Qed.

(** ** An Ack *)

(** A check passes the octets [bs] and no others, when [len] octets are left. *)
Definition acks (m : list Z -> Z -> parsed) (bs : list Z) : Prop :=
  forall p len, octets_ok p len ->
    m p len = if decide (bs `prefix_of` take (Z.to_nat len) p) then Next (drop (length bs) p) (len - zlen bs) else Bad.

(** The same for the value of an option, which has been counted *)
Definition reads (k : list Z -> Z -> parsed) (body : list Z) : Prop :=
  forall p len, zlen body <= zlen p -> Forall is_byte p ->
    k p len = if decide (body `prefix_of` p) then Next (drop (length body) p) len else Bad.

Lemma reads_nil : reads Next [].
Proof. intros p len _ _. rewrite decide_True by apply prefix_nil. done. Qed.

Lemma prefix_cons_iff (x y : Z) l k : x :: l `prefix_of` y :: k <-> x = y /\ l `prefix_of` k.
Proof. split; [intros H; split; [by eapply prefix_cons_inv_1|by eapply prefix_cons_inv_2]|]. intros [-> H]. by apply prefix_cons. Qed.

Lemma reads_char v : reads (check_char v) [v].
Proof.
  intros p len Hl Hp. destruct p as [|c p]; [cbn in Hl; lia|]. cbn [check_char]. destruct (Z.eqb_spec c v) as [->|Hne]; cbn [negb].
  - rewrite decide_True by (apply prefix_cons, prefix_nil). done.
  - rewrite decide_False; [done|]. rewrite prefix_cons_iff. intros [-> _]. done.
Qed.

Lemma reads_short v k body : 0 <= v < 65536 -> reads k body -> reads (check_short v k) (PUTSHORT v ++ body).
Proof.
  intros Hv Hk p len Hl Hp. destruct p as [|a [|b p]]; cbn [length app PUTSHORT] in Hl; try lia.
  apply Forall_cons_iff in Hp as [Ha Hp]. apply Forall_cons_iff in Hp as [Hb Hp].
  destruct (GETSHORT_inv a b p Ha Hb) as (u & Eu & Hu & Ep). unfold check_short. rewrite Eu.
  destruct (Z.eqb_spec u v) as [->|Hne]; cbn [negb].
  - rewrite (Hk p len) by (done || (cbn in Hl |- *; lia)). rewrite Ep. cbn [app length drop].
    apply decide_ext. rewrite !prefix_cons_iff. tauto.
  - rewrite decide_False; [done|]. unfold PUTSHORT in *. cbn [app]. rewrite !prefix_cons_iff. intros (E1 & E2 & _).
    apply Hne. pose proof (GETSHORT_PUTSHORT u [] Hu) as H1. pose proof (GETSHORT_PUTSHORT v [] Hv) as H2.
    unfold PUTSHORT in H1, H2. rewrite Ep in H1. rewrite E1, E2 in H2. rewrite H1 in H2. by injection H2.
Qed.

Lemma reads_long v : 0 <= v < 2 ^ 32 -> reads (check_long v) (PUTLONG v).
Proof.
  intros Hv p len Hl Hp. destruct p as [|a [|b [|c [|d p]]]]; cbn [length PUTLONG] in Hl; try lia.
  do 4 (apply Forall_cons_iff in Hp as [? Hp]). destruct (GETLONG_inv a b c d p) as (u & Eu & Hu & Ep); [done..|].
  unfold check_long. rewrite Eu. destruct (Z.eqb_spec u v) as [->|Hne]; cbn [negb].
  - rewrite Ep, decide_True by (by exists p). done.
  - rewrite decide_False; [done|]. unfold PUTLONG in *. rewrite !prefix_cons_iff. intros (E1 & E2 & E3 & E4 & _).
    apply Hne. pose proof (GETLONG_PUTLONG u [] Hu) as G1. pose proof (GETLONG_PUTLONG v [] Hv) as G2.
    unfold PUTLONG in G1, G2. rewrite Ep in G1. rewrite E1, E2, E3, E4 in G2. rewrite G1 in G2. by injection G2.
Qed.

Lemma acks_option cilen opt k body :
  reads k body -> cilen = zlen body + 2 -> acks (ACKCI cilen opt true k) ([opt; cilen] ++ body).
Proof.
  intros Hk Hc p len [Hl Hp]. cbn [ACKCI]. destruct (Z.ltb_spec (len - cilen) 0) as [Hlt|Hge].
  - rewrite decide_False; [done|]. intros Hpre%prefix_length. rewrite length_take in Hpre. cbn [app length] in Hpre. lia.
  - destruct p as [|t [|c p]]; cbn [length] in Hl; try lia. rewrite !Forall_cons_iff in Hp. destruct Hp as (Ht & Hc' & Hp).
    replace (Z.to_nat len) with (S (S (Z.to_nat (len - 2)))) by lia. cbn [take app length drop].
    destruct (Z.eqb_spec c cilen) as [->|Hne]; [destruct (Z.eqb_spec t opt) as [->|Hne]|]; cbn [negb orb].
    + rewrite Hk by (done || (cbn [length] in Hl; lia)). replace (len - Z.of_nat (S (S (length body)))) with (len - cilen) by lia.
      apply decide_ext. rewrite !prefix_cons_iff. split.
      * intros [s ->]. do 2 (split; [done|]). rewrite take_app_ge by lia. by eexists.
      * intros (_ & _ & [s Es]). rewrite <- (take_drop (Z.to_nat (len - 2)) p), Es, <- app_assoc. by eexists.
    + rewrite decide_False; [done|]. rewrite !prefix_cons_iff. by intros (-> & _).
    + rewrite decide_False; [done|]. rewrite !prefix_cons_iff. by intros (_ & -> & _).
Qed.

Lemma acks_none cilen opt k : acks (ACKCI cilen opt false k) [].
Proof. intros p len _. rewrite decide_True by apply prefix_nil. cbn. by rewrite drop_0, Z.sub_0_r. Qed.

(** A parse that has passed [bs] of a packet *)
Definition passed (p : list Z) (len : Z) (r : parsed) (bs : list Z) : Prop :=
  r = if decide (bs `prefix_of` take (Z.to_nat len) p) then Next (drop (length bs) p) (len - zlen bs) else Bad.

Lemma acks_then p len r m' bs bs' :
  octets_ok p len -> passed p len r bs -> acks m' bs' -> passed p len (and_then r m') (bs ++ bs').
Proof.
  intros [Hl Hp] -> Hm'. unfold passed. case_decide as Hd; cbn [and_then].
  - destruct Hd as [s Es]. assert (Hlen : (length bs <= Z.to_nat len)%nat).
    { apply (f_equal length) in Es. rewrite length_take, length_app in Es. lia. }
    rewrite Hm' by (split; [rewrite length_drop; lia|by apply Forall_drop]).
    assert (Et : take (Z.to_nat (len - zlen bs)) (drop (length bs) p) = s).
    { rewrite take_drop_commute. replace (length bs + Z.to_nat (len - zlen bs))%nat with (Z.to_nat len) by lia.
      by rewrite Es, drop_app_length. }
    rewrite Et, Es, drop_drop, length_app. replace (len - zlen bs - zlen bs') with (len - Z.of_nat (length bs + length bs')) by lia.
    apply decide_ext. split; [by apply prefix_app|by apply prefix_app_inv].
  - rewrite decide_False; [done|]. intros Hd'. apply Hd. by eapply prefix_app_l.
Qed.

(** Values that fit their fields *)
Record options_ok (o : lcp_options) : Prop := {
  mru_ok : 0 <= mru o < 65536;
  mdtype_ok : is_byte (chap_mdtype o);
  asyncmap_ok : 0 <= asyncmap o < 2 ^ 32;
  magic_ok : 0 <= magicnumber o < 2 ^ 32;
  lqr_ok : 0 <= lqr_period o < 2 ^ 32 }.

Lemma acks_if cilen opt neg k body :
  reads k body -> cilen = zlen body + 2 -> acks (ACKCI cilen opt neg k) (if neg then [opt; cilen] ++ body else []).
Proof. intros Hk Hc. destruct neg; [by apply acks_option|apply acks_none]. Qed.

Lemma acks_void opt neg : acks (ACKCIVOID opt neg) (ADDCIVOID opt neg).
Proof. by apply (acks_if CILEN_VOID opt neg Next []); [apply reads_nil|]. Qed.

Lemma acks_short opt neg v : 0 <= v < 65536 -> acks (ACKCISHORT opt neg v) (ADDCISHORT opt neg v).
Proof. intros Hv. apply (acks_if CILEN_SHORT opt neg _ (PUTSHORT v)); [|done]. rewrite <- (app_nil_r (PUTSHORT v)). by apply reads_short, reads_nil. Qed.

Lemma acks_long opt neg v : 0 <= v < 2 ^ 32 -> acks (ACKCILONG opt neg v) (ADDCILONG opt neg v).
Proof. intros Hv. by apply (acks_if CILEN_LONG opt neg _ (PUTLONG v)); [apply reads_long|]. Qed.

Lemma acks_char opt neg v : acks (ACKCICHAR opt neg v) (ADDCICHAR opt neg v).
Proof. by apply (acks_if CILEN_CHAR opt neg _ [v]); [apply reads_char|]. Qed.

Lemma acks_chap opt neg v d : 0 <= v < 65536 -> acks (ACKCICHAP opt neg v d) (ADDCICHAP opt neg v d).
Proof. intros Hv. by apply (acks_if CILEN_CHAP opt neg _ (PUTSHORT v ++ [d])); [apply reads_short, reads_char|]. Qed.

Lemma acks_lqr opt neg v : 0 <= v < 2 ^ 32 -> acks (ACKCILQR opt neg v) (ADDCILQR opt neg v).
Proof. intros Hv. by apply (acks_if CILEN_LQR opt neg _ (PUTSHORT PPP_LQR ++ PUTLONG v)); [apply reads_short, reads_long|]. Qed.

Ltac pass :=
  first [apply acks_void|apply acks_char|apply acks_short|apply acks_long|apply acks_chap|apply acks_lqr];
  first [done|by unfold PPP_PAP, PPP_CHAP; lia].

Lemma lcp_ackci_decides go p len :
  options_ok go -> octets_ok p len -> lcp_ackci go p len = Some (if decide (take (Z.to_nat len) p = lcp_addci go) then 1 else 0).
Proof.
  intros [Hm Hd Ha Hg Hl] Hp. unfold lcp_ackci, lcp_addci. set (r := and_then _ (ACKCIVOID CI_ACCOMPRESSION _)).
  set (bs := ADDCISHORT CI_MRU _ _ ++ _).
  assert (Hr : passed p len r bs).
  { unfold r, bs. rewrite !app_assoc. do 8 (apply acks_then; [done| |pass]). by apply acks_short. }
  rewrite Hr. clearbody bs. destruct Hp as [Hlen Hp]. case_decide as Hpre.
  - pose proof (prefix_length _ _ Hpre) as Hle. rewrite length_take in Hle. destruct Hpre as [s Es].
    pose proof (f_equal length Es) as Es'. rewrite length_take, length_app in Es'.
    destruct (Z.eqb_spec (len - zlen bs) 0) as [Hz|Hnz]; cbn [negb].
    + rewrite decide_True; [done|]. rewrite Es. destruct s; [by rewrite app_nil_r|]. cbn in Es'. lia.
    + rewrite decide_False; [done|]. intros Eq. rewrite Eq in Es. apply (f_equal length) in Es. rewrite length_app in Es. lia.
  - rewrite decide_False; [done|]. intros Eq. apply Hpre. by rewrite Eq.
Qed.

Lemma ADDCI_octets go : options_ok go -> Forall is_byte (lcp_addci go).
Proof.
  intros [_ Hd _ _ _]. pose proof PUTSHORT_octets as Hs. pose proof PUTLONG_octets as Hl.
  assert (Hb : forall n, Forall is_byte [n] <-> is_byte n) by (intros n; by rewrite Forall_singleton).
  assert (Ho : forall opt n bs, is_byte opt -> is_byte n -> Forall is_byte bs -> Forall is_byte ([opt; n] ++ bs)).
  { intros opt n bs H1 H2 H3. by do 2 (apply Forall_cons; [done|]). }
  unfold lcp_addci. repeat (apply Forall_app; split);
    match goal with |- Forall is_byte (?x _ ?neg) => unfold x | |- Forall is_byte (?x _ ?neg _) => unfold x
      | |- Forall is_byte (?x _ ?neg _ _) => unfold x end; case_match; try (by apply Forall_nil);
    try (apply Ho; [done|done|]); try (apply Forall_app; split); auto; try (by apply Hb).
  all: repeat (apply Forall_cons; [done|]); apply Forall_nil; done.
Qed.

Lemma ack_request_length go : zlen (lcp_addci go) = lcp_cilen go /\ 0 <= lcp_cilen go.
Proof.
  unfold lcp_addci, lcp_cilen, LENCI. rewrite !length_app. unfold ADDCISHORT, ADDCILONG, ADDCICHAP, ADDCILQR, ADDCICHAR, ADDCIVOID.
  by destruct (neg_mru go && _), (neg_asyncmap go && _), (neg_chap go), (neg_upap go), (neg_lqr go), (neg_cbcp go),
    (neg_magicnumber go), (neg_pcompression go), (neg_accompression go).
Qed.

(** C25: The request that [lcp_addci] makes of any options is as long as
    [lcp_cilen] says, and the check of an answer, [lcp_ackci], accepts it and
    nothing else: an Ack is good exactly if its octets are those of the request.
    No octet is read outside of the answer. *)
Theorem ack_is_request go p len :
  options_ok go -> octets_ok p len ->
  zlen (lcp_addci go) = lcp_cilen go /\ Forall is_byte (lcp_addci go) /\
  lcp_ackci go p len = Some (if decide (take (Z.to_nat len) p = lcp_addci go) then 1 else 0).
Proof.
  intros Hg Hp. split; [apply ack_request_length|]. split; [by apply ADDCI_octets|by apply lcp_ackci_decides].
Qed.

(** ** A request *)

Section Request.
Context (ao go : lcp_options) (magic : Z -> Z) (disagree : bool).

(** The loop from here on, with any fuel that is enough *)
Definition runs (next : list Z) (l : Z) (s : reqci_state) (out : option reqci_state) : Prop :=
  forall fuel, (Z.to_nat l < fuel)%nat -> reqci_loop ao go magic fuel disagree next l s = out.

Lemma runs_end next s : runs next 0 s (Some s).
Proof. intros [|fuel] Hf; [lia|done]. Qed.

(** One option *)
Lemma runs_step citype cilen body rest l s orc bs h out :
  cilen = zlen body + 2 -> 0 <= l -> reqci_option ao go magic l citype cilen (body ++ rest) (ho s) = Some (orc, bs, h) ->
  zlen (naked s ++ bs) <= PPP_MRU ->
  runs rest l (reqci_end disagree citype orc (citype :: cilen :: body) (Req (rc s) (rejected s) (naked s ++ bs) h)) out ->
  runs (citype :: cilen :: body ++ rest) (cilen + l) s out.
Proof.
  intros Hc Hl Ho Hn Hr [|fuel] Hf; [lia|]. cbn [reqci_loop]. rewrite (proj2 (Z.eqb_neq _ 0)) by lia.
  rewrite (proj2 (Z.ltb_ge (cilen + l) 2)), (proj2 (Z.ltb_ge cilen 2)), (proj2 (Z.ltb_ge (cilen + l) cilen)) by lia. cbn [orb].
  replace (cilen + l - cilen) with l by lia. rewrite Ho. cbn [mbind option_bind]. rewrite (proj2 (Z.leb_le _ _) Hn).
  assert (Ea : citype :: cilen :: body ++ rest = (citype :: cilen :: body) ++ rest) by done.
  rewrite Ea, take_app_length', drop_app_length' by (cbn [length]; lia). apply Hr. lia.
Qed.

(** The octets of an option, if it is sent, are accepted. *)
Definition understood (bs : list Z) (upd : lcp_options -> lcp_options) (h : lcp_options) : Prop :=
  forall rest l out, 0 <= l -> runs rest l (Req CONFACK [] [] (upd h)) out -> runs (bs ++ rest) (zlen bs + l) (Req CONFACK [] [] h) out.

Definition given (b : bool) (upd : lcp_options -> lcp_options) : lcp_options -> lcp_options := if b then upd else (fun o => o).

Lemma understood_none upd h : (forall x, upd x = x) -> understood [] upd h.
Proof. intros Hu rest l out Hl Hr. rewrite Hu in Hr. by replace (zlen [] + l) with l by (cbn; lia). Qed.

Lemma understood_option (b : bool) citype cilen body upd h :
  cilen = zlen body + 2 ->
  (b = true -> forall rest l, reqci_option ao go magic l citype cilen (body ++ rest) h = accept (upd h)) ->
  understood (if b then [citype; cilen] ++ body else []) (given b upd) h.
Proof.
  intros Hc Ho. destruct b; [|by apply understood_none]. intros rest l out Hl Hr.
  replace (zlen ([citype; cilen] ++ body) + l) with (cilen + l) by (cbn [app length]; lia).
  apply (runs_step citype cilen body rest l _ CONFACK [] (upd h)); [done|done|by apply Ho|done|exact Hr].
Qed.

Lemma understood_app bs bs' upd upd' h :
  understood bs upd h -> understood bs' upd' (upd h) -> understood (bs ++ bs') (fun h => upd' (upd h)) h.
Proof.
  intros H1 H2 rest l out Hl Hr. rewrite <- app_assoc. replace (zlen (bs ++ bs') + l) with (zlen bs + (zlen bs' + l)) by (rewrite length_app; lia).
  apply H1; [lia|]. by apply H2.
Qed.
End Request.

(** A request [his] is acceptable to an end that allows [ao] and itself has
    asked for [go]. *)
Record acceptable (ao go his : lcp_options) : Prop := {
  acc_mru : neg_mru his && negb (mru his =? PPP_DEFMRU) = true -> neg_mru ao = true /\ PPP_MINMRU <= mru his;
  acc_asyncmap : neg_asyncmap his && negb (asyncmap his =? 0xFFFFFFFF) = true ->
    neg_asyncmap ao = true /\ Z.land (asyncmap ao) (Z.lnot (asyncmap his)) = 0;
  acc_chap : neg_chap his = true -> neg_chap ao = true /\ chap_mdtype his = CHAP_DIGEST_MD5;
  acc_upap : neg_upap his = true -> neg_upap ao = true;
  acc_magic : neg_magicnumber his = true -> neg_magicnumber ao || neg_magicnumber go = true /\
    (neg_magicnumber go = true -> magicnumber his <> magicnumber go);
  acc_pcompression : neg_pcompression his = true -> neg_pcompression ao = true;
  acc_accompression : neg_accompression his = true -> neg_accompression ao = true;
  acc_others : neg_lqr his = false /\ neg_cbcp his = false }.

(** What the other end knows of the options: those that are sent *)
Definition conveyed (o : lcp_options) : lcp_options :=
  let m := neg_mru o && negb (mru o =? PPP_DEFMRU) in
  let a := neg_asyncmap o && negb (asyncmap o =? 0xFFFFFFFF) in
  Options false false false m a (negb (neg_chap o) && neg_upap o) (neg_chap o) (neg_magicnumber o)
    (neg_pcompression o) (neg_accompression o) false false
    (if m then mru o else 0) (if neg_chap o then chap_mdtype o else 0) (if a then asyncmap o else 0)
    (if neg_magicnumber o then magicnumber o else 0) 0 0.

Section Understood.
Context (ao go : lcp_options) (magic : Z -> Z) (disagree : bool) (his : lcp_options).
Context (Hok : options_ok his) (Hacc : acceptable ao go his).
Abbreviation understood := (understood ao go magic disagree).

Lemma understood_mru h :
  let m := neg_mru his && negb (mru his =? PPP_DEFMRU) in
  understood (ADDCISHORT CI_MRU m (mru his)) (given m (set_mru (mru his))) h.
Proof.
  intros m. apply (understood_option ao go magic disagree m CI_MRU CILEN_SHORT (PUTSHORT (mru his))); [done|]. intros Hm rest l.
  destruct (acc_mru _ _ _ Hacc Hm) as [Ha Hmin]. unfold reqci_option, reqci_mru. cbn [Z.eqb CI_MRU Pos.eqb]. rewrite Ha.
  rewrite GETSHORT_PUTSHORT by apply Hok. cbn. by rewrite (proj2 (Z.ltb_ge _ _)).
Qed.

Lemma understood_asyncmap h :
  let a := neg_asyncmap his && negb (asyncmap his =? 0xFFFFFFFF) in
  understood (ADDCILONG CI_ASYNCMAP a (asyncmap his)) (given a (set_asyncmap (asyncmap his))) h.
Proof.
  intros a. apply (understood_option ao go magic disagree a CI_ASYNCMAP CILEN_LONG (PUTLONG (asyncmap his))); [done|]. intros Hm rest l.
  destruct (acc_asyncmap _ _ _ Hacc Hm) as [Ha Hmap]. unfold reqci_option, reqci_asyncmap. cbn [Z.eqb CI_MRU CI_ASYNCMAP Pos.eqb]. rewrite Ha.
  rewrite GETLONG_PUTLONG by apply Hok. cbn [mbind option_bind negb Z.eqb CILEN_LONG Pos.eqb]. by rewrite Hmap.
Qed.

Lemma understood_chap h :
  neg_upap h = false -> understood (ADDCICHAP CI_AUTHTYPE (neg_chap his) PPP_CHAP (chap_mdtype his)) (given (neg_chap his) (set_chap (chap_mdtype his))) h.
Proof.
  intros Hh. apply (understood_option ao go magic disagree _ CI_AUTHTYPE CILEN_CHAP (PUTSHORT PPP_CHAP ++ [chap_mdtype his])); [done|]. intros Hm rest l.
  destruct (acc_chap _ _ _ Hacc Hm) as [Ha Hd]. unfold reqci_option, reqci_authtype. rewrite Ha, orb_true_r, <- app_assoc.
  rewrite GETSHORT_PUTSHORT by (unfold PPP_CHAP; lia). cbn. by rewrite Hh, Hd.
Qed.

Lemma understood_upap h :
  neg_chap h = neg_chap his -> understood (ADDCISHORT CI_AUTHTYPE (negb (neg_chap his) && neg_upap his) PPP_PAP)
    (given (negb (neg_chap his) && neg_upap his) set_upap) h.
Proof.
  intros Hh. apply (understood_option ao go magic disagree _ CI_AUTHTYPE CILEN_SHORT (PUTSHORT PPP_PAP)); [done|].
  intros [Hc Hm]%andb_prop rest l. rewrite negb_true_iff in Hc. pose proof (acc_upap _ _ _ Hacc Hm) as Ha.
  unfold reqci_option, reqci_authtype. rewrite Ha. cbn [orb negb]. rewrite GETSHORT_PUTSHORT by (unfold PPP_PAP; lia). cbn. by rewrite Hh, Hc.
Qed.

Lemma understood_magic h :
  understood (ADDCILONG CI_MAGICNUMBER (neg_magicnumber his) (magicnumber his)) (given (neg_magicnumber his) (set_magicnumber (magicnumber his))) h.
Proof.
  apply (understood_option ao go magic disagree _ CI_MAGICNUMBER CILEN_LONG (PUTLONG (magicnumber his))); [done|]. intros Hm rest l.
  destruct (acc_magic _ _ _ Hacc Hm) as [Ha Hne]. unfold reqci_option, reqci_magicnumber. rewrite Ha.
  rewrite GETLONG_PUTLONG by apply Hok. cbn. destruct (neg_magicnumber go); [|done]. cbn [andb]. by rewrite (proj2 (Z.eqb_neq _ _)) by auto.
Qed.

Lemma understood_pcompression h : understood (ADDCIVOID CI_PCOMPRESSION (neg_pcompression his)) (given (neg_pcompression his) set_pcompression) h.
Proof.
  apply (understood_option ao go magic disagree _ CI_PCOMPRESSION CILEN_VOID []); [done|]. intros Hm rest l. unfold reqci_option. cbn.
  by rewrite (acc_pcompression _ _ _ Hacc Hm).
Qed.

Lemma understood_accompression h : understood (ADDCIVOID CI_ACCOMPRESSION (neg_accompression his)) (given (neg_accompression his) set_accompression) h.
Proof.
  apply (understood_option ao go magic disagree _ CI_ACCOMPRESSION CILEN_VOID []); [done|]. intros Hm rest l. unfold reqci_option. cbn.
  by rewrite (acc_accompression _ _ _ Hacc Hm).
Qed.

Lemma request_runs rest : runs ao go magic disagree (lcp_addci his ++ rest) (zlen (lcp_addci his)) (Req CONFACK [] [] no_options)
  (Some (Req CONFACK [] [] (conveyed his))).
Proof.
  destruct (acc_others _ _ _ Hacc) as [Hlqr Hcbcp].
  unfold lcp_addci. rewrite Hlqr, Hcbcp. cbn [ADDCILQR ADDCICHAR app].
  set (g1 := given (neg_mru his && negb (mru his =? PPP_DEFMRU)) (set_mru (mru his))).
  set (g2 := given (neg_asyncmap his && negb (asyncmap his =? 0xFFFFFFFF)) (set_asyncmap (asyncmap his))).
  set (g3 := given (neg_chap his) (set_chap (chap_mdtype his))). set (g4 := given (negb (neg_chap his) && neg_upap his) set_upap).
  set (g5 := given (neg_magicnumber his) (set_magicnumber (magicnumber his))).
  set (g6 := given (neg_pcompression his) set_pcompression). set (g7 := given (neg_accompression his) set_accompression).
  assert (H2 : neg_upap (g2 (g1 no_options)) = false) by (unfold g1, g2; by destruct (_ && _), (_ && _)).
  assert (H3 : neg_chap (g3 (g2 (g1 no_options))) = neg_chap his) by (unfold g1, g2, g3; by destruct (_ && _), (_ && _), (neg_chap his)).
  set (bs := ADDCISHORT CI_MRU _ _ ++ _).
  assert (Hu : understood bs (fun h => g7 (g6 (g5 (g4 (g3 (g2 (g1 h))))))) no_options).
  { apply (understood_app _ _ _ _ _ _ g1 (fun h => g7 (g6 (g5 (g4 (g3 (g2 h))))))); [apply understood_mru|].
    apply (understood_app _ _ _ _ _ _ g2 (fun h => g7 (g6 (g5 (g4 (g3 h)))))); [apply understood_asyncmap|].
    apply (understood_app _ _ _ _ _ _ g3 (fun h => g7 (g6 (g5 (g4 h))))); [by apply understood_chap|].
    apply (understood_app _ _ _ _ _ _ g4 (fun h => g7 (g6 (g5 h)))); [by apply understood_upap|].
    apply (understood_app _ _ _ _ _ _ g5 (fun h => g7 (g6 h))); [apply understood_magic|].
    apply (understood_app _ _ _ _ _ _ g6 g7); [apply understood_pcompression|apply understood_accompression]. }
  replace (zlen bs) with (zlen bs + 0) by lia. apply Hu; [done|].
  replace (g7 (g6 (g5 (g4 (g3 (g2 (g1 no_options))))))) with (conveyed his); [apply runs_end|].
  unfold g1, g2, g3, g4, g5, g6, g7, given, conveyed.
  by destruct (neg_mru his && _), (neg_asyncmap his && _), (neg_chap his), (neg_upap his), (neg_magicnumber his),
    (neg_pcompression his), (neg_accompression his).
Qed.
End Understood.

(** C12: A request that one end makes of its options with [lcp_addci], when the
    other end allows them, is acknowledged as it is by [lcp_reqci], which reads
    from it just the options that were sent; and the first end accepts the
    acknowledgement. *)
Theorem request_understood ao go his magic disagree rest :
  options_ok his -> acceptable ao go his -> Forall is_byte rest ->
  lcp_reqci ao go magic (lcp_addci his ++ rest) (lcp_cilen his) disagree =
    Some (CONFACK, lcp_addci his ++ rest, lcp_cilen his, conveyed his) /\
  lcp_ackci his (lcp_addci his ++ rest) (lcp_cilen his) = Some 1.
Proof.
  intros Hok Hacc Hr.
  destruct (ack_request_length his) as [Hl Hpos].
  assert (Ho : octets_ok (lcp_addci his ++ rest) (lcp_cilen his)).
  { split; [rewrite length_app; lia|]. rewrite Forall_app. split; [by apply ADDCI_octets|done]. }
  split.
  - unfold lcp_reqci. rewrite <- Hl. rewrite (request_runs ao go magic disagree his Hok Hacc rest) by lia. done.
  - rewrite lcp_ackci_decides by done. rewrite decide_True; [done|]. rewrite take_app_length'; [done|lia].
Qed.

(** ** Bounds *)

Section Bounds.
Context (ao go : lcp_options) (magic : Z -> Z) (disagree : bool) (Hao : options_ok ao).

Definition code_ok (c : Z) : Prop := c = CONFACK \/ c = CONFNAK \/ c = CONFREJ.

(** A verdict on an option of [cilen] octets: what it puts into [nak_buffer] is
    at most a quarter longer than the option. *)
Definition verdict_ok (cilen : Z) (v : verdict) : Prop :=
  exists orc bs h, v = Some (orc, bs, h) /\ code_ok orc /\ 4 * zlen bs <= 5 * cilen /\ Forall is_byte bs.

Lemma verdict_accept cilen h : 0 <= cilen -> verdict_ok cilen (accept h).
Proof. intros H. eexists _, _, _. split; [done|]. split; [by left|]. split; [cbn; lia|by apply Forall_nil]. Qed.

Lemma verdict_reject cilen h : 0 <= cilen -> verdict_ok cilen (reject h).
Proof. intros H. eexists _, _, _. split; [done|]. split; [by right; right|]. split; [cbn; lia|by apply Forall_nil]. Qed.

Lemma verdict_nak cilen bs h : 4 * zlen bs <= 5 * cilen -> Forall is_byte bs -> verdict_ok cilen (nak bs h).
Proof. intros H Hb. eexists _, _, _. split; [done|]. split; [by right; left|]. done. Qed.

Lemma GETSHORT_some p : 2 <= zlen p -> exists v p', GETSHORT p = Some (v, p') /\ zlen p' = zlen p - 2.
Proof. intros H. destruct p as [|a [|b p]]; cbn [length] in H; try lia. eexists _, _. split; [done|]. cbn [length]. lia. Qed.

Lemma GETLONG_some p : 4 <= zlen p -> exists v p', GETLONG p = Some (v, p').
Proof. intros H. destruct p as [|a [|b [|c [|d p]]]]; cbn [length] in H; try lia. by eexists _, _. Qed.

Lemma option_octets opt n bs : is_byte opt -> is_byte n -> Forall is_byte bs -> Forall is_byte ([opt; n] ++ bs).
Proof. intros H1 H2 H3. by do 2 (apply Forall_cons; [done|]). Qed.

Lemma nak_chap_octets : Forall is_byte (nak_chap ao).
Proof. apply option_octets; [done|done|]. rewrite Forall_app, Forall_singleton. split; [apply PUTSHORT_octets|apply Hao]. Qed.

Lemma nak_pap_octets : Forall is_byte nak_pap.
Proof. apply option_octets; [done|done|apply PUTSHORT_octets]. Qed.

Ltac verdict_done :=
  first [by apply verdict_accept|by apply verdict_reject
    |apply verdict_nak; [cbn; lia|first [apply nak_chap_octets|apply nak_pap_octets|
       apply option_octets; [done|done|first [apply PUTSHORT_octets|apply PUTLONG_octets]]]]].

Lemma authtype_verdict cilen p h : 2 <= cilen -> 3 <= zlen p -> verdict_ok cilen (reqci_authtype ao cilen p h).
Proof.
  intros Hc Hp. unfold reqci_authtype. destruct (Z.ltb_spec cilen CILEN_SHORT) as [|Hs]; [apply verdict_reject; lia|].
  unfold CILEN_SHORT in Hs. destruct (negb _); [apply verdict_reject; lia|].
  destruct (GETSHORT_some p) as (v & p' & -> & Hp'); [lia|]. cbn [mbind option_bind].
  assert (H0 : 0 <= cilen) by lia. destruct (v =? PPP_PAP).
  - destruct (neg_chap h); [verdict_done|]. destruct (negb (cilen =? CILEN_SHORT)); [verdict_done|].
    destruct (negb (neg_upap ao)); verdict_done.
  - destruct (v =? PPP_CHAP); [|destruct (neg_chap ao); verdict_done].
    destruct (neg_upap h); [verdict_done|]. destruct (negb (cilen =? CILEN_CHAP)); [verdict_done|].
    destruct (negb (neg_chap ao)); [verdict_done|]. destruct p' as [|c p']; [cbn in Hp'; lia|]. destruct (negb _); verdict_done.
Qed.

(** The length of an option that was compared *)
Lemma nak_of_length cilen n b bs h :
  b || negb (cilen =? n) = false -> 4 * zlen bs <= 5 * n -> Forall is_byte bs -> verdict_ok cilen (nak bs h).
Proof. intros [_ H%negb_false_iff]%orb_false_elim. apply Z.eqb_eq in H as ->. apply verdict_nak. Qed.

Lemma option_verdict l citype cilen p h : 2 <= cilen -> 6 <= zlen p -> verdict_ok cilen (reqci_option ao go magic l citype cilen p h).
Proof.
  intros Hc Hp. assert (H0 : 0 <= cilen) by lia. destruct (GETSHORT_some p) as (v & p' & Es & Hp'); [lia|].
  destruct (GETLONG_some p) as (w & q & El); [lia|]. destruct (GETLONG_some p') as (w' & q' & El'); [lia|].
  unfold reqci_option, reqci_mru, reqci_asyncmap, reqci_quality, reqci_magicnumber. rewrite Es, El. cbn [mbind option_bind]. rewrite El'.
  cbn [mbind option_bind].
  repeat case_match; try verdict_done; try (by apply authtype_verdict; [|lia]).
  - apply (nak_of_length cilen CILEN_SHORT false); [done|done|apply option_octets; [done|done|apply PUTSHORT_octets]].
  - apply (nak_of_length cilen CILEN_LONG false); [done|done|apply option_octets; [done|done|apply PUTLONG_octets]].
  - eapply (nak_of_length cilen CILEN_LQR); [eassumption|done|apply option_octets; [done|done|]].
    rewrite Forall_app. split; [apply PUTSHORT_octets|apply PUTLONG_octets].
  - eapply (nak_of_length cilen CILEN_LONG); [eassumption|done|apply option_octets; [done|done|apply PUTLONG_octets]].
Qed.

(** What the loop keeps, [used] octets of the request behind it *)
Record state_ok (used : Z) (s : reqci_state) : Prop := {
  rc_ok : code_ok (rc s);
  naked_ok : 4 * zlen (naked s) <= 5 * used /\ Forall is_byte (naked s);
  rejected_ok : zlen (rejected s) <= used /\ Forall is_byte (rejected s) }.

Lemma end_ok_state used citype orc cip s :
  code_ok orc -> 4 * zlen (naked s) <= 5 * (used + zlen cip) -> Forall is_byte (naked s) -> Forall is_byte cip ->
  code_ok (rc s) -> zlen (rejected s) <= used /\ Forall is_byte (rejected s) ->
  state_ok (used + zlen cip) (reqci_end disagree citype orc cip s).
Proof.
  intros Ho Hn Hnb Hc Hr [Hl Hrb]. unfold reqci_end.
  assert (Hs : state_ok (used + zlen cip) s) by (split; [done|done|split; [lia|done]]).
  assert (Hk : state_ok (used + zlen cip) (Req CONFNAK (rejected s) (naked s) (ho s))).
  { split; [by right; left|done|]. cbn [rejected]. split; [lia|done]. }
  assert (Hj : state_ok (used + zlen cip) (Req CONFREJ (rejected s ++ cip) (naked s) (ho s))).
  { split; [by right; right|done|]. cbn [rejected]. rewrite length_app, Forall_app. split; [lia|done]. }
  by repeat case_match.
Qed.

Lemma loop_ok fuel next l s used :
  (Z.to_nat l < fuel)%nat -> 0 <= l -> l + 8 <= zlen next -> Forall is_byte next -> state_ok used s -> 0 <= used ->
  5 * (used + l) <= 4 * PPP_MRU ->
  exists s', reqci_loop ao go magic fuel disagree next l s = Some s' /\ state_ok (used + l) s'.
Proof.
  revert next l s used. induction fuel as [|fuel IH]; intros next l s used Hf Hl Hroom Hb Hs Hu Hlim; [lia|]. cbn [reqci_loop].
  destruct (Z.eqb_spec l 0) as [->|Hl0]; [exists s; split; [done|by rewrite Z.add_0_r]|].
  destruct Hs as [Hrc [Hn Hnb] Hr].
  assert (Hbad : exists s', Some (reqci_end disagree 0 CONFREJ (take (Z.to_nat l) next) s) = Some s' /\ state_ok (used + l) s').
  { eexists. split; [done|]. assert (Et : zlen (take (Z.to_nat l) next) = l) by (rewrite length_take; lia).
    rewrite <- Et at 1. apply end_ok_state; try done; [by right; right|rewrite Et; lia|by apply Forall_take]. }
  destruct next as [|t [|c p]]; cbn [length] in Hroom; try lia.
  destruct ((l <? 2) || (c <? 2) || (l <? c)) eqn:Ebad; [done|].
  apply orb_false_elim in Ebad as [[H1%Z.ltb_ge H2%Z.ltb_ge]%orb_false_elim H3%Z.ltb_ge].
  destruct (option_verdict (l - c) t c p (ho s) H2) as (orc & bs & h & -> & Hc & Hbs & Hbb); [lia|]. cbn [mbind option_bind].
  set (next := t :: c :: p) in *. assert (Hlen : zlen next = 2 + zlen p) by (cbn; lia).
  assert (Et : zlen (take (Z.to_nat c) next) = c) by (rewrite length_take; lia).
  rewrite (proj2 (Z.leb_le _ _)) by (rewrite length_app; unfold PPP_MRU in *; lia).
  destruct (IH (drop (Z.to_nat c) next) (l - c) (reqci_end disagree t orc (take (Z.to_nat c) next) (Req (rc s) (rejected s) (naked s ++ bs) h)) (used + c))
    as (s' & Es & Hs'); [lia|lia|rewrite length_drop; lia|by apply Forall_drop| |lia|lia|].
  { rewrite <- Et at 1. apply end_ok_state; cbn [naked rc rejected]; try done; [rewrite length_app; lia|by rewrite Forall_app|by apply Forall_take]. }
  exists s'. split; [done|]. by replace (used + l) with (used + c + (l - c)) by lia.
Qed.
End Bounds.

(** C24: A request of at most 1200 octets with a quarter of its length and eight
    octets more behind it in the buffer is always answered, whatever is in it:
    nothing outside of the two buffers is read or written, the answer is an
    Ack, which leaves the request as it is, a Nak or a Reject, and it is at most
    a quarter longer than the request. *)
Theorem reqci_bounded ao go magic inp len disagree :
  options_ok ao -> Forall is_byte inp -> 0 <= len <= 1200 -> 4 * len + len + 32 <= 4 * zlen inp ->
  exists code inp' len' h, lcp_reqci ao go magic inp len disagree = Some (code, inp', len', h) /\
    (code = CONFACK /\ inp' = inp /\ len' = len \/ code = CONFNAK \/ code = CONFREJ) /\
    0 <= len' /\ 4 * len' <= 5 * len /\ zlen inp' = zlen inp /\ Forall is_byte inp'.
Proof.
  intros Hao Hb Hlen Hroom. unfold lcp_reqci.
  destruct (loop_ok ao go magic disagree Hao (S (Z.to_nat len)) inp len (Req CONFACK [] [] no_options) 0) as (s & -> & Hs);
    [lia|lia|lia|done| |done|unfold PPP_MRU; lia|].
  { split; [by left|split; [done|by apply Forall_nil]|split; [done|by apply Forall_nil]]. }
  destruct Hs as [Hrc [Hn Hnb] [Hr Hrb]]. cbn [mbind option_bind].
  assert (Hput : forall bs, 4 * zlen bs <= 5 * len -> Forall is_byte bs ->
    exists b, mem_put inp 0 bs = Some b /\ zlen b = zlen inp /\ Forall is_byte b).
  { intros bs Hbs Hbb. destruct (mem_put_ok inp 0 bs) as [b Eb]; [lia|lia|]. exists b. split; [done|].
    split; [pose proof (mem_put_length _ _ _ _ Eb); lia|]. apply mem_put_inv in Eb as (pre & mid & post & E1 & _ & _ & ->).
    rewrite E1, !Forall_app in Hb. rewrite !Forall_app. tauto. }
  destruct (Z.eqb_spec (rc s) CONFACK) as [Ea|Ea]; [by eexists _, _, _, _; split; [done|]; split; [left|split_and!; [lia|lia|done|done]]|].
  destruct (Z.eqb_spec (rc s) CONFNAK) as [En|En].
  - destruct (Hput (naked s)) as (b & -> & Hbl & Hbb); [lia|done|]. eexists _, _, _, _. split; [done|]. split; [by right; left|].
    split; [lia|]. split; [lia|]. done.
  - destruct (Hput (rejected s)) as (b & -> & Hbl & Hbb); [lia|done|]. eexists _, _, _, _. split; [done|]. split; [by right; right|].
    split; [lia|]. split; [lia|]. done.
Qed.

(** ** Where the buffers are left *)

(** [n] options that ask for an MRU of 0 *)
Definition small_mrus (n : nat) : list Z := concat (replicate n ([CI_MRU; CILEN_SHORT] ++ PUTSHORT 0)).

(** The bound on the request is needed: 376 options with a length that is
    legal and an MRU that is too small, 1504 octets, are answered with more
    octets than [nak_buffer] has; and an option for the quality protocol at the
    end of a buffer is read beyond it, whatever its length. *)
Theorem reqci_overruns ao go magic rest disagree :
  neg_mru ao = true ->
  lcp_reqci ao go magic (small_mrus 376 ++ rest) 1504 disagree = None /\
  lcp_reqci ao go magic [CI_QUALITY; 2] 2 disagree = None.
Proof.
  intros Ha. split; [|done]. destruct ao, disagree; cbn in Ha; subst; vm_compute; reflexivity.
Qed.

Lemma mru_accepted ao go magic disagree m :
  neg_mru ao = true -> PPP_MINMRU <= m < 65536 ->
  lcp_reqci ao go magic ([CI_MRU; CILEN_SHORT] ++ PUTSHORT m) 4 disagree =
    Some (CONFACK, [CI_MRU; CILEN_SHORT] ++ PUTSHORT m, 4, set_mru m no_options).
Proof.
  intros Ha Hm. assert (Ho : reqci_option ao go magic 0 CI_MRU CILEN_SHORT (PUTSHORT m ++ []) no_options = accept (set_mru m no_options)).
  { unfold reqci_option, reqci_mru. cbn [Z.eqb CI_MRU Pos.eqb]. rewrite Ha, GETSHORT_PUTSHORT by (unfold PPP_MINMRU in Hm; lia). cbn.
    by rewrite (proj2 (Z.ltb_ge _ _)) by lia. }
  assert (Hr : runs ao go magic disagree (CI_MRU :: CILEN_SHORT :: PUTSHORT m ++ []) (4 + 0) (Req CONFACK [] [] no_options)
    (Some (Req CONFACK [] [] (set_mru m no_options)))).
  { apply (runs_step ao go magic disagree CI_MRU CILEN_SHORT (PUTSHORT m) [] 0 _ CONFACK [] (set_mru m no_options)); [done|done|exact Ho|done|].
    apply runs_end. }
  rewrite app_nil_r in Hr. unfold lcp_reqci. pose proof (Hr (S (Z.to_nat 4)) ltac:(lia)) as Hl. change (4 + 0) with 4 in Hl.
  cbn [app]. by rewrite Hl.
Qed.

Lemma short_value v : 0 <= v < 65536 -> u8 (Z.shiftr v 8) * 256 + u8 v = v.
Proof.
  intros Hv. pose proof (GETSHORT_PUTSHORT v [] Hv) as H. unfold PUTSHORT in H. cbn [app GETSHORT] in H.
  rewrite u8_land, shift_octet in H by apply u8_range. by injection H.
Qed.

Lemma sdata_overruns (w : world lcp) code i octets n :
  zlen (outpacket_buf w) = PPP_MRU + PPP_HDRLEN -> PPP_MRU < peer_mru w -> PPP_MRU - HEADERLEN < n <= zlen octets ->
  fsm_sdata code i (Elsewhere octets) n w = None.
Proof.
  intros Hb Hm Hn. unfold PPP_MRU, PPP_HDRLEN, HEADERLEN in *. unfold fsm_sdata, mbind, M_bind, get_mru.
  set (k := if peer_mru w - HEADERLEN <? n then peer_mru w - HEADERLEN else n).
  assert (Hk : 1496 < k <= n) by (unfold k, HEADERLEN; destruct (Z.ltb_spec (peer_mru w - 4) n); lia).
  replace (copy_data (Elsewhere octets) k w) with (@None (unit * world lcp)); [done|]. cbn [copy_data].
  rewrite (proj2 (Z.eqb_neq k 0)) by lia. cbn [negb when]. rewrite (proj2 (Z.leb_le 0 k)), (proj2 (Z.leb_le k _)) by lia. cbn [andb].
  unfold put_out, mem_put, PPP_HDRLEN, HEADERLEN. rewrite length_take.
  destruct (Z.leb_spec (4 + 4 + Z.of_nat (Z.to_nat k `min` length octets)) (zlen (outpacket_buf w))); [lia|].
  by rewrite andb_false_r.
Qed.

Lemma unknown_code_overruns magic rprotrej echo others ta fa i data rest w :
  PPP_MRU < peer_mru w -> zlen (outpacket_buf w) = PPP_MRU + PPP_HDRLEN ->
  state (f w) <> LS_INITIAL -> state (f w) <> LS_STARTING -> PPP_MRU - HEADERLEN < zlen data + HEADERLEN < 65536 ->
  fsm_input (lcp_callbacks ta fa magic rprotrej echo others) ta fa ([12; i] ++ PUTSHORT (zlen data + HEADERLEN) ++ data ++ rest)
    (zlen data + HEADERLEN) w = None.
Proof.
  intros Hm Hbuf Hs1 Hs2 Hd. unfold PPP_MRU, HEADERLEN, PPP_HDRLEN in *. unfold fsm_input.
  rewrite (proj2 (Z.ltb_ge (zlen data + 4) HEADERLEN)) by (unfold HEADERLEN; lia).
  unfold PUTSHORT. cbn [app]. rewrite u8_land, shift_octet, short_value by (apply u8_range || lia).
  rewrite (proj2 (Z.ltb_ge (zlen data + 4) HEADERLEN)), (proj2 (Z.ltb_ge (zlen data + 4) (zlen data + 4))) by (unfold HEADERLEN; lia).
  unfold mbind at 1, M_bind at 1. cbn [gets]. rewrite !bool_decide_false by done. cbn [orb].
  cbn -[fsm_sdata zlen Z.add]. unfold mbind, M_bind, mret, M_ret, when, upd, gets. cbn -[fsm_sdata zlen Z.add].
  apply sdata_overruns.
  - cbn [outpacket_buf]. exact Hbuf.
  - cbn [peer_mru]. exact Hm.
  - unfold PPP_MRU, HEADERLEN. cbn [length]. rewrite length_app. lia.
Qed.

(** C40: An MRU up to 65535 that the peer asks for is accepted, and once LCP is
    up it bounds what is sent instead of the MRU of the buffer: a packet of an
    unknown code, longer than 1496 octets, is returned in a Code-Reject that is
    written past the end of [outpacket_buf]. *)
Theorem large_mru_overruns magic rprotrej echo others ta fa disagree m i data rest w :
  PPP_MRU < m < 65536 -> neg_mru (allowoptions (own w)) = true ->
  zlen (outpacket_buf w) = PPP_MRU + PPP_HDRLEN -> state (f w) <> LS_INITIAL -> state (f w) <> LS_STARTING ->
  PPP_MRU - HEADERLEN < zlen data + HEADERLEN < 65536 ->
  exists w', (_ ← reqci_callback magic ([CI_MRU; CILEN_SHORT] ++ PUTSHORT m) 4 disagree; lcp_up_mru) w = Some (tt, w') /\
    peer_mru w' = m /\
    fsm_input (lcp_callbacks ta fa magic rprotrej echo others) ta fa ([12; i] ++ PUTSHORT (zlen data + HEADERLEN) ++ data ++ rest)
      (zlen data + HEADERLEN) w' = None.
Proof.
  intros Hm Hao Hbuf Hs1 Hs2 Hd. unfold PPP_MRU, HEADERLEN, PPP_HDRLEN in *.
  assert (Er : lcp_reqci (allowoptions (own w)) (gotoptions (own w)) magic ([CI_MRU; CILEN_SHORT] ++ PUTSHORT m) 4 disagree =
    Some (CONFACK, [CI_MRU; CILEN_SHORT] ++ PUTSHORT m, 4, set_mru m no_options)) by (apply mru_accepted; [done|unfold PPP_MINMRU; lia]).
  eexists. split; [unfold reqci_callback, mbind, M_bind, get_lcp; cbn [of_option]; rewrite Er; reflexivity|]. split; [done|].
  apply unknown_code_overruns; [exact (proj1 Hm)|exact Hbuf|exact Hs1|exact Hs2|exact Hd].
Qed.

(** ** Examples *)

Lemma init_options_ok : options_ok init_wantoptions /\ options_ok init_allowoptions.
Proof. split; split; by (vm_compute; split). Qed.

(** What is wanted by default, with the magic number 7: the MRU is not sent *)
Definition example_options : lcp_options := set_magicnumber 7 init_wantoptions.

Lemma example_options_ok : options_ok example_options.
Proof. split; by (vm_compute; split). Qed.

Lemma example_acceptable : acceptable init_allowoptions init_wantoptions example_options.
Proof. split; vm_compute; try done; intros _; split; done. Qed.

Lemma ack_is_request_witness :
  options_ok example_options /\ lcp_addci example_options = [2; 6; 0; 0; 0; 0; 5; 6; 0; 0; 0; 7; 7; 2; 8; 2] /\
  lcp_ackci example_options [2; 6; 0; 0; 0; 0; 5; 6; 0; 0; 0; 8; 7; 2; 8; 2] 16 = Some 0.
Proof.
  assert (Hp : octets_ok [2; 6; 0; 0; 0; 0; 5; 6; 0; 0; 0; 8; 7; 2; 8; 2] 16).
  { split; [done|]. repeat (apply Forall_cons; [done|]). by apply Forall_nil. }
  destruct (ack_is_request example_options _ 16 example_options_ok Hp) as (_ & _ & H).
  split; [exact example_options_ok|]. split; [vm_compute; reflexivity|]. rewrite H. vm_compute. reflexivity.
Defined.

Lemma request_understood_witness :
  acceptable init_allowoptions init_wantoptions example_options /\
  lcp_reqci init_allowoptions init_wantoptions (fun _ => 0) (lcp_addci example_options ++ []) (lcp_cilen example_options) false =
    Some (CONFACK, lcp_addci example_options ++ [], 16, conveyed example_options) /\ magicnumber (conveyed example_options) = 7.
Proof.
  split; [exact example_acceptable|]. split; [|reflexivity].
  exact (proj1 (request_understood init_allowoptions init_wantoptions example_options (fun _ => 0) false []
    example_options_ok example_acceptable (Forall_nil_2 _))).
Defined.

(** An MRU that is too small, in a buffer of 16 octets *)
Definition example_small : list Z := [1; 4; 0; 1] ++ replicate 12 0.

Lemma reqci_bounded_witness :
  exists code inp' len' h, lcp_reqci init_allowoptions init_wantoptions (fun _ => 0) example_small 4 false = Some (code, inp', len', h) /\
    code = CONFNAK /\ take 4 inp' = [1; 4; 0; 128] /\ len' <= 5.
Proof.
  assert (Hb : Forall is_byte example_small) by (repeat (apply Forall_cons; [done|]); by apply Forall_nil).
  destruct (reqci_bounded init_allowoptions init_wantoptions (fun _ => 0) example_small 4 false (proj2 init_options_ok) Hb
    ltac:(lia) ltac:(vm_compute; discriminate)) as (code & inp' & len' & h & E1 & _ & H0 & H4 & _).
  exists code, inp', len', h. split; [exact E1|]. vm_compute in E1. injection E1 as <- <- <- <-.
  split; [reflexivity|]. split; [reflexivity|]. lia.
Defined.

Lemma reqci_overruns_witness :
  neg_mru init_allowoptions = true /\
  lcp_reqci init_allowoptions init_wantoptions (fun _ => 0) (small_mrus 376 ++ []) 1504 false = None.
Proof.
  split; [reflexivity|]. exact (proj1 (reqci_overruns init_allowoptions init_wantoptions (fun _ => 0) [] false eq_refl)).
Defined.

Definition no_callbacks : fsm_callbacks lcp := Callbacks None None None None None None None None None None None None None.

Definition example_lcp : world lcp :=
  World (Fsm PPP_LCP LS_OPENED 0 0 0 0 6 10 0 2 0 5 [] 0) (Timers [] false) (replicate 1504 0) PPP_MRU [] []
    (Lcp init_wantoptions init_wantoptions init_allowoptions no_options 5).

Lemma large_mru_overruns_witness :
  exists w', peer_mru w' = 4096 /\
    fsm_input (lcp_callbacks 500 600 (fun _ => 0) (fun _ _ _ => mret tt) (fun _ _ _ => mret tt) no_callbacks) 500 600
      ([12; 1] ++ PUTSHORT (zlen (replicate 1600 0) + HEADERLEN) ++ replicate 1600 0 ++ []) (zlen (replicate 1600 0) + HEADERLEN) w' = None.
Proof.
  destruct (large_mru_overruns (fun _ => 0) (fun _ _ _ => mret tt) (fun _ _ _ => mret tt) no_callbacks 500 600 false 4096 1
    (replicate 1600 0) [] example_lcp) as (w' & _ & Hm & H).
  - unfold PPP_MRU. lia.
  - reflexivity.
  - vm_compute. reflexivity.
  - discriminate.
  - discriminate.
  - rewrite length_replicate. unfold PPP_MRU, HEADERLEN. lia.
  - exists w'. split; [exact Hm|exact H].
Defined.
