(* ===== verification/PppNego.v ===== *)
(** * The negotiation of the options of LCP

    What becomes of a request when the other end does not take it as it is: the
    request of [lcp_addci], its check by [lcp_reqci], the check of the Nak or the
    Reject by [nak_check] or [rej_check], and the next request; and that this
    comes to an end. *)

From Stdlib Require Import Btauto.
From S2P Require Export PppLcp.

(** What changes from one request to the next: whether the peer has lost its
    patience, and the numbers [magic()] returns at both ends *)
Record round := Round { reject_if_disagree : bool; magic_peer : Z; magic_own : Z }.

Section Exchange.
(** The options the peer allows and has asked for, ours that are wanted, and what
    is behind the request in the buffer of the peer *)
Context (ao gop wo : lcp_options) (room : list Z).

(** A request and what is made of the answer *)
Definition exchange (r : round) (go : lcp_options) : option (Z * lcp_options) :=
  '(code, inp, len, _) ← lcp_reqci ao gop (fun _ => magic_peer r) (lcp_addci go ++ room) (lcp_cilen go) (reject_if_disagree r);
  if code =? CONFACK then
    ok ← lcp_ackci go inp len;
    if ok =? 1 then Some (CONFACK, go) else None
  else if code =? CONFNAK then
    match nak_check go wo (magic_own r) inp len with
    | Good (t, looped_back) =>
        let n := if looped_back then numloops t + 1 else 0 in
        if looped_back && (lcp_loopbackfail <=? n) then None else Some (CONFNAK, try_numloops n t)
    | _ => None
    end
  else match rej_check go inp len with Good t => Some (CONFREJ, t) | _ => None end.

(** Requests until one is acknowledged *)
Fixpoint negotiate (rs : list round) (go : lcp_options) : option lcp_options :=
  match rs with
  | [] => None
  | r :: rs => '(code, go) ← exchange r go; if code =? CONFACK then Some go else negotiate rs go
  end.
End Exchange.

Lemma lor_32 a b : 0 <= a < 2 ^ 32 -> 0 <= b < 2 ^ 32 -> 0 <= Z.lor a b < 2 ^ 32.
Proof.
  intros Ha Hb. assert (H0 : 0 <= Z.lor a b) by (apply Z.lor_nonneg; lia). split; [done|].
  destruct (Z.eq_dec (Z.lor a b) 0) as [->|Hn]; [lia|]. apply Z.log2_lt_pow2; [lia|]. rewrite Z.log2_lor by lia.
  apply Z.max_lub_lt.
  - destruct (Z.eq_dec a 0) as [->|]; [done|]. apply Z.log2_lt_pow2; lia.
  - destruct (Z.eq_dec b 0) as [->|]; [done|]. apply Z.log2_lt_pow2; lia.
Qed.

(** ** The parts of a request *)

(** The octets of an option as it is sent, which may be none, the code [orc] it
    gets, and what is put into [nak_buffer] *)
Record part := Part { ptype : Z; octets : list Z; code : Z; hint : list Z }.

Definition absent (t : Z) : part := Part t [] CONFACK [].

Section Parts.
Context (ao gop : lcp_options) (disagree : bool) (magic : Z) (go : lcp_options).

Definition sent_mru : bool := neg_mru go && negb (mru go =? PPP_DEFMRU).
Definition sent_asyncmap : bool := neg_asyncmap go && negb (asyncmap go =? 0xFFFFFFFF).

Definition part_mru : part :=
  if sent_mru then
    let e := ADDCISHORT CI_MRU true (mru go) in
    if negb (neg_mru ao) then Part CI_MRU e CONFREJ []
    else if mru go <? PPP_MINMRU then Part CI_MRU e CONFNAK ([CI_MRU; CILEN_SHORT] ++ PUTSHORT PPP_MINMRU)
    else Part CI_MRU e CONFACK []
  else absent CI_MRU.

Definition part_asyncmap : part :=
  if sent_asyncmap then
    let e := ADDCILONG CI_ASYNCMAP true (asyncmap go) in
    if negb (neg_asyncmap ao) then Part CI_ASYNCMAP e CONFREJ []
    else if negb (Z.land (asyncmap ao) (Z.lnot (asyncmap go)) =? 0) then
      Part CI_ASYNCMAP e CONFNAK ([CI_ASYNCMAP; CILEN_LONG] ++ PUTLONG (Z.lor (asyncmap ao) (asyncmap go)))
    else Part CI_ASYNCMAP e CONFACK []
  else absent CI_ASYNCMAP.

Definition part_auth : part :=
  if neg_chap go then
    let e := ADDCICHAP CI_AUTHTYPE true PPP_CHAP (chap_mdtype go) in
    if negb (neg_upap ao || neg_chap ao) then Part CI_AUTHTYPE e CONFREJ []
    else if negb (neg_chap ao) then Part CI_AUTHTYPE e CONFNAK nak_pap
    else if negb (chap_mdtype go =? CHAP_DIGEST_MD5) then Part CI_AUTHTYPE e CONFNAK (nak_chap ao)
    else Part CI_AUTHTYPE e CONFACK []
  else if neg_upap go then
    let e := ADDCISHORT CI_AUTHTYPE true PPP_PAP in
    if negb (neg_upap ao || neg_chap ao) then Part CI_AUTHTYPE e CONFREJ []
    else if negb (neg_upap ao) then Part CI_AUTHTYPE e CONFNAK (nak_chap ao)
    else Part CI_AUTHTYPE e CONFACK []
  else absent CI_AUTHTYPE.

Definition part_lqr : part :=
  if neg_lqr go then
    Part CI_QUALITY (ADDCILQR CI_QUALITY true (lqr_period go)) (if neg_lqr ao then CONFACK else CONFREJ) []
  else absent CI_QUALITY.

Definition part_cbcp : part :=
  if neg_cbcp go then Part CI_CALLBACK (ADDCICHAR CI_CALLBACK true CBCP_OPT) CONFREJ [] else absent CI_CALLBACK.

Definition part_magic : part :=
  if neg_magicnumber go then
    let e := ADDCILONG CI_MAGICNUMBER true (magicnumber go) in
    if negb (neg_magicnumber ao || neg_magicnumber gop) then Part CI_MAGICNUMBER e CONFREJ []
    else if neg_magicnumber gop && (magicnumber go =? magicnumber gop) then
      Part CI_MAGICNUMBER e CONFNAK ([CI_MAGICNUMBER; CILEN_LONG] ++ PUTLONG magic)
    else Part CI_MAGICNUMBER e CONFACK []
  else absent CI_MAGICNUMBER.

Definition part_void (t : Z) (asked allowed : bool) : part :=
  if asked then Part t (ADDCIVOID t true) (if allowed then CONFACK else CONFREJ) [] else absent t.

Definition parts : list part :=
  [part_mru; part_asyncmap; part_auth; part_lqr; part_cbcp; part_magic;
   part_void CI_PCOMPRESSION (neg_pcompression go) (neg_pcompression ao);
   part_void CI_ACCOMPRESSION (neg_accompression go) (neg_accompression ao)].

Lemma parts_octets : concat (octets <$> parts) = lcp_addci go.
Proof.
  assert (H1 : octets part_mru = ADDCISHORT CI_MRU sent_mru (mru go)) by (unfold part_mru; by repeat case_match).
  assert (H2 : octets part_asyncmap = ADDCILONG CI_ASYNCMAP sent_asyncmap (asyncmap go)) by (unfold part_asyncmap; by repeat case_match).
  assert (H3 : octets part_auth = ADDCICHAP CI_AUTHTYPE (neg_chap go) PPP_CHAP (chap_mdtype go) ++
      ADDCISHORT CI_AUTHTYPE (negb (neg_chap go) && neg_upap go) PPP_PAP).
  { unfold part_auth. destruct (neg_chap go), (neg_upap go); by repeat case_match. }
  assert (H4 : octets part_magic = ADDCILONG CI_MAGICNUMBER (neg_magicnumber go) (magicnumber go)) by (unfold part_magic; by repeat case_match).
  assert (Hv : forall t a b, octets (part_void t a b) = ADDCIVOID t a) by (intros t a b; unfold part_void; by case_match).
  unfold parts, part_lqr, part_cbcp. cbn [fmap list_fmap concat]. rewrite H1, H2, H3, H4, !Hv, app_nil_r, <- app_assoc.
  unfold lcp_addci, sent_mru, sent_asyncmap. by destruct (neg_lqr go), (neg_cbcp go).
Qed.

(** *** What [lcp_reqci] makes of them *)

(** What is counted at the end of an option, without the options of the peer *)
Definition tally : Type := Z * list Z * list Z.
Definition state_of (t : tally) (h : lcp_options) : reqci_state := let '(r, j, k) := t in Req r j k h.
Definition count (t : tally) (g : part) : tally :=
  let '(r, j, k) := t in
  let s := reqci_end disagree (ptype g) (code g) (octets g) (Req r j (k ++ hint g) no_options) in
  (rc s, rejected s, naked s).

Lemma reqci_end_state t g h :
  reqci_end disagree (ptype g) (code g) (octets g) (Req (rc (state_of t h)) (rejected (state_of t h)) (naked (state_of t h) ++ hint g) h) =
  state_of (count t g) h.
Proof. destruct t as [[r j] k]. unfold count, reqci_end. cbn [state_of rc rejected naked ho]. by repeat case_match. Qed.

Abbreviation runs := (runs ao gop (fun _ => magic) disagree).

(** An option is judged like its part, and hands the flags of authentication on. *)
Definition judged (P Q : lcp_options -> Prop) (g : part) : Prop :=
  octets g = [] /\ code g = CONFACK /\ hint g = [] /\ (forall h, P h -> Q h) \/
  exists cilen body, octets g = ptype g :: cilen :: body /\ cilen = zlen body + 2 /\
    forall h rest l, P h -> exists h', reqci_option ao gop (fun _ => magic) l (ptype g) cilen (body ++ rest) h = Some (code g, hint g, h') /\ Q h'.

Definition ran (P Q : lcp_options -> Prop) (L : list part) : Prop :=
  forall h t rest l, P h -> 0 <= l -> zlen (naked (state_of t h)) + zlen (concat (hint <$> L)) <= PPP_MRU ->
  exists h', Q h' /\
    forall out, runs rest l (state_of (foldl count t L) h') out ->
      runs (concat (octets <$> L) ++ rest) (zlen (concat (octets <$> L)) + l) (state_of t h) out.

Lemma ran_nil P : ran P P [].
Proof. intros h t rest l HP Hl _. exists h. by split. Qed.

Lemma count_naked t g h : zlen (naked (state_of (count t g) h)) = zlen (naked (state_of t h)) + zlen (hint g).
Proof.
  destruct t as [[r j] k]. unfold count, reqci_end. cbn [state_of rc rejected naked ho].
  repeat case_match; cbn [naked]; rewrite length_app; lia.
Qed.

Lemma ran_cons P Q R g L : judged P Q g -> ran Q R L -> ran P R (g :: L).
Proof.
  intros Hg HL h t rest l HP Hl Hn. cbn [fmap list_fmap concat] in Hn |- *. rewrite length_app in Hn.
  destruct Hg as [(He & Hc & Hh & HQ)|(cilen & body & He & Hcl & Ho)].
  - rewrite He. rewrite Hh in Hn. cbn [app foldl].
    assert (Et : count t g = t).
    { destruct t as [[r j] k]. unfold count, reqci_end. rewrite He, Hc, Hh, app_nil_r. cbn [rc rejected naked]. by destruct (r =? CONFACK). }
    rewrite Et.
    apply (HL h t rest l); [by apply HQ|done|done].
  - destruct (Ho h (concat (octets <$> L) ++ rest) (zlen (concat (octets <$> L)) + l) HP) as (h1 & Hr & HQ).
    destruct (HL h1 (count t g) rest l HQ Hl) as (h2 & HR & Hout); [rewrite count_naked; destruct t as [[r j] k]; cbn [state_of naked] in *; lia|].
    exists h2. split; [done|]. intros out Hruns. specialize (Hout out Hruns).
    rewrite He. rewrite <- app_assoc. cbn [app].
    replace (zlen (ptype g :: cilen :: body ++ concat (octets <$> L)) + l) with (cilen + (zlen (concat (octets <$> L)) + l))
      by (cbn [length]; rewrite length_app; lia).
    apply (runs_step _ _ _ _ (ptype g) cilen body _ _ (state_of t h) (code g) (hint g) h1); [done|lia| | |].
    + destruct t as [[r j] k]. exact Hr.
    + rewrite length_app. destruct t as [[r j] k]; cbn [state_of naked] in *; lia.
    + rewrite <- He. destruct t as [[r j] k]. pose proof (reqci_end_state (r, j, k) g h1) as E1. cbn [state_of rc rejected naked] in E1 |- *.
      rewrite E1. exact Hout.
Qed.

(** *** Each option is judged like its part *)

Context (Hgo : options_ok go) (Hao : options_ok ao) (Hmd : chap_mdtype ao = CHAP_DIGEST_MD5).

Definition fresh (h : lcp_options) : Prop := neg_upap h = false /\ neg_chap h = false.

Lemma judged_absent P (Q : lcp_options -> Prop) t : (forall h, P h -> Q h) -> judged P Q (absent t).
Proof. intros H. by left. Qed.

Lemma judged_sent (P Q : lcp_options -> Prop) t cilen body c hs :
  cilen = zlen body + 2 ->
  (forall h rest l, P h -> exists h', reqci_option ao gop (fun _ => magic) l t cilen (body ++ rest) h = Some (c, hs, h') /\ Q h') ->
  judged P Q (Part t ([t; cilen] ++ body) c hs).
Proof. intros Hc Ho. right. by exists cilen, body. Qed.

Lemma judged_mru : judged fresh fresh part_mru.
Proof.
  unfold part_mru. destruct sent_mru; [|by apply judged_absent].
  repeat case_match; apply (judged_sent fresh fresh CI_MRU CILEN_SHORT (PUTSHORT (mru go))); try done; intros h rest l Hh;
    unfold reqci_option, reqci_mru; cbn [Z.eqb CI_MRU Pos.eqb CILEN_SHORT negb].
  - rewrite H. by eexists.
  - rewrite H, GETSHORT_PUTSHORT by apply Hgo. cbn [mbind option_bind]. rewrite H0. by eexists.
  - rewrite H, GETSHORT_PUTSHORT by apply Hgo. cbn [mbind option_bind]. rewrite H0. by eexists.
Qed.

Lemma judged_asyncmap : judged fresh fresh part_asyncmap.
Proof.
  unfold part_asyncmap. destruct sent_asyncmap; [|by apply judged_absent].
  repeat case_match; apply (judged_sent fresh fresh CI_ASYNCMAP CILEN_LONG (PUTLONG (asyncmap go))); try done; intros h rest l Hh;
    unfold reqci_option, reqci_asyncmap; cbn [Z.eqb CI_MRU CI_ASYNCMAP Pos.eqb CILEN_LONG negb].
  - rewrite H. by eexists.
  - rewrite H, GETLONG_PUTLONG by apply Hgo. cbn [mbind option_bind]. rewrite H0. by eexists.
  - rewrite H, GETLONG_PUTLONG by apply Hgo. cbn [mbind option_bind]. rewrite H0. by eexists.
Qed.

Definition any (h : lcp_options) : Prop := True.

Lemma judged_auth : judged fresh any part_auth.
Proof.
  unfold part_auth. destruct (neg_chap go); [|destruct (neg_upap go); [|by apply judged_absent]].
  - repeat case_match; apply (judged_sent fresh any CI_AUTHTYPE CILEN_CHAP (PUTSHORT PPP_CHAP ++ [chap_mdtype go])); try done;
      intros h rest l [Hu Hc]; unfold reqci_option, reqci_authtype; rewrite <- app_assoc, GETSHORT_PUTSHORT by (unfold PPP_CHAP; lia);
      cbn; rewrite H; cbn; try rewrite Hu; try rewrite H0; cbn; try rewrite H1; by eexists.
  - repeat case_match; apply (judged_sent fresh any CI_AUTHTYPE CILEN_SHORT (PUTSHORT PPP_PAP)); try done;
      intros h rest l [Hu Hc]; unfold reqci_option, reqci_authtype; rewrite GETSHORT_PUTSHORT by (unfold PPP_PAP; lia);
      cbn; rewrite H; cbn; try rewrite Hc; try rewrite H0; by eexists.
Qed.

Lemma judged_lqr : judged any any part_lqr.
Proof.
  unfold part_lqr. destruct (neg_lqr go); [|by apply judged_absent].
  case_match; apply (judged_sent any any CI_QUALITY CILEN_LQR (PUTSHORT PPP_LQR ++ PUTLONG (lqr_period go))); try done; intros h rest l Hh;
    unfold reqci_option, reqci_quality; rewrite <- app_assoc, GETSHORT_PUTSHORT by (unfold PPP_LQR; lia);
    cbn [mbind option_bind Z.eqb CI_MRU CI_ASYNCMAP CI_AUTHTYPE CI_QUALITY Pos.eqb]; rewrite GETLONG_PUTLONG by apply Hgo;
    cbn; rewrite H; by eexists.
Qed.

Lemma judged_cbcp : judged any any part_cbcp.
Proof.
  unfold part_cbcp. destruct (neg_cbcp go); [|by apply judged_absent].
  apply (judged_sent any any CI_CALLBACK CILEN_CHAR [CBCP_OPT]); [done|]. intros h rest l Hh. by eexists.
Qed.

Lemma judged_magic : judged any any part_magic.
Proof.
  unfold part_magic. destruct (neg_magicnumber go); [|by apply judged_absent].
  repeat case_match; apply (judged_sent any any CI_MAGICNUMBER CILEN_LONG (PUTLONG (magicnumber go))); try done; intros h rest l Hh;
    unfold reqci_option, reqci_magicnumber; cbn [Z.eqb CI_MRU CI_ASYNCMAP CI_AUTHTYPE CI_QUALITY CI_MAGICNUMBER CILEN_LONG Pos.eqb negb].
  - rewrite H. by eexists.
  - rewrite H. cbn [orb]. rewrite GETLONG_PUTLONG by apply Hgo. cbn [mbind option_bind]. rewrite H0. by eexists.
  - rewrite H. cbn [orb]. rewrite GETLONG_PUTLONG by apply Hgo. cbn [mbind option_bind]. rewrite H0. by eexists.
Qed.

Lemma judged_void t a :
  t = CI_PCOMPRESSION /\ a = neg_pcompression ao \/ t = CI_ACCOMPRESSION /\ a = neg_accompression ao ->
  forall b, judged any any (part_void t b a).
Proof.
  intros Ht b. unfold part_void. destruct b; [|by apply judged_absent].
  apply (judged_sent any any t CILEN_VOID []); [done|]. intros h rest l Hh.
  destruct Ht as [[-> ->]|[-> ->]]; unfold reqci_option; cbn; [destruct (neg_pcompression ao)|destruct (neg_accompression ao)]; by eexists.
Qed.

Lemma parts_ran : ran fresh any parts.
Proof.
  apply (ran_cons fresh fresh any); [apply judged_mru|]. apply (ran_cons fresh fresh any); [apply judged_asyncmap|].
  apply (ran_cons fresh any any); [apply judged_auth|]. apply (ran_cons any any any); [apply judged_lqr|].
  apply (ran_cons any any any); [apply judged_cbcp|]. apply (ran_cons any any any); [apply judged_magic|].
  apply (ran_cons any any any); [by apply judged_void; left|]. apply (ran_cons any any any); [by apply judged_void; right|].
  apply ran_nil.
Qed.

(** *** The answer *)

Definition refused (g : part) : bool :=
  (code g =? CONFREJ) || ((code g =? CONFNAK) && disagree && negb (ptype g =? CI_MAGICNUMBER)).
Definition nacked (g : part) : bool := code g =? CONFNAK.

Definition refusals (L : list part) : list Z := concat ((fun g => if refused g then octets g else []) <$> L).
Definition hints (L : list part) : list Z := concat (hint <$> L).
Definition verdict_of (r : Z) (L : list part) : Z :=
  if (r =? CONFREJ) || existsb refused L then CONFREJ
  else if (r =? CONFNAK) || existsb nacked L then CONFNAK else CONFACK.

Lemma count_all L r j k :
  Forall (fun g => code_ok (code g)) L -> code_ok r ->
  exists j' k', foldl count (r, j, k) L = (verdict_of r L, j', k') /\ j' = j ++ refusals L /\ k' = k ++ hints L.
Proof.
  intros HL. revert r j k. induction HL as [|g L Hg HL IH]; intros r j k Hr.
  - exists j, k. unfold verdict_of, refusals, hints. cbn. rewrite !orb_false_r, !app_nil_r. by destruct Hr as [->|[->| ->]].
  - cbn [foldl].
    assert (Ec : exists r', count (r, j, k) g = (r', j ++ (if refused g then octets g else []), k ++ hint g) /\ code_ok r' /\
      verdict_of r' L = verdict_of r (g :: L)).
    { unfold count, reqci_end, refused, verdict_of. cbn [existsb rc rejected naked]. unfold refused at 2, nacked at 2.
      destruct Hg as [->|[->| ->]]; cbn [Z.eqb Pos.eqb CONFACK CONFNAK CONFREJ andb orb].
      - destruct Hr as [->|[->| ->]]; eexists; rewrite app_nil_r; (split; [done|]); (split; [|done]); unfold code_ok; tauto.
      - destruct (disagree && negb (ptype g =? CI_MAGICNUMBER)); cbn [negb];
          destruct Hr as [->|[->| ->]]; eexists; rewrite ?app_nil_r; (split; [done|]); (split; [unfold code_ok; tauto|]); cbn;
          by rewrite ?orb_true_r.
      - destruct Hr as [->|[->| ->]]; eexists; (split; [done|]); (split; [unfold code_ok; tauto|done]). }
    destruct Ec as (r' & -> & Hr' & Ev). destruct (IH r' (j ++ (if refused g then octets g else [])) (k ++ hint g) Hr') as (j' & k' & E1 & Ej & Ek).
    exists j', k'. rewrite E1, Ev. split; [done|]. rewrite Ej, Ek. unfold refusals, hints. cbn [fmap list_fmap concat].
    by rewrite <- !app_assoc.
Qed.

(** Codes and lengths *)
Definition part_ok (g : part) : Prop :=
  code_ok (code g) /\ (octets g = [] \/ exists c body, octets g = ptype g :: c :: body) /\
  (hint g = [] \/ exists c body, hint g = ptype g :: c :: body) /\ zlen (hint g) <= 6 /\
  zlen (hint g) <= zlen (octets g) + (if ptype g =? CI_AUTHTYPE then 1 else 0).

Lemma Part_ok t c body o hs :
  code_ok o -> hs = [] \/ (exists c' body', hs = t :: c' :: body') /\ zlen hs <= 6 /\
    zlen hs <= zlen ([t; c] ++ body) + (if t =? CI_AUTHTYPE then 1 else 0) ->
  part_ok (Part t ([t; c] ++ body) o hs).
Proof.
  intros Ho Hh. split; [done|]. cbn [octets ptype hint]. split; [right; by eexists _, _|].
  destruct Hh as [->|(H1 & H2 & H3)]; [|by split; [right|]]. split; [by left|]. cbn [length]. destruct (t =? CI_AUTHTYPE); lia.
Qed.

Lemma absent_ok t : part_ok (absent t).
Proof. split; [by left|]. split; [by left|]. split; [by left|]. cbn. destruct (t =? CI_AUTHTYPE); lia. Qed.

Ltac parts_done := repeat case_match; first [apply absent_ok|apply Part_ok; [unfold code_ok; tauto|
  first [by left|right; split; [by eexists _, _|split; cbn; lia]]]].

Lemma parts_ok : Forall part_ok parts.
Proof.
  unfold parts. repeat apply Forall_cons; try apply Forall_nil; try exact I.
  - unfold part_mru. parts_done.
  - unfold part_asyncmap. parts_done.
  - unfold part_auth. parts_done.
  - unfold part_lqr. parts_done.
  - unfold part_cbcp. parts_done.
  - unfold part_magic. parts_done.
  - unfold part_void. parts_done.
  - unfold part_void. parts_done.
Qed.

Lemma parts_codes : Forall (fun g => code_ok (code g)) parts.
Proof. eapply Forall_impl; [|apply parts_ok]. by intros g []. Qed.

Lemma refusals_length L : zlen (refusals L) <= zlen (concat (octets <$> L)).
Proof.
  induction L as [|g L IH]; [done|]. unfold refusals in *. cbn [fmap list_fmap concat]. rewrite !length_app.
  destruct (refused g); cbn [length]; lia.
Qed.

Lemma hints_length L :
  Forall part_ok L -> zlen (hints L) <= 6 * zlen L /\
    zlen (hints L) <= zlen (concat (octets <$> L)) + zlen (filter (fun g => ptype g = CI_AUTHTYPE) L).
Proof.
  induction 1 as [|g L Hg HL IH]; [done|]. unfold hints in *. rewrite filter_cons. cbn [fmap list_fmap concat length]. rewrite !length_app.
  destruct Hg as (_ & _ & _ & H6 & H1). destruct (Z.eqb_spec (ptype g) CI_AUTHTYPE).
  - rewrite decide_True by done. cbn [length]. lia.
  - rewrite decide_False by done. lia.
Qed.

Lemma mem_put_front inp bs : zlen bs <= zlen inp -> mem_put inp 0 bs = Some (bs ++ drop (length bs) inp).
Proof. intros H. unfold mem_put. cbn [Z.leb Z.compare andb]. by rewrite (proj2 (Z.leb_le (0 + zlen bs) _)) by lia. Qed.

Lemma parts_types : ptype <$> parts = [CI_MRU; CI_ASYNCMAP; CI_AUTHTYPE; CI_QUALITY; CI_CALLBACK; CI_MAGICNUMBER; CI_PCOMPRESSION; CI_ACCOMPRESSION].
Proof.
  unfold parts. cbn [fmap list_fmap].
  assert (ptype part_mru = CI_MRU) as -> by (unfold part_mru; by repeat case_match).
  assert (ptype part_asyncmap = CI_ASYNCMAP) as -> by (unfold part_asyncmap; by repeat case_match).
  assert (ptype part_auth = CI_AUTHTYPE) as -> by (unfold part_auth; by repeat case_match).
  assert (ptype part_lqr = CI_QUALITY) as -> by (unfold part_lqr; by repeat case_match).
  assert (ptype part_cbcp = CI_CALLBACK) as -> by (unfold part_cbcp; by repeat case_match).
  assert (ptype part_magic = CI_MAGICNUMBER) as -> by (unfold part_magic; by repeat case_match).
  assert (forall t a b, ptype (part_void t a b) = t) as -> by (intros t a b; unfold part_void; by case_match).
  assert (forall t a b, ptype (part_void t a b) = t) as -> by (intros t a b; unfold part_void; by case_match). done.
Qed.

Lemma auth_once : zlen (filter (fun g => ptype g = CI_AUTHTYPE) parts) = 1.
Proof.
  assert (H : forall L : list part, length (filter (fun g => ptype g = CI_AUTHTYPE) L) = length (filter (fun t => t = CI_AUTHTYPE) (ptype <$> L))).
  { induction L as [|g L IH]; [done|]. cbn [fmap list_fmap]. rewrite !filter_cons. case_decide; cbn [length]; by rewrite IH. }
  by rewrite H, parts_types.
Qed.

(** The answer to the request: the parts that are refused, or else what is put
    in their place, or else the request *)
Lemma reqci_answer room :
  1 <= zlen room ->
  exists h room', lcp_reqci ao gop (fun _ => magic) (lcp_addci go ++ room) (lcp_cilen go) disagree =
    Some (if existsb refused parts then (CONFREJ, refusals parts ++ room', zlen (refusals parts), h)
          else if existsb nacked parts then (CONFNAK, hints parts ++ room', zlen (hints parts), h)
          else (CONFACK, lcp_addci go ++ room, lcp_cilen go, h)).
Proof.
  intros Hroom. destruct (ack_request_length go) as [Hlen Hpos].
  pose proof (refusals_length parts) as Hr. destruct (hints_length parts parts_ok) as [Hh1 Hh2]. rewrite auth_once in Hh2. rewrite parts_octets in *.
  destruct (parts_ran no_options (CONFACK, [], []) room 0) as (h & _ & Hrun); [done|done|unfold hints, PPP_MRU in *; cbn in *; lia|].
  destruct (count_all parts CONFACK [] [] parts_codes ltac:(by left)) as (j & k & Ec & Ej & Ek). rewrite Ec in Hrun. cbn [app] in Ej, Ek. subst j k.
  specialize (Hrun _ (runs_end _ _ _ _ _ _)). rewrite parts_octets, Z.add_0_r, Hlen in Hrun.
  exists h. unfold lcp_reqci. cbn [state_of] in Hrun. rewrite (Hrun (S (Z.to_nat (lcp_cilen go))) ltac:(lia)). cbn [mbind option_bind rc rejected naked ho].
  unfold verdict_of. cbn [Z.eqb CONFACK CONFREJ CONFNAK Pos.eqb orb].
  destruct (existsb refused parts); [|destruct (existsb nacked parts)]; cbn [Z.eqb Pos.eqb].
  - rewrite (mem_put_front _ (refusals parts)) by (rewrite length_app; lia). by eexists.
  - rewrite (mem_put_front _ (hints parts)) by (rewrite length_app; lia). by eexists.
  - by exists [].
Qed.

(** *** What the end that asked makes of the answer *)

Context (room : list Z).

(** No option [opt] here *)
Definition skips (opt : Z) (p : list Z) (len : Z) : Prop := len < 2 \/ exists p0 p1 q, p = p0 :: p1 :: q /\ p0 <> opt.

Lemma CI_skip {A X} cilen opt n get (cod : A -> X -> checked X) p len x :
  2 <= cilen -> skips opt p len -> CI go cilen opt n get cod (p, len, x) = Good (p, len, x).
Proof.
  intros Hc [Hl|(p0 & p1 & q & -> & Hne)]; unfold CI, at_option.
  - rewrite (proj2 (Z.leb_gt cilen len)) by lia. by rewrite andb_false_r.
  - destruct (get_neg n go && (cilen <=? len)); [|done]. cbn [mbind checked_bind].
    by rewrite (proj2 (Z.eqb_neq p0 opt)), andb_false_r by done.
Qed.

Lemma CI_present {A X} cilen opt n get (cod : A -> X -> checked X) body rest len x v x' :
  get_neg n go = true -> cilen = zlen body + 2 -> 0 <= len -> get (body ++ rest) = Good (v, rest) -> cod v x = Good x' ->
  CI go cilen opt n get cod (([opt; cilen] ++ body) ++ rest, zlen ([opt; cilen] ++ body) + len, x) = Good (rest, len, x').
Proof.
  intros Hn Hc Hl Hg Hk. unfold CI, at_option. rewrite Hn.
  replace (zlen ([opt; cilen] ++ body) + len) with (cilen + len) by (rewrite length_app; cbn [length]; lia).
  rewrite (proj2 (Z.leb_le _ _)) by lia. cbn [app andb mbind checked_bind drop]. rewrite !Z.eqb_refl. cbn [andb]. rewrite drop_0, Hg. cbn [mbind checked_bind]. rewrite Hk.
  cbn [mbind checked_bind]. by replace (cilen + len - cilen) with len by lia.
Qed.

(** The cursor in front of some parts, of each of which [sel] is in the answer *)
Section Cursor.
Context (sel : part -> list Z).
Definition before {X} (L : list part) (x : X) : cursor X := (concat (sel <$> L) ++ room, zlen (concat (sel <$> L)), x).
Definition shaped (g : part) : Prop := sel g = [] \/ exists c body, sel g = ptype g :: c :: body.

Lemma tail_skips opt L : Forall shaped L -> opt ∉ ptype <$> L -> skips opt (concat (sel <$> L) ++ room) (zlen (concat (sel <$> L))).
Proof.
  intros HL. induction HL as [|g L Hg HL IH]; intros Hopt; [by left|]. cbn [fmap list_fmap concat] in *. rewrite not_elem_of_cons in Hopt.
  destruct Hopt as [Hne Hopt]. destruct Hg as [->|(c & body & ->)]; [by apply IH|]. right. cbn [app]. by eexists _, _, _.
Qed.

Lemma before_nil {X} g L (x : X) : sel g = [] -> before (g :: L) x = before L x.
Proof. intros E. unfold before. cbn [fmap list_fmap concat]. by rewrite E. Qed.

(** A step over one part, which is there or not *)
Lemma CI_part {A X} cilen opt n get (cod : A -> X -> checked X) g L x x' :
  2 <= cilen -> Forall shaped L -> opt ∉ ptype <$> L ->
  sel g = [] /\ x' = x \/
    (exists body v, sel g = [opt; cilen] ++ body /\ cilen = zlen body + 2 /\ get_neg n go = true /\
      (forall rest, get (body ++ rest) = Good (v, rest)) /\ cod v x = Good x') ->
  CI go cilen opt n get cod (before (g :: L) x) = Good (before L x').
Proof.
  intros Hc HL Hopt [[E ->]|(body & v & E & Hl & Hn & Hg & Hk)].
  - rewrite before_nil by done. apply CI_skip; [done|]. by apply tail_skips.
  - unfold before at 1. cbn [fmap list_fmap concat]. rewrite E, <- app_assoc, length_app, Nat2Z.inj_add.
    by apply (CI_present cilen opt n get cod body _ _ x v x'); try done; lia.
Qed.
End Cursor.

(** **** A Reject *)

Definition clear (b : bool) (n : neg) (o : lcp_options) : lcp_options := if b then set_neg n false o else o.

(** The options to request after a Reject *)
Definition rej_try : lcp_options :=
  let x := clear (refused part_mru) neg_MRU go in
  let x := clear (refused part_asyncmap) neg_ASYNCMAP x in
  let x := if neg_chap go then clear (refused part_auth) neg_CHAP x else x in
  let x := clear (refused part_auth) neg_UPAP x in
  let x := clear (refused part_lqr) neg_LQR x in
  let x := clear (refused part_cbcp) neg_CBCP x in
  let x := clear (refused part_magic) neg_MAGICNUMBER x in
  let x := clear (refused (part_void CI_PCOMPRESSION (neg_pcompression go) (neg_pcompression ao))) neg_PCOMPRESSION x in
  clear (refused (part_void CI_ACCOMPRESSION (neg_accompression go) (neg_accompression ao))) neg_ACCOMPRESSION x.

Definition refusal (g : part) : list Z := if refused g then octets g else [].

Lemma parts_refusal : Forall (shaped refusal) parts.
Proof.
  eapply Forall_impl; [|apply parts_ok]. intros g (_ & H & _). unfold shaped, refusal. destruct (refused g); [done|by left].
Qed.

(** A step over a part of a Reject *)
Lemma rej_part {A} cilen opt n get (cod : A -> lcp_options -> checked lcp_options) upd g L x :
  2 <= cilen -> Forall (shaped refusal) L -> opt ∉ ptype <$> L ->
  (refused g = true -> exists body v, octets g = [opt; cilen] ++ body /\ cilen = zlen body + 2 /\ get_neg n go = true /\
     (forall rest, get (body ++ rest) = Good (v, rest)) /\ cod v x = Good (upd x)) ->
  CI go cilen opt n get cod (before refusal (g :: L) x) = Good (before refusal L (if refused g then upd x else x)).
Proof.
  intros Hc HL Hopt Hg. apply CI_part; [done..|]. unfold refusal. destruct (refused g); [right|by left].
  destruct Hg as (body & v & E & H); [done|]. by exists body, v.
Qed.

Lemma get_short_ok v rest : 0 <= v < 65536 -> get_short (PUTSHORT v ++ rest) = Good (v, rest).
Proof. intros Hv. unfold get_short. by rewrite GETSHORT_PUTSHORT. Qed.

Lemma get_long_ok v rest : 0 <= v < 2 ^ 32 -> get_long (PUTLONG v ++ rest) = Good (v, rest).
Proof. intros Hv. unfold get_long. by rewrite GETLONG_PUTLONG. Qed.

Lemma refused_absent t : refused (absent t) = true -> False.
Proof. by unfold refused, absent. Qed.

Lemma checked_assoc {A B C} (m : checked A) (f : A -> checked B) (g : B -> checked C) : (x ← m; y ← f x; g y) = (y ← (x ← m; f x); g y).
Proof. by destruct m. Qed.

Lemma refused_mru : refused part_mru = true -> octets part_mru = ADDCISHORT CI_MRU true (mru go) /\ neg_mru go = true.
Proof. unfold part_mru, sent_mru. destruct (neg_mru go); [|by intros H%refused_absent]. intros H. by repeat case_match; [..|apply refused_absent in H]. Qed.

Lemma refused_asyncmap : refused part_asyncmap = true -> octets part_asyncmap = ADDCILONG CI_ASYNCMAP true (asyncmap go) /\ neg_asyncmap go = true.
Proof. unfold part_asyncmap, sent_asyncmap. destruct (neg_asyncmap go); [|by intros H%refused_absent]. intros H. by repeat case_match; [..|apply refused_absent in H]. Qed.

Lemma refused_auth : refused part_auth = true ->
  if neg_chap go then octets part_auth = ADDCICHAP CI_AUTHTYPE true PPP_CHAP (chap_mdtype go)
  else octets part_auth = ADDCISHORT CI_AUTHTYPE true PPP_PAP /\ neg_upap go = true.
Proof.
  unfold part_auth. destruct (neg_chap go), (neg_upap go); intros H; try (by apply refused_absent in H); by repeat case_match.
Qed.

Lemma refused_magic : refused part_magic = true -> octets part_magic = ADDCILONG CI_MAGICNUMBER true (magicnumber go) /\ neg_magicnumber go = true.
Proof. unfold part_magic. destruct (neg_magicnumber go); [|by intros H%refused_absent]. intros H. by repeat case_match. Qed.

Lemma refused_void t a b : refused (part_void t a b) = true -> octets (part_void t a b) = ADDCIVOID t true /\ a = true.
Proof. unfold part_void. destruct a; [|by intros H%refused_absent]. done. Qed.

(** A step over the part number [k] *)
Lemma rej_step {A} k g cilen opt n get (cod : A -> lcp_options -> checked lcp_options) upd x :
  drop k parts = g :: drop (S k) parts -> 2 <= cilen -> opt ∉ drop (S k) (ptype <$> parts) ->
  (refused g = true -> exists body v, octets g = [opt; cilen] ++ body /\ cilen = zlen body + 2 /\ get_neg n go = true /\
     (forall rest, get (body ++ rest) = Good (v, rest)) /\ cod v x = Good (upd x)) ->
  CI go cilen opt n get cod (before refusal (drop k parts) x) = Good (before refusal (drop (S k) parts) (if refused g then upd x else x)).
Proof.
  intros Hk Hc Hopt Hg. rewrite Hk. apply rej_part; try done; [apply Forall_drop, parts_refusal|by rewrite fmap_drop].
Qed.

Ltac other_types := rewrite parts_types; cbn [drop]; rewrite ?not_elem_of_cons; repeat split; try done; apply not_elem_of_nil.

Lemma rej_short k g opt n v x :
  drop k parts = g :: drop (S k) parts -> opt ∉ drop (S k) (ptype <$> parts) -> 0 <= v < 65536 ->
  (refused g = true -> octets g = ADDCISHORT opt true v /\ get_neg n go = true) ->
  REJCISHORT go opt n v (before refusal (drop k parts) x) = Good (before refusal (drop (S k) parts) (clear (refused g) n x)).
Proof.
  intros Hk Ho Hv Hg. apply (rej_step k g CILEN_SHORT opt n get_short _ (set_neg n false)); [done|done|done|]. intros [E En]%Hg.
  exists (PUTSHORT v), v. do 3 (split; [done|]). split; [intros rest; by apply get_short_ok|]. by rewrite Z.eqb_refl.
Qed.

Lemma rej_long k g opt n v x :
  drop k parts = g :: drop (S k) parts -> opt ∉ drop (S k) (ptype <$> parts) -> 0 <= v < 2 ^ 32 ->
  (refused g = true -> octets g = ADDCILONG opt true v /\ get_neg n go = true) ->
  REJCILONG go opt n v (before refusal (drop k parts) x) = Good (before refusal (drop (S k) parts) (clear (refused g) n x)).
Proof.
  intros Hk Ho Hv Hg. apply (rej_step k g CILEN_LONG opt n get_long _ (set_neg n false)); [done|done|done|]. intros [E En]%Hg.
  exists (PUTLONG v), v. do 3 (split; [done|]). split; [intros rest; by apply get_long_ok|]. by rewrite Z.eqb_refl.
Qed.

Lemma rej_void k opt n a b x :
  drop k parts = part_void opt a b :: drop (S k) parts -> opt ∉ drop (S k) (ptype <$> parts) -> get_neg n go = a ->
  REJCIVOID go opt n (before refusal (drop k parts) x) = Good (before refusal (drop (S k) parts) (clear (refused (part_void opt a b)) n x)).
Proof.
  intros Hk Ho Hn. apply (rej_step k (part_void opt a b) CILEN_VOID opt n get_void _ (set_neg n false)); [done|done|done|].
  intros [E En]%refused_void. exists [], (). subst. by do 4 (split; [done|]).
Qed.

Lemma rej_lqr x :
  REJCILQR go CI_QUALITY neg_LQR (lqr_period go) (before refusal (drop 3 parts) x) =
  Good (before refusal (drop 4 parts) (clear (refused part_lqr) neg_LQR x)).
Proof.
  apply (rej_step 3 part_lqr CILEN_LQR CI_QUALITY neg_LQR get_lqr _ (set_neg neg_LQR false)); [done|done|other_types|].
  intros H. exists (PUTSHORT PPP_LQR ++ PUTLONG (lqr_period go)), (PPP_LQR, lqr_period go).
  unfold part_lqr in H |- *. cbn [get_neg]. destruct (neg_lqr go); [|by apply refused_absent in H]. do 3 (split; [done|]). split.
  - intros rest. unfold get_lqr. rewrite <- app_assoc, get_short_ok by (unfold PPP_LQR; lia). cbn [mbind checked_bind].
    by rewrite get_long_ok by apply Hgo.
  - by rewrite !Z.eqb_refl.
Qed.

Lemma rej_cbcp x :
  REJCICBCP go CI_CALLBACK neg_CBCP CBCP_OPT (before refusal (drop 4 parts) x) =
  Good (before refusal (drop 5 parts) (clear (refused part_cbcp) neg_CBCP x)).
Proof.
  apply (rej_step 4 part_cbcp CILEN_CBCP CI_CALLBACK neg_CBCP get_char _ (set_neg neg_CBCP false)); [done|done|other_types|].
  intros H. exists [CBCP_OPT], CBCP_OPT. unfold part_cbcp in H |- *. cbn [get_neg].
  destruct (neg_cbcp go); [|by apply refused_absent in H]. by do 4 (split; [done|]).
Qed.

Lemma rej_auth x :
  (c ← REJCICHAP go CI_AUTHTYPE neg_CHAP PPP_CHAP (chap_mdtype go) (before refusal (drop 2 parts) x);
   if negb (neg_chap go) then REJCISHORT go CI_AUTHTYPE neg_UPAP PPP_PAP c else Good c) =
  Good (before refusal (drop 3 parts)
    (clear (refused part_auth) neg_UPAP (if neg_chap go then clear (refused part_auth) neg_CHAP x else x))).
Proof.
  pose proof refused_auth as Ha. destruct (neg_chap go) eqn:Ec; cbn [negb].
  - unfold REJCICHAP. rewrite (rej_step 2 part_auth CILEN_CHAP CI_AUTHTYPE neg_CHAP get_chap _
      (fun x => set_neg neg_UPAP false (set_neg neg_CHAP false x))); [unfold clear; by destruct (refused part_auth)|done|done|other_types|].
    intros E%Ha. exists (PUTSHORT PPP_CHAP ++ [chap_mdtype go]), (PPP_CHAP, chap_mdtype go). do 3 (split; [done|]). split.
    + intros rest. unfold get_chap. by rewrite <- app_assoc, get_short_ok by (unfold PPP_CHAP; lia).
    + by rewrite !Z.eqb_refl.
  - assert (Es : REJCICHAP go CI_AUTHTYPE neg_CHAP PPP_CHAP (chap_mdtype go) (before refusal (drop 2 parts) x) = Good (before refusal (drop 2 parts) x)).
    { unfold REJCICHAP, CI, before, at_option. cbn [get_neg]. by rewrite Ec. }
    rewrite Es. cbn [mbind checked_bind]. apply rej_short; [done|other_types|unfold PPP_PAP; lia|exact Ha].
Qed.

Lemma rej_check_result : rej_check go (refusals parts ++ room) (zlen (refusals parts)) = Good rej_try.
Proof.
  destruct Hgo as [H1 H2 H3 H4 H5]. unfold rej_check.
  change (refusals parts ++ room, zlen (refusals parts), go) with (before refusal (drop 0 parts) go).
  rewrite (rej_short 0 part_mru) by (done || other_types || apply refused_mru). cbn [mbind checked_bind].
  rewrite (rej_long 1 part_asyncmap) by (done || other_types || apply refused_asyncmap). cbn [mbind checked_bind].
  rewrite checked_assoc, rej_auth. cbn [mbind checked_bind]. rewrite rej_lqr. cbn [mbind checked_bind]. rewrite rej_cbcp. cbn [mbind checked_bind].
  rewrite (rej_long 5 part_magic) by (done || other_types || apply refused_magic). cbn [mbind checked_bind].
  rewrite (rej_void 6 _ _ (neg_pcompression go) (neg_pcompression ao)) by (done || other_types). cbn [mbind checked_bind].
  by rewrite (rej_void 7 _ _ (neg_accompression go) (neg_accompression ao)) by (done || other_types).
Qed.

(** **** A Nak *)

Context (wo : lcp_options) (own : Z) (Hmagic : 0 <= magic < 2 ^ 32).

(** The options to request after a Nak, but for the count of loops *)
Definition nak_try : lcp_options :=
  let x := if nacked part_mru then try_mru PPP_MINMRU go else go in
  let x := if nacked part_asyncmap then try_asyncmap (Z.lor (asyncmap go) (Z.lor (asyncmap ao) (asyncmap go))) x else x in
  let x := clear (nacked part_auth) (if neg_chap go then neg_CHAP else neg_UPAP) x in
  if nacked part_magic then try_magicnumber own x else x.

Lemma parts_hint : Forall (shaped hint) parts.
Proof. eapply Forall_impl; [|apply parts_ok]. by intros g (_ & _ & H & _). Qed.

Definition found (t : lcp_options) (b : bool) (x : nak_state) : Prop := try_ x = t /\ looped_back x = b.

(** A step over the part number [k] *)
Lemma nak_step {A} k g cilen opt n get (cod : A -> nak_state -> checked nak_state) x t b :
  drop k parts = g :: drop (S k) parts -> 2 <= cilen -> opt ∉ drop (S k) (ptype <$> parts) ->
  hint g = [] /\ found t b x \/
    (exists body v x', hint g = [opt; cilen] ++ body /\ cilen = zlen body + 2 /\ get_neg n go = true /\
      (forall rest, get (body ++ rest) = Good (v, rest)) /\ cod v x = Good x' /\ found t b x') ->
  exists x', CI go cilen opt n get cod (before hint (drop k parts) x) = Good (before hint (drop (S k) parts) x') /\ found t b x'.
Proof.
  intros Hk Hc Hopt Hg. rewrite Hk.
  assert (HS : Forall (shaped hint) (drop (S k) parts)) by apply Forall_drop, parts_hint. rewrite <- fmap_drop in Hopt.
  destruct Hg as [[E Hf]|(body & v & x' & E & Hl & Hn & Hg & Hx & Hf)].
  - exists x. split; [|done]. apply CI_part; [done..|]. by left.
  - exists x'. split; [|done]. apply CI_part; [done..|]. right. by exists body, v.
Qed.

Lemma nacked_absent t : nacked (absent t) = false.
Proof. done. Qed.

Lemma nak_step_mru :
  exists x', (if neg_mru go && negb (mru go =? PPP_DEFMRU) then
     NAKCISHORT go CI_MRU neg_MRU (fun cishort =>
       if (cishort <=? mru wo) || (cishort <? PPP_DEFMRU) then on_try (try_mru cishort) else fun x => x)
       (before hint (drop 0 parts) (NakState no_options go false))
   else Good (before hint (drop 0 parts) (NakState no_options go false))) = Good (before hint (drop 1 parts) x') /\
    found (if nacked part_mru then try_mru PPP_MINMRU go else go) false x'.
Proof.
  change (neg_mru go && _) with sent_mru. destruct sent_mru eqn:Es.
  - apply (nak_step 0 part_mru); [done|done|other_types|]. unfold part_mru. rewrite Es.
    destruct (negb (neg_mru ao)); [by left|]. destruct (mru go <? PPP_MINMRU); [|by left]. right.
    exists (PUTSHORT PPP_MINMRU), PPP_MINMRU. eexists. split; [done|]. split; [done|].
    split; [unfold sent_mru in Es; cbn; by destruct (neg_mru go)|]. split; [intros rest; apply get_short_ok; unfold PPP_MINMRU; lia|].
    split; [reflexivity|]. cbn [nacked code]. rewrite orb_true_r. by split.
  - exists (NakState no_options go false). unfold part_mru, parts. cbn [drop]. rewrite before_nil by (unfold part_mru; by rewrite Es).
    rewrite Es. by split.
Qed.

Lemma nak_step_asyncmap x t b :
  found t b x ->
  exists x', (if neg_asyncmap go && negb (asyncmap go =? 0xFFFFFFFF) then
     NAKCILONG go CI_ASYNCMAP neg_ASYNCMAP (fun cilong => on_try (try_asyncmap (Z.lor (asyncmap go) cilong))) (before hint (drop 1 parts) x)
   else Good (before hint (drop 1 parts) x)) = Good (before hint (drop 2 parts) x') /\
    found (if nacked part_asyncmap then try_asyncmap (Z.lor (asyncmap go) (Z.lor (asyncmap ao) (asyncmap go))) t else t) b x'.
Proof.
  intros [Ht Hb]. change (neg_asyncmap go && _) with sent_asyncmap. destruct sent_asyncmap eqn:Es.
  - apply (nak_step 1 part_asyncmap); [done|done|other_types|]. unfold part_asyncmap. rewrite Es.
    destruct (negb (neg_asyncmap ao)); [by left|]. destruct (negb (Z.land _ _ =? 0)); [|by left]. right.
    exists (PUTLONG (Z.lor (asyncmap ao) (asyncmap go))), (Z.lor (asyncmap ao) (asyncmap go)). eexists. split; [done|]. split; [done|].
    split; [unfold sent_asyncmap in Es; cbn; by destruct (neg_asyncmap go)|].
    split; [intros rest; apply get_long_ok; by apply lor_32; apply Hao || apply Hgo|].
    split; [reflexivity|]. cbn [nacked code]. unfold found, on_try, seen. cbn [try_ looped_back]. by rewrite Ht.
  - exists x. unfold parts. cbn [drop]. rewrite before_nil by (unfold part_asyncmap; by rewrite Es).
    split; [done|]. unfold part_asyncmap. rewrite Es. by split.
Qed.

Lemma nak_step_skip {A} k g cilen opt n get (cod : A -> nak_state -> checked nak_state) x t b :
  drop k parts = g :: drop (S k) parts -> 2 <= cilen -> opt ∉ drop (S k) (ptype <$> parts) -> hint g = [] -> found t b x ->
  exists x', CI go cilen opt n get cod (before hint (drop k parts) x) = Good (before hint (drop (S k) parts) x') /\ found t b x'.
Proof. intros Hk Hc Ho Hh Hf. apply (nak_step k g); [done..|]. by left. Qed.

Lemma nak_authtype_skip p len x : skips CI_AUTHTYPE p len -> nak_authtype go (p, len, x) = Good (p, len, x).
Proof.
  intros [Hl|(p0 & p1 & q & -> & Hne)]; unfold nak_authtype.
  - rewrite (proj2 (Z.leb_gt CILEN_SHORT len)) by (unfold CILEN_SHORT; lia). by rewrite andb_false_r.
  - destruct (_ && _); [|done]. by rewrite (proj2 (Z.eqb_neq p0 CI_AUTHTYPE)) by done.
Qed.

(** The proposal of PAP or of CHAP with MD5 *)
Lemma nak_authtype_pap rest len x :
  neg_chap go = true -> 0 <= len ->
  exists x', nak_authtype go (nak_pap ++ rest, 4 + len, x) = Good (rest, len, x') /\ found (set_neg neg_CHAP false (try_ x)) (looped_back x) x'.
Proof.
  intros Hc Hl. unfold nak_authtype, nak_pap. rewrite Hc, (proj2 (Z.leb_le _ _)) by (unfold CILEN_SHORT; lia). cbn [orb andb app].
  rewrite (proj2 (Z.leb_le CILEN_SHORT (4 + len))) by (unfold CILEN_SHORT; lia). cbn [Z.eqb CI_AUTHTYPE Pos.eqb Z.leb CILEN_SHORT Z.compare Pos.compare Pos.compare_cont andb].
  rewrite get_short_ok by (unfold PPP_PAP; lia). cbn [mbind checked_bind]. replace (4 + len - CILEN_SHORT) with len by (unfold CILEN_SHORT; lia).
  by eexists.
Qed.

Lemma nak_authtype_chap rest len x :
  (if neg_chap go then chap_mdtype go <> CHAP_DIGEST_MD5 else neg_upap go = true) -> 0 <= len ->
  exists x', nak_authtype go (nak_chap ao ++ rest, 5 + len, x) = Good (rest, len, x') /\
    found (set_neg (if neg_chap go then neg_CHAP else neg_UPAP) false (try_ x)) (looped_back x) x'.
Proof.
  intros Hc Hl. unfold nak_authtype, nak_chap. rewrite Hmd, (proj2 (Z.leb_le _ _)) by (unfold CILEN_SHORT; lia).
  assert (neg_chap go || neg_upap go = true) as -> by (destruct (neg_chap go); [done|by rewrite Hc]). cbn [andb app].
  rewrite (proj2 (Z.leb_le CILEN_CHAP (5 + len))) by (unfold CILEN_CHAP; lia). cbn [Z.eqb CI_AUTHTYPE Pos.eqb Z.leb CILEN_SHORT CILEN_CHAP Z.compare Pos.compare Pos.compare_cont andb].
  rewrite <- !app_assoc, get_short_ok by (unfold PPP_CHAP; lia). cbn [mbind checked_bind app]. replace (5 + len - CILEN_CHAP) with len by (unfold CILEN_CHAP; lia).
  cbn [Z.eqb PPP_CHAP PPP_PAP Pos.eqb andb get_char mbind checked_bind]. destruct (neg_chap go); [|by eexists].
  rewrite (proj2 (Z.eqb_neq CHAP_DIGEST_MD5 (chap_mdtype go))) by congruence. by eexists.
Qed.

Lemma nak_step_auth x t b :
  found t b x ->
  exists x', nak_authtype go (before hint (drop 2 parts) x) = Good (before hint (drop 3 parts) x') /\
    found (clear (nacked part_auth) (if neg_chap go then neg_CHAP else neg_UPAP) t) b x'.
Proof.
  intros [Ht Hb]. assert (Hd : drop 2 parts = part_auth :: drop 3 parts) by done.
  assert (Hs : skips CI_AUTHTYPE (concat (hint <$> drop 3 parts) ++ room) (zlen (concat (hint <$> drop 3 parts)))).
  { apply tail_skips; [apply Forall_drop, parts_hint|]. rewrite fmap_drop. other_types. }
  assert (Hskip : hint part_auth = [] -> nak_authtype go (before hint (drop 2 parts) x) = Good (before hint (drop 3 parts) x)).
  { intros E. rewrite Hd, before_nil by done. by apply nak_authtype_skip. }
  rewrite Hd in Hskip |- *. set (L := drop 3 parts) in *. unfold before at 1. cbn [fmap list_fmap concat].
  rewrite <- app_assoc, length_app, Nat2Z.inj_add.
  assert (Hdone : hint part_auth = [] -> nacked part_auth = false ->
    exists x', nak_authtype go (before hint (part_auth :: L) x) = Good (before hint L x') /\
      found (clear (nacked part_auth) (if neg_chap go then neg_CHAP else neg_UPAP) t) b x').
  { intros E En. exists x. rewrite En. split; [by apply Hskip|by split]. }
  unfold before at 1 in Hdone. cbn [fmap list_fmap concat] in Hdone. rewrite <- app_assoc, length_app, Nat2Z.inj_add in Hdone.
  revert Hdone. clear Hskip. unfold part_auth. subst t b.
  destruct (neg_chap go) eqn:Ec; [|destruct (neg_upap go) eqn:Eu; [|by intros H; apply H]].
  - destruct (negb (neg_upap ao || neg_chap ao)); [by intros H; apply H|]. destruct (neg_chap ao); cbn [negb].
    + destruct (Z.eqb_spec (chap_mdtype go) CHAP_DIGEST_MD5); cbn [negb]; [by intros H; apply H|]. intros _.
      pose proof (nak_authtype_chap (concat (hint <$> L) ++ room) (zlen (concat (hint <$> L))) x) as H. rewrite Ec in H. apply H; [done|lia].
    + intros _. apply nak_authtype_pap; [done|lia].
  - destruct (negb (neg_upap ao || neg_chap ao)); [by intros H; apply H|]. destruct (neg_upap ao); cbn [negb]; [by intros H; apply H|].
    intros _. pose proof (nak_authtype_chap (concat (hint <$> L) ++ room) (zlen (concat (hint <$> L))) x) as H. rewrite Ec in H. apply H; [done|lia].
Qed.

Lemma nak_step_magic x t :
  found t false x ->
  exists x', NAKCILONG go CI_MAGICNUMBER neg_MAGICNUMBER (fun _ x => NakState (no x) (try_magicnumber own (try_ x)) true)
      (before hint (drop 5 parts) x) = Good (before hint (drop 6 parts) x') /\
    found (if nacked part_magic then try_magicnumber own t else t) (nacked part_magic) x'.
Proof.
  intros [Ht Hb]. apply (nak_step 5 part_magic); [done|done|other_types|]. unfold part_magic.
  destruct (neg_magicnumber go) eqn:En; [|by left]. destruct (negb (neg_magicnumber ao || _)); [by left|].
  destruct (neg_magicnumber gop && _); [|by left]. right.
  exists (PUTLONG magic), magic. eexists. split; [done|]. split; [done|]. split; [done|].
  split; [intros rest; by apply get_long_ok|].
  split; [reflexivity|]. cbn [nacked code]. unfold found. cbn. by rewrite Ht.
Qed.

Lemma nak_step_lqr x t b :
  found t b x ->
  exists x', NAKCILQR go CI_QUALITY neg_LQR (fun cishort cilong =>
      on_try (if negb (cishort =? PPP_LQR) then set_neg neg_LQR false else try_lqr_period cilong)) (before hint (drop 3 parts) x) =
    Good (before hint (drop 4 parts) x') /\ found t b x'.
Proof. apply (nak_step_skip 3 part_lqr); [done|done|other_types|unfold part_lqr; by case_match]. Qed.

Lemma nak_step_cbcp x t b :
  found t b x ->
  exists x', NAKCICHAR go CI_CALLBACK neg_CBCP (fun _ => on_try (set_neg neg_CBCP false)) (before hint (drop 4 parts) x) =
    Good (before hint (drop 5 parts) x') /\ found t b x'.
Proof. apply (nak_step_skip 4 part_cbcp); [done|done|other_types|unfold part_cbcp; by case_match]. Qed.

Lemma nak_step_void k opt n cod a c x t b :
  drop k parts = part_void opt a c :: drop (S k) parts -> opt ∉ drop (S k) (ptype <$> parts) -> found t b x ->
  exists x', NAKCIVOID go opt n cod (before hint (drop k parts) x) = Good (before hint (drop (S k) parts) x') /\ found t b x'.
Proof. intros Hk Ho. apply (nak_step_skip k (part_void opt a c)); [done|done|done|unfold part_void; by case_match]. Qed.

Lemma bind_good {A B} (m : checked A) (k : A -> checked B) a : m = Good a -> (m ≫= k) = k a.
Proof. by intros ->. Qed.

Lemma nak_check_result : nak_check go wo own (hints parts ++ room) (zlen (hints parts)) = Good (nak_try, nacked part_magic).
Proof.
  unfold nak_check. cbv zeta.
  change (hints parts ++ room, zlen (hints parts), NakState no_options go false) with (before hint (drop 0 parts) (NakState no_options go false)).
  destruct nak_step_mru as (x1 & E1 & F1). erewrite bind_good by exact E1. clear E1.
  destruct (nak_step_asyncmap _ _ _ F1) as (x2 & E & F2). erewrite bind_good by exact E. clear E.
  destruct (nak_step_auth _ _ _ F2) as (x3 & E & F3). erewrite bind_good by exact E. clear E.
  destruct (nak_step_lqr _ _ _ F3) as (x4 & E & F4). erewrite bind_good by exact E. clear E.
  destruct (nak_step_cbcp _ _ _ F4) as (x5 & E & F5). erewrite bind_good by exact E. clear E.
  destruct (nak_step_magic _ _ F5) as (x6 & E & F6). erewrite bind_good by exact E. clear E.
  destruct (nak_step_void 6 CI_PCOMPRESSION neg_PCOMPRESSION (on_try (set_neg neg_PCOMPRESSION false)) (neg_pcompression go) (neg_pcompression ao) _ _ _
    ltac:(done) ltac:(other_types) F6) as (x7 & E & F7). erewrite bind_good by exact E. clear E.
  destruct (nak_step_void 7 CI_ACCOMPRESSION neg_ACCOMPRESSION (on_try (set_neg neg_ACCOMPRESSION false)) (neg_accompression go) (neg_accompression ao) _ _ _
    ltac:(done) ltac:(other_types) F7) as (x8 & E & F8). erewrite bind_good by exact E. clear E.
  destruct F8 as [Ft Fb]. transitivity (Good (try_ x8, looped_back x8)); [reflexivity|]. by rewrite Ft, Fb.
Qed.
End Parts.

(** *** One request *)

Section Rounds.
Context (ao gop wo : lcp_options) (room : list Z).
Context (Hao : options_ok ao) (Hmd : chap_mdtype ao = CHAP_DIGEST_MD5) (Hroom : 1 <= zlen room) (Hrb : Forall is_byte room).

(** What an exchange comes to *)
Lemma exchange_result r go :
  options_ok go -> 0 <= magic_peer r < 2 ^ 32 ->
  let P := parts ao gop (magic_peer r) go in
  let m := nacked (part_magic ao gop (magic_peer r) go) in
  let n := if m then numloops go + 1 else 0 in
  n < lcp_loopbackfail ->
  exchange ao gop wo room r go =
    Some (if existsb (refused (reject_if_disagree r)) P then (CONFREJ, rej_try ao gop (reject_if_disagree r) (magic_peer r) go)
          else if existsb nacked P then (CONFNAK, try_numloops n (nak_try ao gop (magic_peer r) go (magic_own r)))
          else (CONFACK, go)).
Proof.
  intros Hgo Hm P m n Hn. unfold exchange.
  destruct (reqci_answer ao gop (reject_if_disagree r) (magic_peer r) go Hgo room Hroom) as (h & room' & ->). fold P. cbn [mbind option_bind].
  destruct (existsb (refused _) P); [|destruct (existsb nacked P)]; cbn [Z.eqb CONFACK CONFNAK CONFREJ Pos.eqb].
  - unfold P. by rewrite (rej_check_result ao gop (reject_if_disagree r) (magic_peer r) go Hgo room').
  - unfold P. rewrite (nak_check_result ao gop (magic_peer r) go Hgo Hao Hmd room' wo (magic_own r) Hm). fold m.
    assert (Hl : numloops (nak_try ao gop (magic_peer r) go (magic_own r)) = numloops go).
    { unfold nak_try, clear. by repeat case_match. }
    rewrite Hl. fold n. destruct m; [|done]. cbn [andb]. by rewrite (proj2 (Z.leb_gt _ _) Hn).
  - destruct (ack_request_length go) as [Hl Hpos]. rewrite lcp_ackci_decides; [|done|].
    + rewrite decide_True by (rewrite take_app_length'; [done|lia]). done.
    + split; [rewrite length_app; lia|]. rewrite Forall_app. split; [by apply ADDCI_octets|done].
Qed.

(** *** What is wrong with a request *)

(** Options that are not allowed *)
Definition u_mru go : bool := sent_mru go && negb (neg_mru ao).
Definition u_asyncmap go : bool := sent_asyncmap go && negb (neg_asyncmap ao).
Definition u_auth (go : lcp_options) : bool := (neg_chap go || neg_upap go) && negb (neg_upap ao || neg_chap ao).
Definition u_lqr (go : lcp_options) : bool := neg_lqr go && negb (neg_lqr ao).
Definition u_magic (go : lcp_options) : bool := neg_magicnumber go && negb (neg_magicnumber ao || neg_magicnumber gop).
Definition u_pcompression (go : lcp_options) : bool := neg_pcompression go && negb (neg_pcompression ao).
Definition u_accompression (go : lcp_options) : bool := neg_accompression go && negb (neg_accompression ao).
(** Values that are not *)
Definition w_mru go : bool := sent_mru go && neg_mru ao && (mru go <? PPP_MINMRU).
Definition w_asyncmap go : bool := sent_asyncmap go && neg_asyncmap ao && negb (Z.land (asyncmap ao) (Z.lnot (asyncmap go)) =? 0).
Definition bad_chap (go : lcp_options) : bool := negb (neg_chap ao) || negb (chap_mdtype go =? CHAP_DIGEST_MD5).
Definition w_auth (go : lcp_options) : bool :=
  (neg_upap ao || neg_chap ao) && (if neg_chap go then bad_chap go else neg_upap go && negb (neg_upap ao)).
(** The magic number of the peer *)
Definition same_magic (go : lcp_options) : bool :=
  neg_magicnumber go && (neg_magicnumber ao || neg_magicnumber gop) && (neg_magicnumber gop && (magicnumber go =? magicnumber gop)).
(** PAP, which is not allowed, will be asked for instead of CHAP. *)
Definition pending (go : lcp_options) : bool :=
  neg_chap go && neg_upap go && neg_chap ao && negb (neg_upap ao) && negb (chap_mdtype go =? CHAP_DIGEST_MD5).

Definition unsupported go : bool :=
  u_mru go || u_asyncmap go || u_auth go || u_lqr go || neg_cbcp go || u_magic go || u_pcompression go || u_accompression go.
Definition wrong go : bool := w_mru go || w_asyncmap go || w_auth go.

(** Requests that may still be refused *)
Definition measure go : Z := Z.b2z (unsupported go) + Z.b2z (wrong go) + Z.b2z (same_magic go || pending go).

Section Judged.
Context (d : bool) (m : Z) (go : lcp_options).
Abbreviation refused := (refused d).

Lemma refused_mru_is : refused (part_mru ao go) = u_mru go || w_mru go && d.
Proof. unfold u_mru, w_mru, part_mru. destruct (sent_mru go), (neg_mru ao), (mru go <? PPP_MINMRU), d; reflexivity. Qed.

Lemma refused_asyncmap_is : refused (part_asyncmap ao go) = u_asyncmap go || w_asyncmap go && d.
Proof. unfold u_asyncmap, w_asyncmap, part_asyncmap. destruct (sent_asyncmap go), (neg_asyncmap ao), (Z.land (asyncmap ao) (Z.lnot (asyncmap go)) =? 0), d; reflexivity. Qed.

Lemma refused_auth_is : refused (part_auth ao go) = u_auth go || w_auth go && d.
Proof.
  unfold u_auth, w_auth, bad_chap, part_auth.
  destruct (neg_chap go), (neg_upap go), (neg_chap ao), (neg_upap ao), (chap_mdtype go =? CHAP_DIGEST_MD5), d; reflexivity.
Qed.

Lemma refused_lqr_is : refused (part_lqr ao go) = u_lqr go.
Proof. unfold u_lqr, part_lqr. by destruct (neg_lqr go), (neg_lqr ao). Qed.

Lemma refused_cbcp_is : refused (part_cbcp go) = neg_cbcp go.
Proof. unfold part_cbcp. by destruct (neg_cbcp go). Qed.

Lemma refused_magic_is : refused (part_magic ao gop m go) = u_magic go.
Proof.
  unfold u_magic, part_magic. destruct (neg_magicnumber go), (neg_magicnumber ao || neg_magicnumber gop), (neg_magicnumber gop && (magicnumber go =? magicnumber gop)), d; reflexivity.
Qed.

Lemma refused_void_is t a b : refused (part_void t a b) = a && negb b.
Proof. by destruct a, b. Qed.

Lemma nacked_mru_is : nacked (part_mru ao go) = w_mru go.
Proof. unfold w_mru, part_mru. by destruct (sent_mru go), (neg_mru ao), (mru go <? PPP_MINMRU). Qed.

Lemma nacked_asyncmap_is : nacked (part_asyncmap ao go) = w_asyncmap go.
Proof. unfold w_asyncmap, part_asyncmap. by destruct (sent_asyncmap go), (neg_asyncmap ao), (Z.land (asyncmap ao) (Z.lnot (asyncmap go)) =? 0). Qed.

Lemma nacked_auth_is : nacked (part_auth ao go) = w_auth go.
Proof.
  unfold w_auth, bad_chap, part_auth.
  by destruct (neg_chap go), (neg_upap go), (neg_chap ao), (neg_upap ao), (chap_mdtype go =? CHAP_DIGEST_MD5).
Qed.

Lemma nacked_magic_is : nacked (part_magic ao gop m go) = same_magic go.
Proof. unfold same_magic, part_magic. by destruct (neg_magicnumber go), (neg_magicnumber ao || neg_magicnumber gop), (neg_magicnumber gop && (magicnumber go =? magicnumber gop)). Qed.

Lemma refused_parts : existsb refused (parts ao gop m go) = unsupported go || wrong go && d.
Proof.
  unfold parts, unsupported, wrong. cbn [existsb].
  rewrite refused_mru_is, refused_asyncmap_is, refused_auth_is, refused_lqr_is, refused_cbcp_is, refused_magic_is, !refused_void_is.
  unfold u_pcompression, u_accompression. btauto.
Qed.

Lemma nacked_parts : existsb nacked (parts ao gop m go) = wrong go || same_magic go.
Proof.
  unfold parts, wrong. cbn [existsb]. rewrite nacked_mru_is, nacked_asyncmap_is, nacked_auth_is, nacked_magic_is.
  assert (nacked (part_lqr ao go) = false) as -> by (unfold part_lqr; by repeat case_match).
  assert (nacked (part_cbcp go) = false) as -> by (unfold part_cbcp; by case_match).
  assert (Hv : forall t a b, nacked (part_void t a b) = false) by (by intros t [] []). rewrite !Hv. btauto.
Qed.

(** The options after a Reject *)
Lemma rej_try_is : rej_try ao gop d m go =
  Options (passive go) (silent go) (restart go)
    (if u_mru go || w_mru go && d then false else neg_mru go)
    (if u_asyncmap go || w_asyncmap go && d then false else neg_asyncmap go)
    (if u_auth go || w_auth go && d then false else neg_upap go)
    (if u_auth go || w_auth go && d then false else neg_chap go)
    (if u_magic go then false else neg_magicnumber go)
    (if neg_pcompression go && negb (neg_pcompression ao) then false else neg_pcompression go)
    (if neg_accompression go && negb (neg_accompression ao) then false else neg_accompression go)
    (if u_lqr go then false else neg_lqr go) (if neg_cbcp go then false else neg_cbcp go)
    (mru go) (chap_mdtype go) (asyncmap go) (magicnumber go) (numloops go) (lqr_period go).
Proof.
  unfold rej_try. rewrite refused_mru_is, refused_asyncmap_is, refused_auth_is, refused_lqr_is, refused_cbcp_is, refused_magic_is, !refused_void_is.
  generalize (u_mru go || w_mru go && d) (u_asyncmap go || w_asyncmap go && d) (u_auth go || w_auth go && d) (u_lqr go) (u_magic go)
    (neg_pcompression go && negb (neg_pcompression ao)) (neg_accompression go && negb (neg_accompression ao)).
  intros b1 b2 b3 b4 b5 b6 b7. destruct go as [? ? ? ? ? ? ch ? ? ? ? cb ? ? ? ? ? ?]. cbn [neg_chap neg_cbcp].
  by destruct b1, b2, b3, b4, b5, b6, b7, ch, cb.
Qed.

Lemma nak_try_is n own : try_numloops n (nak_try ao gop m go own) =
  Options (passive go) (silent go) (restart go) (neg_mru go) (neg_asyncmap go)
    (if negb (neg_chap go) && w_auth go then false else neg_upap go) (if w_auth go then false else neg_chap go)
    (neg_magicnumber go) (neg_pcompression go) (neg_accompression go) (neg_lqr go) (neg_cbcp go)
    (if w_mru go then PPP_MINMRU else mru go) (chap_mdtype go)
    (if w_asyncmap go then Z.lor (asyncmap go) (Z.lor (asyncmap ao) (asyncmap go)) else asyncmap go)
    (if same_magic go then own else magicnumber go) n (lqr_period go).
Proof.
  unfold nak_try. rewrite nacked_mru_is, nacked_asyncmap_is, nacked_auth_is, nacked_magic_is.
  generalize (w_mru go) (w_asyncmap go) (w_auth go) (same_magic go). intros b1 b2 b3 b4.
  destruct go as [? ? ? ? ? ? ch ? ? ? ? ? ? ? ? ? ? ?]. cbn [neg_chap]. by destruct b1, b2, b3, b4, ch.
Qed.
End Judged.

Ltac fields := cbn [neg_mru neg_asyncmap neg_upap neg_chap neg_lqr neg_cbcp neg_magicnumber neg_pcompression neg_accompression
  mru asyncmap magicnumber chap_mdtype numloops lqr_period].

Section Rejected.
Context (d : bool) (m : Z) (go : lcp_options).
Abbreviation go' := (rej_try ao gop d m go).

Lemma u_mru_rej : u_mru go' = false.
Proof. rewrite rej_try_is. unfold u_mru, w_mru, sent_mru. fields. destruct (neg_mru go), (neg_mru ao), (negb (mru go =? PPP_DEFMRU)); btauto. Qed.

Lemma w_mru_rej : w_mru go' = w_mru go && negb d.
Proof. rewrite rej_try_is. unfold u_mru, w_mru, sent_mru. fields. destruct (neg_mru go), (neg_mru ao), (negb (mru go =? PPP_DEFMRU)), (mru go <? PPP_MINMRU), d; reflexivity. Qed.

Lemma u_asyncmap_rej : u_asyncmap go' = false.
Proof.
  rewrite rej_try_is. unfold u_asyncmap, w_asyncmap, sent_asyncmap. fields.
  destruct (neg_asyncmap go), (neg_asyncmap ao), (negb (asyncmap go =? 0xFFFFFFFF)); btauto.
Qed.

Lemma w_asyncmap_rej : w_asyncmap go' = w_asyncmap go && negb d.
Proof.
  rewrite rej_try_is. unfold u_asyncmap, w_asyncmap, sent_asyncmap. fields.
  destruct (neg_asyncmap go), (neg_asyncmap ao), (negb (asyncmap go =? 0xFFFFFFFF)), (Z.land (asyncmap ao) (Z.lnot (asyncmap go)) =? 0), d; reflexivity.
Qed.

Ltac auth_cases := destruct (neg_chap go), (neg_upap go), (neg_chap ao), (neg_upap ao), (chap_mdtype go =? CHAP_DIGEST_MD5), d; done.

Lemma u_auth_rej : u_auth go' = false.
Proof. rewrite rej_try_is. unfold u_auth, w_auth, bad_chap. fields. auth_cases. Qed.

Lemma w_auth_rej : w_auth go' = w_auth go && negb d.
Proof. rewrite rej_try_is. unfold u_auth, w_auth, bad_chap. fields. auth_cases. Qed.

Lemma pending_rej : pending go' = true -> pending go = true.
Proof. rewrite rej_try_is. unfold pending, u_auth, w_auth, bad_chap. fields. auth_cases. Qed.

Lemma same_magic_rej : same_magic go' = same_magic go.
Proof. rewrite rej_try_is. unfold same_magic, u_magic. fields. by destruct (neg_magicnumber go), (neg_magicnumber ao || neg_magicnumber gop). Qed.

(** A Reject leaves nothing that is not allowed, and nothing new. *)
Lemma unsupported_rej : unsupported go' = false.
Proof.
  unfold unsupported. rewrite u_mru_rej, u_asyncmap_rej, u_auth_rej, rej_try_is. unfold u_lqr, u_magic, u_pcompression, u_accompression. fields.
  destruct (neg_lqr go), (neg_cbcp go), (neg_magicnumber go), (neg_pcompression go), (neg_accompression go), (neg_lqr ao),
    (neg_magicnumber ao || neg_magicnumber gop), (neg_pcompression ao), (neg_accompression ao); reflexivity.
Qed.

Lemma measure_rej : unsupported go || wrong go && d = true -> measure go' < measure go.
Proof.
  intros Hr. unfold measure. rewrite unsupported_rej, same_magic_rej. pose proof pending_rej as Hp.
  assert (Hw : wrong go' = wrong go && negb d) by (unfold wrong; rewrite w_mru_rej, w_asyncmap_rej, w_auth_rej; btauto). rewrite Hw.
  clear Hw. revert Hr Hp. generalize (pending go') (unsupported go) (wrong go) (same_magic go) (pending go). intros b1 b2 b3 b4 b5 Hr Hp.
  destruct b1; [rewrite (Hp eq_refl)|destruct b5]; destruct b2, b3, d, b4; done.
Qed.
End Rejected.

Section Nacked.
Context (m own n : Z) (go : lcp_options) (Hown : own <> magicnumber gop) (Hu : unsupported go = false).
Abbreviation go' := (try_numloops n (nak_try ao gop m go own)).

Lemma u_mru_nak : u_mru go = false -> u_mru go' = false.
Proof.
  rewrite nak_try_is. unfold u_mru, w_mru, sent_mru. fields.
  destruct (neg_mru ao); [by rewrite !andb_false_r|by rewrite andb_false_r].
Qed.

Lemma u_asyncmap_nak : u_asyncmap go = false -> u_asyncmap go' = false.
Proof.
  rewrite nak_try_is. unfold u_asyncmap, w_asyncmap, sent_asyncmap. fields.
  destruct (neg_asyncmap ao); [by rewrite !andb_false_r|by rewrite andb_false_r].
Qed.

Lemma u_auth_nak : u_auth go = false -> u_auth go' = false.
Proof. rewrite nak_try_is. unfold u_auth. fields. by destruct (neg_chap go), (neg_upap go), (w_auth go), (negb (neg_upap ao || neg_chap ao)). Qed.

Lemma unsupported_nak : unsupported go' = false.
Proof.
  revert Hu. unfold unsupported. rewrite !orb_false_iff. intros (((((((H1 & H2) & H3) & H4) & H5) & H6) & H7) & H8).
  rewrite u_mru_nak, u_asyncmap_nak, u_auth_nak by done. by rewrite nak_try_is.
Qed.

Lemma w_mru_nak : w_mru go' = false.
Proof. rewrite nak_try_is. unfold w_mru at 1. fields. destruct (w_mru go) eqn:E; [by rewrite andb_false_r|exact E]. Qed.

Lemma w_asyncmap_nak : w_asyncmap go' = false.
Proof.
  rewrite nak_try_is. unfold w_asyncmap at 1, sent_asyncmap at 1. fields. destruct (w_asyncmap go) eqn:E; [|exact E].
  assert (Z.land (asyncmap ao) (Z.lnot (Z.lor (asyncmap go) (Z.lor (asyncmap ao) (asyncmap go)))) = 0) as ->; [|by rewrite andb_false_r].
  apply Z.bits_inj'. intros i Hi. rewrite Z.land_spec, Z.lnot_spec, !Z.lor_spec, Z.bits_0 by done. btauto.
Qed.

Lemma w_auth_nak : w_auth go' = true -> pending go = true /\ w_auth go = true.
Proof.
  rewrite nak_try_is. unfold w_auth, pending, bad_chap. fields.
  destruct (neg_chap go), (neg_upap go), (neg_chap ao), (neg_upap ao), (chap_mdtype go =? CHAP_DIGEST_MD5); done.
Qed.

Lemma pending_nak : pending go' = false.
Proof.
  rewrite nak_try_is. unfold w_auth, pending, bad_chap. fields.
  destruct (neg_chap go), (neg_upap go), (neg_chap ao), (neg_upap ao), (chap_mdtype go =? CHAP_DIGEST_MD5); done.
Qed.

Lemma same_magic_nak : same_magic go' = false.
Proof.
  rewrite nak_try_is. unfold same_magic at 1. fields. destruct (same_magic go) eqn:E; [|exact E].
  rewrite (proj2 (Z.eqb_neq _ _) Hown). by rewrite !andb_false_r.
Qed.

Lemma measure_nak : wrong go || same_magic go = true -> measure go' < measure go.
Proof.
  intros Hr. unfold measure. rewrite unsupported_nak, same_magic_nak, pending_nak, Hu. unfold wrong at 1. rewrite w_mru_nak, w_asyncmap_nak. cbn [orb].
  destruct (w_auth go') eqn:Ew.
  - destruct (w_auth_nak Ew) as [-> Ha]. unfold wrong. rewrite Ha, !orb_true_r. cbn. lia.
  - destruct (wrong go), (same_magic go), (pending go); done.
Qed.
End Nacked.

(** *** The end of the negotiation *)

(** [go'] asks for nothing more than [go], and for the same of what is allowed
    or not by a flag alone. *)
Record narrowed (go go' : lcp_options) : Prop := {
  nar_mru : neg_mru go' = true -> neg_mru go = true;
  nar_asyncmap : neg_asyncmap go' = true -> neg_asyncmap go = true;
  nar_chap : neg_chap go' = true -> neg_chap go = true /\ chap_mdtype go' = chap_mdtype go;
  nar_upap : neg_upap go' = true -> neg_upap go = true;
  nar_lqr : neg_lqr go' && neg_lqr ao = neg_lqr go && neg_lqr ao;
  nar_magic : neg_magicnumber go' && (neg_magicnumber ao || neg_magicnumber gop) =
    neg_magicnumber go && (neg_magicnumber ao || neg_magicnumber gop);
  nar_pcompression : neg_pcompression go' && neg_pcompression ao = neg_pcompression go && neg_pcompression ao;
  nar_accompression : neg_accompression go' && neg_accompression ao = neg_accompression go && neg_accompression ao }.

Lemma narrowed_refl go : narrowed go go.
Proof. done. Qed.

Lemma narrowed_trans a b c : narrowed a b -> narrowed b c -> narrowed a c.
Proof.
  intros [A1 A2 A3 A4 A5 A6 A7 A8] [B1 B2 B3 B4 B5 B6 B7 B8]. split; try congruence; try tauto.
  intros [H1 H2]%B3. destruct (A3 H1) as [H3 H4]. by rewrite H2.
Qed.

Lemma narrowed_rej d m go : narrowed go (rej_try ao gop d m go).
Proof.
  rewrite rej_try_is. unfold u_lqr, u_magic. split; fields; try by case_match.
  - by destruct (neg_lqr go), (neg_lqr ao).
  - by destruct (neg_magicnumber go), (neg_magicnumber ao || neg_magicnumber gop).
  - by destruct (neg_pcompression go), (neg_pcompression ao).
  - by destruct (neg_accompression go), (neg_accompression ao).
Qed.

Lemma narrowed_nak m own n go : narrowed go (try_numloops n (nak_try ao gop m go own)).
Proof. rewrite nak_try_is. split; fields; try done; by case_match. Qed.

Lemma rej_ok d m go : options_ok go -> options_ok (rej_try ao gop d m go).
Proof. intros []. rewrite rej_try_is. by split. Qed.

Lemma nak_ok m own n go : options_ok go -> 0 <= own < 2 ^ 32 -> options_ok (try_numloops n (nak_try ao gop m go own)).
Proof.
  intros [] Ho. rewrite nak_try_is. split; fields; try done; case_match; try done.
  apply lor_32; [done|]. apply lor_32; [apply Hao|done].
Qed.

(** The numbers of a request fit, and ours is not the one of the peer. *)
Definition round_ok (r : round) : Prop :=
  0 <= magic_peer r < 2 ^ 32 /\ 0 <= magic_own r < 2 ^ 32 /\ magic_own r <> magicnumber gop.

(** What has been agreed on *)
Definition settled (go : lcp_options) : Prop := unsupported go = false /\ wrong go = false /\ same_magic go = false.

Lemma negotiate_ends rs : forall go,
  options_ok go -> 0 <= numloops go -> numloops go + measure go < lcp_loopbackfail -> Forall round_ok rs -> measure go < zlen rs ->
  exists go', negotiate ao gop wo room rs go = Some go' /\ narrowed go go' /\ settled go'.
Proof.
  induction rs as [|r rs IH]; intros go Hgo Hn0 Hn Hrs Hlen.
  { unfold measure in Hlen. destruct (unsupported go), (wrong go), (same_magic go || pending go); cbn in Hlen; lia. }
  apply Forall_cons_iff in Hrs as [(Hm & Ho & Hne) Hrs]. cbn [negotiate].
  assert (Hmes : 0 <= measure go) by (unfold measure; destruct (unsupported go), (wrong go), (same_magic go || pending go); cbn; lia).
  assert (Hloop : same_magic go = true -> 1 <= measure go).
  { intros E. unfold measure. rewrite E. destruct (unsupported go), (wrong go); cbn; lia. }
  assert (Hk : (if same_magic go then numloops go + 1 else 0) < lcp_loopbackfail).
  { unfold lcp_loopbackfail in *. destruct (same_magic go); [specialize (Hloop eq_refl)|]; lia. }
  pose proof (exchange_result r go Hgo Hm) as He. cbv zeta in He. rewrite nacked_magic_is in He. rewrite (He Hk). clear He.
  rewrite refused_parts, nacked_parts. set (d := reject_if_disagree r).
  destruct (unsupported go || wrong go && d) eqn:Er; [|destruct (wrong go || same_magic go) eqn:En];
    cbn [mbind option_bind Z.eqb CONFREJ CONFNAK CONFACK Pos.eqb].
  - pose proof (measure_rej d (magic_peer r) go Er) as Hlt.
    destruct (IH (rej_try ao gop d (magic_peer r) go)) as (go' & E & Hnar & Hs);
      [by apply rej_ok|by rewrite rej_try_is|rewrite rej_try_is at 1; fields; lia|done|cbn [length] in Hlen; lia|].
    exists go'. split; [done|]. split; [|done]. eapply narrowed_trans; [apply narrowed_rej|done].
  - apply orb_false_elim in Er as [Hu _]. set (n := if same_magic go then numloops go + 1 else 0) in *.
    pose proof (measure_nak (magic_peer r) (magic_own r) n go Hne Hu En) as Hlt.
    destruct (IH (try_numloops n (nak_try ao gop (magic_peer r) go (magic_own r)))) as (go' & E & Hnar & Hs).
    + by apply nak_ok.
    + rewrite nak_try_is. fields. unfold n. destruct (same_magic go); lia.
    + rewrite nak_try_is at 1. fields. unfold n, lcp_loopbackfail in *. destruct (same_magic go); lia.
    + done.
    + cbn [length] in Hlen. lia.
    + exists go'. split; [done|]. split; [|done]. eapply narrowed_trans; [apply narrowed_nak|done].
  - exists go. split; [done|]. apply orb_false_elim in Er as [Hu _]. apply orb_false_elim in En as [Hw Hs]. by split; [apply narrowed_refl|].
Qed.
End Rounds.

Record agreed (ao gop go go' : lcp_options) : Prop := {
  agr_narrowed : narrowed ao gop go go';
  agr_pcompression : neg_pcompression go' = neg_pcompression go && neg_pcompression ao;
  agr_accompression : neg_accompression go' = neg_accompression go && neg_accompression ao;
  agr_lqr : neg_lqr go' = neg_lqr go && neg_lqr ao;
  agr_cbcp : neg_cbcp go' = false;
  agr_magic : neg_magicnumber go' = neg_magicnumber go && (neg_magicnumber ao || neg_magicnumber gop);
  agr_differ : neg_magicnumber go' = true -> neg_magicnumber gop = true -> magicnumber go' <> magicnumber gop;
  agr_mru : sent_mru go' = true -> neg_mru ao = true /\ PPP_MINMRU <= mru go';
  agr_asyncmap : sent_asyncmap go' = true -> neg_asyncmap ao = true /\ Z.land (asyncmap ao) (Z.lnot (asyncmap go')) = 0;
  agr_chap : neg_chap go' = true -> neg_chap ao = true /\ chap_mdtype go' = CHAP_DIGEST_MD5;
  agr_upap : neg_chap go' = false -> neg_upap go' = true -> neg_upap ao = true }.

Lemma settled_agreed ao gop go go' : narrowed ao gop go go' -> settled ao gop go' -> agreed ao gop go go'.
Proof.
  intros Hn (Hu & Hw & Hs). pose proof Hn as [_ _ _ _ N1 N2 N3 N4].
  unfold unsupported in Hu. rewrite !orb_false_iff in Hu. destruct Hu as (((((((U1 & U2) & U3) & U4) & U5) & U6) & U7) & U8).
  unfold wrong in Hw. rewrite !orb_false_iff in Hw. destruct Hw as ((W1 & W2) & W3).
  assert (Hk : forall a b, a && negb b = false -> a = a && b) by (by intros [] []).
  split; [done|by rewrite <- N3; apply Hk|by rewrite <- N4; apply Hk|by rewrite <- N1; apply Hk|done|by rewrite <- N2; apply Hk| | | | |].
  - intros Hg Hp. unfold same_magic in Hs. rewrite Hg, Hp, orb_true_r in Hs. by apply Z.eqb_neq in Hs.
  - intros Hg. unfold u_mru in U1. unfold w_mru in W1. rewrite Hg in U1, W1. destruct (neg_mru ao); [|done]. by apply Z.ltb_ge in W1.
  - intros Hg. unfold u_asyncmap in U2. unfold w_asyncmap in W2. rewrite Hg in U2, W2. destruct (neg_asyncmap ao); [|done].
    by apply negb_false_iff, Z.eqb_eq in W2.
  - intros Hg. unfold u_auth in U3. unfold w_auth, bad_chap in W3. rewrite Hg in U3, W3. destruct (neg_upap ao || neg_chap ao); [|done].
    destruct (neg_chap ao); [|done]. by apply negb_false_iff, Z.eqb_eq in W3.
  - intros Hc Hg. unfold u_auth in U3. unfold w_auth in W3. rewrite Hc, Hg in U3, W3. destruct (neg_upap ao || neg_chap ao); [|done].
    by destruct (neg_upap ao).
Qed.

(** C11: The negotiation comes to an end: whatever options one end asks for and
    the other allows, and whether or not the peer loses its patience, each Nak
    and each Reject it sends is taken as good, and at most the fourth request
    is acknowledged.  What is agreed on is no more than was asked for, each
    option that is only a flag survives just if the peer allows it, the values
    are ones it allows, and the magic numbers differ.  The numbers that
    [magic()] returns must not be the one of the peer. *)
Theorem negotiation_ends ao gop wo go room rs :
  options_ok ao -> chap_mdtype ao = CHAP_DIGEST_MD5 -> options_ok go -> 0 <= numloops go <= 6 ->
  1 <= zlen room -> Forall is_byte room -> Forall (round_ok gop) rs -> (4 <= length rs)%nat ->
  exists go', negotiate ao gop wo room rs go = Some go' /\ agreed ao gop go go'.
Proof.
  intros Hao Hmd Hgo Hn Hroom Hrb Hrs Hlen.
  assert (Hm : measure ao gop go <= 3).
  { unfold measure. destruct (unsupported ao gop go), (wrong ao go), (same_magic ao gop go || pending ao go); cbn; lia. }
  destruct (negotiate_ends ao gop wo room Hao Hmd Hroom Hrb rs go) as (go' & E & Hnar & Hs);
    [done|lia|unfold lcp_loopbackfail; lia|done|lia|].
  exists go'. split; [done|]. by apply settled_agreed.
Qed.

(** The callbacks of the automaton do just this while LCP is not open. *)
Lemma nakci_callback_good others ta fa magic p len (w : world lcp) t b :
  nak_check (gotoptions (own w)) (wantoptions (own w)) magic p len = Good (t, b) -> state (f w) <> LS_OPENED ->
  b = false \/ numloops t + 1 < lcp_loopbackfail ->
  exists w', nakci_callback others ta fa magic p len w = Some (1, w') /\
    gotoptions (own w') = try_numloops (if b then numloops t + 1 else 0) t.
Proof.
  intros Hc Hs Hb. unfold nakci_callback, mbind, M_bind, get_lcp. rewrite Hc. unfold gets. rewrite bool_decide_true by done. cbn [when].
  assert (b && (lcp_loopbackfail <=? (if b then numloops t + 1 else 0)) = false) as ->.
  { destruct Hb as [->|Hb]; [done|]. destruct b; [|done]. by apply Z.leb_gt. }
  by eexists.
Qed.

Lemma rejci_callback_good p len (w : world lcp) t :
  rej_check (gotoptions (own w)) p len = Good t -> state (f w) <> LS_OPENED ->
  exists w', rejci_callback p len w = Some (1, w') /\ gotoptions (own w') = t.
Proof.
  intros Hc Hs. unfold rejci_callback, mbind, M_bind, get_lcp. rewrite Hc. unfold gets. rewrite bool_decide_true by done. by eexists.
Qed.

(** The tenth Nak of the magic number in a row closes the link. *)
Lemma loop_closes others ta fa magic p len (w : world lcp) t :
  nak_check (gotoptions (own w)) (wantoptions (own w)) magic p len = Good (t, true) -> state (f w) <> LS_OPENED ->
  numloops t + 1 = lcp_loopbackfail ->
  nakci_callback others ta fa magic p len w =
    (_ ← lcp_close others ta fa loopback_detected; _ ← set_gotoptions (try_numloops lcp_loopbackfail t); mret 1) w.
Proof.
  intros Hc Hs Hn. unfold nakci_callback, mbind, M_bind, get_lcp. rewrite Hc. unfold gets. rewrite bool_decide_true by done.
  rewrite Hn. cbn [when]. change (true && (lcp_loopbackfail <=? lcp_loopbackfail)) with true. cbn [when].
  by destruct (lcp_close others ta fa loopback_detected w) as [[[] w']|].
Qed.

(** A Nak that asks for an option without value, which we have not requested, is
    good in front of another option and bad at the end of the packet. *)
Example void_option_at_the_end :
  nak_check no_options no_options 0 [CI_PCOMPRESSION; CILEN_VOID; 99; 3; 0] 5 = Good (no_options, false) /\
  nak_check no_options no_options 0 [CI_PCOMPRESSION; CILEN_VOID] 2 = BadPacket.
Proof. split; reflexivity. Qed.

(** Everything is asked for, with values that are not allowed; the peer allows
    PAP and little else, and has the same magic number. *)
Definition greedy_options : lcp_options :=
  Options false false false true true true true true true true true true 64 7 0 7 0 100.
Definition shy_options : lcp_options :=
  Options false false false true true true false true false true false false 1500 CHAP_DIGEST_MD5 0xa0000 7 0 0.
Definition example_rounds : list round := [Round false 1 11; Round true 2 8; Round false 3 12; Round false 4 13].

Lemma negotiation_ends_witness :
  exists go', negotiate shy_options (set_magicnumber 7 shy_options) greedy_options [0] example_rounds greedy_options = Some go' /\
    neg_accompression go' = true /\ neg_pcompression go' = false /\ neg_cbcp go' = false /\ magicnumber go' = 12 /\ neg_mru go' = false.
Proof.
  assert (Hs : options_ok shy_options) by (split; by (vm_compute; split)).
  assert (Hg : options_ok greedy_options) by (split; by (vm_compute; split)).
  destruct (negotiation_ends shy_options (set_magicnumber 7 shy_options) greedy_options greedy_options [0] example_rounds) as (go' & E & Ha).
  - exact Hs.
  - reflexivity.
  - exact Hg.
  - vm_compute. split; discriminate.
  - vm_compute. discriminate.
  - by apply Forall_cons; [|apply Forall_nil].
  - repeat (apply Forall_cons; [by repeat split; vm_compute|]). by apply Forall_nil.
  - vm_compute. lia.
  - exists go'. vm_compute in E. injection E as <-. repeat split; reflexivity.
Defined.
